(* ===== verification/_CoqProject ===== *)
-Q . S2P
Prelude.v
Structs.v
Interfaces.v
Wire.v
F64.v
Schema.v
Merkle.v
Transaction.v
Keys.v
Builder.v
Store.v
Observation.v
Contract.v
Contention.v
Mempool.v
Market.v
Party.v
Resolver.v
Ledger.v
Process.v
Download.v
Peers.v
Config.v
Sync.v
Handler.v
Udp.v
Base26.v
RgMerkle.v
Block.v
Genesis.v
Rooms.v
Outgoing.v
Discovery.v
Multiparty.v
Search.v
Explorer.v
Faucet.v
Intake.v
Wallet.v
Watcher.v
RosettaModels.v
Rosetta.v
