(* ===== verification/Prelude.v ===== *)
(** * Redgold: a verification development

    Redgold is a node for a peer-to-peer ledger of unspent transaction outputs
    (UTXOs).  A transaction names the UTXOs it spends and the outputs it creates
    and is signed with the keys that own what it spends.  A node checks a
    submitted transaction by itself, resolves its inputs from its data store or
    from peers, settles conflicts with other transactions that spend the same
    UTXO, observes it (signs a statement about it into its own chain of
    observations) and stores it.  This library translates that path into
    executable definitions and proves what the code guarantees, and where it
    does not.  Paths are relative to src/.

    ** Parts and files

    - Prelude.v (this file): results with errors and panics ([result], the [Err]
      of [RgResult] and a [Panic] for code that unwinds), stateful code ([M]),
      frame reasoning ([preserves] and its hints), machine integers, sums, bytes,
      [slice::sort_by].
    - Structs.v: the protobuf messages of schema/src/proto/structs.proto as prost
      generates them.
    - Interfaces.v: what the code calls and this repository does not contain, as
      classes: SHA3 and hex ([Crypto]), protobuf ([Proto]), secp256k1 ([Secp]),
      JSON, sqlx, the process ([Host]); their laws as separate classes
      ([CryptoLaws], [ProtoLaws], [SecpLaws]) that only the theorems that need
      them assume; and concrete instances that satisfy the laws.  Wire.v is a
      lossless encoding for every message, the concrete protobuf of the
      examples.  F64.v: [f64] as the executable IEEE floats of the standard
      library.
    - Schema.v: schema/src: lib.rs, errors.rs, hash.rs, address.rs, public_key.rs,
      proof.rs, signature.rs, peers.rs and util/xor_distance.rs.
    - Merkle.v: schema/src/util/merkle.rs and merkle_proof.rs.
    - Transaction.v: schema/src: transaction.rs, input.rs, output.rs, utxo_id.rs,
      utxo_entry.rs, observation.rs.
    - Keys.v: keys/src: signing, proofs, prevalidation of transactions,
      authentication of requests and responses; schema/src/response.rs.
    - Builder.v: src/core/transact/tx_builder_supports.rs.
    - Store.v: data/src/transaction_store.rs, utxo_store.rs, observation_store.rs and
      the tables of data/migrations.  A table is a finite map from its primary
      key; [Store] is the record of the tables.
    - Observation.v: src/core/observation.rs, the observation buffer.
    - Contract.v: src/core/contract/contract_state_manager.rs with the table of
      data/src/state_store.rs and the lookup of code in data/src/data_store.rs; the
      executor is a parameter.  Contention.v:
      src/core/transact/contention_conflicts.rs.
    - Mempool.v: src/core/mempool.rs and the loop of stream_handlers.rs that drives
      it; Rust's [BinaryHeap] is a class with its promise.
    - Market.v and Party.v: the pricing curves and orders of
      src/multiparty/watcher.rs, and the replay of a party's events and its round
      of payouts in src/multiparty/party_stream.rs, watcher.rs and
      keys/src/util/btc_wallet.rs.  Wallet.v: the Bitcoin wallet itself,
      keys/src/util/btc_wallet.rs; bdk and bitcoin are classes.  Watcher.v: a
      whole turn of the deposit watcher, from key generation to payout, the
      node's own metadata of relay.rs and [genesis_from] of node.rs.
    - Resolver.v and Ledger.v: src/core/resolver.rs, and [insert_transaction] of
      src/core/process_transaction.rs on top of the store.
    - Process.v: the rest of src/core/process_transaction.rs.  A request is a
      [Task] that runs from one [.await] point to the next ([task_step]); the
      tasks share a [Relay]; [sys_step] is one step of any of them, and
      [reachable] covers every interleaving, clock and answer from outside.
    - Download.v: src/core/recent_download.rs and two helpers of relay.rs.
    - Peers.v: data/src/peer.rs and its two tables.  Config.v: data/src/config.rs
      with its JSON values.
      Sync.v: src/data/download.rs, both sides of the bulk download, on the relay
      of Mempool.v and the store of Config.v.
    - Handler.v: src/core/peer_rx_event_handler.rs, the answers to requests, on top
      of Store, Contract, Mempool, Peers, Config and Sync; its state [NodeState]
      holds theirs and what was sent; src/api/about.rs.
    - Outgoing.v: the other side: the signed client of src/api/mod.rs, the task of
      src/core/peer_event_handler.rs that sends, and the broadcasts of relay.rs.
      Discovery.v: src/core/discovery.rs on top of it.  Udp.v: the datagrams of
      src/api/udp_api.rs, split and put together.
    - Rooms.v: the rooms that carry a threshold computation
      (src/multiparty/gg20_sm_manager.rs, gg20_sm_client.rs) and the authorisations
      of relay.rs.  Rooms live in a heap, as they are shared; a handler is a
      [RoomTask] that runs between the points where others can run ([room_step]).
      Multiparty.v: initiators and followers of src/multiparty/initiate_mp.rs,
      gg20_keygen.rs and gg20_signing.rs and the shares of data/src/mp_store.rs.
    - RgMerkle.v: src/util/rg_merkle.rs.  Block.v: src/core/block_formation.rs,
      schema/src/block.rs and data/src/address_block.rs.  Base26.v:
      src/util/base26.rs.  Genesis.v: src/genesis.rs.
    - Search.v: the search and the balances of src/api/hash_query.rs and
      address_support.rs.  Explorer.v: the pages of src/api/explorer.  Faucet.v:
      src/api/faucet.rs and the rate limit of relay.rs.  Intake.v: received
      observations, src/core/process_observation.rs, and data_discovery.rs.
    - RosettaModels.v and Rosetta.v: src/api/rosetta, the records of models.rs and
      the operations of spec.rs, handlers.rs and server.rs on them.

    A fallible function answers a [result]; a panic is an answer of its own, so
    that a theorem about [Ok] excludes panics.  A field of a message keeps its
    name behind a short prefix.  Integers are [Z] with wrap-around written out
    where the release build wraps.

    ** What the theorems show

    - Ledger: an input that is resolved is owned by the keys on its proofs and is
      unspent or backed by peers, and an output that a commit deletes is one of
      these or is named by an input that is not resolved because it also carries a
      floating one ([resolve_transaction_authorised]); committing a balanced
      transaction conserves the UTXO table ([commit_conserves]) under
      conditions that the checks do not establish, as three accepted
      transactions show ([alias_inputs_mint], [floating_input_burns],
      [negative_output_mints]).
    - Concurrency: two requests for one UTXO both win only if a notice was still
      unread ([winners_exclusive]), which can happen ([late_claim_double_spend]);
      claims are never released ([stale_claim_blocks], [dead_claim_wins]); a
      duplicate unregisters the original ([duplicate_unregisters]).
    - Keys: what is signed verifies ([sign_then_verify]); exactly what passes
      prevalidation ([prevalidate_iff]); authentication round trips
      ([request_auth], [response_auth]); observations are counted per key
      ([check_by_state_counts_keys]).
    - Merkle trees: building succeeds, proofs are complete
      ([merkle_proof_complete]), and sound when every node has 32 bytes
      ([merkle_verify_sound]), which the code does not check ([resplit_accepted]).
    - Transactions: what the hashes bind, amounts and UTXOs of outputs, proofs of
      observations.
    - Builder: inputs equal outputs ([build_balanced]), and without inputs
      added by hand building succeeds exactly when funds suffice
      ([build_succeeds_iff]).
    - Store: what is inserted is found, balances are sums, insertion is not atomic.
    - Observation: the node's observations are a chain, with accepted proofs.
    - Download: a double insertion makes it fail.
    - Contract state: with one request per interval the manager refines an abstract
      contract ([manager_refines_contract]), its table stays well formed
      ([reachable_table_wf]); with more it panics ([contended_key_panics]).  Of
      several claims on a key every one but the first is told that it won
      ([every_later_claim_wins]).
    - Mempool: a turn takes in exactly the new transactions that the transaction
      table does not have, answers the others with an error, and loses and
      duplicates nothing ([interval_fold_spec]); a resubmitted rejected transaction
      ends it ([rejected_resubmission_stops]).
    - Market and party: what an order takes from a curve
      ([fulfill_taker_order_spec]), the curve made from a balance
      ([generate_spec]), orders and balances of a replay ([orders_conserved],
      [replay_balance], [deposit_settled]), and where payouts go wrong
      ([batch_payout_left_open], [unobserved_transaction_panics],
      [party_overcommits]).
    - Peers: the tables stay consistent ([reachable_queries_answer]), an added
      peer is found ([add_peer_roundtrip]), a peer is never removed
      ([remove_node_keeps_peer]).
    - Message handler: multiparty requests act only for the key that signed them
      ([followers_authenticated]), what every message is answered, and that the
      answers are signed and accepted ([answers_authenticated]), one malformed key
      ends the handler
      ([malformed_key_stops_handler]).
    - Bulk download: what an honest peer's window adds ([download_all_copies]), that
      the loop ends ([download_days_terminates]), and that it revives spent outputs,
      accepts rejected transactions, does not count votes and stops at a quiet
      period ([download_revives_spent], [download_accepts_rejected],
      [genesis_vote_ignored], [quiet_days_end_download]).
    - Outgoing messages: an answer that a broadcast yields is signed by the node it
      was asked of ([broadcast_authentic]), and a node that answers is heard
      ([peer_query_answered]); one malformed key ends the sending
      ([malformed_recipient_stops_sending]).
    - Discovery: the tables stay well formed ([discovery_table_wf]); nodes that do
      not answer stay ([unreachable_nodes_kept]), and a peer can end discovery
      and replace other nodes ([self_named_stops_discovery],
      [self_info_replaces_any_node]).
    - Rooms: a broadcast reaches whoever is subscribed
      ([broadcast_reaches_subscriber]), in order and without gaps
      ([subscription_in_order]); only parties write ([room_members_only]); two
      first visitors can be separated ([racing_subscriber_deaf]).
    - Multiparty: a follower signs only what a party of the stored key asks for,
      with the share it stored for it, and the proof verifies
      ([signing_follower_spec]); a key needs a quorum
      ([keygen_quorum]); authorisations end with their computation
      ([authorisations_released]); a share can be overwritten
      ([keygen_follower_replaces_share]).
    - Datagrams: a request arrives exactly when it fits into one datagram
      ([request_arrives_iff]): parts that share an identifier are put together in any
      order ([parts_reassembled]), but the sender gives each its own
      ([split_request_lost]).
    - Base26: decoding inverts encoding exactly for data with fewer than 2^31
      leading zeros ([base26_roundtrip]), and decoding is total on text
      ([from_total]).  Genesis: the distributions sum to the supply
      ([genesis_main_supply], [lower_distribution_supply]).
    - Blocks: they are chained ([turns_chain]), overlap ([blocks_overlap]), and the
      second Merkle tree ignores trailing leaves ([trailing_leaves_ignored],
      [block_hash_ignores_transactions]).
    - Schema: distances are a metric, addresses carry a checksum and round-trip.
    - Wallet and watcher: a payment that is reported as sent is the one asked for,
      with signatures that verify ([send_local_signed]); one prepared for signing
      elsewhere pays nothing ([prepare_single_pays_nothing]).  A round of the watcher pays
      what is due ([round_pays]); a new deposit key is stored only after a test
      signature ([deposit_key_tested]) and is never replaced, even when the floats of
      the configuration are read back as others ([deposit_key_kept]).
    - Search, explorer, faucet: what is stored is found ([search_finds_stored]), the
      balance shown is that of the store ([search_balance]), the signers shown have
      signed ([explorer_signers]); one origin gets a bounded number of payments a
      day ([rate_limited]), each of a fixed amount ([faucet_pays]).
    - Intake: a received observation is indexed under what it observes and put into
      the channels that wait for it ([observation_indexed]), but its proof is not checked
      ([forged_observation_stored]) and a malformed one ends the task
      ([malformed_observation_stops]).
    - Rosetta: the transaction built is the one asked for ([built_as_asked]),
      signatures go to the inputs they are for ([combined_where_signed]) but do not
      cover the recipients ([recipients_not_signed]); another network is refused
      ([foreign_network_refused]).

    ** Fuel

    The Merkle walk of [MerkleTree::proof] has no bound in the source: a
    [None] answer is divergence, the fuel is one more step than the tree has
    entries, and [merkle_proof_complete] shows that it suffices.  [build_root]
    gets one round per leaf, and [build_root_total] shows that the answer is
    never [None].  The loop that empties the mempool gets one turn more than the
    heap has entries ([drain_total]), the download one turn per day and two
    ([download_days_fuel]).  The rounds of the second Merkle tree are bounded by the
    number of leaves ([rg_root_total]), the carry of a Base26 digit by its
    value ([push_carry_iter]).  Every other definition is structurally recursive.

    ** What is not modelled

    The graphical interface, the command line, deployment, hardware wallets,
    metrics and logs (a log line that can panic is kept): effects on devices,
    files and screens with little logic between them.  HTTP routing, the control
    API and the unused libp2p transport: calls of warp, reqwest and libp2p around
    handlers that are modelled.  The threshold-signature protocol, the
    WebAssembly and EVM runtimes, the libraries bdk and bitcoin, Ethereum wallets
    and mnemonics: third-party code, a parameter where a modelled function calls
    it.  Trust scores (src/trust/eigentrust.rs) are called only by their own tests.
    Connection failures of the database and the order of rows that SQL leaves
    open are left out.

    ** Left to do

    The argument parsing of src/util/cli and the start-up order of src/node.rs, once
    the file system and the process environment have a class of their own; the
    routes of src/api/public_api.rs that only forward to a modelled handler. *)

From stdpp Require Import base tactics list list_numbers gmap strings pretty sorting.
From Stdlib Require Import ZArith Lia Bool.
From Stdlib Require Init.Byte Strings.Byte.

#[global] Open Scope Z_scope.

(** * Notations *)

Declare Scope redgold_scope.
Delimit Scope redgold_scope with rg.

(** A method chain: [v.iter().filter(p).map(f)] reads [v |> filter p |> map f]. *)
Notation "x |> f" := (f x) (at level 50, left associativity, only parsing) : redgold_scope.

(** * Outcomes of Rust code

  A Rust function of type [Result<T, E>] either returns [Ok], returns [Err],
  or does not return because it panics ([expect], [unwrap], an index or slice
  out of range, a division by zero).  A function of plain type [T] that can
  panic is given the same type and never answers [Err]. *)

Inductive result (E A : Type) : Type :=
| Ok (a : A)
| Err (e : E)
| Panic.
Arguments Ok {E A} a.
Arguments Err {E A} e.
Arguments Panic {E A}.

Section result_monad.
Context {E : Type}.

#[global] Instance result_ret : MRet (result E) := λ A a, Ok a.

#[global] Instance result_bind : MBind (result E) := λ A B f r,
  match r with Ok a => f a | Err e => Err e | Panic => Panic end.

#[global] Instance result_fmap : FMap (result E) := λ A B f r,
  match r with Ok a => Ok (f a) | Err e => Err e | Panic => Panic end.

Definition map_err {A E'} (f : E → E') (r : result E A) : result E' A :=
  match r with Ok a => Ok a | Err e => Err (f e) | Panic => Panic end.

(** [Result::ok]. *)
Definition ok_opt {A} (r : result E A) : option A :=
  match r with Ok a => Some a | _ => None end.

Definition is_ok {A} (r : result E A) : bool :=
  match r with Ok _ => true | _ => false end.

(** [Result::expect] and [Result::unwrap]. *)
Definition expect {A} (r : result E A) : result E A :=
  match r with Ok a => Ok a | _ => Panic end.

(** [Option::expect] and [Option::unwrap]. *)
Definition expect_opt {A} (o : option A) : result E A :=
  match o with Some a => Ok a | None => Panic end.

(** [Option::ok_or]. *)
Definition ok_or {A} (o : option A) (e : E) : result E A :=
  match o with Some a => Ok a | None => Err e end.

(** [for x in l { f(x)? }] and [iter().map(f).collect::<Result<_, _>>()]. *)
Fixpoint mapR {A B} (f : A → result E B) (l : list A) : result E (list B) :=
  match l with
  | [] => Ok []
  | x :: l => y ← f x; ys ← mapR f l; Ok (y :: ys)
  end.

Fixpoint foldR {A S} (f : S → A → result E S) (s : S) (l : list A) : result E S :=
  match l with
  | [] => Ok s
  | x :: l => s' ← f s x; foldR f s' l
  end.

Fixpoint iterR {A} (f : A → result E unit) (l : list A) : result E unit :=
  match l with
  | [] => Ok tt
  | x :: l => _ ← f x; iterR f l
  end.
End result_monad.

#[global] Instance result_eq_dec {E A} `{EqDecision E, EqDecision A} : EqDecision (result E A).
Proof. solve_decision. Defined.

(** The bind and the loops, inverted: what an [Ok] answer says of its parts. *)
Section result_lemmas.
Context {E : Type}.
Implicit Types A B S : Type.

Lemma bind_Ok A B (f : A → result E B) r b :
  r ≫= f = Ok b ↔ ∃ a, r = Ok a ∧ f a = Ok b.
Proof. destruct r; simpl; naive_solver. Qed.

Lemma fmap_Ok A B (f : A → B) (r : result E A) b :
  f <$> r = Ok b ↔ ∃ a, r = Ok a ∧ b = f a.
Proof. destruct r; simpl; naive_solver. Qed.

Lemma ok_or_Ok A (o : option A) (e : E) a : ok_or o e = Ok a ↔ o = Some a.
Proof. destruct o; simpl; naive_solver. Qed.

Lemma expect_opt_Ok A (o : option A) a : expect_opt (E:=E) o = Ok a ↔ o = Some a.
Proof. destruct o; simpl; naive_solver. Qed.

Lemma map_err_Ok A (f : E → E) (r : result E A) a : map_err f r = Ok a ↔ r = Ok a.
Proof. destruct r; simpl; naive_solver. Qed.

Lemma mapR_Ok A B (f : A → result E B) l ys :
  mapR f l = Ok ys ↔ Forall2 (λ x y, f x = Ok y) l ys.
Proof.
  revert ys. induction l as [|x l IH]; intros ys; simpl.
  - split; [intros [= <-]; constructor|]. by intros ->%Forall2_nil_inv_l.
  - rewrite bind_Ok. setoid_rewrite bind_Ok. setoid_rewrite IH.
    split; [intros (y & ? & ys' & ? & [= <-]); by constructor|].
  intros (y & ys' & ? & ? & ->)%Forall2_cons_inv_l. eauto.
Qed.

Lemma mapR_length A B (f : A → result E B) l ys :
  mapR f l = Ok ys → length ys = length l.
Proof. rewrite mapR_Ok. intros H. by apply Forall2_length in H. Qed.

Lemma iterR_Ok A (f : A → result E unit) l :
  iterR f l = Ok tt ↔ Forall (λ x, f x = Ok tt) l.
Proof.
  induction l as [|x l IH]; simpl; [split; auto|].
  rewrite bind_Ok, Forall_cons, <-IH. split; [intros ([] & ? & ?)|intros []]; eauto.
Qed.

Lemma foldR_app A S (f : S → A → result E S) s l1 l2 :
  foldR f s (l1 ++ l2) = foldR f s l1 ≫= λ s', foldR f s' l2.
Proof.
  revert s. induction l1 as [|x l1 IH]; intros s; simpl; [done|].
  destruct (f s x); simpl; auto.
Qed.

(** A loop invariant carried through [foldR]. *)
Lemma foldR_inv A S (P : S → Prop) (f : S → A → result E S) s l s' :
  (∀ s x s', x ∈ l → P s → f s x = Ok s' → P s') →
  P s → foldR f s l = Ok s' → P s'.
Proof.
  revert s. induction l as [|x l IH]; intros s Hf Hs; simpl; [naive_solver|].
  rewrite bind_Ok. intros (s1 & H1 & H2). eapply IH; [|by eapply Hf; [left|..]|done].
  intros ??? Hin. apply Hf. by right.
Qed.
End result_lemmas.

(** Lists are taken apart two elements at a time. *)
Lemma pair_ind {A} (P : list A → Prop) :
  P [] → (∀ x, P [x]) → (∀ x y l, P l → P (x :: y :: l)) → ∀ l, P l.
Proof.
intros H0 H1 H2. fix go 1. intros [|x [|y l]]; [exact H0|exact (H1 x)|exact (H2 x y l (go l))].
Qed.

Ltac inv_Ok :=
repeat match goal with
| H : _ ≫= _ = Ok _ |- _ => apply bind_Ok in H as (? & ? & ?)
| H : _ <$> _ = Ok _ |- _ => apply fmap_Ok in H as (? & ? & ?)
| H : ok_or _ _ = Ok _ |- _ => apply ok_or_Ok in H
| H : expect_opt _ = Ok _ |- _ => apply expect_opt_Ok in H
| H : map_err _ _ = Ok _ |- _ => apply map_err_Ok in H
| H : Ok _ = Ok _ |- _ => injection H as H
| H : Err _ = Ok _ |- _ => discriminate H
| H : Panic = Ok _ |- _ => discriminate H
end.

(** One step of the [?] operator: reduce binds and option tests, nothing else. *)
Ltac rg_step :=
  cbn [mbind result_bind result_fmap fmap mret result_ret ok_or expect expect_opt map_err ok_opt
       option_bind option_fmap option_ret].

(** * Stateful code

    An operation on a store answers a [result] and the new state; an [Err] or a
    panic keeps what was written before it. *)

Definition M (S E A : Type) : Type := S → result E A * S.

Section state_monad.
Context {S E : Type}.

#[global] Instance M_ret : MRet (M S E) := λ A a s, (Ok a, s).
#[global] Instance M_bind : MBind (M S E) := λ A B f m s,
  match m s with
  | (Ok a, s') => f a s'
  | (Err e, s') => (Err e, s')
  | (Panic, s') => (Panic, s')
  end.
Definition lift {A} (r : result E A) : M S E A := λ s, (r, s).
Definition gets {A} (f : S → A) : M S E A := λ s, (Ok (f s), s).
Definition modify (f : S → S) : M S E unit := λ s, (Ok tt, f s).
Fixpoint iterM {A} (f : A → M S E unit) (l : list A) : M S E unit :=
  match l with [] => mret tt | x :: l => _ ← f x; iterM f l end.

(** [.ok()] on an outcome that is thrown away: an error is dropped, a panic is not. *)
Definition ok_unit (m : M S E unit) : M S E unit := λ s,
  match m s with (Err _, s') => (Ok tt, s') | r => r end.

Lemma M_bind_Ok {A B} (m : M S E A) (f : A → M S E B) s b s' :
  (m ≫= f) s = (Ok b, s') ↔ ∃ a s1, m s = (Ok a, s1) ∧ f a s1 = (Ok b, s').
Proof. unfold mbind, M_bind. destruct (m s) as [[] ?]; naive_solver. Qed.

(** One step of an evaluation. *)
Lemma M_bind_step {A B} (m : M S E A) (f : A → M S E B) s a s1 :
  m s = (Ok a, s1) → (m ≫= f) s = f a s1.
Proof. unfold mbind, M_bind. by intros ->. Qed.

Lemma M_bind_fail {A B} (m : M S E A) (f : A → M S E B) s e s1 :
  m s = (Err e, s1) → (m ≫= f) s = (Err e, s1).
Proof. unfold mbind, M_bind. by intros ->. Qed.
Lemma M_bind_panic {A B} (m : M S E A) (f : A → M S E B) s s1 :
  m s = (Panic, s1) → (m ≫= f) s = (Panic, s1).
Proof. unfold mbind, M_bind. by intros ->. Qed.

Lemma lift_Ok {A} (r : result E A) s a s' : lift r s = (Ok a, s') ↔ r = Ok a ∧ s' = s.
Proof. unfold lift. naive_solver. Qed.

Lemma modify_Ok (f : S → S) s u s' : modify f s = (Ok u, s') ↔ s' = f s.
Proof. unfold modify. destruct u. naive_solver. Qed.

Lemma gets_Ok {A} (f : S → A) s a s' : gets f s = (Ok a, s') ↔ a = f s ∧ s' = s.
Proof. unfold gets. naive_solver. Qed.

Lemma mret_Ok {A} (x : A) s a s' : (mret x : M S E A) s = (Ok a, s') ↔ a = x ∧ s' = s.
Proof. unfold mret, M_ret. naive_solver. Qed.

Lemma iterM_cons_Ok {A} (f : A → M S E unit) x l s s' :
  iterM f (x :: l) s = (Ok tt, s') ↔ ∃ s1, f x s = (Ok tt, s1) ∧ iterM f l s1 = (Ok tt, s').
Proof.
cbn [iterM]. rewrite M_bind_Ok. split; [intros ([] & ? & ? & ?)|intros (? & ? & ?)]; eauto.
Qed.

(** A relation every step establishes, closed under composition, holds of the
    whole loop. *)
Lemma iterM_rel {A} (R : S → S → Prop) (f : A → M S E unit) l s s' :
  (∀ s, R s s) → (∀ s1 s2 s3, R s1 s2 → R s2 s3 → R s1 s3) →
  (∀ x s s', x ∈ l → f x s = (Ok tt, s') → R s s') →
  iterM f l s = (Ok tt, s') → R s s'.
Proof.
intros Hr Ht. revert s. induction l as [|x l IH]; intros s Hf; [intros [= <-]; apply Hr|].
rewrite iterM_cons_Ok. intros (s1 & H1 & H2). eapply Ht; [eapply Hf; [left|exact H1]|].
apply IH; [|done]. intros. eapply Hf; [by right|done].
Qed.

(** A preorder on states that a computation respects whatever it answers. *)
Definition preserves {A} (R : S → S → Prop) (m : M S E A) : Prop := ∀ s, R s (m s).2.

Section preserves.
Context (R : S → S → Prop) `{!PreOrder R}.

Lemma preserves_lift {A} (r : result E A) : preserves R (lift r).
Proof. intros s. simpl. reflexivity. Qed.
Lemma preserves_gets {A} (f : S → A) : preserves R (gets f).
Proof. intros s. simpl. reflexivity. Qed.
Lemma preserves_mret {A} (a : A) : preserves R (mret a : M S E A).
Proof. intros s. simpl. reflexivity. Qed.
Lemma preserves_modify (f : S → S) : (∀ s, R s (f s)) → preserves R (modify f).
Proof. intros H s. apply H. Qed.
Lemma preserves_bind {A B} (m : M S E A) (f : A → M S E B) :
  preserves R m → (∀ a, preserves R (f a)) → preserves R (m ≫= f).
Proof.
intros Hm Hf s. specialize (Hm s). unfold mbind, M_bind. destruct (m s) as [[a|e|] s1]; simpl in *; [|done..].
transitivity s1; [done|apply Hf].
Qed.
Lemma preserves_iterM {A} (f : A → M S E unit) l : (∀ x, x ∈ l → preserves R (f x)) → preserves R (iterM f l).
Proof.
induction l as [|x l IH]; intros H; [apply preserves_mret|]. cbn [iterM]. apply preserves_bind.
- apply H. by left.
- intros _. apply IH. intros y Hy. apply H. by right.
Qed.
End preserves.
End state_monad.

Create HintDb preserves.
#[export] Hint Extern 0 (preserves _ (lift _)) => (apply preserves_lift; typeclasses eauto) : preserves.
#[export] Hint Extern 0 (preserves _ (gets _)) => (apply preserves_gets; typeclasses eauto) : preserves.
#[export] Hint Extern 0 (preserves _ (mret _)) => (apply preserves_mret; typeclasses eauto) : preserves.
#[export] Hint Extern 1 (preserves _ (_ ≫= _)) => (apply preserves_bind; [typeclasses eauto| |intros ?]) : preserves.
#[export] Hint Extern 1 (preserves _ (iterM _ _)) => (apply preserves_iterM; [typeclasses eauto|intros ? ?]) : preserves.
#[export] Hint Extern 2 (preserves _ (if ?b then _ else _)) => (destruct b) : preserves.
#[export] Hint Extern 2 (preserves _ (match ?x with _ => _ end)) => (destruct x) : preserves.

(** What an [Ok] answer of a stateful operation says of its parts. *)
Ltac inv_M :=
repeat match goal with
| H : (_ ≫= _) _ = (Ok _, _) |- _ => apply M_bind_Ok in H as (? & ? & ? & ?)
| H : lift _ _ = (Ok _, _) |- _ => apply lift_Ok in H as [? ?]; subst
| H : modify _ _ = (Ok _, _) |- _ => apply modify_Ok in H; subst
| H : gets _ _ = (Ok _, _) |- _ => apply gets_Ok in H as [? ?]; subst
| H : mret _ _ = (Ok _, _) |- _ => apply mret_Ok in H as [? ?]; subst
| u : unit |- _ => destruct u
end.

(** * Machine integers

    Integers are kept as [Z] with the wrap-around written out.  The release
    profile of Cargo.toml leaves [overflow-checks] off, so [+], [-], [*] and
    [Iterator::sum] wrap. *)

Definition wrap_u (w z : Z) : Z := z mod 2 ^ w.
Definition wrap_s (w z : Z) : Z := (z + 2 ^ (w - 1)) mod 2 ^ w - 2 ^ (w - 1).

Definition in_u (w z : Z) : Prop := 0 ≤ z < 2 ^ w.
Definition in_s (w z : Z) : Prop := - 2 ^ (w - 1) ≤ z < 2 ^ (w - 1).

#[global] Instance in_u_dec w z : Decision (in_u w z).
Proof. unfold in_u. apply _. Defined.
#[global] Instance in_s_dec w z : Decision (in_s w z).
Proof. unfold in_s. apply _. Defined.

(** The casts [as i64], [as u64], [as u16], and the wrapping operations. *)
Notation as_i64 := (wrap_s 64).
Notation as_i32 := (wrap_s 32).
Notation as_u64 := (wrap_u 64).
Notation as_u16 := (wrap_u 16).
Notation in_i64 := (in_s 64).
Notation in_u64 := (in_u 64).

Definition i64_add (a b : Z) : Z := as_i64 (a + b).
Definition i64_sub (a b : Z) : Z := as_i64 (a - b).

Definition sum_Z (l : list Z) : Z := foldr Z.add 0 l.
Definition i64_sum (l : list Z) : Z := foldl i64_add 0 l.
Definition u64_sum (l : list Z) : Z := foldl (λ a b, as_u64 (a + b)) 0 l.

Lemma wrap_u_id w z : in_u w z → wrap_u w z = z.
Proof. unfold wrap_u, in_u. intros. by apply Z.mod_small. Qed.

Lemma wrap_s_id w z : 0 < w → in_s w z → wrap_s w z = z.
Proof.
unfold wrap_s, in_s. intros Hw Hz.
assert (2 ^ w = 2 * 2 ^ (w - 1)) as E
  by (rewrite <-Z.pow_succ_r by lia; f_equal; lia).
rewrite Z.mod_small; lia.
Qed.

Lemma wrap_s_in w z : 0 < w → in_s w (wrap_s w z).
Proof.
unfold wrap_s, in_s. intros Hw.
assert (2 ^ w = 2 * 2 ^ (w - 1)) as E
  by (rewrite <-Z.pow_succ_r by lia; f_equal; lia).
pose proof (Z.mod_pos_bound (z + 2 ^ (w - 1)) (2 ^ w)). lia.
Qed.

Lemma wrap_u_in w z : 0 ≤ w → in_u w (wrap_u w z).
Proof. unfold wrap_u, in_u. intros. apply Z.mod_pos_bound. lia. Qed.

Lemma wrap_s_add_l w a b : wrap_s w (wrap_s w a + b) = wrap_s w (a + b).
Proof.
unfold wrap_s. f_equal.
replace (((a + 2 ^ (w - 1)) mod 2 ^ w - 2 ^ (w - 1) + b + 2 ^ (w - 1)))
  with ((a + 2 ^ (w - 1)) mod 2 ^ w + b) by lia.
rewrite Zplus_mod_idemp_l. f_equal. lia.
Qed.

Lemma wrap_s_sub w a b : wrap_s w (wrap_s w a - wrap_s w b) = wrap_s w (a - b).
Proof.
rewrite <-Z.add_opp_r, wrap_s_add_l. unfold wrap_s. f_equal.
replace (a + - ((b + 2 ^ (w - 1)) mod 2 ^ w - 2 ^ (w - 1)) + 2 ^ (w - 1))
  with (a + 2 ^ (w - 1) + 2 ^ (w - 1) - (b + 2 ^ (w - 1)) mod 2 ^ w) by lia.
rewrite Zminus_mod_idemp_r. f_equal. lia.
Qed.

Lemma wrap_s_diff_0 a b : in_s 64 a → in_s 64 b → wrap_s 64 (a - b) = 0 → a = b.
Proof.
unfold wrap_s, in_s. change (2 ^ (64 - 1)) with 9223372036854775808. change (2 ^ 64) with 18446744073709551616.
intros Ha Hb H. pose proof (Z.div_mod (a - b + 9223372036854775808) 18446744073709551616). lia.
Qed.

(** Adding and taking away amounts with one wrapped value changes nothing. *)
Lemma wrap_s_cancel a b c : wrap_s 64 a = wrap_s 64 b → wrap_s 64 (c + a - b) = wrap_s 64 c.
Proof.
intros E. replace (c + a - b) with ((a - b) + c) by lia.
rewrite <-wrap_s_add_l, <-wrap_s_sub, E, Z.sub_diag. done.
Qed.

Lemma foldl_i64_add s l : foldl i64_add s l = match l with [] => s | _ => as_i64 (s + sum_Z l) end.
Proof.
revert s. induction l as [|a l IH]; intros s; [done|]. simpl foldl. rewrite IH.
unfold i64_add. destruct l as [|b l]; simpl sum_Z; [f_equal; lia|].
rewrite wrap_s_add_l. f_equal. lia.
Qed.

(** A wrapped sum is the wrapped mathematical sum; no overflow in the running
    total of a list whose full sum is in range matters, because wrapping is a
    ring homomorphism. *)
Lemma i64_sum_wrap l : i64_sum l = as_i64 (sum_Z l).
Proof. unfold i64_sum. rewrite foldl_i64_add. by destruct l. Qed.

Lemma i64_sum_exact l : in_i64 (sum_Z l) → i64_sum l = sum_Z l.
Proof. intros. rewrite i64_sum_wrap. by apply wrap_s_id. Qed.

Lemma sum_Z_cons a l : sum_Z (a :: l) = a + sum_Z l.
Proof. done. Qed.

Lemma sum_Z_app l1 l2 : sum_Z (l1 ++ l2) = sum_Z l1 + sum_Z l2.
Proof. induction l1; simpl; lia. Qed.

Lemma sum_Z_nonneg l : Forall (λ a, 0 ≤ a) l → 0 ≤ sum_Z l.
Proof. induction 1; simpl; lia. Qed.

Lemma sum_Z_elem l a : Forall (λ a, 0 ≤ a) l → a ∈ l → a ≤ sum_Z l.
Proof.
induction 1 as [|b l Hb Hl IH]; simpl; intros Ha; [by apply elem_of_nil in Ha|].
apply elem_of_cons in Ha as [->|Ha]; [|specialize (IH Ha)]; pose proof (sum_Z_nonneg _ Hl); lia.
Qed.

#[global] Instance sum_Z_perm : Proper (Permutation ==> eq) sum_Z.
Proof. induction 1; simpl; lia. Qed.

#[global] Instance i64_sum_perm : Proper (Permutation ==> eq) i64_sum.
Proof. intros l1 l2 H. by rewrite !i64_sum_wrap, H. Qed.

(** * Bytes *)

Notation u8 := Init.Byte.byte.
Notation bytes := (list Init.Byte.byte).

Definition u8_to_Z (b : u8) : Z := Z.of_N (Strings.Byte.to_N b).
Definition u8_of_Z (z : Z) : u8 :=
  match Strings.Byte.of_N (Z.to_N (z mod 256)) with Some b => b | None => Init.Byte.x00 end.
Definition u8_xor (a b : u8) : u8 := u8_of_Z (Z.lxor (u8_to_Z a) (u8_to_Z b)).

#[global] Instance u8_eq_dec : EqDecision u8 := Strings.Byte.byte_eq_dec.

Lemma u8_to_Z_range b : 0 ≤ u8_to_Z b < 256.
Proof. unfold u8_to_Z. pose proof (Strings.Byte.to_N_bounded b). lia. Qed.

Lemma u8_of_to b : u8_of_Z (u8_to_Z b) = b.
Proof.
unfold u8_of_Z. rewrite Z.mod_small by apply u8_to_Z_range.
unfold u8_to_Z. by rewrite N2Z.id, Strings.Byte.of_to_N.
Qed.

Lemma u8_to_of z : u8_to_Z (u8_of_Z z) = z mod 256.
Proof.
unfold u8_of_Z, u8_to_Z.
pose proof (Z.mod_pos_bound z 256 ltac:(lia)).
destruct (Strings.Byte.of_N _) as [b|] eqn:E.
- apply Strings.Byte.to_of_N in E. rewrite E. lia.
- apply Strings.Byte.of_N_None_iff in E. lia.
Qed.

Lemma u8_to_Z_inj a b : u8_to_Z a = u8_to_Z b → a = b.
Proof. intros H. by rewrite <-(u8_of_to a), H, u8_of_to. Qed.

Lemma u8_xor_spec a b : u8_to_Z (u8_xor a b) = Z.lxor (u8_to_Z a) (u8_to_Z b).
Proof.
unfold u8_xor. rewrite u8_to_of. apply Z.mod_small.
assert (∀ c, 0 ≤ u8_to_Z c < 2 ^ 8) as Hr by apply u8_to_Z_range.
split; [apply Z.lxor_nonneg; split; intros; apply Hr|].
change 256 with (2 ^ 8).
destruct (decide (Z.lxor (u8_to_Z a) (u8_to_Z b) = 0)) as [->|Hn]; [lia|].
assert (0 < Z.lxor (u8_to_Z a) (u8_to_Z b)) as Hpos.
{ pose proof (proj2 (Z.lxor_nonneg (u8_to_Z a) (u8_to_Z b))). pose proof (Hr a). pose proof (Hr b). lia. }
apply Z.log2_lt_pow2; [done|].
eapply Z.le_lt_trans; [apply Z.log2_lxor; apply Hr|].
apply Z.max_lub_lt.
- destruct (decide (u8_to_Z a = 0)) as [->|]; [done|]. apply Z.log2_lt_pow2; pose proof (Hr a); lia.
- destruct (decide (u8_to_Z b = 0)) as [->|]; [done|]. apply Z.log2_lt_pow2; pose proof (Hr b); lia.
Qed.

#[global] Instance u8_countable : Countable u8.
Proof. apply (inj_countable' u8_to_Z u8_of_Z). apply u8_of_to. Defined.

(** [i64::to_le_bytes] and [i64::from_le_bytes]. *)
Fixpoint le_bytes (n : nat) (z : Z) : bytes :=
  match n with O => [] | S n => u8_of_Z z :: le_bytes n (z / 256) end.
Fixpoint le_value (l : bytes) : Z :=
  match l with [] => 0 | b :: l => u8_to_Z b + 256 * le_value l end.
Definition i64_to_le_bytes (z : Z) : bytes := le_bytes 8 z.
Definition i64_from_le_bytes (l : bytes) : Z := as_i64 (le_value l).

Lemma le_bytes_length n z : length (le_bytes n z) = n.
Proof. revert z. induction n; intros; simpl; auto. Qed.

Lemma le_value_bytes n z : le_value (le_bytes n z) = z mod 256 ^ Z.of_nat n.
Proof.
revert z. induction n as [|n IH]; intros z; [by rewrite Z.mod_1_r|].
cbn [le_bytes le_value]. rewrite IH, u8_to_of, Nat2Z.inj_succ, Z.pow_succ_r by lia.
rewrite (Z.rem_mul_r z 256 (256 ^ Z.of_nat n)) by lia. lia.
Qed.

Lemma le_bytes_value l : le_bytes (length l) (le_value l) = l.
Proof.
induction l as [|b l IH]; [done|]. cbn [length le_bytes le_value].
pose proof (u8_to_Z_range b). f_equal.
- apply u8_to_Z_inj. rewrite u8_to_of, Z.mul_comm, Z_mod_plus_full.
  apply Z.mod_small. lia.
- rewrite Z.add_comm, Z.mul_comm, Z.div_add_l by lia.
  rewrite (Z.div_small (u8_to_Z b)) by lia. by rewrite Z.add_0_r.
Qed.

Lemma le_bytes_mod n z : le_bytes n (z mod 256 ^ Z.of_nat n) = le_bytes n z.
Proof.
rewrite <-le_value_bytes. rewrite <-(le_bytes_length n z) at 1. apply le_bytes_value.
Qed.

Lemma i64_le_roundtrip z : in_i64 z → i64_from_le_bytes (i64_to_le_bytes z) = z.
Proof.
intros Hz. unfold i64_from_le_bytes, i64_to_le_bytes. rewrite le_value_bytes.
transitivity (as_i64 z); [|by apply wrap_s_id].
unfold wrap_s. f_equal. change (256 ^ Z.of_nat 8) with (2 ^ 64).
by rewrite Zplus_mod_idemp_l.
Qed.

Lemma i64_le_roundtrip' l : length l = 8%nat → i64_to_le_bytes (i64_from_le_bytes l) = l.
Proof.
intros Hl. unfold i64_to_le_bytes, i64_from_le_bytes.
rewrite <-(le_bytes_value l) at 2. rewrite Hl, <-(le_bytes_mod 8), <-(le_bytes_mod 8 (le_value l)).
f_equal. change (256 ^ Z.of_nat 8) with (2 ^ 64). unfold wrap_s.
rewrite Zminus_mod, Zmod_mod, <-Zminus_mod. f_equal. lia.
Qed.

(** The order [Ord] gives [Vec<u8>]: lexicographic, a prefix first. *)
Fixpoint bytes_leb (a b : bytes) : bool :=
  match a, b with
  | [], _ => true
  | _ :: _, [] => false
  | x :: a, y :: b =>
      if u8_to_Z x <? u8_to_Z y then true
      else if u8_to_Z x =? u8_to_Z y then bytes_leb a b else false
  end.

Lemma bytes_leb_total a b : bytes_leb a b = true ∨ bytes_leb b a = true.
Proof.
revert b. induction a as [|x a IH]; intros [|y b]; simpl; auto.
destruct (Z.ltb_spec (u8_to_Z x) (u8_to_Z y)); auto.
destruct (Z.ltb_spec (u8_to_Z y) (u8_to_Z x)); auto.
destruct (Z.eqb_spec (u8_to_Z x) (u8_to_Z y)); [|lia].
destruct (Z.eqb_spec (u8_to_Z y) (u8_to_Z x)); [auto|lia].
Qed.

Lemma bytes_leb_antisym a b : bytes_leb a b = true → bytes_leb b a = true → a = b.
Proof.
revert b. induction a as [|x a IH]; intros [|y b]; simpl; try done.
destruct (Z.ltb_spec (u8_to_Z x) (u8_to_Z y)), (Z.ltb_spec (u8_to_Z y) (u8_to_Z x));
  destruct (Z.eqb_spec (u8_to_Z x) (u8_to_Z y)), (Z.eqb_spec (u8_to_Z y) (u8_to_Z x));
  try (done || lia).
intros. f_equal; [by apply u8_to_Z_inj|auto].
Qed.

Lemma bytes_leb_trans a b c : bytes_leb a b = true → bytes_leb b c = true → bytes_leb a c = true.
Proof.
revert b c. induction a as [|x a IH]; intros [|y b] [|z c]; simpl; try done.
destruct (Z.ltb_spec (u8_to_Z x) (u8_to_Z y)), (Z.ltb_spec (u8_to_Z y) (u8_to_Z z)),
  (Z.ltb_spec (u8_to_Z x) (u8_to_Z z));
  destruct (Z.eqb_spec (u8_to_Z x) (u8_to_Z y)), (Z.eqb_spec (u8_to_Z y) (u8_to_Z z)),
  (Z.eqb_spec (u8_to_Z x) (u8_to_Z z)); try (done || lia). eauto.
Qed.

(** * [slice::sort_by]: a stable sort *)

Section sort_by.
Context {A : Type} (leb : A → A → bool).

Fixpoint sort_insert (x : A) (l : list A) : list A :=
  match l with
  | [] => [x]
  | y :: l => if leb x y then x :: y :: l else y :: sort_insert x l
  end.
Fixpoint sort_by (l : list A) : list A :=
  match l with [] => [] | x :: l => sort_insert x (sort_by l) end.

Lemma sort_insert_perm x l : sort_insert x l ≡ₚ x :: l.
Proof.
induction l as [|y l IH]; simpl; [done|]. destruct (leb x y); [done|].
rewrite IH. apply Permutation_swap.
Qed.

Lemma sort_by_perm l : sort_by l ≡ₚ l.
Proof. induction l as [|x l IH]; simpl; [done|]. by rewrite sort_insert_perm, IH. Qed.

Context (leb_total : ∀ x y, leb x y = true ∨ leb y x = true).
Context (leb_trans : ∀ x y z, leb x y = true → leb y z = true → leb x z = true).

Lemma sort_insert_sorted x l :
  StronglySorted (λ a b, leb a b = true) l → StronglySorted (λ a b, leb a b = true) (sort_insert x l).
Proof.
induction 1 as [|y l Hl IH Hy]; simpl; [by repeat constructor|].
destruct (leb x y) eqn:E.
- constructor; [by constructor|]. constructor; [done|].
  eapply Forall_impl; [exact Hy|]. intros z Hz. eapply leb_trans; [exact E|exact Hz].
- constructor; [done|]. rewrite sort_insert_perm. constructor; [|done].
  destruct (leb_total x y); congruence.
Qed.

Lemma sort_by_sorted l : StronglySorted (λ a b, leb a b = true) (sort_by l).
Proof. induction l; simpl; [constructor|by apply sort_insert_sorted]. Qed.

(** The head of the sorted list is a least element. *)
Lemma sort_by_head l x l' : sort_by l = x :: l' → x ∈ l ∧ Forall (λ y, leb x y = true) l.
Proof.
intros E. pose proof (sort_by_sorted l) as Hs. rewrite E in Hs.
assert (leb x x = true) as Hr by (destruct (leb_total x x); done).
apply StronglySorted_inv in Hs as [_ Hs]. rewrite <-(sort_by_perm l), E.
split; [by left|by constructor].
Qed.
End sort_by.

(** [filter_map] after [map], and its sums. *)
Lemma omap_fmap_compose {A B C} (f : B → option C) (g : A → B) (l : list A) :
  omap f (g <$> l) = omap (f ∘ g) l.
Proof. induction l as [|x l IH]; [done|]. cbn. rewrite IH. done. Qed.

Lemma sum_Z_omap {A} (f : A → option Z) l : sum_Z (omap f l) = sum_Z ((λ x, default 0 (f x)) <$> l).
Proof.
induction l as [|x l IH]; [done|]. rewrite fmap_cons. cbn [omap list_omap].
destruct (f x); cbn [default sum_Z foldr]; fold (sum_Z (omap f l)); unfold sum_Z in *; rewrite IH; done.
Qed.

Lemma sum_Z_fmap_add {A} (f g : A → Z) l :
  sum_Z ((λ x, f x + g x) <$> l) = sum_Z (f <$> l) + sum_Z (g <$> l).
Proof. induction l as [|x l IH]; [done|]. rewrite !fmap_cons. unfold sum_Z in *. cbn. rewrite IH. lia. Qed.

Lemma sum_Z_fmap_ext {A} (f g : A → Z) l :
  (∀ x, x ∈ l → f x = g x) → sum_Z (f <$> l) = sum_Z (g <$> l).
Proof. intros H. f_equal. by apply list_fmap_ext; intros i x Hx; apply H, list_elem_of_lookup_2 with i. Qed.

Lemma sum_indicator {A} `{EqDecision A} (l : list A) (x : A) (z : Z) :
  NoDup l → sum_Z ((λ a, if bool_decide (x = a) then z else 0) <$> l) = if bool_decide (x ∈ l) then z else 0.
Proof.
induction 1 as [|a l Ha Hl IH]; [done|]. rewrite fmap_cons. unfold sum_Z in *. cbn. rewrite IH.
repeat case_bool_decide; set_solver by lia.
Qed.

Lemma sum_Z_filter {A} (p : A → bool) (f : A → Z) l :
  sum_Z (f <$> List.filter p l) = sum_Z ((λ x, if p x then f x else 0) <$> l).
Proof.
induction l as [|x l IH]; [done|]. cbn [List.filter]. rewrite fmap_cons. unfold sum_Z in *.
destruct (p x); cbn; by rewrite <-IH.
Qed.

Lemma sum_Z_zero {A} (l : list A) : sum_Z ((λ _, 0) <$> l) = 0.
Proof. by induction l. Qed.

Lemma sum_swap {A B} (f : A → B → Z) (l : list A) (k : list B) :
  sum_Z ((λ a, sum_Z ((λ b, f a b) <$> k)) <$> l) = sum_Z ((λ b, sum_Z ((λ a, f a b) <$> l)) <$> k).
Proof.
induction l as [|a l IH].
- induction k as [|b k IHk]; [done|]. rewrite fmap_cons. unfold sum_Z in *. cbn. cbn in IHk. by rewrite <-IHk.
- rewrite fmap_cons.
  transitivity (sum_Z ((λ b, f a b) <$> k) + sum_Z ((λ b, sum_Z ((λ a, f a b) <$> l)) <$> k)).
  + rewrite <-IH. done.
  + by rewrite <-sum_Z_fmap_add.
Qed.

Lemma mapR_id_Ok {E A} (l : list A) : mapR id (Ok (E:=E) <$> l) = Ok l.
Proof. induction l as [|x l IH]; [done|]. rewrite fmap_cons. cbn [mapR]. rewrite IH. done. Qed.

Lemma Forall_choose {A B} (R : A → B → Prop) l :
  Forall (λ x, ∃ y, R x y) l → ∃ k, Forall2 R l k.
Proof. induction 1 as [|x l [y Hy] _ [k Hk]]; [by exists []|]. exists (y :: k). by constructor. Qed.

Lemma Forall2_perm {A B} (R : A → B → Prop) l l' k :
  l' ≡ₚ l → Forall2 R l k → ∃ k', k' ≡ₚ k ∧ Forall2 R l' k'.
Proof.
intros Hp. revert k. induction Hp as [|x l' l Hp IH|x y l|l1 l2 l3 H1 IH1 H2 IH2]; intros k H.
- exists k. split; [done|]. by apply Forall2_nil_inv_l in H as ->.
- apply Forall2_cons_inv_l in H as (z & k0 & Hx & Hl & ->). destruct (IH _ Hl) as (k' & ? & ?).
  exists (z :: k'). split; [by constructor|by constructor].
- apply Forall2_cons_inv_l in H as (z & k0 & Hx & Hl & ->).
  apply Forall2_cons_inv_l in Hl as (w & k1 & Hy & Hl & ->).
  exists (w :: z :: k1). split; [constructor|by repeat constructor].
- destruct (IH2 _ H) as (k2 & P2 & F2). destruct (IH1 _ F2) as (k1 & P1 & F1).
  exists k1. split; [by rewrite P1|done].
Qed.

(** Two suffixes of one list: the shorter is a suffix of the longer. *)
Lemma suffix_of_longer {A} (a p b q : list A) :
  a ++ p = b ++ q → (length q ≤ length p)%nat → ∃ k, p = k ++ q.
Proof.
intros H Hl. apply app_eq_inv in H as [(k & _ & ->)|(k & _ & ->)]; [|by exists k].
rewrite length_app in Hl. destruct k; [by exists []|simpl in Hl; lia].
Qed.

(** * [slice::chunks] *)

Section chunks.
Context {A : Type}.

Fixpoint chunks_go (fuel n : nat) (l : list A) : list (list A) :=
  match fuel, l with
  | S f, _ :: _ => take n l :: chunks_go f n (drop n l)
  | _, _ => []
  end.
Definition chunks (n : nat) (l : list A) : list (list A) := chunks_go (length l) n l.

Lemma chunks_go_fuel n f1 f2 l : (0 < n)%nat → (length l ≤ f1)%nat → (length l ≤ f2)%nat → chunks_go f1 n l = chunks_go f2 n l.
Proof.
intros Hn. revert f2 l. induction f1 as [|f1 IH]; intros f2 [|x l] H1 H2; simpl in *; try lia; [by destruct f2..|].
destruct f2 as [|f2]; [lia|]. cbn [chunks_go]. f_equal. apply IH; rewrite length_drop; simpl; lia.
Qed.

Lemma chunks_step n l : (0 < n)%nat → l ≠ [] → chunks n l = take n l :: chunks n (drop n l).
Proof.
intros Hn Hl. unfold chunks. destruct l as [|x l]; [done|]. cbn [length chunks_go]. f_equal.
apply chunks_go_fuel; [done|rewrite length_drop; simpl; lia|done].
Qed.

Lemma chunks_ind n (Hn : (0 < n)%nat) (P : list A → Prop) :
  P [] → (∀ l, l ≠ [] → P (drop n l) → P l) → ∀ l, P l.
Proof.
intros H0 Hs l. remember (length l) as k eqn:Hk. revert l Hk.
induction k as [k IH] using lt_wf_ind. intros l ->. destruct (decide (l = [])) as [->|Hl]; [done|].
apply Hs; [done|]. eapply IH; [|done]. rewrite length_drop. destruct l; [done|]. simpl. lia.
Qed.

Lemma concat_chunks n l : (0 < n)%nat → concat (chunks n l) = l.
Proof.
intros Hn. induction l as [|l Hl IH] using (chunks_ind n Hn); [done|].
rewrite chunks_step by done. simpl. by rewrite IH, take_drop.
Qed.

Lemma chunks_small n l : (0 < n)%nat → l ≠ [] → (length l ≤ n)%nat → chunks n l = [l].
Proof. intros. rewrite chunks_step, take_ge, drop_ge by done. done. Qed.

Lemma chunks_many n l : (0 < n)%nat → (n < length l)%nat → (2 ≤ length (chunks n l))%nat.
Proof.
intros. rewrite chunks_step by (try done; intros ->; simpl in *; lia). rewrite chunks_step.
- simpl. lia.
- done.
- intros E. apply (f_equal length) in E. rewrite length_drop in E. simpl in E. lia.
Qed.

Lemma chunks_app n a b : (0 < n)%nat → length a = n → chunks n (a ++ b) = a :: chunks n b.
Proof.
intros Hn Ha. rewrite chunks_step; [|done|by destruct a; simpl in *; [lia|]].
by rewrite take_app_length', drop_app_length'.
Qed.
End chunks.

(** The run of a computation, from its result alone. *)
Lemma run_fst {A B} (p : A * B) a : p.1 = a → p = (a, p.2).
Proof. destruct p. simpl. by intros ->. Qed.

(** A decidable closed proposition, by evaluation. *)
Ltac by_decision :=
  match goal with |- ?P => refine (bool_decide_unpack P _); vm_compute; exact I end.
