(* ===== verification/Structs.v ===== *)
(** * Messages of the schema

    The messages of schema/src/proto/structs.proto as prost generates them
    (schema/src/lib.rs includes the generated structs.rs): a message field is
    an [option], a repeated field a list, a scalar field its value, an enum
    field the [i32] it is stored as.  Field names carry a short prefix for the
    message.  Every derived [PartialEq] is structural equality, given here as
    [EqDecision] instances; the messages used as keys of maps and sets are
    [Countable].

    One cut: [TrustData] embeds [StandardData] (through [PeerMetadata]) in the
    generated code.  No modelled function looks inside that occurrence, so it is
    kept as the encoding of the embedded message. *)

From stdpp Require Import base list gmap strings.
From S2P Require Import Prelude.
#[local] Open Scope Z_scope.

(** ** Enums *)

Inductive NetworkEnvironment :=
| Main | Test | Dev | Staging | Perf | Integration | Local_ | Debug_ | All | Predev.

#[global] Instance NetworkEnvironment_eq_dec : EqDecision NetworkEnvironment.
Proof. solve_decision. Defined.

(** [NetworkEnvironment as i32] and [NetworkEnvironment::from_i32]. *)
Definition network_to_i32 (n : NetworkEnvironment) : Z :=
  match n with
  | Main => 0 | Test => 1 | Dev => 2 | Staging => 3 | Perf => 4
  | Integration => 5 | Local_ => 6 | Debug_ => 7 | All => 8 | Predev => 9
  end.
Definition network_from_i32 (z : Z) : option NetworkEnvironment :=
  match z with
  | 0 => Some Main | 1 => Some Test | 2 => Some Dev | 3 => Some Staging
  | 4 => Some Perf | 5 => Some Integration | 6 => Some Local_ | 7 => Some Debug_
  | 8 => Some All | 9 => Some Predev | _ => None
  end.

Inductive ErrorCode :=
| IncorrectSignature | MissingInputs | MissingOutputs | InvalidAddressInputIndex
| InvalidHashLength | TransactionAlreadyProcessing | UnknownUTXO | BalanceMismatch
| InsufficientBalance | InsufficientFee | MissingProof | TransactionRejectedDoubleSpend
| InternalDatabaseError | AddressPublicKeyProofMismatch | UnknownError | DatabaseFailure
| MissingField | ProtoDecoderFailure | InvalidNetworkEnvironment | DataStoreInternalCorruption
| HexDecodeFailure | AddressDecodeFailure | UnsupportedCurrency | AddressNotFound
| UnknownTransaction | UnknownBlock | InternalChannelSendError | InternalChannelReceiveError
| ParseFailure | DeserializationFailure | SerializationFailure.

#[global] Instance ErrorCode_eq_dec : EqDecision ErrorCode.
Proof. solve_decision. Defined.

(** Values of the open enums the code compares with. *)
Definition SignatureType_Ecdsa : Z := 0.
Definition SignatureType_EcdsaBitcoinSignMessageHardware : Z := 1.
Definition PublicKeyType_Secp256k1 : Z := 0.
Definition BytesDecoder_Standard : Z := 0.
Definition HashFormatType_Sha3256 : Z := 0.
Definition HashType_Transaction : Z := 0.
Definition HashType_ObservationMerkleRoot : Z := 2.
Definition HashType_UtxoId : Z := 6.
Definition AddressType_Sha3224ChecksumPublic : Z := 0.
Definition AddressType_BitcoinExternalString : Z := 2.
Definition AddressType_ScriptHash : Z := 6.
Definition AddressType_EthereumExternalString : Z := 7.
Definition SupportedCurrency_Bitcoin : Z := 1.
Definition SupportedCurrency_Ethereum : Z := 2.
Definition SupportedCurrency_Redgold : Z := 3.
Definition StandardContractType_Swap : Z := 2.
Definition StandardContractType_Stake : Z := 3.
Definition ExecutorBackend_Extism : Z := 0.
Definition OutputType_Fee : Z := 0.
Definition OutputType_Deploy : Z := 1.
Definition OutputType_RequestCall : Z := 2.
Definition InputType_GenesisInput : Z := 0.
Definition State_Pending : Z := 0.
Definition State_Accepted : Z := 1.
Definition ValidationLiveness_Live : Z := 0.
Definition NodeType_Static : Z := 1.

(** ** Errors *)

Record ErrorDetails := { ed_name : string; ed_detail : string }.
Record ErrorInfo := {
  ei_code : ErrorCode;
  ei_description : string;
  ei_description_extended : string;
  ei_message : string;
  ei_details : list ErrorDetails;
  ei_retriable : bool;
  ei_stacktrace : string;
  ei_lib_message : string;
  ei_abort : bool }.
Notation RgResult := (result ErrorInfo).

Record ResponseMetadata := {
  rm_success : bool;
  rm_error_info : option ErrorInfo;
  rm_task_local_details : list ErrorDetails;
  rm_request_id : option string;
  rm_trace_id : option string }.

(** ** Keys, hashes, addresses *)

Record BytesData := { bd_value : bytes; bd_decoder : Z; bd_version : Z }.
Record Hash := { h_bytes : option BytesData; h_format_type : Z; h_type : Z }.
Record Address := { a_address : option BytesData; a_type : Z; a_currency : option Z }.
Record RsvSignature := { rsv_r : option BytesData; rsv_s : option BytesData; rsv_v : option Z }.
Record Signature := {
  sig_bytes : option BytesData; sig_type : Z; sig_rsv : option RsvSignature }.
Record PublicKey := { pk_bytes : option BytesData; pk_key_type : Z }.
Record Proof_ := { pf_signature : option Signature; pf_public_key : option PublicKey }.
Record PeerId := { pi_peer_id : option PublicKey; pi_known_proof : list Proof_ }.

#[global] Instance ErrorDetails_eq_dec : EqDecision ErrorDetails.
Proof. solve_decision. Defined.
#[global] Instance ErrorInfo_eq_dec : EqDecision ErrorInfo.
Proof. solve_decision. Defined.
#[global] Instance ResponseMetadata_eq_dec : EqDecision ResponseMetadata.
Proof. solve_decision. Defined.
#[global] Instance BytesData_eq_dec : EqDecision BytesData.
Proof. solve_decision. Defined.
#[global] Instance Hash_eq_dec : EqDecision Hash.
Proof. solve_decision. Defined.
#[global] Instance Address_eq_dec : EqDecision Address.
Proof. solve_decision. Defined.
#[global] Instance RsvSignature_eq_dec : EqDecision RsvSignature.
Proof. solve_decision. Defined.
#[global] Instance Signature_eq_dec : EqDecision Signature.
Proof. solve_decision. Defined.
#[global] Instance PublicKey_eq_dec : EqDecision PublicKey.
Proof. solve_decision. Defined.
#[global] Instance Proof_eq_dec : EqDecision Proof_.
Proof. solve_decision. Defined.
#[global] Instance PeerId_eq_dec : EqDecision PeerId.
Proof. solve_decision. Defined.

#[global] Instance BytesData_countable : Countable BytesData.
Proof.
apply (inj_countable' (λ b, (bd_value b, bd_decoder b, bd_version b))
         (λ '(v, d, r), {| bd_value := v; bd_decoder := d; bd_version := r |})).
by intros [].
Defined.
(** Hashes and UTXO ids are keys of maps: their numbers come from a flat list. *)
Definition hash_flat (h : Hash) : list Z :=
  h_format_type h :: h_type h ::
  match h_bytes h with None => [] | Some b => bd_decoder b :: bd_version b :: (u8_to_Z <$> bd_value b) end.
Definition hash_of_flat (l : list Z) : option Hash :=
  match l with
  | [f; t] => Some {| h_bytes := None; h_format_type := f; h_type := t |}
  | f :: t :: d :: v :: l =>
      Some {| h_bytes := Some {| bd_value := u8_of_Z <$> l; bd_decoder := d; bd_version := v |};
              h_format_type := f; h_type := t |}
  | _ => None
  end.
Lemma hash_flat_inv h : hash_of_flat (hash_flat h) = Some h.
Proof.
assert (∀ l : bytes, u8_of_Z <$> (u8_to_Z <$> l) = l) as H.
{ intros l. induction l as [|b l IH]; [done|]. by rewrite !fmap_cons, u8_of_to, IH. }
destruct h as [[[l d v]|] f t]; [|done]. simpl. by rewrite H.
Qed.
#[global] Instance Hash_countable : Countable Hash := inj_countable hash_flat hash_of_flat hash_flat_inv.
#[global] Instance Address_countable : Countable Address.
Proof.
apply (inj_countable' (λ a, (a_address a, a_type a, a_currency a))
         (λ '(b, t, c), {| a_address := b; a_type := t; a_currency := c |})).
by intros [].
Defined.
#[global] Instance PublicKey_countable : Countable PublicKey.
Proof.
apply (inj_countable' (λ p, (pk_bytes p, pk_key_type p))
         (λ '(b, t), {| pk_bytes := b; pk_key_type := t |})).
by intros [].
Defined.

(** ** Amounts, metadata, UTXO identifiers *)

Record StructMetadata := {
  sm_time : option Z; sm_version : Z;
  sm_hash : option Hash; sm_signable_hash : option Hash; sm_signed_hash : option Hash;
  sm_counter_party_hash : option Hash; sm_confirmation_hash : option Hash }.
Record ProductId := { prd_network : option Hash; prd_product : option Hash }.
Record UtxoId := { u_transaction_hash : option Hash; u_output_index : Z }.
Record CurrencyAmount := { ca_amount : Z; ca_bytes : option BytesData; ca_currency : option Z }.
Record Weighting := { w_value : Z }.
Record AddressSelector := {
  as_address : option Address; as_requires_output_contract_predicate_match : option bool }.
Record FloatingUtxoId := { fu_address_selector : option AddressSelector }.
Record ExternalTransactionId := { ext_identifier : string }.
Record StateSelector := mk_StateSelector { }.

#[global] Instance StructMetadata_eq_dec : EqDecision StructMetadata.
Proof. solve_decision. Defined.
#[global] Instance ProductId_eq_dec : EqDecision ProductId.
Proof. solve_decision. Defined.
#[global] Instance UtxoId_eq_dec : EqDecision UtxoId.
Proof. solve_decision. Defined.
#[global] Instance CurrencyAmount_eq_dec : EqDecision CurrencyAmount.
Proof. solve_decision. Defined.
#[global] Instance Weighting_eq_dec : EqDecision Weighting.
Proof. solve_decision. Defined.
#[global] Instance AddressSelector_eq_dec : EqDecision AddressSelector.
Proof. solve_decision. Defined.
#[global] Instance FloatingUtxoId_eq_dec : EqDecision FloatingUtxoId.
Proof. solve_decision. Defined.
#[global] Instance ExternalTransactionId_eq_dec : EqDecision ExternalTransactionId.
Proof. solve_decision. Defined.
#[global] Instance StateSelector_eq_dec : EqDecision StateSelector.
Proof. solve_decision. Defined.

#[global] Instance ProductId_countable : Countable ProductId.
Proof.
apply (inj_countable' (λ p, (prd_network p, prd_product p))
         (λ '(n, p), {| prd_network := n; prd_product := p |})).
by intros [].
Defined.
#[global] Instance UtxoId_countable : Countable UtxoId.
Proof.
apply (inj_countable (λ u, u_output_index u :: match u_transaction_hash u with None => [] | Some h => hash_flat h end)
         (λ l, match l with
               | [] => None
               | [i] => Some {| u_transaction_hash := None; u_output_index := i |}
               | i :: l => (λ h, {| u_transaction_hash := Some h; u_output_index := i |}) <$> hash_of_flat l
               end)).
intros [[h|] i]; [|done]. pose proof (hash_flat_inv h) as E. cbn [u_output_index u_transaction_hash].
destruct (hash_flat h); [done|]. by rewrite E.
Defined.
#[global] Instance StateSelector_countable : Countable StateSelector.
Proof. apply (inj_countable' (λ _, tt) (λ _, mk_StateSelector)). by intros []. Defined.

(** ** Peers *)

Record TrustData := {
  td_label_rating : option Z; td_confidence : option Z; td_hardness : option Z;
  td_data_encoded : option bytes; td_allow_model_override : bool; td_rating_type : option Z }.
Record TrustRatingLabel := { trl_peer_id : option PeerId; trl_trust_data : list TrustData }.
Record PartitionInfo := {
  pti_utxo : option Z; pti_contract_address : option Z;
  pti_transaction_hash : option Z; pti_address : option Z }.
Record TransportInfo := {
  ti_external_ipv4 : option string; ti_external_ipv6 : option string;
  ti_external_host : option string; ti_port_offset : option Z; ti_nat_restricted : option bool }.
Record VersionInfo := {
  vi_executable_checksum : string; vi_commit_hash : option string;
  vi_next_executable_checksum : option string; vi_next_upgrade_time : option Z;
  vi_build_number : option Z }.
Record PartyId := { pty_public_key : option PublicKey; pty_owner : option PublicKey }.
Record NodeMetadata := {
  nm_transport_info : option TransportInfo; nm_public_key : option PublicKey;
  nm_node_type : option Z; nm_version_info : option VersionInfo;
  nm_partition_info : option PartitionInfo; nm_node_name : option string;
  nm_peer_id : option PeerId; nm_parties : list PartyId }.
Record IdentityMetadata := {
  idm_github_username : option string; idm_website : option string;
  idm_full_name : option string; idm_username : option string; idm_email : option string;
  idm_discord_id : option string; idm_twitter : option string }.
Record PortfolioWeighting := {
  pw_currency : option Z; pw_product_id : option ProductId; pw_weight : option Weighting }.
Record PortfolioInfo := { pfi_weightings : list PortfolioWeighting }.
Record PeerMetadata := {
  pm_peer_id : option PeerId; pm_node_metadata : list NodeMetadata;
  pm_labels : list TrustRatingLabel; pm_version_info : option VersionInfo;
  pm_reward_address : option Address; pm_sponsored_address : list Address;
  pm_identity_metadata : option IdentityMetadata; pm_network_environment : Z;
  pm_portfolio_info : option PortfolioInfo }.
Record DynamicNodeMetadata := {
  dnm_udp_port : option Z; dnm_proof : option Proof_; dnm_peer_id : option PeerId;
  dnm_sequence : Z }.

#[global] Instance TrustData_eq_dec : EqDecision TrustData.
Proof. solve_decision. Defined.
#[global] Instance TrustRatingLabel_eq_dec : EqDecision TrustRatingLabel.
Proof. solve_decision. Defined.
#[global] Instance PartitionInfo_eq_dec : EqDecision PartitionInfo.
Proof. solve_decision. Defined.
#[global] Instance TransportInfo_eq_dec : EqDecision TransportInfo.
Proof. solve_decision. Defined.
#[global] Instance VersionInfo_eq_dec : EqDecision VersionInfo.
Proof. solve_decision. Defined.
#[global] Instance PartyId_eq_dec : EqDecision PartyId.
Proof. solve_decision. Defined.
#[global] Instance NodeMetadata_eq_dec : EqDecision NodeMetadata.
Proof. solve_decision. Defined.
#[global] Instance IdentityMetadata_eq_dec : EqDecision IdentityMetadata.
Proof. solve_decision. Defined.
#[global] Instance PortfolioWeighting_eq_dec : EqDecision PortfolioWeighting.
Proof. solve_decision. Defined.
#[global] Instance PortfolioInfo_eq_dec : EqDecision PortfolioInfo.
Proof. solve_decision. Defined.
#[global] Instance PeerMetadata_eq_dec : EqDecision PeerMetadata.
Proof. solve_decision. Defined.
#[global] Instance DynamicNodeMetadata_eq_dec : EqDecision DynamicNodeMetadata.
Proof. solve_decision. Defined.

(** ** Observations *)

Record ObservationMetadata := {
  om_observed_hash : option Hash; om_observation_type : Z; om_state : Z;
  om_validation_confidence : option TrustData; om_struct_metadata : option StructMetadata;
  om_validation_liveness : Z; om_liveness_confidence : option TrustData }.
Record Observation := {
  ob_merkle_root : option Hash; ob_observations : list ObservationMetadata;
  ob_parent_id : option UtxoId; ob_ancestor_merkle_roots : list Hash }.
Record MerkleProof := {
  mp_root : option Hash; mp_leaf : option Hash; mp_nodes : list Hash }.
Record ObservationProof := {
  op_observation_hash : option Hash; op_merkle_proof : option MerkleProof;
  op_metadata : option ObservationMetadata; op_proof : option Proof_ }.

#[global] Instance ObservationMetadata_eq_dec : EqDecision ObservationMetadata.
Proof. solve_decision. Defined.
#[global] Instance Observation_eq_dec : EqDecision Observation.
Proof. solve_decision. Defined.
#[global] Instance MerkleProof_eq_dec : EqDecision MerkleProof.
Proof. solve_decision. Defined.
#[global] Instance ObservationProof_eq_dec : EqDecision ObservationProof.
Proof. solve_decision. Defined.

(** ** Transactions *)

Record TypedValue := {
  tv_bytes_value : option BytesData; tv_string_value : option string;
  tv_uint64_value : option Z; tv_int64_value : option Z; tv_float_value : option string;
  tv_double_value : option string; tv_bool_value : option bool }.
Record KeyedTypedValue := { ktv_key : option TypedValue; ktv_value : option TypedValue }.
Record MatrixTypedValue := {
  mtv_key_i : option TypedValue; mtv_key_j : option TypedValue; mtv_value : option TypedValue }.
Record GenericTypedValue := {
  gtv_typed_value : option TypedValue; gtv_typed_value_list : list TypedValue;
  gtv_keyed_typed_value : option KeyedTypedValue;
  gtv_keyed_typed_value_list : list KeyedTypedValue;
  gtv_matrix_typed_value : option MatrixTypedValue;
  gtv_matrix_typed_value_list : list MatrixTypedValue }.
Record LiquidityRange := {
  lra_min_inclusive : option CurrencyAmount; lra_max_exclusive : option CurrencyAmount;
  lra_disable_dynamic_fee : bool; lra_desired_fee_fraction : option Weighting;
  lra_allocation_fraction : option Weighting }.
Record LiquidityWithdrawal := { lw_destination : option Address }.
Record LiquidityDeposit := { ld_liquidity_ranges : list LiquidityRange }.
Record LiquidityRequest := {
  lr_deposit : option LiquidityDeposit; lr_withdrawal : option LiquidityWithdrawal }.
Record StandardRequest := { sr_selector : option StateSelector }.
Record SchemaDef := { sd_parquet : option string }.
Record StandardData := {
  d_amount : option CurrencyAmount;
  d_generic_typed_value : option GenericTypedValue;
  d_peer_data : option PeerMetadata;
  d_node_metadata : option NodeMetadata;
  d_dynamic_node_metadata : option DynamicNodeMetadata;
  d_height : option Z;
  d_data_hash : option Hash;
  d_hash : option Hash;
  d_observation : option Observation;
  d_address : option Address;
  d_state : option BytesData;
  d_request : option BytesData;
  d_standard_request : option StandardRequest;
  d_liquidity_request : option LiquidityRequest;
  d_portfolio_info : option PortfolioInfo;
  d_schema_def : option SchemaDef;
  d_data : option BytesData;
  d_aggregate_state_hash : option Hash;
  d_external_transaction_id : option ExternalTransactionId }.
Record CodeExecutionContract := {
  cec_address : option Address; cec_code : option BytesData; cec_executor : option Z }.
Record OutputContract := {
  oc_standard_contract_type : option Z;
  oc_code_execution_contract : option CodeExecutionContract;
  oc_threshold : option Z; oc_weights : list Z;
  oc_pay_update_descendents : bool; oc_consumable : bool }.
Record Output := {
  o_address : option Address; o_product_id : option ProductId;
  o_counter_party_proofs : list Proof_; o_data : option StandardData;
  o_contract : option OutputContract; o_output_type : option Z; o_utxo_id : option UtxoId }.
Record Input := {
  i_utxo_id : option UtxoId; i_proof : list Proof_; i_product_id : option ProductId;
  i_output : option Output; i_floating_utxo_id : option FloatingUtxoId;
  i_input_type : option Z }.
Record TransactionData := {
  txd_message : option string; txd_time : option Z; txd_standard_data : option StandardData }.
Record TimeLockWindow := { tlw_delay : Z; tlw_offset : Z; tlw_window_size : Z }.
Record KeyValueOption := { kvo_key : string; kvo_value : string }.
Record PoWProof := { pow_proof_type : Z; pow_nonce : option BytesData }.
Record TransactionContract := {
  txc_confirmation : option bool; txc_confirmation_proofs : list Proof_;
  txc_finalize_window : option Z; txc_lock_period : option Z;
  txc_network_reversible : option bool; txc_time_lock_window : option TimeLockWindow;
  txc_options : list KeyValueOption; txc_pow_proof : option PoWProof }.
Record TimeSponsor := { ts_time : Z; ts_proof : option Proof_ }.
Record TransactionOptions := {
  txo_salt : option Z; txo_network_type : option Z;
  txo_key_value_options : list KeyValueOption; txo_data : option TransactionData;
  txo_contract : option TransactionContract; txo_time_sponsor : option TimeSponsor;
  txo_is_test : option bool }.
Record Transaction := {
  tx_inputs : list Input; tx_outputs : list Output;
  tx_struct_metadata : option StructMetadata; tx_options : option TransactionOptions }.
Record UtxoEntry := { ue_utxo_id : option UtxoId; ue_output : option Output; ue_time : Z }.

#[global] Instance TypedValue_eq_dec : EqDecision TypedValue.
Proof. solve_decision. Defined.
#[global] Instance KeyedTypedValue_eq_dec : EqDecision KeyedTypedValue.
Proof. solve_decision. Defined.
#[global] Instance MatrixTypedValue_eq_dec : EqDecision MatrixTypedValue.
Proof. solve_decision. Defined.
#[global] Instance GenericTypedValue_eq_dec : EqDecision GenericTypedValue.
Proof. solve_decision. Defined.
#[global] Instance LiquidityRange_eq_dec : EqDecision LiquidityRange.
Proof. solve_decision. Defined.
#[global] Instance LiquidityWithdrawal_eq_dec : EqDecision LiquidityWithdrawal.
Proof. solve_decision. Defined.
#[global] Instance LiquidityDeposit_eq_dec : EqDecision LiquidityDeposit.
Proof. solve_decision. Defined.
#[global] Instance LiquidityRequest_eq_dec : EqDecision LiquidityRequest.
Proof. solve_decision. Defined.
#[global] Instance StandardRequest_eq_dec : EqDecision StandardRequest.
Proof. solve_decision. Defined.
#[global] Instance SchemaDef_eq_dec : EqDecision SchemaDef.
Proof. solve_decision. Defined.
#[global] Instance StandardData_eq_dec : EqDecision StandardData.
Proof. solve_decision. Defined.
#[global] Instance CodeExecutionContract_eq_dec : EqDecision CodeExecutionContract.
Proof. solve_decision. Defined.
#[global] Instance OutputContract_eq_dec : EqDecision OutputContract.
Proof. solve_decision. Defined.
#[global] Instance Output_eq_dec : EqDecision Output.
Proof. solve_decision. Defined.
#[global] Instance Input_eq_dec : EqDecision Input.
Proof. solve_decision. Defined.
#[global] Instance TransactionData_eq_dec : EqDecision TransactionData.
Proof. solve_decision. Defined.
#[global] Instance TimeLockWindow_eq_dec : EqDecision TimeLockWindow.
Proof. solve_decision. Defined.
#[global] Instance KeyValueOption_eq_dec : EqDecision KeyValueOption.
Proof. solve_decision. Defined.
#[global] Instance PoWProof_eq_dec : EqDecision PoWProof.
Proof. solve_decision. Defined.
#[global] Instance TransactionContract_eq_dec : EqDecision TransactionContract.
Proof. solve_decision. Defined.
#[global] Instance TimeSponsor_eq_dec : EqDecision TimeSponsor.
Proof. solve_decision. Defined.
#[global] Instance TransactionOptions_eq_dec : EqDecision TransactionOptions.
Proof. solve_decision. Defined.
#[global] Instance Transaction_eq_dec : EqDecision Transaction.
Proof. solve_decision. Defined.
#[global] Instance UtxoEntry_eq_dec : EqDecision UtxoEntry.
Proof. solve_decision. Defined.

(** ** Countability of the messages a transaction is made of *)

#[global] Instance RsvSignature_countable : Countable RsvSignature.
Proof.
apply (inj_countable' (λ r, (rsv_r r, rsv_s r, rsv_v r)) (λ '(x0, x1, x2), {| rsv_r := x0; rsv_s :=
  x1; rsv_v := x2 |})).
by intros [].
Defined.
#[global] Instance Signature_countable : Countable Signature.
Proof.
apply (inj_countable' (λ r, (sig_bytes r, sig_type r, sig_rsv r)) (λ '(x0, x1, x2), {| sig_bytes :=
  x0; sig_type := x1; sig_rsv := x2 |})).
by intros [].
Defined.
#[global] Instance Proof__countable : Countable Proof_.
Proof.
apply (inj_countable' (λ r, (pf_signature r, pf_public_key r)) (λ '(x0, x1), {| pf_signature := x0;
  pf_public_key := x1 |})).
by intros [].
Defined.
#[global] Instance PeerId_countable : Countable PeerId.
Proof.
apply (inj_countable' (λ r, (pi_peer_id r, pi_known_proof r)) (λ '(x0, x1), {| pi_peer_id := x0;
  pi_known_proof := x1 |})).
by intros [].
Defined.
#[global] Instance StructMetadata_countable : Countable StructMetadata.
Proof.
apply (inj_countable' (λ r, (sm_time r, sm_version r, sm_hash r, sm_signable_hash r, sm_signed_hash
  r, sm_counter_party_hash r, sm_confirmation_hash r)) (λ '(x0, x1, x2, x3, x4, x5, x6), {| sm_time :=
  x0; sm_version := x1; sm_hash := x2; sm_signable_hash := x3; sm_signed_hash := x4;
  sm_counter_party_hash := x5; sm_confirmation_hash := x6 |})).
by intros [].
Defined.
#[global] Instance CurrencyAmount_countable : Countable CurrencyAmount.
Proof.
apply (inj_countable' (λ r, (ca_amount r, ca_bytes r, ca_currency r)) (λ '(x0, x1, x2), {| ca_amount
  := x0; ca_bytes := x1; ca_currency := x2 |})).
by intros [].
Defined.
#[global] Instance Weighting_countable : Countable Weighting.
Proof.
apply (inj_countable' (λ r, w_value r) (λ x0, {| w_value := x0 |})).
by intros [].
Defined.
#[global] Instance AddressSelector_countable : Countable AddressSelector.
Proof.
apply (inj_countable' (λ r, (as_address r, as_requires_output_contract_predicate_match r)) (λ '(x0,
  x1), {| as_address := x0; as_requires_output_contract_predicate_match := x1 |})).
by intros [].
Defined.
#[global] Instance FloatingUtxoId_countable : Countable FloatingUtxoId.
Proof.
apply (inj_countable' (λ r, fu_address_selector r) (λ x0, {| fu_address_selector := x0 |})).
by intros [].
Defined.
#[global] Instance ExternalTransactionId_countable : Countable ExternalTransactionId.
Proof.
apply (inj_countable' (λ r, ext_identifier r) (λ x0, {| ext_identifier := x0 |})).
by intros [].
Defined.
#[global] Instance TrustData_countable : Countable TrustData.
Proof.
apply (inj_countable' (λ r, (td_label_rating r, td_confidence r, td_hardness r, td_data_encoded r,
  td_allow_model_override r, td_rating_type r)) (λ '(x0, x1, x2, x3, x4, x5), {| td_label_rating :=
  x0; td_confidence := x1; td_hardness := x2; td_data_encoded := x3; td_allow_model_override := x4;
  td_rating_type := x5 |})).
by intros [].
Defined.
#[global] Instance TrustRatingLabel_countable : Countable TrustRatingLabel.
Proof.
apply (inj_countable' (λ r, (trl_peer_id r, trl_trust_data r)) (λ '(x0, x1), {| trl_peer_id := x0;
  trl_trust_data := x1 |})).
by intros [].
Defined.
#[global] Instance PartitionInfo_countable : Countable PartitionInfo.
Proof.
apply (inj_countable' (λ r, (pti_utxo r, pti_contract_address r, pti_transaction_hash r, pti_address
  r)) (λ '(x0, x1, x2, x3), {| pti_utxo := x0; pti_contract_address := x1; pti_transaction_hash := x2;
  pti_address := x3 |})).
by intros [].
Defined.
#[global] Instance TransportInfo_countable : Countable TransportInfo.
Proof.
apply (inj_countable' (λ r, (ti_external_ipv4 r, ti_external_ipv6 r, ti_external_host r,
  ti_port_offset r, ti_nat_restricted r)) (λ '(x0, x1, x2, x3, x4), {| ti_external_ipv4 := x0;
  ti_external_ipv6 := x1; ti_external_host := x2; ti_port_offset := x3; ti_nat_restricted := x4 |})).
by intros [].
Defined.
#[global] Instance VersionInfo_countable : Countable VersionInfo.
Proof.
apply (inj_countable' (λ r, (vi_executable_checksum r, vi_commit_hash r, vi_next_executable_checksum
  r, vi_next_upgrade_time r, vi_build_number r)) (λ '(x0, x1, x2, x3, x4), {| vi_executable_checksum
  := x0; vi_commit_hash := x1; vi_next_executable_checksum := x2; vi_next_upgrade_time := x3;
  vi_build_number := x4 |})).
by intros [].
Defined.
#[global] Instance PartyId_countable : Countable PartyId.
Proof.
apply (inj_countable' (λ r, (pty_public_key r, pty_owner r)) (λ '(x0, x1), {| pty_public_key := x0;
  pty_owner := x1 |})).
by intros [].
Defined.
#[global] Instance NodeMetadata_countable : Countable NodeMetadata.
Proof.
apply (inj_countable' (λ r, (nm_transport_info r, nm_public_key r, nm_node_type r, nm_version_info
  r, nm_partition_info r, nm_node_name r, nm_peer_id r, nm_parties r)) (λ '(x0, x1, x2, x3, x4, x5,
  x6, x7), {| nm_transport_info := x0; nm_public_key := x1; nm_node_type := x2; nm_version_info := x3;
  nm_partition_info := x4; nm_node_name := x5; nm_peer_id := x6; nm_parties := x7 |})).
by intros [].
Defined.
#[global] Instance IdentityMetadata_countable : Countable IdentityMetadata.
Proof.
apply (inj_countable' (λ r, (idm_github_username r, idm_website r, idm_full_name r, idm_username r,
  idm_email r, idm_discord_id r, idm_twitter r)) (λ '(x0, x1, x2, x3, x4, x5, x6), {|
  idm_github_username := x0; idm_website := x1; idm_full_name := x2; idm_username := x3; idm_email :=
  x4; idm_discord_id := x5; idm_twitter := x6 |})).
by intros [].
Defined.
#[global] Instance PortfolioWeighting_countable : Countable PortfolioWeighting.
Proof.
apply (inj_countable' (λ r, (pw_currency r, pw_product_id r, pw_weight r)) (λ '(x0, x1, x2), {|
  pw_currency := x0; pw_product_id := x1; pw_weight := x2 |})).
by intros [].
Defined.
#[global] Instance PortfolioInfo_countable : Countable PortfolioInfo.
Proof.
apply (inj_countable' (λ r, pfi_weightings r) (λ x0, {| pfi_weightings := x0 |})).
by intros [].
Defined.
#[global] Instance PeerMetadata_countable : Countable PeerMetadata.
Proof.
apply (inj_countable' (λ r, (pm_peer_id r, pm_node_metadata r, pm_labels r, pm_version_info r,
  pm_reward_address r, pm_sponsored_address r, pm_identity_metadata r, pm_network_environment r,
  pm_portfolio_info r)) (λ '(x0, x1, x2, x3, x4, x5, x6, x7, x8), {| pm_peer_id := x0;
  pm_node_metadata := x1; pm_labels := x2; pm_version_info := x3; pm_reward_address := x4;
  pm_sponsored_address := x5; pm_identity_metadata := x6; pm_network_environment := x7;
  pm_portfolio_info := x8 |})).
by intros [].
Defined.
#[global] Instance DynamicNodeMetadata_countable : Countable DynamicNodeMetadata.
Proof.
apply (inj_countable' (λ r, (dnm_udp_port r, dnm_proof r, dnm_peer_id r, dnm_sequence r)) (λ '(x0,
  x1, x2, x3), {| dnm_udp_port := x0; dnm_proof := x1; dnm_peer_id := x2; dnm_sequence := x3 |})).
by intros [].
Defined.
#[global] Instance ObservationMetadata_countable : Countable ObservationMetadata.
Proof.
apply (inj_countable' (λ r, (om_observed_hash r, om_observation_type r, om_state r,
  om_validation_confidence r, om_struct_metadata r, om_validation_liveness r, om_liveness_confidence
  r)) (λ '(x0, x1, x2, x3, x4, x5, x6), {| om_observed_hash := x0; om_observation_type := x1; om_state
  := x2; om_validation_confidence := x3; om_struct_metadata := x4; om_validation_liveness := x5;
  om_liveness_confidence := x6 |})).
by intros [].
Defined.
#[global] Instance Observation_countable : Countable Observation.
Proof.
apply (inj_countable' (λ r, (ob_merkle_root r, ob_observations r, ob_parent_id r,
  ob_ancestor_merkle_roots r)) (λ '(x0, x1, x2, x3), {| ob_merkle_root := x0; ob_observations := x1;
  ob_parent_id := x2; ob_ancestor_merkle_roots := x3 |})).
by intros [].
Defined.
#[global] Instance MerkleProof_countable : Countable MerkleProof.
Proof.
apply (inj_countable' (λ r, (mp_root r, mp_leaf r, mp_nodes r)) (λ '(x0, x1, x2), {| mp_root := x0;
  mp_leaf := x1; mp_nodes := x2 |})).
by intros [].
Defined.
#[global] Instance ObservationProof_countable : Countable ObservationProof.
Proof.
apply (inj_countable' (λ r, (op_observation_hash r, op_merkle_proof r, op_metadata r, op_proof r))
  (λ '(x0, x1, x2, x3), {| op_observation_hash := x0; op_merkle_proof := x1; op_metadata := x2;
  op_proof := x3 |})).
by intros [].
Defined.
#[global] Instance TypedValue_countable : Countable TypedValue.
Proof.
apply (inj_countable' (λ r, (tv_bytes_value r, tv_string_value r, tv_uint64_value r, tv_int64_value
  r, tv_float_value r, tv_double_value r, tv_bool_value r)) (λ '(x0, x1, x2, x3, x4, x5, x6), {|
  tv_bytes_value := x0; tv_string_value := x1; tv_uint64_value := x2; tv_int64_value := x3;
  tv_float_value := x4; tv_double_value := x5; tv_bool_value := x6 |})).
by intros [].
Defined.
#[global] Instance KeyedTypedValue_countable : Countable KeyedTypedValue.
Proof.
apply (inj_countable' (λ r, (ktv_key r, ktv_value r)) (λ '(x0, x1), {| ktv_key := x0; ktv_value :=
  x1 |})).
by intros [].
Defined.
#[global] Instance MatrixTypedValue_countable : Countable MatrixTypedValue.
Proof.
apply (inj_countable' (λ r, (mtv_key_i r, mtv_key_j r, mtv_value r)) (λ '(x0, x1, x2), {| mtv_key_i
  := x0; mtv_key_j := x1; mtv_value := x2 |})).
by intros [].
Defined.
#[global] Instance GenericTypedValue_countable : Countable GenericTypedValue.
Proof.
apply (inj_countable' (λ r, (gtv_typed_value r, gtv_typed_value_list r, gtv_keyed_typed_value r,
  gtv_keyed_typed_value_list r, gtv_matrix_typed_value r, gtv_matrix_typed_value_list r)) (λ '(x0, x1,
  x2, x3, x4, x5), {| gtv_typed_value := x0; gtv_typed_value_list := x1; gtv_keyed_typed_value := x2;
  gtv_keyed_typed_value_list := x3; gtv_matrix_typed_value := x4; gtv_matrix_typed_value_list := x5
  |})).
by intros [].
Defined.
#[global] Instance LiquidityRange_countable : Countable LiquidityRange.
Proof.
apply (inj_countable' (λ r, (lra_min_inclusive r, lra_max_exclusive r, lra_disable_dynamic_fee r,
  lra_desired_fee_fraction r, lra_allocation_fraction r)) (λ '(x0, x1, x2, x3, x4), {|
  lra_min_inclusive := x0; lra_max_exclusive := x1; lra_disable_dynamic_fee := x2;
  lra_desired_fee_fraction := x3; lra_allocation_fraction := x4 |})).
by intros [].
Defined.
#[global] Instance LiquidityWithdrawal_countable : Countable LiquidityWithdrawal.
Proof.
apply (inj_countable' (λ r, lw_destination r) (λ x0, {| lw_destination := x0 |})).
by intros [].
Defined.
#[global] Instance LiquidityDeposit_countable : Countable LiquidityDeposit.
Proof.
apply (inj_countable' (λ r, ld_liquidity_ranges r) (λ x0, {| ld_liquidity_ranges := x0 |})).
by intros [].
Defined.
#[global] Instance LiquidityRequest_countable : Countable LiquidityRequest.
Proof.
apply (inj_countable' (λ r, (lr_deposit r, lr_withdrawal r)) (λ '(x0, x1), {| lr_deposit := x0;
  lr_withdrawal := x1 |})).
by intros [].
Defined.
#[global] Instance StandardRequest_countable : Countable StandardRequest.
Proof.
apply (inj_countable' (λ r, sr_selector r) (λ x0, {| sr_selector := x0 |})).
by intros [].
Defined.
#[global] Instance SchemaDef_countable : Countable SchemaDef.
Proof.
apply (inj_countable' (λ r, sd_parquet r) (λ x0, {| sd_parquet := x0 |})).
by intros [].
Defined.
#[global] Instance StandardData_countable : Countable StandardData.
Proof.
apply (inj_countable' (λ r, (d_amount r, d_generic_typed_value r, d_peer_data r, d_node_metadata r,
  d_dynamic_node_metadata r, d_height r, d_data_hash r, d_hash r, d_observation r, d_address r,
  d_state r, d_request r, d_standard_request r, d_liquidity_request r, d_portfolio_info r,
  d_schema_def r, d_data r, d_aggregate_state_hash r, d_external_transaction_id r)) (λ '(x0, x1, x2,
  x3, x4, x5, x6, x7, x8, x9, x10, x11, x12, x13, x14, x15, x16, x17, x18), {| d_amount := x0;
  d_generic_typed_value := x1; d_peer_data := x2; d_node_metadata := x3; d_dynamic_node_metadata :=
  x4; d_height := x5; d_data_hash := x6; d_hash := x7; d_observation := x8; d_address := x9; d_state
  := x10; d_request := x11; d_standard_request := x12; d_liquidity_request := x13; d_portfolio_info :=
  x14; d_schema_def := x15; d_data := x16; d_aggregate_state_hash := x17; d_external_transaction_id :=
  x18 |})).
by intros [].
Defined.
#[global] Instance CodeExecutionContract_countable : Countable CodeExecutionContract.
Proof.
apply (inj_countable' (λ r, (cec_address r, cec_code r, cec_executor r)) (λ '(x0, x1, x2), {|
  cec_address := x0; cec_code := x1; cec_executor := x2 |})).
by intros [].
Defined.
#[global] Instance OutputContract_countable : Countable OutputContract.
Proof.
apply (inj_countable' (λ r, (oc_standard_contract_type r, oc_code_execution_contract r, oc_threshold
  r, oc_weights r, oc_pay_update_descendents r, oc_consumable r)) (λ '(x0, x1, x2, x3, x4, x5), {|
  oc_standard_contract_type := x0; oc_code_execution_contract := x1; oc_threshold := x2; oc_weights :=
  x3; oc_pay_update_descendents := x4; oc_consumable := x5 |})).
by intros [].
Defined.
#[global] Instance Output_countable : Countable Output.
Proof.
apply (inj_countable' (λ r, (o_address r, o_product_id r, o_counter_party_proofs r, o_data r,
  o_contract r, o_output_type r, o_utxo_id r)) (λ '(x0, x1, x2, x3, x4, x5, x6), {| o_address := x0;
  o_product_id := x1; o_counter_party_proofs := x2; o_data := x3; o_contract := x4; o_output_type :=
  x5; o_utxo_id := x6 |})).
by intros [].
Defined.
#[global] Instance Input_countable : Countable Input.
Proof.
apply (inj_countable' (λ r, (i_utxo_id r, i_proof r, i_product_id r, i_output r, i_floating_utxo_id
  r, i_input_type r)) (λ '(x0, x1, x2, x3, x4, x5), {| i_utxo_id := x0; i_proof := x1; i_product_id :=
  x2; i_output := x3; i_floating_utxo_id := x4; i_input_type := x5 |})).
by intros [].
Defined.
#[global] Instance TransactionData_countable : Countable TransactionData.
Proof.
apply (inj_countable' (λ r, (txd_message r, txd_time r, txd_standard_data r)) (λ '(x0, x1, x2), {|
  txd_message := x0; txd_time := x1; txd_standard_data := x2 |})).
by intros [].
Defined.
#[global] Instance TimeLockWindow_countable : Countable TimeLockWindow.
Proof.
apply (inj_countable' (λ r, (tlw_delay r, tlw_offset r, tlw_window_size r)) (λ '(x0, x1, x2), {|
  tlw_delay := x0; tlw_offset := x1; tlw_window_size := x2 |})).
by intros [].
Defined.
#[global] Instance KeyValueOption_countable : Countable KeyValueOption.
Proof.
apply (inj_countable' (λ r, (kvo_key r, kvo_value r)) (λ '(x0, x1), {| kvo_key := x0; kvo_value :=
  x1 |})).
by intros [].
Defined.
#[global] Instance PoWProof_countable : Countable PoWProof.
Proof.
apply (inj_countable' (λ r, (pow_proof_type r, pow_nonce r)) (λ '(x0, x1), {| pow_proof_type := x0;
  pow_nonce := x1 |})).
by intros [].
Defined.
#[global] Instance TransactionContract_countable : Countable TransactionContract.
Proof.
apply (inj_countable' (λ r, (txc_confirmation r, txc_confirmation_proofs r, txc_finalize_window r,
  txc_lock_period r, txc_network_reversible r, txc_time_lock_window r, txc_options r, txc_pow_proof
  r)) (λ '(x0, x1, x2, x3, x4, x5, x6, x7), {| txc_confirmation := x0; txc_confirmation_proofs := x1;
  txc_finalize_window := x2; txc_lock_period := x3; txc_network_reversible := x4; txc_time_lock_window
  := x5; txc_options := x6; txc_pow_proof := x7 |})).
by intros [].
Defined.
#[global] Instance TimeSponsor_countable : Countable TimeSponsor.
Proof.
apply (inj_countable' (λ r, (ts_time r, ts_proof r)) (λ '(x0, x1), {| ts_time := x0; ts_proof := x1
  |})).
by intros [].
Defined.
#[global] Instance TransactionOptions_countable : Countable TransactionOptions.
Proof.
apply (inj_countable' (λ r, (txo_salt r, txo_network_type r, txo_key_value_options r, txo_data r,
  txo_contract r, txo_time_sponsor r, txo_is_test r)) (λ '(x0, x1, x2, x3, x4, x5, x6), {| txo_salt :=
  x0; txo_network_type := x1; txo_key_value_options := x2; txo_data := x3; txo_contract := x4;
  txo_time_sponsor := x5; txo_is_test := x6 |})).
by intros [].
Defined.
#[global] Instance Transaction_countable : Countable Transaction.
Proof.
apply (inj_countable' (λ r, (tx_inputs r, tx_outputs r, tx_struct_metadata r, tx_options r)) (λ
  '(x0, x1, x2, x3), {| tx_inputs := x0; tx_outputs := x1; tx_struct_metadata := x2; tx_options := x3
  |})).
by intros [].
Defined.
#[global] Instance UtxoEntry_countable : Countable UtxoEntry.
Proof.
apply (inj_countable' (λ r, (ue_utxo_id r, ue_output r, ue_time r)) (λ '(x0, x1, x2), {| ue_utxo_id
  := x0; ue_output := x1; ue_time := x2 |})).
by intros [].
Defined.

(** ** Defaults ([Default::default] of the generated messages) *)

Definition default_Address : Address :=
  {| a_address := None; a_type := 0; a_currency := None |}.
Definition default_CurrencyAmount : CurrencyAmount :=
  {| ca_amount := 0; ca_bytes := None; ca_currency := None |}.
Definition default_StandardData : StandardData :=
  {| d_amount := None; d_generic_typed_value := None; d_peer_data := None;
     d_node_metadata := None; d_dynamic_node_metadata := None; d_height := None;
     d_data_hash := None; d_hash := None; d_observation := None; d_address := None;
     d_state := None; d_request := None; d_standard_request := None;
     d_liquidity_request := None; d_portfolio_info := None; d_schema_def := None;
     d_data := None; d_aggregate_state_hash := None; d_external_transaction_id := None |}.
Definition default_OutputContract : OutputContract :=
  {| oc_standard_contract_type := None; oc_code_execution_contract := None;
     oc_threshold := None; oc_weights := []; oc_pay_update_descendents := false;
     oc_consumable := false |}.
Definition default_CodeExecutionContract : CodeExecutionContract :=
  {| cec_address := None; cec_code := None; cec_executor := None |}.
Definition default_Output : Output :=
  {| o_address := None; o_product_id := None; o_counter_party_proofs := []; o_data := None;
     o_contract := None; o_output_type := None; o_utxo_id := None |}.
Definition default_Input : Input :=
  {| i_utxo_id := None; i_proof := []; i_product_id := None; i_output := None;
     i_floating_utxo_id := None; i_input_type := None |}.
Definition default_TransactionData : TransactionData :=
  {| txd_message := None; txd_time := None; txd_standard_data := None |}.
Definition default_TransactionOptions : TransactionOptions :=
  {| txo_salt := None; txo_network_type := None; txo_key_value_options := [];
     txo_data := None; txo_contract := None; txo_time_sponsor := None; txo_is_test := None |}.
Definition default_Transaction : Transaction :=
  {| tx_inputs := []; tx_outputs := []; tx_struct_metadata := None; tx_options := None |}.
Definition default_ObservationProof : ObservationProof :=
  {| op_observation_hash := None; op_merkle_proof := None; op_metadata := None;
     op_proof := None |}.

(** What identifies a multiparty computation. *)
Record MultipartyIdentifier := { mi_party_keys : list PublicKey; mi_threshold : Z; mi_uuid : string }.

(** ** Network environments (schema/src/lib.rs) *)

Definition status_networks : list NetworkEnvironment := [Main; Test; Staging; Dev; Predev].
Definition gui_networks : list NetworkEnvironment := [Main; Test; Staging; Dev; Predev].
Definition is_local_debug (n : NetworkEnvironment) : bool := bool_decide (n ∈ [Debug_; Local_]).
Definition is_main_stage_network (n : NetworkEnvironment) : bool :=
  bool_decide (n ∈ status_networks).
Definition is_all (n : NetworkEnvironment) : bool := bool_decide (n = All).
Definition is_main (n : NetworkEnvironment) : bool := bool_decide (n = Main).
Definition default_port_offset (n : NetworkEnvironment) : Z :=
  as_u16 match n with
  | Main => 16180 | Test => 16280 | Staging => 16380 | Dev => 16480 | Predev => 16580
  | Perf => 16680 | Integration => 16780 | Local_ => 16880 | Debug_ => 16980 | All => 17080
  end.

Lemma network_roundtrip n : network_from_i32 (network_to_i32 n) = Some n.
Proof. by destruct n. Qed.

Lemma network_from_to z n : network_from_i32 z = Some n → network_to_i32 n = z.
Proof.
unfold network_from_i32. intros H. repeat (case_match; simplify_eq/=; try done).
Qed.
