(* ===== verification/Interfaces.v ===== *)
(** * Interfaces to code outside the repository

    Each crate the modelled code calls is a type class of its operations, with a
    second class for the laws its documentation promises.  Every operation that
    uses a crate takes the class as an argument; every theorem that relies on a
    law takes the law class.  The second half gives concrete instances that
    satisfy the laws, for the witnesses: digests are a polynomial checksum of the
    right size, hex is the usual lower case base 16 codec, the host has an empty
    backtrace. *)

From stdpp Require Import base strings countable list.
From S2P Require Import Prelude Structs.
#[local] Open Scope Z_scope.

(** ** Host and third-party code *)

(** [backtrace::Backtrace::new] rendered with [{:?}], the entries of the task
    local map, and the [Display] of [std::string::FromUtf8Error]. *)
Class Host := {
  backtrace : string;
  get_task_local : list (string * string);
  utf8_error_string : bytes → string }.

(** [sha3::Sha3_256], [sha3::Sha3_224] and the hex crate; a decoding error is
    its [Display] string. *)
Class Crypto := {
  sha3_256 : bytes → bytes;
  sha3_224 : bytes → bytes;
  hex_encode : bytes → string;
  hex_decode : string → string + bytes }.

Class CryptoLaws `{Crypto} : Prop := {
  sha3_256_length : ∀ s, length (sha3_256 s) = 32%nat;
  sha3_224_length : ∀ s, length (sha3_224 s) = 28%nat;
  hex_decode_encode : ∀ b, hex_decode (hex_encode b) = inr b }.

(** prost: [Message::encode_to_vec] and [Message::decode] of a generated message;
    a decoding error is its [Display] string. *)
Class Proto (A : Type) := {
  encode_to_vec : A → bytes;
  proto_decode : bytes → string + A }.

Class ProtoLaws (A : Type) `{Proto A} : Prop :=
  proto_decode_encode : ∀ a : A, proto_decode (encode_to_vec a) = inr a.

Lemma encode_to_vec_inj `{ProtoLaws A} (a b : A) : encode_to_vec a = encode_to_vec b → a = b.
Proof. intros E. pose proof (proto_decode_encode a) as Ha. rewrite E, proto_decode_encode in Ha. congruence. Qed.

(** secp256k1 and the bitcoin crate.  Keys are their serialized bytes; an
    operation that can fail answers the [Display] string of its error.
    [ecdsa_sign] is [Secp256k1::sign] followed by [serialize_compact]. *)
Class Secp := {
  secret_key : Type;
  secret_public_key : secret_key → bytes;
  message_from_slice : bytes → option string;
  ecdsa_sign : bytes → secret_key → bytes;
  signature_from_compact : bytes → option string;
  public_key_from_slice : bytes → option string;
  ecdsa_verify : bytes → bytes → bytes → option string;
  signed_msg_hash : string → bytes;
  btc_key_from_slice : bytes → option string;
  p2wpkh : bool → bytes → string + string }.

Class SecpLaws `{Secp} : Prop := {
  message_from_slice_32 : ∀ m, length m = 32%nat → message_from_slice m = None;
  sign_compact : ∀ m sk, signature_from_compact (ecdsa_sign m sk) = None;
  secret_key_valid : ∀ sk, public_key_from_slice (secret_public_key sk) = None;
  verify_sign : ∀ m sk, length m = 32%nat → ecdsa_verify m (ecdsa_sign m sk) (secret_public_key sk) = None }.

(** serde_json, as [EasyJson::json_or] of schema/src/lib.rs uses it. *)
Class Json (A : Type) := json_or : A → string.

(** sqlx: the [Display] string of a violated UNIQUE constraint. *)
Class Sql := unique_violation : string.

(** ** Concrete instances *)

Definition toy_digest (n : nat) (s : bytes) : bytes :=
  le_bytes n (foldl (λ acc b, Z.land (acc * 257 + u8_to_Z b + 1) (Z.ones 40)) 7 s).

Definition hex_digit (z : Z) : Ascii.ascii :=
  Ascii.ascii_of_nat (Z.to_nat (if z <? 10 then 48 + z else 87 + z)).
Definition hex_value (a : Ascii.ascii) : option Z :=
  let z := Z.of_nat (Ascii.nat_of_ascii a) in
  if (48 <=? z) && (z <=? 57) then Some (z - 48)
  else if (97 <=? z) && (z <=? 102) then Some (z - 87) else None.

Fixpoint toy_hex_encode (l : bytes) : string :=
  match l with
  | [] => EmptyString
  | b :: l => String (hex_digit (u8_to_Z b / 16)) (String (hex_digit (u8_to_Z b mod 16)) (toy_hex_encode l))
  end.
Fixpoint toy_hex_decode (s : string) : option bytes :=
  match s with
  | EmptyString => Some []
  | String a (String b s) =>
      x ← hex_value a; y ← hex_value b; l ← toy_hex_decode s; Some (u8_of_Z (16 * x + y) :: l)
  | String _ EmptyString => None
  end.

Definition toy_host : Host :=
  {| backtrace := ""; get_task_local := []; utf8_error_string := λ _, "invalid utf-8" |}.
Definition toy_crypto : Crypto :=
  {| sha3_256 := toy_digest 32; sha3_224 := toy_digest 28; hex_encode := toy_hex_encode;
     hex_decode := λ s, match toy_hex_decode s with
                        | Some b => inr b | None => inl "Invalid hex" end |}.

Lemma hex_value_digit z : 0 ≤ z < 16 → hex_value (hex_digit z) = Some z.
Proof.
intros Hz. assert (z ∈ seqZ 0 16) as Hin by (apply elem_of_seqZ; lia).
clear Hz. revert z Hin. apply Forall_forall. repeat constructor.
Qed.

Lemma toy_hex_roundtrip l : toy_hex_decode (toy_hex_encode l) = Some l.
Proof.
induction l as [|b l IH]; [done|]. cbn [toy_hex_encode toy_hex_decode].
pose proof (u8_to_Z_range b).
rewrite !hex_value_digit
  by first [split; [apply Z.div_pos; lia|apply Z.div_lt_upper_bound; lia]|apply Z.mod_pos_bound; lia].
rg_step. rewrite IH. rg_step. do 2 f_equal.
rewrite <-(u8_of_to b). f_equal. rewrite u8_of_to. symmetry. apply Z.div_mod. lia.
Qed.

Lemma toy_crypto_laws : CryptoLaws (H := toy_crypto).
Proof.
split; intros; [apply le_bytes_length..|]. simpl. by rewrite toy_hex_roundtrip.
Qed.

(** A lossless encoding of any countable message: the little endian bytes of its
    number. *)
Definition count_proto (A : Type) `{Countable A} : Proto A := {|
  encode_to_vec := λ a,
    let z := Zpos (encode a) in le_bytes (Z.to_nat (Z.log2 z + 1)) z;
  proto_decode := λ l,
    match decode (Z.to_pos (le_value l)) with Some a => inr a | None => inl "invalid" end |}.

Lemma count_proto_laws A `{Countable A} : ProtoLaws A (H := count_proto A).
Proof.
intros a. cbn -[le_bytes Z.log2]. rewrite le_value_bytes.
set (z := Zpos (encode a)). pose proof (Z.log2_nonneg z).
rewrite Z2Nat.id, Z.mod_small; [|split; [done|]|lia].
- unfold z. simpl. by rewrite decode_encode.
- destruct (Z.log2_spec z) as [_ Hz]; [done|]. eapply Z.lt_le_trans; [exact Hz|].
  unfold Z.succ. apply Z.pow_le_mono_l. lia.
Qed.

(** A fixed-size digest-like encoding, for witnesses that are evaluated. *)
Definition const_proto (A : Type) (f : A → bytes) : Proto A :=
  {| encode_to_vec := f; proto_decode := λ _, inl "unsupported" |}.

Definition toy_secp : Secp := {|
  secret_key := bytes; secret_public_key := λ sk, sk;
  message_from_slice := λ m, if bool_decide (length m = 32%nat) then None else Some "message size";
  ecdsa_sign := λ m sk, toy_digest 64 (m ++ sk);
  signature_from_compact := λ s, if bool_decide (length s = 64%nat) then None else Some "signature size";
  public_key_from_slice := λ _, None;
  ecdsa_verify := λ m s pk, if bool_decide (s = toy_digest 64 (m ++ pk)) then None else Some "incorrect";
  signed_msg_hash := λ s, toy_digest 32 (String.list_byte_of_string s);
  btc_key_from_slice := λ _, None;
  p2wpkh := λ main pk, inr (toy_hex_encode pk) |}.

Lemma toy_secp_laws : SecpLaws (H := toy_secp).
Proof.
split; intros; cbn -[toy_digest]; try done; rewrite bool_decide_eq_true_2; done.
Qed.
