(* ===== verification/Wire.v ===== *)
(** * A concrete wire format

    A lossless prefix code for the protobuf messages, so that the witnesses can run
    the store and the ledger on concrete transactions: integers are a sign byte and
    binary digits with a terminator, lists and options are marked element by
    element, records are the concatenation of their fields.  It stands in for
    prost and satisfies the law the theorems ask of it ([ser_proto_laws]). *)

From stdpp Require Import base list strings.
From S2P Require Import Prelude Structs Interfaces.
#[local] Open Scope Z_scope.

(** [deser] reads one value off the front and returns the rest. *)
Class Ser (A : Type) := {
  ser : A → bytes;
  deser : bytes → option (A * bytes);
  deser_ser : ∀ a rest, deser (ser a ++ rest) = Some (a, rest) }.

Fixpoint ser_pos (p : positive) : bytes :=
  match p with
  | xH => [Byte.x02]
  | xO p => Byte.x00 :: ser_pos p
  | xI p => Byte.x01 :: ser_pos p
  end.
Fixpoint deser_pos (l : bytes) : option (positive * bytes) :=
  match l with
  | Byte.x02 :: l => Some (xH, l)
  | Byte.x00 :: l => '(p, l) ← deser_pos l; Some (xO p, l)
  | Byte.x01 :: l => '(p, l) ← deser_pos l; Some (xI p, l)
  | _ => None
  end.
Lemma deser_ser_pos p rest : deser_pos (ser_pos p ++ rest) = Some (p, rest).
Proof. induction p as [p IH|p IH|]; simpl; rewrite ?IH; done. Qed.

#[global] Instance ser_Z : Ser Z.
Proof.
refine ({|
  ser z := match z with Z0 => [Byte.x00] | Zpos p => Byte.x01 :: ser_pos p | Zneg p => Byte.x02 :: ser_pos p end;
  deser l := match l with
             | Byte.x00 :: l => Some (0, l)
             | Byte.x01 :: l => '(p, l) ← deser_pos l; Some (Zpos p, l)
             | Byte.x02 :: l => '(p, l) ← deser_pos l; Some (Zneg p, l)
             | _ => None
             end |} : Ser Z).
intros [|p|p] rest; simpl; [done|by rewrite deser_ser_pos..].
Defined.

#[global] Instance ser_byte : Ser u8.
Proof.
refine ({|
  ser (b : u8) := [b]; deser l := match l with b :: l => Some (b, l) | [] => None end |} : Ser u8).
done.
Defined.

#[global] Instance ser_bool : Ser bool.
Proof.
refine ({|
  ser (b : bool) := [if b then Byte.x01 else Byte.x00];
  deser l := match l with Byte.x01 :: l => Some (true, l) | Byte.x00 :: l => Some (false, l) | _ => None end |} : Ser bool).
by intros [] rest.
Defined.

#[global] Instance ser_option {A} `{Ser A} : Ser (option A).
Proof.
refine ({|
  ser (o : option A) := match o with Some a => Byte.x01 :: ser a | None => [Byte.x00] end;
  deser l := match l with
             | Byte.x01 :: l => '(a, l) ← deser l; Some (Some a, l)
             | Byte.x00 :: l => Some (None, l)
             | _ => None
             end |} : Ser (option A)).
intros [a|] rest; simpl; [by rewrite deser_ser|done].
Defined.

#[global] Instance ser_prod {A B} `{Ser A, Ser B} : Ser (A * B).
Proof.
refine ({|
  ser (p : A * B) := ser p.1 ++ ser p.2;
  deser l := '(a, l) ← deser l; '(b, l) ← deser l; Some ((a, b), l) |} : Ser (A * B)).
intros [a b] rest. simpl. rewrite <-app_assoc, deser_ser. simpl. by rewrite deser_ser.
Defined.

(** Lists are read with as much fuel as there are bytes. *)
Section ser_list.
Context {A : Type} {HA : Ser A}.
Fixpoint ser_items (l : list A) : bytes :=
  match l with [] => [Byte.x00] | a :: l => Byte.x01 :: ser a ++ ser_items l end.
Fixpoint deser_items (fuel : nat) (l : bytes) : option (list A * bytes) :=
  match fuel, l with
  | S fuel, Byte.x01 :: l => '(a, l) ← deser l; '(k, l) ← deser_items fuel l; Some (a :: k, l)
  | S _, Byte.x00 :: l => Some ([], l)
  | _, _ => None
  end.
Lemma deser_ser_items fuel l rest :
  (length (ser_items l) ≤ fuel)%nat → deser_items fuel (ser_items l ++ rest) = Some (l, rest).
Proof.
revert fuel. induction l as [|a l IH]; intros [|fuel] Hf; simpl in Hf; try lia; [done|].
simpl. rewrite <-app_assoc, deser_ser. simpl. rewrite length_app in Hf. by rewrite IH by lia.
Qed.
End ser_list.

#[global] Instance ser_list {A} `{Ser A} : Ser (list A).
Proof.
refine ({|
  ser (l : list A) := ser_items l; deser l := deser_items (length l) l |} : Ser (list A)).
intros l rest. apply deser_ser_items. rewrite length_app. lia.
Defined.

#[global] Instance ser_string : Ser string.
Proof.
refine ({|
  ser (s : string) := ser (String.list_byte_of_string s);
  deser l := '(b, l) ← deser l; Some (String.string_of_list_byte b, l) |} : Ser string).
intros s rest. rewrite deser_ser. simpl. by rewrite String.string_of_list_byte_of_string.
Defined.

(** A record through the tuple of its fields. *)
Definition ser_via {A B} `{Ser B} (f : A → B) (g : B → A) (Hgf : ∀ a, g (f a) = a) : Ser A.
Proof.
refine {| ser a := ser (f a); deser l := '(b, l) ← deser l; Some (g b, l) |}.
intros a rest. rewrite deser_ser. simpl. by rewrite Hgf.
Defined.

#[global] Instance ser_BytesData : Ser BytesData :=
  ser_via (λ r, (bd_value r, bd_decoder r, bd_version r)) (λ '(x0, x1, x2), {| bd_value := x0;
  bd_decoder := x1; bd_version := x2 |}) (λ r, match r with Build_BytesData _ _ _ => eq_refl end).
#[global] Instance ser_Hash : Ser Hash :=
  ser_via (λ r, (h_bytes r, h_format_type r, h_type r)) (λ '(x0, x1, x2), {| h_bytes := x0;
  h_format_type := x1; h_type := x2 |}) (λ r, match r with Build_Hash _ _ _ => eq_refl end).
#[global] Instance ser_Address : Ser Address :=
  ser_via (λ r, (a_address r, a_type r, a_currency r)) (λ '(x0, x1, x2), {| a_address := x0; a_type :=
  x1; a_currency := x2 |}) (λ r, match r with Build_Address _ _ _ => eq_refl end).
#[global] Instance ser_RsvSignature : Ser RsvSignature :=
  ser_via (λ r, (rsv_r r, rsv_s r, rsv_v r)) (λ '(x0, x1, x2), {| rsv_r := x0; rsv_s := x1; rsv_v :=
  x2 |}) (λ r, match r with Build_RsvSignature _ _ _ => eq_refl end).
#[global] Instance ser_Signature : Ser Signature :=
  ser_via (λ r, (sig_bytes r, sig_type r, sig_rsv r)) (λ '(x0, x1, x2), {| sig_bytes := x0; sig_type
  := x1; sig_rsv := x2 |}) (λ r, match r with Build_Signature _ _ _ => eq_refl end).
#[global] Instance ser_PublicKey : Ser PublicKey :=
  ser_via (λ r, (pk_bytes r, pk_key_type r)) (λ '(x0, x1), {| pk_bytes := x0; pk_key_type := x1 |}) (λ
  r, match r with Build_PublicKey _ _ => eq_refl end).
#[global] Instance ser_Proof_ : Ser Proof_ :=
  ser_via (λ r, (pf_signature r, pf_public_key r)) (λ '(x0, x1), {| pf_signature := x0; pf_public_key
  := x1 |}) (λ r, match r with Build_Proof_ _ _ => eq_refl end).
#[global] Instance ser_PeerId : Ser PeerId :=
  ser_via (λ r, (pi_peer_id r, pi_known_proof r)) (λ '(x0, x1), {| pi_peer_id := x0; pi_known_proof :=
  x1 |}) (λ r, match r with Build_PeerId _ _ => eq_refl end).
#[global] Instance ser_StructMetadata : Ser StructMetadata :=
  ser_via (λ r, (sm_time r, sm_version r, sm_hash r, sm_signable_hash r, sm_signed_hash r,
  sm_counter_party_hash r, sm_confirmation_hash r)) (λ '(x0, x1, x2, x3, x4, x5, x6), {| sm_time :=
  x0; sm_version := x1; sm_hash := x2; sm_signable_hash := x3; sm_signed_hash := x4;
  sm_counter_party_hash := x5; sm_confirmation_hash := x6 |}) (λ r, match r with Build_StructMetadata
  _ _ _ _ _ _ _ => eq_refl end).
#[global] Instance ser_ProductId : Ser ProductId :=
  ser_via (λ r, (prd_network r, prd_product r)) (λ '(x0, x1), {| prd_network := x0; prd_product := x1
  |}) (λ r, match r with Build_ProductId _ _ => eq_refl end).
#[global] Instance ser_UtxoId : Ser UtxoId :=
  ser_via (λ r, (u_transaction_hash r, u_output_index r)) (λ '(x0, x1), {| u_transaction_hash := x0;
  u_output_index := x1 |}) (λ r, match r with Build_UtxoId _ _ => eq_refl end).
#[global] Instance ser_CurrencyAmount : Ser CurrencyAmount :=
  ser_via (λ r, (ca_amount r, ca_bytes r, ca_currency r)) (λ '(x0, x1, x2), {| ca_amount := x0;
  ca_bytes := x1; ca_currency := x2 |}) (λ r, match r with Build_CurrencyAmount _ _ _ => eq_refl end).
#[global] Instance ser_Weighting : Ser Weighting :=
  ser_via (λ r, w_value r) (λ x0, {| w_value := x0 |}) (λ r, match r with Build_Weighting _ => eq_refl
  end).
#[global] Instance ser_AddressSelector : Ser AddressSelector :=
  ser_via (λ r, (as_address r, as_requires_output_contract_predicate_match r)) (λ '(x0, x1), {|
  as_address := x0; as_requires_output_contract_predicate_match := x1 |}) (λ r, match r with
  Build_AddressSelector _ _ => eq_refl end).
#[global] Instance ser_FloatingUtxoId : Ser FloatingUtxoId :=
  ser_via (λ r, fu_address_selector r) (λ x0, {| fu_address_selector := x0 |}) (λ r, match r with
  Build_FloatingUtxoId _ => eq_refl end).
#[global] Instance ser_ExternalTransactionId : Ser ExternalTransactionId :=
  ser_via (λ r, ext_identifier r) (λ x0, {| ext_identifier := x0 |}) (λ r, match r with
  Build_ExternalTransactionId _ => eq_refl end).
#[global] Instance ser_StateSelector : Ser StateSelector :=
  ser_via (λ _, false) (λ _, mk_StateSelector) (λ s, match s with mk_StateSelector => eq_refl end).
#[global] Instance ser_TrustData : Ser TrustData :=
  ser_via (λ r, (td_label_rating r, td_confidence r, td_hardness r, td_data_encoded r,
  td_allow_model_override r, td_rating_type r)) (λ '(x0, x1, x2, x3, x4, x5), {| td_label_rating :=
  x0; td_confidence := x1; td_hardness := x2; td_data_encoded := x3; td_allow_model_override := x4;
  td_rating_type := x5 |}) (λ r, match r with Build_TrustData _ _ _ _ _ _ => eq_refl end).
#[global] Instance ser_TrustRatingLabel : Ser TrustRatingLabel :=
  ser_via (λ r, (trl_peer_id r, trl_trust_data r)) (λ '(x0, x1), {| trl_peer_id := x0; trl_trust_data
  := x1 |}) (λ r, match r with Build_TrustRatingLabel _ _ => eq_refl end).
#[global] Instance ser_PartitionInfo : Ser PartitionInfo :=
  ser_via (λ r, (pti_utxo r, pti_contract_address r, pti_transaction_hash r, pti_address r)) (λ '(x0,
  x1, x2, x3), {| pti_utxo := x0; pti_contract_address := x1; pti_transaction_hash := x2; pti_address
  := x3 |}) (λ r, match r with Build_PartitionInfo _ _ _ _ => eq_refl end).
#[global] Instance ser_TransportInfo : Ser TransportInfo :=
  ser_via (λ r, (ti_external_ipv4 r, ti_external_ipv6 r, ti_external_host r, ti_port_offset r,
  ti_nat_restricted r)) (λ '(x0, x1, x2, x3, x4), {| ti_external_ipv4 := x0; ti_external_ipv6 := x1;
  ti_external_host := x2; ti_port_offset := x3; ti_nat_restricted := x4 |}) (λ r, match r with
  Build_TransportInfo _ _ _ _ _ => eq_refl end).
#[global] Instance ser_VersionInfo : Ser VersionInfo :=
  ser_via (λ r, (vi_executable_checksum r, vi_commit_hash r, vi_next_executable_checksum r,
  vi_next_upgrade_time r, vi_build_number r)) (λ '(x0, x1, x2, x3, x4), {| vi_executable_checksum :=
  x0; vi_commit_hash := x1; vi_next_executable_checksum := x2; vi_next_upgrade_time := x3;
  vi_build_number := x4 |}) (λ r, match r with Build_VersionInfo _ _ _ _ _ => eq_refl end).
#[global] Instance ser_PartyId : Ser PartyId :=
  ser_via (λ r, (pty_public_key r, pty_owner r)) (λ '(x0, x1), {| pty_public_key := x0; pty_owner :=
  x1 |}) (λ r, match r with Build_PartyId _ _ => eq_refl end).
#[global] Instance ser_NodeMetadata : Ser NodeMetadata :=
  ser_via (λ r, (nm_transport_info r, nm_public_key r, nm_node_type r, nm_version_info r,
  nm_partition_info r, nm_node_name r, nm_peer_id r, nm_parties r)) (λ '(x0, x1, x2, x3, x4, x5, x6,
  x7), {| nm_transport_info := x0; nm_public_key := x1; nm_node_type := x2; nm_version_info := x3;
  nm_partition_info := x4; nm_node_name := x5; nm_peer_id := x6; nm_parties := x7 |}) (λ r, match r
  with Build_NodeMetadata _ _ _ _ _ _ _ _ => eq_refl end).
#[global] Instance ser_IdentityMetadata : Ser IdentityMetadata :=
  ser_via (λ r, (idm_github_username r, idm_website r, idm_full_name r, idm_username r, idm_email r,
  idm_discord_id r, idm_twitter r)) (λ '(x0, x1, x2, x3, x4, x5, x6), {| idm_github_username := x0;
  idm_website := x1; idm_full_name := x2; idm_username := x3; idm_email := x4; idm_discord_id := x5;
  idm_twitter := x6 |}) (λ r, match r with Build_IdentityMetadata _ _ _ _ _ _ _ => eq_refl end).
#[global] Instance ser_PortfolioWeighting : Ser PortfolioWeighting :=
  ser_via (λ r, (pw_currency r, pw_product_id r, pw_weight r)) (λ '(x0, x1, x2), {| pw_currency := x0;
  pw_product_id := x1; pw_weight := x2 |}) (λ r, match r with Build_PortfolioWeighting _ _ _ =>
  eq_refl end).
#[global] Instance ser_PortfolioInfo : Ser PortfolioInfo :=
  ser_via (λ r, pfi_weightings r) (λ x0, {| pfi_weightings := x0 |}) (λ r, match r with
  Build_PortfolioInfo _ => eq_refl end).
#[global] Instance ser_PeerMetadata : Ser PeerMetadata :=
  ser_via (λ r, (pm_peer_id r, pm_node_metadata r, pm_labels r, pm_version_info r, pm_reward_address
  r, pm_sponsored_address r, pm_identity_metadata r, pm_network_environment r, pm_portfolio_info r))
  (λ '(x0, x1, x2, x3, x4, x5, x6, x7, x8), {| pm_peer_id := x0; pm_node_metadata := x1; pm_labels :=
  x2; pm_version_info := x3; pm_reward_address := x4; pm_sponsored_address := x5; pm_identity_metadata
  := x6; pm_network_environment := x7; pm_portfolio_info := x8 |}) (λ r, match r with
  Build_PeerMetadata _ _ _ _ _ _ _ _ _ => eq_refl end).
#[global] Instance ser_DynamicNodeMetadata : Ser DynamicNodeMetadata :=
  ser_via (λ r, (dnm_udp_port r, dnm_proof r, dnm_peer_id r, dnm_sequence r)) (λ '(x0, x1, x2, x3), {|
  dnm_udp_port := x0; dnm_proof := x1; dnm_peer_id := x2; dnm_sequence := x3 |}) (λ r, match r with
  Build_DynamicNodeMetadata _ _ _ _ => eq_refl end).
#[global] Instance ser_ObservationMetadata : Ser ObservationMetadata :=
  ser_via (λ r, (om_observed_hash r, om_observation_type r, om_state r, om_validation_confidence r,
  om_struct_metadata r, om_validation_liveness r, om_liveness_confidence r)) (λ '(x0, x1, x2, x3, x4,
  x5, x6), {| om_observed_hash := x0; om_observation_type := x1; om_state := x2;
  om_validation_confidence := x3; om_struct_metadata := x4; om_validation_liveness := x5;
  om_liveness_confidence := x6 |}) (λ r, match r with Build_ObservationMetadata _ _ _ _ _ _ _ =>
  eq_refl end).
#[global] Instance ser_Observation : Ser Observation :=
  ser_via (λ r, (ob_merkle_root r, ob_observations r, ob_parent_id r, ob_ancestor_merkle_roots r)) (λ
  '(x0, x1, x2, x3), {| ob_merkle_root := x0; ob_observations := x1; ob_parent_id := x2;
  ob_ancestor_merkle_roots := x3 |}) (λ r, match r with Build_Observation _ _ _ _ => eq_refl end).
#[global] Instance ser_MerkleProof : Ser MerkleProof :=
  ser_via (λ r, (mp_root r, mp_leaf r, mp_nodes r)) (λ '(x0, x1, x2), {| mp_root := x0; mp_leaf := x1;
  mp_nodes := x2 |}) (λ r, match r with Build_MerkleProof _ _ _ => eq_refl end).
#[global] Instance ser_ObservationProof : Ser ObservationProof :=
  ser_via (λ r, (op_observation_hash r, op_merkle_proof r, op_metadata r, op_proof r)) (λ '(x0, x1,
  x2, x3), {| op_observation_hash := x0; op_merkle_proof := x1; op_metadata := x2; op_proof := x3 |})
  (λ r, match r with Build_ObservationProof _ _ _ _ => eq_refl end).
#[global] Instance ser_TypedValue : Ser TypedValue :=
  ser_via (λ r, (tv_bytes_value r, tv_string_value r, tv_uint64_value r, tv_int64_value r,
  tv_float_value r, tv_double_value r, tv_bool_value r)) (λ '(x0, x1, x2, x3, x4, x5, x6), {|
  tv_bytes_value := x0; tv_string_value := x1; tv_uint64_value := x2; tv_int64_value := x3;
  tv_float_value := x4; tv_double_value := x5; tv_bool_value := x6 |}) (λ r, match r with
  Build_TypedValue _ _ _ _ _ _ _ => eq_refl end).
#[global] Instance ser_KeyedTypedValue : Ser KeyedTypedValue :=
  ser_via (λ r, (ktv_key r, ktv_value r)) (λ '(x0, x1), {| ktv_key := x0; ktv_value := x1 |}) (λ r,
  match r with Build_KeyedTypedValue _ _ => eq_refl end).
#[global] Instance ser_MatrixTypedValue : Ser MatrixTypedValue :=
  ser_via (λ r, (mtv_key_i r, mtv_key_j r, mtv_value r)) (λ '(x0, x1, x2), {| mtv_key_i := x0;
  mtv_key_j := x1; mtv_value := x2 |}) (λ r, match r with Build_MatrixTypedValue _ _ _ => eq_refl
  end).
#[global] Instance ser_GenericTypedValue : Ser GenericTypedValue :=
  ser_via (λ r, (gtv_typed_value r, gtv_typed_value_list r, gtv_keyed_typed_value r,
  gtv_keyed_typed_value_list r, gtv_matrix_typed_value r, gtv_matrix_typed_value_list r)) (λ '(x0, x1,
  x2, x3, x4, x5), {| gtv_typed_value := x0; gtv_typed_value_list := x1; gtv_keyed_typed_value := x2;
  gtv_keyed_typed_value_list := x3; gtv_matrix_typed_value := x4; gtv_matrix_typed_value_list := x5
  |}) (λ r, match r with Build_GenericTypedValue _ _ _ _ _ _ => eq_refl end).
#[global] Instance ser_LiquidityRange : Ser LiquidityRange :=
  ser_via (λ r, (lra_min_inclusive r, lra_max_exclusive r, lra_disable_dynamic_fee r,
  lra_desired_fee_fraction r, lra_allocation_fraction r)) (λ '(x0, x1, x2, x3, x4), {|
  lra_min_inclusive := x0; lra_max_exclusive := x1; lra_disable_dynamic_fee := x2;
  lra_desired_fee_fraction := x3; lra_allocation_fraction := x4 |}) (λ r, match r with
  Build_LiquidityRange _ _ _ _ _ => eq_refl end).
#[global] Instance ser_LiquidityWithdrawal : Ser LiquidityWithdrawal :=
  ser_via (λ r, lw_destination r) (λ x0, {| lw_destination := x0 |}) (λ r, match r with
  Build_LiquidityWithdrawal _ => eq_refl end).
#[global] Instance ser_LiquidityDeposit : Ser LiquidityDeposit :=
  ser_via (λ r, ld_liquidity_ranges r) (λ x0, {| ld_liquidity_ranges := x0 |}) (λ r, match r with
  Build_LiquidityDeposit _ => eq_refl end).
#[global] Instance ser_LiquidityRequest : Ser LiquidityRequest :=
  ser_via (λ r, (lr_deposit r, lr_withdrawal r)) (λ '(x0, x1), {| lr_deposit := x0; lr_withdrawal :=
  x1 |}) (λ r, match r with Build_LiquidityRequest _ _ => eq_refl end).
#[global] Instance ser_StandardRequest : Ser StandardRequest :=
  ser_via (λ r, sr_selector r) (λ x0, {| sr_selector := x0 |}) (λ r, match r with
  Build_StandardRequest _ => eq_refl end).
#[global] Instance ser_SchemaDef : Ser SchemaDef :=
  ser_via (λ r, sd_parquet r) (λ x0, {| sd_parquet := x0 |}) (λ r, match r with Build_SchemaDef _ =>
  eq_refl end).
#[global] Instance ser_StandardData : Ser StandardData :=
  ser_via (λ r, (d_amount r, d_generic_typed_value r, d_peer_data r, d_node_metadata r,
  d_dynamic_node_metadata r, d_height r, d_data_hash r, d_hash r, d_observation r, d_address r,
  d_state r, d_request r, d_standard_request r, d_liquidity_request r, d_portfolio_info r,
  d_schema_def r, d_data r, d_aggregate_state_hash r, d_external_transaction_id r)) (λ '(x0, x1, x2,
  x3, x4, x5, x6, x7, x8, x9, x10, x11, x12, x13, x14, x15, x16, x17, x18), {| d_amount := x0;
  d_generic_typed_value := x1; d_peer_data := x2; d_node_metadata := x3; d_dynamic_node_metadata :=
  x4; d_height := x5; d_data_hash := x6; d_hash := x7; d_observation := x8; d_address := x9; d_state
  := x10; d_request := x11; d_standard_request := x12; d_liquidity_request := x13; d_portfolio_info :=
  x14; d_schema_def := x15; d_data := x16; d_aggregate_state_hash := x17; d_external_transaction_id :=
  x18 |}) (λ r, match r with Build_StandardData _ _ _ _ _ _ _ _ _ _ _ _ _ _ _ _ _ _ _ => eq_refl end).
#[global] Instance ser_CodeExecutionContract : Ser CodeExecutionContract :=
  ser_via (λ r, (cec_address r, cec_code r, cec_executor r)) (λ '(x0, x1, x2), {| cec_address := x0;
  cec_code := x1; cec_executor := x2 |}) (λ r, match r with Build_CodeExecutionContract _ _ _ =>
  eq_refl end).
#[global] Instance ser_OutputContract : Ser OutputContract :=
  ser_via (λ r, (oc_standard_contract_type r, oc_code_execution_contract r, oc_threshold r, oc_weights
  r, oc_pay_update_descendents r, oc_consumable r)) (λ '(x0, x1, x2, x3, x4, x5), {|
  oc_standard_contract_type := x0; oc_code_execution_contract := x1; oc_threshold := x2; oc_weights :=
  x3; oc_pay_update_descendents := x4; oc_consumable := x5 |}) (λ r, match r with Build_OutputContract
  _ _ _ _ _ _ => eq_refl end).
#[global] Instance ser_Output : Ser Output :=
  ser_via (λ r, (o_address r, o_product_id r, o_counter_party_proofs r, o_data r, o_contract r,
  o_output_type r, o_utxo_id r)) (λ '(x0, x1, x2, x3, x4, x5, x6), {| o_address := x0; o_product_id :=
  x1; o_counter_party_proofs := x2; o_data := x3; o_contract := x4; o_output_type := x5; o_utxo_id :=
  x6 |}) (λ r, match r with Build_Output _ _ _ _ _ _ _ => eq_refl end).
#[global] Instance ser_Input : Ser Input :=
  ser_via (λ r, (i_utxo_id r, i_proof r, i_product_id r, i_output r, i_floating_utxo_id r,
  i_input_type r)) (λ '(x0, x1, x2, x3, x4, x5), {| i_utxo_id := x0; i_proof := x1; i_product_id :=
  x2; i_output := x3; i_floating_utxo_id := x4; i_input_type := x5 |}) (λ r, match r with Build_Input
  _ _ _ _ _ _ => eq_refl end).
#[global] Instance ser_TransactionData : Ser TransactionData :=
  ser_via (λ r, (txd_message r, txd_time r, txd_standard_data r)) (λ '(x0, x1, x2), {| txd_message :=
  x0; txd_time := x1; txd_standard_data := x2 |}) (λ r, match r with Build_TransactionData _ _ _ =>
  eq_refl end).
#[global] Instance ser_TimeLockWindow : Ser TimeLockWindow :=
  ser_via (λ r, (tlw_delay r, tlw_offset r, tlw_window_size r)) (λ '(x0, x1, x2), {| tlw_delay := x0;
  tlw_offset := x1; tlw_window_size := x2 |}) (λ r, match r with Build_TimeLockWindow _ _ _ => eq_refl
  end).
#[global] Instance ser_KeyValueOption : Ser KeyValueOption :=
  ser_via (λ r, (kvo_key r, kvo_value r)) (λ '(x0, x1), {| kvo_key := x0; kvo_value := x1 |}) (λ r,
  match r with Build_KeyValueOption _ _ => eq_refl end).
#[global] Instance ser_PoWProof : Ser PoWProof :=
  ser_via (λ r, (pow_proof_type r, pow_nonce r)) (λ '(x0, x1), {| pow_proof_type := x0; pow_nonce :=
  x1 |}) (λ r, match r with Build_PoWProof _ _ => eq_refl end).
#[global] Instance ser_TransactionContract : Ser TransactionContract :=
  ser_via (λ r, (txc_confirmation r, txc_confirmation_proofs r, txc_finalize_window r, txc_lock_period
  r, txc_network_reversible r, txc_time_lock_window r, txc_options r, txc_pow_proof r)) (λ '(x0, x1,
  x2, x3, x4, x5, x6, x7), {| txc_confirmation := x0; txc_confirmation_proofs := x1;
  txc_finalize_window := x2; txc_lock_period := x3; txc_network_reversible := x4; txc_time_lock_window
  := x5; txc_options := x6; txc_pow_proof := x7 |}) (λ r, match r with Build_TransactionContract _ _ _
  _ _ _ _ _ => eq_refl end).
#[global] Instance ser_TimeSponsor : Ser TimeSponsor :=
  ser_via (λ r, (ts_time r, ts_proof r)) (λ '(x0, x1), {| ts_time := x0; ts_proof := x1 |}) (λ r,
  match r with Build_TimeSponsor _ _ => eq_refl end).
#[global] Instance ser_TransactionOptions : Ser TransactionOptions :=
  ser_via (λ r, (txo_salt r, txo_network_type r, txo_key_value_options r, txo_data r, txo_contract r,
  txo_time_sponsor r, txo_is_test r)) (λ '(x0, x1, x2, x3, x4, x5, x6), {| txo_salt := x0;
  txo_network_type := x1; txo_key_value_options := x2; txo_data := x3; txo_contract := x4;
  txo_time_sponsor := x5; txo_is_test := x6 |}) (λ r, match r with Build_TransactionOptions _ _ _ _ _
  _ _ => eq_refl end).
#[global] Instance ser_Transaction : Ser Transaction :=
  ser_via (λ r, (tx_inputs r, tx_outputs r, tx_struct_metadata r, tx_options r)) (λ '(x0, x1, x2, x3),
  {| tx_inputs := x0; tx_outputs := x1; tx_struct_metadata := x2; tx_options := x3 |}) (λ r, match r
  with Build_Transaction _ _ _ _ => eq_refl end).
#[global] Instance ser_UtxoEntry : Ser UtxoEntry :=
  ser_via (λ r, (ue_utxo_id r, ue_output r, ue_time r)) (λ '(x0, x1, x2), {| ue_utxo_id := x0;
  ue_output := x1; ue_time := x2 |}) (λ r, match r with Build_UtxoEntry _ _ _ => eq_refl end).

(** prost's place taken by the format. *)
Definition ser_proto (A : Type) `{Ser A} : Proto A := {|
  encode_to_vec := ser;
  proto_decode := λ l, match deser l with Some (a, []) => inr a | _ => inl "invalid message" end |}.

Lemma ser_proto_laws A `{Ser A} : ProtoLaws A (H := ser_proto A).
Proof.
intros a. cbn. rewrite <-(app_nil_r (ser a)), deser_ser. done.
Qed.
