(* ===== verification/F64.v ===== *)
(** * [f64]

    The 64-bit floats of Rust (IEEE 754 binary64) as the executable
    [SpecFloat] of the standard library: 53 bits of precision, round to nearest
    even. *)

From Stdlib Require Import ZArith Lia.
From Stdlib Require Import SpecFloat.

Definition f64 : Type := spec_float.
Definition f64_add : f64 -> f64 -> f64 := SFadd 53 1024.
Definition f64_sub : f64 -> f64 -> f64 := SFsub 53 1024.
Definition f64_mul : f64 -> f64 -> f64 := SFmul 53 1024.
Definition f64_div : f64 -> f64 -> f64 := SFdiv 53 1024.
Definition f64_of_Z (z : Z) : f64 := binary_normalize 53 1024 z 0 false.
Definition f64_zero : f64 := S754_zero false.
Definition f64_ltb : f64 -> f64 -> bool := SFltb.
Definition f64_leb : f64 -> f64 -> bool := SFleb.
Definition f64_eqb : f64 -> f64 -> bool := SFeqb.

(** A decimal literal [m * 10^-k] whose two integers are exact. *)
Definition f64_dec (m k : Z) : f64 := f64_div (f64_of_Z m) (f64_of_Z (10 ^ k)).

Definition f64_is_nan (x : f64) : bool := match x with S754_nan => true | _ => false end.
Definition f64_is_infinite (x : f64) : bool := match x with S754_infinity _ => true | _ => false end.
(** A NaN that reaches the test is not looked at: every use asks [is_nan] first. *)
Definition f64_is_sign_negative (x : f64) : bool :=
  match x with S754_zero s | S754_infinity s | S754_finite s _ _ => s | S754_nan => false end.
(** [f64::max]: a NaN loses. *)
Definition f64_max (x y : f64) : f64 :=
  if f64_is_nan x then y else if f64_is_nan y then x else if f64_ltb x y then y else x.

(** The integer part of a magnitude, and the nearest integer, ties away from zero. *)
Definition f64_trunc_mag (m : positive) (e : Z) : Z :=
  (if 0 <=? e then Zpos m * 2 ^ e else Zpos m / 2 ^ (- e))%Z.
Definition f64_round_mag (m : positive) (e : Z) : Z :=
  (if 0 <=? e then Zpos m * 2 ^ e else (Zpos m + 2 ^ (- e - 1)) / 2 ^ (- e))%Z.
(** [x.round()]; the sign of a zero result does not matter to the casts. *)
Definition f64_round (x : f64) : f64 :=
  match x with
  | S754_finite s m e => let z := f64_round_mag m e in f64_of_Z (if s then - z else z)%Z
  | _ => x
  end.
(** [x as u64]: toward zero, saturating, NaN to zero. *)
Definition f64_to_u64 (x : f64) : Z :=
  match x with
  | S754_zero _ | S754_nan => 0
  | S754_infinity s => if s then 0 else 2 ^ 64 - 1
  | S754_finite s m e => if s then 0 else Z.min (f64_trunc_mag m e) (2 ^ 64 - 1)
  end%Z.

(** [x as i64]: toward zero, saturating, NaN to zero. *)
Definition f64_to_i64 (x : f64) : Z :=
  match x with
  | S754_zero _ | S754_nan => 0
  | S754_infinity s => if s then - 2 ^ 63 else 2 ^ 63 - 1
  | S754_finite s m e => if s then Z.max (- f64_trunc_mag m e) (- 2 ^ 63) else Z.min (f64_trunc_mag m e) (2 ^ 63 - 1)
  end%Z.
(** [x.sqrt()] and [x.abs()]. *)
Definition f64_sqrt : f64 -> f64 := SFsqrt 53 1024.
Definition f64_abs : f64 -> f64 := SFabs.

(** [f64::powf] and [f64::powi], whose precision the standard library leaves open. *)
Class Libm := { powf : f64 -> f64 -> f64; powi : f64 -> Z -> f64 }.

Lemma f64_to_u64_range x : (0 <= f64_to_u64 x < 2 ^ 64)%Z.
Proof.
assert (0 < 2 ^ 64)%Z as H by reflexivity.
destruct x as [s|s| |s m e]; simpl; try (destruct s); try lia.
assert (0 <= f64_trunc_mag m e)%Z; [|lia]. unfold f64_trunc_mag. destruct (0 <=? e)%Z eqn:E.
- apply Z.leb_le in E. apply Z.mul_nonneg_nonneg; [lia|]. apply Z.pow_nonneg. lia.
- apply Z.leb_gt in E. apply Z.div_pos; [lia|]. apply Z.pow_pos_nonneg; lia.
Qed.
