(* ===== verification/Schema.v ===== *)
(** * Schema helpers: errors, options, bytes, hashes, addresses, proofs

    schema/src/lib.rs (error construction, [SafeOption], [SafeBytesAccess]),
    schema/src/errors.rs, schema/src/hash.rs, schema/src/address.rs,
    schema/src/public_key.rs, schema/src/proof.rs, schema/src/signature.rs and
    schema/src/util/xor_distance.rs.

    The sha3, hex and backtrace crates are the classes [Crypto] and [Host] of
    Interfaces.v. *)

From stdpp Require Import base list gmap strings pretty.
From S2P Require Import Prelude Structs Interfaces.
#[local] Open Scope Z_scope.
#[local] Open Scope redgold_scope.

Section schema.
Context {host : Host}.

(** ** Errors (schema/src/lib.rs, schema/src/errors.rs) *)

(** [for (i, v) in vec.iter().enumerate() { if i >= start && i <= end { .. } }] *)
Definition slice_vec_eager {A} (vec : list A) (start end_ : nat) : list A :=
  (imap (λ i v, (i, v)) vec)
  |> filter (λ iv, (start ≤ iv.1 ∧ iv.1 ≤ end_)%nat) |> map snd.

(** [str::split] on a one-character separator. *)
Fixpoint split_to_str (s : string) (c : Ascii.ascii) : list string :=
  match s with
  | EmptyString => [EmptyString]
  | String a s' =>
      if Ascii.eqb a c then EmptyString :: split_to_str s' c
      else match split_to_str s' c with
           | [] => [String a EmptyString]
           | w :: ws => String a w :: ws
           end
  end.

Definition newline : Ascii.ascii := Ascii.Ascii false true false true false false false false.

Definition error_msg (code : ErrorCode) (message lib_message : string) : ErrorInfo :=
  let stacktrace_abridged := split_to_str backtrace newline in
  let stack := String.concat (String newline EmptyString) (slice_vec_eager stacktrace_abridged 0 50) in
  let details := map (λ '(k, v), {| ed_name := k; ed_detail := v |}) get_task_local in
  {| ei_code := code; ei_description := ""; ei_description_extended := "";
     ei_message := message; ei_details := details; ei_retriable := false;
     ei_stacktrace := stack; ei_lib_message := lib_message; ei_abort := false |}.

Definition error_message (code : ErrorCode) (message : string) : ErrorInfo :=
  error_msg code message "".
Definition error_info (message : string) : ErrorInfo := error_message UnknownError message.
Definition error_code (code : ErrorCode) : ErrorInfo := error_message code "".

Definition ErrorInfo_response_metadata (e : ErrorInfo) : ResponseMetadata :=
  {| rm_success := false; rm_error_info := Some e; rm_task_local_details := [];
     rm_request_id := None; rm_trace_id := None |}.

Definition enhance (e : ErrorInfo) (message : string) : ErrorInfo :=
  {| ei_code := ei_code e; ei_description := ei_description e;
     ei_description_extended := ei_description_extended e;
     ei_message := (ei_message e +:+ " " +:+ message +:+ " ");
     ei_details := ei_details e; ei_retriable := ei_retriable e;
     ei_stacktrace := ei_stacktrace e; ei_lib_message := ei_lib_message e;
     ei_abort := ei_abort e |}.

Definition with_detail (e : ErrorInfo) (k v : string) : ErrorInfo :=
  {| ei_code := ei_code e; ei_description := ei_description e;
     ei_description_extended := ei_description_extended e; ei_message := ei_message e;
     ei_details := ei_details e ++ [{| ed_name := k; ed_detail := v |}];
     ei_retriable := ei_retriable e; ei_stacktrace := ei_stacktrace e;
     ei_lib_message := ei_lib_message e; ei_abort := ei_abort e |}.

Definition set_abort (e : ErrorInfo) : ErrorInfo :=
  {| ei_code := ei_code e; ei_description := ei_description e;
     ei_description_extended := ei_description_extended e; ei_message := ei_message e;
     ei_details := ei_details e; ei_retriable := ei_retriable e;
     ei_stacktrace := ei_stacktrace e; ei_lib_message := ei_lib_message e;
     ei_abort := true |}.

(** [EnhanceErrorInfo for RgResult]: [add], [mark_abort], [with_detail]. *)
Definition add_msg {A} (r : RgResult A) (message : string) : RgResult A :=
  map_err (λ e, enhance e message) r.
Definition mark_abort {A} (r : RgResult A) : RgResult A := map_err set_abort r.
Definition result_with_detail {A} (r : RgResult A) (k v : string) : RgResult A :=
  map_err (λ e, with_detail e k v) r.

(** [SafeOption for Option<T>]. *)
Definition safe_get {A} (o : option A) : RgResult A :=
  ok_or o (error_message MissingField "unspecified optional value").
Definition safe_get_msg {A} (o : option A) (msg : string) : RgResult A :=
  ok_or o (error_message MissingField (msg +:+ " option empty")).
Definition ok_msg {A} (o : option A) (err : string) : RgResult A :=
  ok_or o (error_info err).

(** ** Bytes (schema/src/lib.rs) *)

Definition STANDARD_VERSION : Z := 0.
Definition BytesData_from (data : bytes) : BytesData :=
  {| bd_value := data; bd_decoder := BytesDecoder_Standard; bd_version := STANDARD_VERSION |}.
Definition bytes_data (data : bytes) : option BytesData := Some (BytesData_from data).

(** [SafeBytesAccess] for [Option<BytesData>], [Hash] and [Option<Hash>] (the
    blanket instance), [Option<Address>], [Option<PublicKey>], [Option<PeerId>]. *)
Definition safe_bytes (o : option BytesData) : RgResult bytes :=
  d ← ok_or o (error_message MissingField "bytes data"); Ok (bd_value d).
Definition Hash_safe_bytes (h : Hash) : RgResult bytes := safe_bytes (h_bytes h).
Definition opt_Hash_safe_bytes (o : option Hash) : RgResult bytes :=
  h ← ok_or o (error_message MissingField "Missing safe bytes field"); Hash_safe_bytes h.
Definition opt_Address_safe_bytes (o : option Address) : RgResult bytes :=
  a ← ok_or o (error_message MissingField "address"); safe_bytes (a_address a).
Definition opt_PublicKey_safe_bytes (o : option PublicKey) : RgResult bytes :=
  p ← ok_or o (error_message MissingField "Missing public key"); safe_bytes (pk_bytes p).
Definition opt_PeerId_safe_bytes (o : option PeerId) : RgResult bytes :=
  p ← ok_or o (error_message MissingField "Missing peerid"); opt_PublicKey_safe_bytes (pi_peer_id p).

(** [json_from] of lib.rs, which [EasyJsonDeser::json_from] calls; what serde reads from
    a text is an argument. *)
Definition json_from {A} (from_str : string → string + A) (t : string) : RgResult A :=
  match from_str t with inr a => Ok a | inl e => Err (error_info ("serde json ser error: " +:+ e)) end.

(** [&v[a..b]]: a range outside the vector panics. *)
Definition slice {A} (l : list A) (a b : nat) : RgResult (list A) :=
  if bool_decide ((a ≤ b)%nat ∧ (b ≤ length l)%nat) then Ok (take (b - a) (drop a l)) else Panic.

(** [String::from_utf8]: the standard library's UTF-8 validity. *)
Definition is_cont (b : u8) : bool := (128 <=? u8_to_Z b) && (u8_to_Z b <? 192).
Definition in_range (b : u8) (lo hi : Z) : bool := (lo <=? u8_to_Z b) && (u8_to_Z b <=? hi).
Fixpoint utf8_valid (l : bytes) : bool :=
  match l with
  | [] => true
  | a :: l1 =>
    if in_range a 0 127 then utf8_valid l1 else
    match l1 with
    | [] => false
    | b :: l2 =>
      if in_range a 194 223 then is_cont b && utf8_valid l2 else
      match l2 with
      | [] => false
      | c :: l3 =>
        if in_range a 224 239 then
          (if u8_to_Z a =? 224 then in_range b 160 191
           else if u8_to_Z a =? 237 then in_range b 128 159 else is_cont b)
          && is_cont c && utf8_valid l3
        else
        match l3 with
        | [] => false
        | d :: l4 =>
          in_range a 240 244 &&
          (if u8_to_Z a =? 240 then in_range b 144 191
           else if u8_to_Z a =? 244 then in_range b 128 143 else is_cont b)
          && is_cont c && is_cont d && utf8_valid l4
        end
      end
    end
  end.

Definition from_utf8 (l : bytes) (context : string) : RgResult string :=
  if utf8_valid l then Ok (String.string_of_list_byte l)
  else Err (error_msg UnknownError context (utf8_error_string l)).

(** ** Requests for seeds and responses *)

Definition response_metadata : option ResponseMetadata :=
  Some {| rm_success := true; rm_error_info := None; rm_task_local_details := [];
          rm_request_id := None; rm_trace_id := None |}.

Section crypto.
Context {crypto : Crypto}.

Definition from_hex (hex_value : string) : RgResult bytes :=
  match hex_decode hex_value with
  | inr b => Ok b
  | inl e => Err (error_message HexDecodeFailure
               ("Error decoding hex string value to bytes: " +:+ hex_value +:+ " " +:+ e))
  end.

(** ** Hash (schema/src/hash.rs) *)

Definition Hash_vec (h : Hash) : RgResult bytes := expect (Hash_safe_bytes h).
Definition Hash_hex (h : Hash) : RgResult string := hex_encode <$> Hash_vec h.
Definition Hash_new (v : bytes) : Hash :=
  {| h_bytes := bytes_data v; h_format_type := HashFormatType_Sha3256;
     h_type := HashType_Transaction |}.

Definition validate_size (h : Hash) : RgResult Hash :=
  b ← Hash_safe_bytes h;
  if bool_decide (length b = 32%nat) then Ok h else Err (error_info "Invalid hash size").

Definition Hash_from_hex (s : string) : RgResult Hash :=
  b ← from_hex s; let hash := Hash_new b in _ ← validate_size hash; Ok hash.

Definition digest (s : bytes) : Hash := Hash_new (sha3_256 s).
Definition from_string_calculate (s : string) : Hash := digest (String.list_byte_of_string s).

(** The remainder by [bucket as i64] panics at zero. *)
Definition div_mod (h : Hash) (bucket : Z) : RgResult Z :=
  b ← Hash_vec h;
  if as_i64 bucket =? 0 then Panic else Ok (Z.rem (i64_sum (u8_to_Z <$> b)) (as_i64 bucket)).

Definition merkle_combine (left right : Hash) : RgResult Hash :=
  l ← Hash_vec left; r ← Hash_vec right; Ok (digest (l ++ r)).

Definition checksum (h : Hash) : RgResult bytes := b ← Hash_safe_bytes h; slice b 0 4.
Definition checksum_hex (h : Hash) : RgResult string := hex_encode <$> checksum h.
Definition new_checksum (s : bytes) : RgResult string := checksum_hex (digest s).

Definition xor_vec (h other : Hash) : RgResult bytes :=
  v1 ← Hash_safe_bytes h; v2 ← Hash_safe_bytes other; Ok (zip_with u8_xor v1 v2).
Definition Hash_xor_distance (h other : Hash) : RgResult Z :=
  x ← xor_vec h other; Ok (u64_sum (u8_to_Z <$> x)).

(** ** Distances (schema/src/util/xor_distance.rs) *)

Definition xor_distance (v1 v2 : bytes) : Z := i64_sum (u8_to_Z <$> zip_with u8_xor v1 v2).

Definition xorf_conv_distance (query_hash peer_marker : bytes) : RgResult Z :=
  merged ← Hash_vec (digest (query_hash ++ peer_marker));
  merged2 ← Hash_vec (digest (peer_marker ++ query_hash));
  Ok (i64_sum (u8_to_Z <$> zip_with u8_xor merged merged2)).

Definition PublicKey_bytes (pk : PublicKey) : RgResult bytes := safe_bytes (pk_bytes pk).

Definition xorfc_hash (query_hash : Hash) (pk : PublicKey) : RgResult Z :=
  q ← Hash_vec query_hash; p ← expect (PublicKey_bytes pk); xorf_conv_distance q p.

(** [xorf_conv_distance_subset] on [Vec<NodeMetadata>]. *)
Definition node_distances (other : bytes) (nodes : list NodeMetadata) : RgResult (list (Z * NodeMetadata)) :=
  mapR (λ '(p, n), d ← xorf_conv_distance other p; Ok (d, n))
    (omap (λ n, p ← nm_public_key n; b ← pk_bytes p; Some (bd_value b, n)) nodes).
Definition xorf_conv_distance_subset (nodes : list NodeMetadata) (other : bytes)
    (partition_func : PartitionInfo → option Z) : RgResult (list NodeMetadata) :=
  ds ← node_distances other nodes;
  Ok (ds |> List.filter (λ pn,
        match nm_partition_info pn.2 ≫= partition_func with
        | Some d => d <? pn.1 | None => true end)
      |> sort_by (λ a b, a.1 <=? b.1) |> map snd).

(** [NodeMetadata::hash_in_range] and [tx_in_range] (schema/src/peers.rs). *)
Definition hash_in_range (n : NodeMetadata) (h : Hash) (f : PartitionInfo → option Z) : RgResult bool :=
  match nm_partition_info n ≫= f with
  | Some d => pk ← expect_opt (nm_public_key n); x ← xorfc_hash h pk; Ok (x <? d)
  | None => Ok true
  end.
Definition tx_in_range (n : NodeMetadata) (h : Hash) : RgResult bool :=
  hash_in_range n h pti_transaction_hash.

(** ** Address (schema/src/address.rs) *)

Definition Address_new_raw (address : bytes) : Address :=
  {| a_address := bytes_data address; a_type := AddressType_Sha3224ChecksumPublic;
     a_currency := None |}.
Definition Address_address_data (address : bytes) : option Address := Some (Address_new_raw address).

Definition with_checksum (b : bytes) : RgResult bytes :=
  checksum_bytes ← Hash_vec (digest b);
  c ← slice checksum_bytes 0 4;
  Ok (b ++ c).

Definition Address_hash (buf : bytes) : RgResult bytes := with_checksum (sha3_224 buf).

Definition verify_length (a : Address) : RgResult unit :=
  b ← safe_bytes (a_address a);
  let i := length b in
  if bool_decide (i ≠ 32%nat)
  then Err (error_info ("Invalid address length: " +:+ pretty (N.of_nat i))) else Ok tt.

Definition verify_checksum (a : Address) : RgResult unit :=
  _ ← verify_length a;
  b ← safe_bytes (a_address a);
  body ← slice b 0 28;
  c ← with_checksum body;
  if bool_decide (c ≠ b) then Err (error_info "Invalid address checksum bytes") else Ok tt.

Definition Address_from_bytes (b : bytes) : RgResult Address :=
  let addr := Address_new_raw b in _ ← verify_checksum addr; Ok addr.

Definition Address_from_struct_public (pk : PublicKey) : RgResult Address :=
  b ← safe_bytes (pk_bytes pk); h ← Address_hash b; Address_from_bytes h.

Definition script_hash (input : bytes) : RgResult Address :=
  h ← Address_hash input;
  new ← Address_from_bytes h;
  Ok {| a_address := a_address new; a_type := AddressType_ScriptHash; a_currency := a_currency new |}.

Definition Address_from_bitcoin (address : string) : Address :=
  {| a_address := bytes_data (String.list_byte_of_string address);
     a_type := AddressType_BitcoinExternalString;
     a_currency := Some SupportedCurrency_Bitcoin |}.
Definition Address_from_eth (address : string) : Address :=
  {| a_address := bytes_data (String.list_byte_of_string address);
     a_type := AddressType_EthereumExternalString;
     a_currency := Some SupportedCurrency_Ethereum |}.
Definition is_bitcoin (a : Address) : bool := a_type a =? AddressType_BitcoinExternalString.

Definition address_to_str (a : bytes) : string := hex_encode a.

Definition render_string (a : Address) : RgResult string :=
  r ← safe_bytes (a_address a);
  if a_type a =? AddressType_BitcoinExternalString
  then from_utf8 r "Unable to convert bitcoin address bytes to utf8 string"
  else Ok (address_to_str r).

(** [Address::parse], which is [from_hex]. *)
Definition Address_parse (s : string) : RgResult Address :=
  b ← from_hex s; Address_from_bytes b.

(** ** Public keys, signatures, proofs *)

Definition PublicKey_from_bytes (b : bytes) : PublicKey :=
  {| pk_bytes := bytes_data b; pk_key_type := PublicKeyType_Secp256k1 |}.
Definition PublicKey_hex (pk : PublicKey) : RgResult string :=
  hex_encode <$> safe_bytes (pk_bytes pk).
Definition PublicKey_hex_or (pk : PublicKey) : string :=
  match PublicKey_hex pk with Ok s => s | _ => "hex error" end.
Definition PublicKey_address (pk : PublicKey) : RgResult Address := Address_from_struct_public pk.
Definition PublicKey_from_hex (s : string) : RgResult PublicKey :=
  PublicKey_from_bytes <$> from_hex s.

Definition signature_data (data : bytes) : option Signature :=
  Some {| sig_bytes := bytes_data data; sig_type := SignatureType_Ecdsa; sig_rsv := None |}.
Definition Signature_ecdsa (b : bytes) : Signature :=
  {| sig_bytes := bytes_data b; sig_type := SignatureType_Ecdsa; sig_rsv := None |}.
Definition Signature_hardware (b : bytes) : Signature :=
  {| sig_bytes := bytes_data b; sig_type := SignatureType_EcdsaBitcoinSignMessageHardware;
     sig_rsv := None |}.

Definition public_key_bytes (p : Proof_) : RgResult bytes :=
  k ← ok_or (pf_public_key p) (error_message MissingField "public_key");
  d ← ok_or (pk_bytes k) (error_message MissingField "public_key bytes data");
  Ok (bd_value d).
Definition signature_bytes (p : Proof_) : RgResult bytes :=
  s ← ok_or (pf_signature p) (error_message MissingField "signature");
  d ← ok_or (sig_bytes s) (error_message MissingField "signature bytes data");
  Ok (bd_value d).
Definition signature_hex (p : Proof_) : RgResult string := hex_encode <$> signature_bytes p.

Definition proofs_to_address (proofs : list Proof_) : RgResult Address :=
  addresses ← foldR (λ acc p, k ← public_key_bytes p; Ok (acc ++ k)) [] proofs;
  v ← Address_hash addresses;
  Address_from_bytes v.

Definition Proof_from (public_key : PublicKey) (signature : Signature) : Proof_ :=
  {| pf_signature := Some signature; pf_public_key := Some public_key |}.

(** [Input::address] (schema/src/input.rs). *)
Definition Input_address (i : Input) : RgResult Address := proofs_to_address (i_proof i).


(** * Properties *)

Lemma safe_bytes_Ok o b : safe_bytes o = Ok b ↔ ∃ d, o = Some d ∧ bd_value d = b.
Proof. destruct o; unfold safe_bytes; simpl; naive_solver. Qed.

Lemma Hash_vec_new b : Hash_vec (Hash_new b) = Ok b.
Proof. done. Qed.

Lemma Hash_vec_Ok h b : Hash_vec h = Ok b ↔ ∃ d, h_bytes h = Some d ∧ bd_value d = b.
Proof. unfold Hash_vec, Hash_safe_bytes. destruct (h_bytes h); simpl; naive_solver. Qed.

Lemma Hash_vec_not_Err h e : Hash_vec h ≠ Err e.
Proof. unfold Hash_vec. by destruct (Hash_safe_bytes h). Qed.

Lemma slice_Ok {A} (l : list A) a b l' :
  slice l a b = Ok l' ↔ (a ≤ b)%nat ∧ (b ≤ length l)%nat ∧ l' = take (b - a) (drop a l).
Proof. unfold slice. case_bool_decide; naive_solver. Qed.

Lemma slice_vec_eager_spec {A} (v : list A) a b :
  slice_vec_eager v a b = take (S b - a) (drop a v).
Proof.
unfold slice_vec_eager.
assert (∀ k, map snd (filter (λ iv : nat * A, (a ≤ iv.1 ∧ iv.1 ≤ b)%nat) (imap (λ i v, ((k + i)%nat, v)) v))
  = take (S b - (k `max` a)) (drop (a - k) v)) as H.
{ induction v as [|x v IH]; intros k; [by rewrite drop_nil, take_nil|].
  rewrite imap_cons, filter_cons, Nat.add_0_r. unfold compose.
  rewrite (imap_ext _ (λ i v, ((S k + i)%nat, v)) v) by (intros; f_equal; lia).
  specialize (IH (S k)). case_decide as H; simpl in *.
  - rewrite IH. replace (a - k)%nat with 0%nat by lia. simpl drop.
    replace (S b - k `max` a)%nat with (S (S b - S k `max` a)) by lia. simpl.
    by replace (a - S k)%nat with 0%nat by lia.
  - rewrite IH. destruct (decide (k < a)%nat).
    + replace (a - k)%nat with (S (a - S k)) by lia. simpl. f_equal; lia.
    + replace (S b - k `max` a)%nat with 0%nat by lia.
      by replace (S b - S k `max` a)%nat with 0%nat by lia. }
specialize (H 0%nat). by rewrite Nat.max_0_l, Nat.sub_0_r in H.
Qed.

(** ** Distances *)

Definition byte_dist (a b : u8) : Z := Z.lxor (u8_to_Z a) (u8_to_Z b).

Lemma byte_dist_range a b : 0 ≤ byte_dist a b < 256.
Proof. unfold byte_dist. rewrite <-u8_xor_spec. apply u8_to_Z_range. Qed.

Lemma byte_dist_0 a b : byte_dist a b = 0 ↔ a = b.
Proof.
unfold byte_dist. rewrite Z.lxor_eq_0_iff. split; [apply u8_to_Z_inj|by intros ->].
Qed.

Lemma byte_dist_triangle a b c : byte_dist a c ≤ byte_dist a b + byte_dist b c.
Proof.
unfold byte_dist.
replace (Z.lxor (u8_to_Z a) (u8_to_Z c))
  with (Z.lxor (Z.lxor (u8_to_Z a) (u8_to_Z b)) (Z.lxor (u8_to_Z b) (u8_to_Z c)))
  by (rewrite Z.lxor_assoc, <-(Z.lxor_assoc (u8_to_Z b)), Z.lxor_nilpotent; done).
rewrite <-(Z.add_lxor_2land (Z.lxor (u8_to_Z a) (u8_to_Z b))).
assert (0 ≤ Z.land (Z.lxor (u8_to_Z a) (u8_to_Z b)) (Z.lxor (u8_to_Z b) (u8_to_Z c))); [|lia].
apply Z.land_nonneg. left. apply byte_dist_range.
Qed.

Definition byte_dists (v1 v2 : bytes) : list Z := zip_with byte_dist v1 v2.

Lemma xor_bytes_dists v1 v2 : u8_to_Z <$> zip_with u8_xor v1 v2 = byte_dists v1 v2.
Proof.
unfold byte_dists. revert v2. induction v1 as [|a v1 IH]; intros [|b v2]; cbn; try done.
f_equal; [apply u8_xor_spec|apply IH].
Qed.

Lemma byte_dists_sum_range v1 v2 : 0 ≤ sum_Z (byte_dists v1 v2) ≤ 255 * Z.of_nat (length v1).
Proof.
revert v2. induction v1 as [|a v1 IH]; intros [|b v2]; cbn [byte_dists zip_with sum_Z foldr length]; try lia.
specialize (IH v2). unfold byte_dists, sum_Z in IH. pose proof (byte_dist_range a b). lia.
Qed.

Lemma xor_distance_exact v1 v2 :
  255 * Z.of_nat (length v1) < 2 ^ 63 → xor_distance v1 v2 = sum_Z (byte_dists v1 v2).
Proof.
intros. unfold xor_distance. rewrite xor_bytes_dists. apply i64_sum_exact.
pose proof (byte_dists_sum_range v1 v2). unfold in_s. simpl. lia.
Qed.

Lemma byte_dists_comm v1 v2 : byte_dists v1 v2 = byte_dists v2 v1.
Proof.
revert v2. induction v1 as [|a v1 IH]; intros [|b v2]; cbn; try done.
f_equal; [apply Z.lxor_comm|apply IH].
Qed.

Lemma byte_dists_0 v1 v2 :
  length v1 = length v2 → sum_Z (byte_dists v1 v2) = 0 ↔ v1 = v2.
Proof.
revert v2. induction v1 as [|a v1 IH]; intros [|b v2]; simpl; intros Hl; try done.
specialize (IH v2). pose proof (byte_dists_sum_range v1 v2).
pose proof (byte_dist_range a b). unfold byte_dists in *. split.
- intros. f_equal; [apply byte_dist_0; lia|apply IH; lia].
- intros [= -> ->]. rewrite (proj2 (byte_dist_0 b b) eq_refl). by apply IH.
Qed.

Lemma byte_dists_triangle a b c :
  length a = length b → length b = length c →
  sum_Z (byte_dists a c) ≤ sum_Z (byte_dists a b) + sum_Z (byte_dists b c).
Proof.
revert b c. induction a as [|x a IH]; intros [|y b] [|z c]; simpl; intros H1 H2; try done.
specialize (IH b c ltac:(lia) ltac:(lia)). pose proof (byte_dist_triangle x y z).
unfold byte_dists in *. lia.
Qed.

(** [xor_distance] of schema/src/util/xor_distance.rs is a metric on byte
    vectors of one length: symmetric, zero exactly on equal vectors, and it
    satisfies the triangle inequality; the [i64] sum does not overflow for any
    vector whose length times 255 fits. *)
Theorem xor_distance_metric a b c :
  length a = length b → length b = length c → 255 * Z.of_nat (length a) < 2 ^ 63 →
  xor_distance a b = xor_distance b a ∧
  (xor_distance a b = 0 ↔ a = b) ∧
  xor_distance a c ≤ xor_distance a b + xor_distance b c.
Proof.
intros Hab Hbc Hl. rewrite !xor_distance_exact by congruence.
split_and!; [by rewrite byte_dists_comm|by apply byte_dists_0|by apply byte_dists_triangle].
Qed.

Context {laws : CryptoLaws}.

Lemma xorf_conv_distance_eq q p :
  xorf_conv_distance q p = Ok (sum_Z (byte_dists (sha3_256 (q ++ p)) (sha3_256 (p ++ q)))).
Proof.
unfold xorf_conv_distance. cbn. f_equal.
apply (xor_distance_exact (sha3_256 (q ++ p))). rewrite sha3_256_length. lia.
Qed.

(** [xorf_conv_distance], the distance between a queried hash and a peer
    key, is total, symmetric in its two arguments and lies in 0..=8160. *)
Theorem xorf_conv_distance_sym_bounded q p :
  ∃ d, xorf_conv_distance q p = Ok d ∧ xorf_conv_distance p q = Ok d ∧ 0 ≤ d ≤ 32 * 255.
Proof.
eexists. rewrite !xorf_conv_distance_eq. split; [done|]. split; [by rewrite byte_dists_comm|].
pose proof (byte_dists_sum_range (sha3_256 (q ++ p)) (sha3_256 (p ++ q))) as H.
rewrite sha3_256_length in H. lia.
Qed.

Lemma node_distances_elem other nodes ds d n :
  node_distances other nodes = Ok ds → (d, n) ∈ ds →
  n ∈ nodes ∧ ∃ pk k, nm_public_key n = Some pk ∧ PublicKey_bytes pk = Ok k ∧
    xorf_conv_distance other k = Ok d.
Proof.
unfold node_distances. rewrite mapR_Ok. intros H Hin.
apply list_elem_of_lookup in Hin as [i Hi].
eapply Forall2_lookup_r in H as ([p n'] & Hp & Hd); [|exact Hi].
apply list_elem_of_lookup_2, list_elem_of_omap in Hp as (n0 & Hn0 & E).
apply bind_Some in E as (pk & Hpk & E). apply bind_Some in E as (b & Hb & E).
simplify_eq. inv_Ok. simplify_eq. split; [done|].
exists pk, (bd_value b). split_and!; [done| |done]. unfold PublicKey_bytes, safe_bytes. by rewrite Hb.
Qed.

(** Every node [xorf_conv_distance_subset] selects comes from the input, the
    selection is ordered by increasing distance, and a selected node that
    advertises a partition distance [d] is strictly farther than [d] from the
    queried hash, so that the node's own [hash_in_range] answers [false] for it:
    the filter keeps the nodes whose partition does not cover the hash. *)
Theorem subset_selects_out_of_range nodes h q f res n :
  Hash_vec h = Ok q → xorf_conv_distance_subset nodes q f = Ok res → n ∈ res →
  n ∈ nodes ∧
  (∀ d, nm_partition_info n ≫= f = Some d → hash_in_range n h f = Ok false).
Proof.
intros Hq Hr Hn. unfold xorf_conv_distance_subset in Hr. inv_Ok. subst res.
apply list_elem_of_fmap in Hn as ([d0 n'] & -> & Hn). rewrite sort_by_perm in Hn.
apply list_elem_of_In, List.filter_In in Hn as [Hin Hf]. apply list_elem_of_In in Hin.
eapply node_distances_elem in Hin as (Hin & pk & k & Hpk & Hk & Hd); [|done].
split; [done|]. intros d E. simpl in *. rewrite E in Hf.
unfold hash_in_range, xorfc_hash. rewrite E, Hpk, Hq. cbn [mbind result_bind expect_opt].
rewrite Hk. cbn [mbind result_bind expect]. rewrite Hd. simpl. f_equal. lia.
Qed.

(** ** Addresses *)

Lemma with_checksum_eq b : with_checksum b = Ok (b ++ take 4 (sha3_256 b)).
Proof.
unfold with_checksum. cbn. unfold slice. rewrite sha3_256_length.
rewrite bool_decide_eq_true_2 by lia. done.
Qed.

Lemma verify_checksum_raw b :
  verify_checksum (Address_new_raw b) = Ok tt ↔
  length b = 32%nat ∧ drop 28 b = take 4 (sha3_256 (take 28 b)).
Proof.
unfold verify_checksum, verify_length. cbn -[take drop slice with_checksum].
case_bool_decide as Hl; [naive_solver|]. cbn -[take drop slice with_checksum].
unfold slice. rewrite bool_decide_eq_true_2 by lia. cbn -[take drop with_checksum].
rewrite with_checksum_eq, drop_0. cbn -[take drop].
case_bool_decide as E.
- split; [done|]. intros [_ Hd]. destruct E. rewrite <-Hd. apply take_drop.
- split; [|done]. intros _. split; [done|]. apply (app_inv_head (take 28 b)). by rewrite take_drop.
Qed.

Lemma Address_from_bytes_Ok b a :
  Address_from_bytes b = Ok a ↔
  length b = 32%nat ∧ drop 28 b = take 4 (sha3_256 (take 28 b)) ∧ a = Address_new_raw b.
Proof.
unfold Address_from_bytes. rewrite bind_Ok. pose proof (verify_checksum_raw b) as Hv. split.
- intros ([] & Hb & Ha). apply Hv in Hb as []. by simplify_eq.
- intros (? & ? & ->). exists tt. by rewrite (proj2 Hv).
Qed.

(** [Address::from_bytes] accepts exactly the 32 byte strings whose last four
    bytes are the leading bytes of the SHA3-256 digest of the first 28, and it
    returns those bytes unchanged as a raw public key address. *)
Theorem address_from_bytes_spec b a :
  Address_from_bytes b = Ok a ↔
  length b = 32%nat ∧ drop 28 b = take 4 (sha3_256 (take 28 b)) ∧ a = Address_new_raw b.
Proof. apply Address_from_bytes_Ok. Qed.

Lemma from_hex_encode b : from_hex (hex_encode b) = Ok b.
Proof. unfold from_hex. by rewrite hex_decode_encode. Qed.
Lemma address_hash_checked buf :
  ∃ b, Address_hash buf = Ok b ∧ Address_from_bytes b = Ok (Address_new_raw b).
Proof.
eexists. split; [apply with_checksum_eq|]. apply Address_from_bytes_Ok.
rewrite length_app, length_take, sha3_256_length, sha3_224_length.
rewrite take_app_length', drop_app_length' by (symmetry; apply sha3_224_length). done.
Qed.

(** A public key with bytes always has an address; the address passes its own
    checksum, and rendering it as text and parsing the text gives it back. *)
Theorem public_key_address_roundtrip pk d :
  pk_bytes pk = Some d →
  ∃ a s, PublicKey_address pk = Ok a ∧ verify_checksum a = Ok tt ∧
         render_string a = Ok s ∧ Address_parse s = Ok a.
Proof.
intros Hd. destruct (address_hash_checked (bd_value d)) as (b & Hb & Ha).
exists (Address_new_raw b), (hex_encode b). split_and!.
- unfold PublicKey_address, Address_from_struct_public, safe_bytes. rewrite Hd. rg_step. by rewrite Hb.
- apply Address_from_bytes_Ok in Ha. apply verify_checksum_raw. naive_solver.
- done.
- unfold Address_parse. by rewrite from_hex_encode.
Qed.

(** A single proof determines the address of its public key. *)
Lemma proofs_to_address_single p pk :
  pf_public_key p = Some pk → proofs_to_address [p] = PublicKey_address pk ∨ pk_bytes pk = None.
Proof.
intros E. unfold proofs_to_address, public_key_bytes. simpl. rewrite E. simpl.
destruct (pk_bytes pk) as [d|] eqn:Ed; [left|by right].
unfold PublicKey_address, Address_from_struct_public, safe_bytes. by rewrite Ed.
Qed.

End crypto.
End schema.

(** * Witnesses *)

Definition demo_key : PublicKey := PublicKey_from_bytes (repeat Byte.x02 33).
Definition demo_node : NodeMetadata :=
  {| nm_transport_info := None; nm_public_key := Some demo_key; nm_node_type := None;
     nm_version_info := None; nm_partition_info :=
       Some {| pti_utxo := None; pti_contract_address := None; pti_transaction_hash := Some 0;
               pti_address := None |};
     nm_node_name := None; nm_peer_id := None; nm_parties := [] |}.

Lemma xor_distance_metric_witness :
  xor_distance [Byte.x01; Byte.xff] [Byte.x03; Byte.x0f] = 242 ∧
  xor_distance [Byte.x01; Byte.xff] [Byte.x00; Byte.x00] ≤
  xor_distance [Byte.x01; Byte.xff] [Byte.x03; Byte.x0f] + xor_distance [Byte.x03; Byte.x0f] [Byte.x00; Byte.x00].
Proof.
split; [reflexivity|].
apply (xor_distance_metric [Byte.x01; Byte.xff] [Byte.x03; Byte.x0f] [Byte.x00; Byte.x00]);
  [reflexivity|reflexivity|vm_compute; reflexivity].
Defined.

Lemma xorf_conv_distance_sym_bounded_witness :
  ∃ d, xorf_conv_distance (host := toy_host) (crypto := toy_crypto) [Byte.x01] [Byte.x02] = Ok d ∧ 0 ≤ d ≤ 8160.
Proof.
destruct (xorf_conv_distance_sym_bounded (host := toy_host) (laws := toy_crypto_laws) [Byte.x01] [Byte.x02]) as (d & ? & _ & ?).
exists d. auto.
Defined.

Lemma subset_selects_out_of_range_witness :
  hash_in_range (host := toy_host) (crypto := toy_crypto) demo_node (Hash_new [Byte.x01]) pti_transaction_hash = Ok false.
Proof.
apply (subset_selects_out_of_range (host := toy_host) (crypto := toy_crypto) [demo_node]
         (Hash_new [Byte.x01]) [Byte.x01] pti_transaction_hash [demo_node] demo_node) with (d := 0).
- reflexivity.
- vm_compute. reflexivity.
- left.
- reflexivity.
Defined.

Lemma address_from_bytes_spec_witness :
  let b := repeat Byte.x00 28 ++ take 4 (toy_digest 32 (repeat Byte.x00 28)) in
  Address_from_bytes (host := toy_host) (crypto := toy_crypto) b = Ok (Address_new_raw b).
Proof.
intros b. apply (address_from_bytes_spec (host := toy_host) (laws := toy_crypto_laws)).
split_and!; vm_compute; reflexivity.
Defined.

Lemma public_key_address_roundtrip_witness :
  ∃ a s, PublicKey_address (host := toy_host) (crypto := toy_crypto) demo_key = Ok a ∧
    Address_parse (host := toy_host) (crypto := toy_crypto) s = Ok a.
Proof.
destruct (public_key_address_roundtrip (host := toy_host) (laws := toy_crypto_laws) demo_key
            (BytesData_from (repeat Byte.x02 33))) as (a & s & ? & _ & _ & ?); [reflexivity|].
exists a, s. auto.
Defined.
