(* ===== verification/Merkle.v ===== *)
(** * Merkle trees of observations

    schema/src/util/merkle.rs (tree construction and proof extraction) and
    schema/src/merkle_proof.rs (proof verification).

    The two unbounded loops carry fuel and answer [None] when it runs out;
    [build_root] uses the number of leaves, which [build_root_total] shows is
    always enough, and [merkle_proof_complete] bounds the walk of
    [MerkleTree::proof] by the number of entries. *)

From stdpp Require Import base list gmap strings.
From S2P Require Import Prelude Structs Interfaces Schema.
#[local] Open Scope Z_scope.

Record MerkleEntry := { me_parent : Hash; me_left : Hash; me_right : Hash }.
Record MerkleTree := {
  mt_root : Hash; mt_entries : list MerkleEntry;
  mt_parent_lookup : gmap bytes MerkleEntry; mt_child_to_parent : gmap bytes MerkleEntry }.

Section merkle.
Context {host : Host} {crypto : Crypto}.

(** ** Construction *)

Definition insert_entry (m : gmap bytes MerkleEntry * gmap bytes MerkleEntry) (e : MerkleEntry) :
    RgResult (gmap bytes MerkleEntry * gmap bytes MerkleEntry) :=
  p ← Hash_vec (me_parent e);
  l ← Hash_vec (me_left e);
  r ← Hash_vec (me_right e);
  Ok (<[p := e]> m.1, <[r := e]> (<[l := e]> m.2)).

Definition MerkleTree_new (entries : list MerkleEntry) : RgResult MerkleTree :=
  m ← foldR insert_entry (∅, ∅) entries;
  x ← expect_opt (last entries);
  Ok {| mt_root := me_parent x; mt_entries := entries;
        mt_parent_lookup := m.1; mt_child_to_parent := m.2 |}.

Definition pad (hashes : list Hash) : list Hash :=
  if bool_decide (length hashes mod 2 = 1)%nat
  then match last hashes with Some h => hashes ++ [h] | None => hashes end
  else hashes.

(** The inner [for i in (0..leafs.len()).step_by(2)]; [leafs[i + 1]] panics when
    the length is odd. *)
Fixpoint merkle_round (leafs : list Hash) : RgResult (list MerkleEntry) :=
  match leafs with
  | [] => Ok []
  | [_] => Panic
  | l :: r :: rest =>
      parent ← merkle_combine l r;
      es ← merkle_round rest;
      Ok ({| me_parent := parent; me_left := l; me_right := r |} :: es)
  end.

(** The outer [while !done]. *)
Fixpoint build_loop (fuel : nat) (leafs : list Hash) (entries : list MerkleEntry) :
    option (RgResult (list MerkleEntry)) :=
  match fuel with
  | O => None
  | S fuel =>
      match merkle_round (pad leafs) with
      | Ok es =>
          let new_leafs := me_parent <$> es in
          if bool_decide (length new_leafs = 1)%nat then Some (Ok (entries ++ es))
          else build_loop fuel new_leafs (entries ++ es)
      | Err e => Some (Err e)
      | Panic => Some Panic
      end
  end.

Definition build_root_fuel (fuel : nat) (leafs_original : list Hash) : option (RgResult MerkleTree) :=
  if bool_decide (leafs_original = [])
  then Some (Err (error_info "Merkle tree build must have at least one leaf"))
  else entries ← build_loop fuel leafs_original []; Some (entries ≫= MerkleTree_new).

Definition build_root (leafs_original : list Hash) : option (RgResult MerkleTree) :=
  build_root_fuel (length leafs_original) leafs_original.

(** ** Proof extraction *)

Fixpoint proof_loop (fuel : nat) (child_to_parent : gmap bytes MerkleEntry) (active : Hash)
    (merkle_nodes : list Hash) : option (RgResult (list Hash)) :=
  match fuel with
  | O => None
  | S fuel =>
      match Hash_vec active with
      | Ok k =>
          match child_to_parent !! k with
          | Some e => proof_loop fuel child_to_parent (me_parent e)
                        (merkle_nodes ++ [me_left e; me_right e])
          | None => Some (Ok merkle_nodes)
          end
      | Err e => Some (Err e)
      | Panic => Some Panic
      end
  end.

Definition MerkleTree_proof (fuel : nat) (t : MerkleTree) (leaf : Hash) : option (RgResult MerkleProof) :=
  nodes ← proof_loop fuel (mt_child_to_parent t) leaf [];
  Some (n ← nodes; Ok {| mp_root := Some (mt_root t); mp_leaf := Some leaf; mp_nodes := n |}).

(** ** Verification *)

Definition check_leaf (p : MerkleProof) (left_ right_ : Hash) : RgResult unit :=
  leaf ← safe_get_msg (mp_leaf p) "leaf missing" ≫= Hash_vec;
  l ← Hash_vec left_;
  if bool_decide (leaf = l) then Ok tt else
  r ← Hash_vec right_;
  if bool_decide (leaf = r) then Ok tt else Err (error_info "Leaf not found at proof start").

Definition check_next (p : MerkleProof) (parent : Hash) (parent_vec : bytes) (rest : list Hash) :
    RgResult unit :=
  match rest with
  | [] =>
      root ← safe_get_msg (mp_root p) "Root" ≫= Hash_vec;
      if bool_decide (parent_vec = root) then Ok tt
      else Err (error_info "Last intermediate hash merge does not match root")
  | [_] => Panic
  | next_left :: next_right :: _ =>
      nl ← Hash_vec next_left;
      nr ← Hash_vec next_right;
      if bool_decide (parent_vec ∈ [nl; nr]) then Ok tt
      else
        ph ← Hash_hex parent; nlh ← Hash_hex next_left; nrh ← Hash_hex next_right;
        Err (error_info ("Intermediate hash mismatch on parent: " +:+ ph +:+ " with next_left: "
               +:+ nlh +:+ " next_right: " +:+ nrh))
  end.

Fixpoint verify_nodes (p : MerkleProof) (first : bool) (nodes : list Hash) : RgResult unit :=
  match nodes with
  | [] => Ok tt
  | [_] => Panic
  | l :: r :: rest =>
      parent ← merkle_combine l r;
      parent_vec ← Hash_vec parent;
      _ ← (if first then check_leaf p l r else Ok tt);
      _ ← check_next p parent parent_vec rest;
      verify_nodes p false rest
  end.

Definition MerkleProof_verify (p : MerkleProof) : RgResult unit :=
  verify_nodes p true (mp_nodes p).

(** * Properties *)

(** The bytes of a hash, where it has any. *)
Definition hv (h : Hash) : bytes := match h_bytes h with Some d => bd_value d | None => [] end.
Definition has_bytes (h : Hash) : Prop := is_Some (h_bytes h).

Lemma Hash_vec_hv h : has_bytes h → Hash_vec h = Ok (hv h).
Proof. intros [d Hd]. unfold Hash_vec, Hash_safe_bytes, hv, safe_bytes. by rewrite Hd. Qed.

Lemma merkle_combine_hv l r :
  has_bytes l → has_bytes r → merkle_combine l r = Ok (digest (hv l ++ hv r)).
Proof. intros. unfold merkle_combine. by rewrite !Hash_vec_hv. Qed.

(** An entry is well formed when its parent is the digest of its children. *)
Definition entry_wf (e : MerkleEntry) : Prop :=
  has_bytes (me_left e) ∧ has_bytes (me_right e) ∧
  me_parent e = digest (hv (me_left e) ++ hv (me_right e)).
Definition is_child (k : bytes) (e : MerkleEntry) : Prop := k = hv (me_left e) ∨ k = hv (me_right e).

#[global] Instance is_child_dec k e : Decision (is_child k e).
Proof. unfold is_child. apply _. Defined.

Lemma pad_even l : (length (pad l) mod 2 = 0)%nat.
Proof.
unfold pad. case_bool_decide as H.
- destruct (last l) eqn:E.
  + rewrite length_app, Nat.Div0.add_mod, H. done.
  + apply last_None in E. by subst.
- pose proof (Nat.mod_upper_bound (length l) 2). lia.
Qed.

Lemma pad_elem l h : h ∈ pad l ↔ h ∈ l.
Proof.
unfold pad. case_bool_decide; [|done]. destruct (last l) eqn:E; [|done].
apply last_Some_elem_of in E. set_solver.
Qed.

Lemma pad_length l : (length l ≤ length (pad l) ≤ length l + 1)%nat.
Proof. unfold pad. case_bool_decide; [|lia]. destruct (last l); [rewrite length_app|]; simpl; lia. Qed.

Lemma merkle_round_spec l :
  (length l mod 2 = 0)%nat → Forall has_bytes l →
  ∃ es, merkle_round l = Ok es ∧ Forall entry_wf es ∧ (2 * length es = length l)%nat ∧
    (∀ h, h ∈ l ↔ ∃ e, e ∈ es ∧ (h = me_left e ∨ h = me_right e)).
Proof.
induction l as [|x|x y l IH] using pair_ind; intros Hl Hb.
- exists []. split_and!; [done|done|done|]. set_solver.
- done.
- apply Forall_cons in Hb as [Hx Hb]. apply Forall_cons in Hb as [Hy Hb].
  destruct IH as (es & He & Hwf & Hlen & Hin); [|done|].
  { change (length (x :: y :: l)) with (2 + length l)%nat in Hl.
    rewrite Nat.Div0.add_mod, Nat.Div0.mod_same, Nat.add_0_l, Nat.Div0.mod_mod in Hl. done. }
  eexists. simpl. rewrite merkle_combine_hv by done. rg_step. rewrite He. rg_step. split_and!.
  + reflexivity.
  + constructor; [|done]. done.
  + simpl. lia.
  + intros h. rewrite !elem_of_cons. rewrite Hin. clear. set_solver.
Qed.

Lemma entry_wf_parent e : entry_wf e → has_bytes (me_parent e).
Proof. intros (_ & _ & ->). eexists. reflexivity. Qed.

(** What the loop builds: well formed entries in which every leaf is a child,
    every parent but the last is a child of a later entry, and every child is a
    leaf or a parent. *)
Record levels (leafs : list Hash) (es : list MerkleEntry) : Prop := {
  lv_wf : Forall entry_wf es;
  lv_nonempty : es ≠ [];
  lv_leafs : ∀ h, h ∈ leafs → ∃ e, e ∈ es ∧ is_child (hv h) e;
  lv_up : ∀ pre e post, es = pre ++ e :: post → post ≠ [] →
            ∃ e', e' ∈ post ∧ is_child (hv (me_parent e)) e';
  lv_down : ∀ e k, e ∈ es → is_child k e →
              (∃ h, h ∈ leafs ∧ k = hv h) ∨ (∃ e', e' ∈ es ∧ k = hv (me_parent e')) }.

Section one_level.
Context (leafs : list Hash) (es : list MerkleEntry).
Context (Hwf : Forall entry_wf es).
Context (Hin : ∀ h, h ∈ pad leafs ↔ ∃ e, e ∈ es ∧ (h = me_left e ∨ h = me_right e)).

Lemma level_leafs h : h ∈ leafs → ∃ e, e ∈ es ∧ is_child (hv h) e.
Proof using Hin.
rewrite <-pad_elem, Hin. intros (e & ? & [->| ->]); exists e; (split; [done|]); [by left|by right].
Qed.

Lemma level_down e k : e ∈ es → is_child k e → ∃ h, h ∈ leafs ∧ k = hv h.
Proof using Hin.
intros He [->| ->]; [exists (me_left e)|exists (me_right e)];
  (split; [rewrite <-pad_elem, Hin; eauto|done]).
Qed.

Lemma levels_last : length es = 1%nat → levels leafs es.
Proof using Hin Hwf.
intros Hl. split; [done| |apply level_leafs| |].
- by destruct es.
- intros pre e post ->. rewrite length_app in Hl. simpl in Hl. by destruct post; simpl in Hl; [|lia].
- intros e k He Hk. left. by eapply level_down.
Qed.

Lemma levels_next es' : levels (me_parent <$> es) es' → levels leafs (es ++ es').
Proof using Hin Hwf.
intros [Hwf' Hne Hl Hup Hdown]. split.
- by apply Forall_app.
- destruct es; [done|discriminate].
- intros h Hh. destruct (level_leafs h Hh) as (e & ? & ?). exists e. set_solver.
- intros pre e post Heq Hpost. symmetry in Heq.
  apply app_eq_inv in Heq as [(k & E1 & E2)|(k & E1 & E2)]; [by apply (Hup k e post)|].
  destruct k as [|e' k]; simpl in E2; [by apply (Hup [] e post)|].
  injection E2 as <- ->. destruct (Hl (me_parent e)) as (e' & ? & ?); [|exists e'; set_solver].
  rewrite E1. set_solver.
- intros e k He Hk. apply elem_of_app in He as [He|He]; [left; by eapply level_down|].
  right. destruct (Hdown e k He Hk) as [(h & Hh & ->)|(e' & ? & ->)]; [|exists e'; set_solver].
  apply list_elem_of_fmap in Hh as (e' & -> & ?). exists e'. set_solver.
Qed.
End one_level.

Lemma build_loop_total fuel leafs acc :
  leafs ≠ [] → Forall has_bytes leafs → (length leafs ≤ fuel)%nat →
  ∃ es, build_loop fuel leafs acc = Some (Ok (acc ++ es)) ∧ levels leafs es.
Proof.
revert leafs acc. induction fuel as [|fuel IH]; intros leafs acc Hne Hb Hf.
{ by destruct leafs; [|simpl in Hf; lia]. }
destruct (merkle_round_spec (pad leafs)) as (es & Hr & Hwf & Hlen & Hin); [apply pad_even| |].
{ rewrite Forall_forall in Hb |- *. intros h. rewrite pad_elem. apply Hb. }
pose proof (pad_length leafs). simpl. rewrite Hr, length_fmap.
case_bool_decide as H1; [eauto using levels_last|].
destruct (IH (me_parent <$> es) (acc ++ es)) as (es' & -> & Hl).
- destruct es; [|done]. destruct leafs; simpl in *; [done|lia].
- apply Forall_fmap. eapply Forall_impl; [exact Hwf|]. intros. by apply entry_wf_parent.
- rewrite length_fmap. destruct leafs; simpl in *; [done|lia].
- exists (es ++ es'). rewrite app_assoc. eauto using levels_next.
Qed.

(** ** The child index: the last entry with a given child *)

Definition last_with_child (k : bytes) (es : list MerkleEntry) (o : option MerkleEntry) : Prop :=
  match o with
  | Some e => ∃ pre post, es = pre ++ e :: post ∧ is_child k e ∧ Forall (λ e', ¬ is_child k e') post
  | None => Forall (λ e', ¬ is_child k e') es
  end.

Lemma last_with_child_snoc_hit k es e : is_child k e → last_with_child k (es ++ [e]) (Some e).
Proof. intros. by exists es, []. Qed.

Lemma last_with_child_snoc_miss k es e o :
  ¬ is_child k e → last_with_child k es o → last_with_child k (es ++ [e]) o.
Proof.
destruct o as [e0|]; simpl.
- intros ? (pre & post & -> & ? & ?). exists pre, (post ++ [e]).
  rewrite <-app_assoc. split_and!; [done|done|]. apply Forall_app. by repeat constructor.
- intros. apply Forall_app. by repeat constructor.
Qed.

Lemma insert_entries_spec es :
  Forall entry_wf es →
  ∃ m, foldR insert_entry (∅, ∅) es = Ok m ∧ ∀ k, last_with_child k es (m.2 !! k).
Proof.
induction es as [|e es IH] using rev_ind; intros Hwf.
{ exists (∅, ∅). split; [done|]. intros k. cbn [snd]. rewrite lookup_empty. constructor. }
apply Forall_app in Hwf as [Hes He]. apply Forall_cons in He as [He _].
destruct (IH Hes) as (m & Hm & Hk). destruct He as (Hl & Hr & Hp).
rewrite foldR_app, Hm. rg_step. cbn [foldR]. unfold insert_entry.
rewrite Hp, !Hash_vec_hv by (done || by eexists). rg_step.
eexists. split; [done|]. intros k. cbn [snd].
destruct (decide (is_child k e)) as [Hc|Hc].
- assert (<[hv (me_right e):=e]> (<[hv (me_left e):=e]> m.2) !! k = Some e) as ->.
  { destruct Hc as [->| ->]; rewrite lookup_insert; case_decide; try done. by rewrite lookup_insert_eq. }
  by apply last_with_child_snoc_hit.
- rewrite !lookup_insert_ne by (intros <-; apply Hc; unfold is_child; auto).
  by apply last_with_child_snoc_miss.
Qed.

(** [chain root k nodes]: the node pairs lead from the hash [k] to [root]. *)
Inductive chain (root : bytes) : bytes → list Hash → Prop :=
| chain_nil : chain root root []
| chain_cons k l r rest :
    has_bytes l → has_bytes r → k = hv l ∨ k = hv r →
    chain root (sha3_256 (hv l ++ hv r)) rest → chain root k (l :: r :: rest).

Section walk.
Context (leafs : list Hash) (es : list MerkleEntry) (c2p : gmap bytes MerkleEntry) (top : MerkleEntry).
Context (Hlv : levels leafs es).
Context (Hc2p : ∀ k, last_with_child k es (c2p !! k)).
Context (Htop : last es = Some top).
Context (Hroot : Forall (λ e, ¬ is_child (hv (me_parent top)) e) es).

Lemma walk_entry e : e ∈ es → has_bytes (me_left e) ∧ has_bytes (me_right e) ∧ has_bytes (me_parent e) ∧
  hv (me_parent e) = sha3_256 (hv (me_left e) ++ hv (me_right e)).
Proof using Hlv.
intros He. pose proof (lv_wf _ _ Hlv) as Hwf. rewrite Forall_forall in Hwf.
destruct (Hwf e He) as (? & ? & Hp). split_and!; [done|done|by apply entry_wf_parent, Hwf|by rewrite Hp].
Qed.

(** Every step of the walk moves to a later entry. *)
Lemma proof_walk n pre e post acc :
  es = pre ++ e :: post → (length post < n)%nat →
  ∃ nodes, proof_loop n c2p (me_parent e) acc = Some (Ok (acc ++ nodes)) ∧
           chain (hv (me_parent top)) (hv (me_parent e)) nodes.
Proof using Hlv Hc2p Htop Hroot.
revert pre e post acc. induction n as [|n IH]; intros pre e post acc Hes Hn; [lia|].
destruct (walk_entry e) as (_ & _ & Hb & _); [rewrite Hes; set_solver|].
simpl. rewrite Hash_vec_hv by done. pose proof (Hc2p (hv (me_parent e))) as Hk.
destruct post as [|e0 post'].
- assert (top = e) as -> by (rewrite Hes, last_snoc in Htop; congruence).
  destruct (c2p !! _) as [e1|]; [exfalso|exists []; rewrite app_nil_r; split; [done|constructor]].
  destruct Hk as (pre' & post' & E & Hc & _). rewrite Forall_forall in Hroot.
  apply (Hroot e1); [rewrite E; set_solver|done].
- destruct (lv_up _ _ Hlv pre e (e0 :: post')) as (e' & He' & Hc'); [done|done|].
  destruct (c2p !! _) as [e1|]; cycle 1.
  { exfalso. simpl in Hk. rewrite Forall_forall in Hk. apply (Hk e'); [rewrite Hes; set_solver|done]. }
  destruct Hk as (pre1 & post1 & E1 & Hc1 & Hlast).
  assert (length post1 < length (e0 :: post'))%nat as Hlt.
  { destruct (decide (length (e0 :: post') ≤ length post1)%nat) as [Hle|]; [exfalso|lia].
    destruct (suffix_of_longer (pre1 ++ [e1]) post1 (pre ++ [e]) (e0 :: post')) as [k ->];
      [rewrite <-!app_assoc; simpl; congruence|done|].
    rewrite Forall_forall in Hlast. apply (Hlast e'); [set_solver|done]. }
  destruct (walk_entry e1) as (? & ? & _ & Hp); [rewrite E1; set_solver|].
  destruct (IH pre1 e1 post1 (acc ++ [me_left e1; me_right e1])) as (nodes & -> & Hch); [done|lia|].
  exists (me_left e1 :: me_right e1 :: nodes). rewrite <-app_assoc. split; [done|].
  constructor; [done|done|done|]. by rewrite <-Hp.
Qed.
End walk.

(** ** What the verifier accepts *)

Lemma Hash_vec_inv h b : Hash_vec h = Ok b ↔ has_bytes h ∧ b = hv h.
Proof.
rewrite Hash_vec_Ok. unfold has_bytes, hv. split.
- intros (d & -> & <-). eauto.
- intros [[d Hd] ->]. rewrite Hd. eauto.
Qed.

Lemma merkle_combine_inv l r h :
  merkle_combine l r = Ok h ↔ has_bytes l ∧ has_bytes r ∧ h = digest (hv l ++ hv r).
Proof.
unfold merkle_combine. repeat (setoid_rewrite bind_Ok || setoid_rewrite Hash_vec_inv). naive_solver.
Qed.

Definition hash_at (o : option Hash) (k : bytes) : Prop := ∃ h, o = Some h ∧ has_bytes h ∧ k = hv h.

Lemma safe_get_vec_inv o msg b : safe_get_msg o msg ≫= Hash_vec = Ok b ↔ hash_at o b.
Proof.
unfold safe_get_msg, hash_at. rewrite bind_Ok. setoid_rewrite ok_or_Ok.
setoid_rewrite Hash_vec_inv. naive_solver.
Qed.

Lemma check_leaf_Ok p l r :
  has_bytes l → has_bytes r →
  check_leaf p l r = Ok tt ↔ ∃ k, hash_at (mp_leaf p) k ∧ (k = hv l ∨ k = hv r).
Proof.
intros Hl Hr. unfold check_leaf. rewrite bind_Ok. setoid_rewrite safe_get_vec_inv.
rewrite !Hash_vec_hv by done. rg_step.
split; intros (k & Hk & E); exists k; (split; [done|]); repeat case_bool_decide; naive_solver.
Qed.

Lemma verify_tail p l r rest :
  verify_nodes p false (l :: r :: rest) = Ok tt ↔
  has_bytes l ∧ has_bytes r ∧
  ∃ root, hash_at (mp_root p) root ∧ chain root (sha3_256 (hv l ++ hv r)) rest.
Proof.
revert l r. induction rest as [|x|l' r' rest IH] using pair_ind; intros l r;
  cbn [verify_nodes]; rewrite bind_Ok; setoid_rewrite merkle_combine_inv;
  (split; [intros (h & (Hl & Hr & ->) & E); split_and!; [done..|]
          |intros (Hl & Hr & root & Hroot & Hch); eexists; split; [by split_and!|]]);
  change (Hash_vec (digest (hv l ++ hv r))) with (Ok (E:=ErrorInfo) (sha3_256 (hv l ++ hv r))) in *;
  rg_step.
- revert E. rg_step. unfold check_next. rewrite bind_Ok. intros ([] & E & _).
  rewrite bind_Ok in E. setoid_rewrite safe_get_vec_inv in E. destruct E as (root & Hroot & E).
  exists root. split; [done|]. case_bool_decide; [|done]. subst. constructor.
- apply bind_Ok. exists tt. split; [|done]. unfold check_next. apply bind_Ok. exists root.
  inversion Hch; subst. rewrite safe_get_vec_inv. by rewrite bool_decide_eq_true_2.
- done.
- inversion Hch.
- revert E. rg_step. rewrite bind_Ok. intros ([] & E & Hv). apply IH in Hv as (Hl' & Hr' & root & Hroot & Hch).
  exists root. split; [done|]. constructor; [done|done| |done].
  unfold check_next in E. rewrite !Hash_vec_hv in E by done. revert E. rg_step.
  case_bool_decide as Hin; [set_solver|]. intros E. inv_Ok.
- inversion Hch; subst. apply bind_Ok. exists tt. split; [|apply IH; eauto].
  unfold check_next. rewrite !Hash_vec_hv by done. rg_step. rewrite bool_decide_eq_true_2; [done|set_solver].
Qed.

Lemma verify_first p l r rest :
  verify_nodes p true (l :: r :: rest) = Ok tt ↔
  verify_nodes p false (l :: r :: rest) = Ok tt ∧ check_leaf p l r = Ok tt.
Proof.
cbn [verify_nodes]. destruct (merkle_combine l r) as [h| |]; rg_step; [|naive_solver..].
destruct (Hash_vec h); rg_step; [|naive_solver..].
destruct (check_leaf p l r) as [[]| |]; rg_step; naive_solver.
Qed.

Lemma verify_nonempty p :
  mp_nodes p ≠ [] →
  MerkleProof_verify p = Ok tt ↔
  ∃ leaf root, hash_at (mp_leaf p) leaf ∧ hash_at (mp_root p) root ∧ chain root leaf (mp_nodes p).
Proof.
intros Hne. unfold MerkleProof_verify. destruct (mp_nodes p) as [|l [|r rest]]; [done| |].
{ split; [done|]. intros (? & ? & _ & _ & Hch). inversion Hch. }
rewrite verify_first, verify_tail. split.
- intros [(Hl & Hr & root & Hroot & Hch) Hleaf].
  apply check_leaf_Ok in Hleaf as (k & Hk & Hkid); [|done|done].
  exists k, root. split_and!; [done|done|]. by constructor.
- intros (k & root & Hk & Hroot & Hch). inversion Hch; subst. split; [by eauto|].
  apply check_leaf_Ok; eauto.
Qed.

Lemma MerkleTree_new_total es :
  Forall entry_wf es → es ≠ [] →
  ∃ t top, MerkleTree_new es = Ok t ∧ mt_entries t = es ∧ last es = Some top ∧
    mt_root t = me_parent top ∧ ∀ k, last_with_child k es (mt_child_to_parent t !! k).
Proof.
intros Hwf Hne. destruct (insert_entries_spec es Hwf) as (m & Hm & Hk).
destruct (last es) as [top|] eqn:Hlast; [|by apply last_None in Hlast].
unfold MerkleTree_new. rewrite Hm, Hlast. rg_step. eexists _, top. split; [done|]. done.
Qed.

Lemma build_root_levels leafs :
  leafs ≠ [] → Forall has_bytes leafs →
  ∃ t top, build_root leafs = Some (Ok t) ∧ levels leafs (mt_entries t) ∧
    last (mt_entries t) = Some top ∧ mt_root t = me_parent top ∧
    ∀ k, last_with_child k (mt_entries t) (mt_child_to_parent t !! k).
Proof.
intros Hne Hb. destruct (build_loop_total (length leafs) leafs [] Hne Hb) as (es & He & Hlv); [lia|].
destruct (MerkleTree_new_total es) as (t & top & Ht & Hes & Hlast & Hroot & Hk);
  [apply Hlv|apply Hlv|].
exists t, top. unfold build_root, build_root_fuel. rewrite bool_decide_eq_false_2, He by done.
rg_step. simpl. rewrite Ht, Hes. done.
Qed.

(** [build_root] is total on every nonempty list of hashes that carry bytes
    (its [while !done] loop ends within as many rounds as there are leaves): the
    tree it returns has its last parent as root, every leaf is a child of some
    entry, every parent is the digest of its two children, every parent but the
    root is a child of a later entry, and every child is a leaf or a parent. *)
Theorem build_root_total leafs :
  leafs ≠ [] → Forall has_bytes leafs →
  ∃ t top, build_root leafs = Some (Ok t) ∧ levels leafs (mt_entries t) ∧
    last (mt_entries t) = Some top ∧ mt_root t = me_parent top.
Proof. intros. destruct (build_root_levels leafs) as (t & top & ?); naive_solver. Qed.

Lemma proof_accepted leafs t leaf :
  Forall has_bytes leafs → build_root leafs = Some (Ok t) → leaf ∈ leafs →
  Forall (λ e, ¬ is_child (hv (mt_root t)) e) (mt_entries t) →
  ∃ p, MerkleTree_proof (S (length (mt_entries t))) t leaf = Some (Ok p) ∧
    mp_root p = Some (mt_root t) ∧ mp_leaf p = Some leaf ∧ mp_nodes p ≠ [] ∧
    MerkleProof_verify p = Ok tt.
Proof.
intros Hb Ht Hin Hroot. assert (leafs ≠ []) as Hne by (destruct leafs; set_solver).
destruct (build_root_levels leafs Hne Hb) as (t' & top & Ht' & Hlv & Hlast & Hr & Hk).
assert (t' = t) as -> by congruence.
assert (has_bytes leaf) as Hleaf by (rewrite Forall_forall in Hb; auto).
destruct (lv_leafs _ _ Hlv leaf Hin) as (e0 & He0 & Hc0).
pose proof (Hk (hv leaf)) as Hl. destruct (mt_child_to_parent t !! hv leaf) as [e|] eqn:E; cycle 1.
{ simpl in Hl. rewrite Forall_forall in Hl. destruct (Hl e0); done. }
destruct Hl as (pre & post & Hes & Hc & _). rewrite Hr in Hroot.
destruct (proof_walk leafs (mt_entries t) (mt_child_to_parent t) top Hlv Hk Hlast Hroot
  (length (mt_entries t)) pre e post [me_left e; me_right e] Hes) as (nodes & Hn & Hch).
{ rewrite Hes, length_app. simpl. lia. }
destruct (walk_entry leafs (mt_entries t) Hlv e) as (? & ? & Hp & Hpe); [rewrite Hes; set_solver|].
exists {| mp_root := Some (mt_root t); mp_leaf := Some leaf; mp_nodes := me_left e :: me_right e :: nodes |}.
split_and!; [|done|done|done|].
- unfold MerkleTree_proof. cbn [proof_loop]. rewrite Hash_vec_hv, E by done. simpl. by rewrite Hn.
- apply verify_nonempty; [done|]. exists (hv leaf), (hv (me_parent top)). cbn. split_and!.
  + by exists leaf.
  + exists (mt_root t). rewrite Hr. split_and!; [done| |done].
    apply entry_wf_parent. pose proof (lv_wf _ _ Hlv) as Hwf. rewrite Forall_forall in Hwf.
    by apply Hwf, last_Some_elem_of.
  + constructor; [done|done|done|]. by rewrite <-Hpe.
Qed.

(** C26: completeness. In a tree built by [build_root] whose root is not itself the
    child of an entry, the walk of [MerkleTree::proof] from any leaf ends within
    one more step than there are entries, and [MerkleProof::verify] accepts the
    (nonempty) proof it returns for that leaf and root. *)
Theorem merkle_proof_complete leafs t leaf :
  Forall has_bytes leafs → build_root leafs = Some (Ok t) → leaf ∈ leafs →
  Forall (λ e, ¬ is_child (hv (mt_root t)) e) (mt_entries t) →
  ∃ p, MerkleTree_proof (S (length (mt_entries t))) t leaf = Some (Ok p) ∧
    mp_root p = Some (mt_root t) ∧ mp_leaf p = Some leaf ∧ mp_nodes p ≠ [] ∧
    MerkleProof_verify p = Ok tt.
Proof. apply proof_accepted. Qed.

(** What [MerkleProof::verify] accepts: the node pairs form a hash chain from
    the leaf to the root, or there are no nodes at all, in which case neither
    the leaf nor the root is looked at. *)
Theorem verify_accepts_iff p :
  MerkleProof_verify p = Ok tt ↔
  mp_nodes p = [] ∨
  ∃ leaf root, hash_at (mp_leaf p) leaf ∧ hash_at (mp_root p) root ∧
    mp_nodes p ≠ [] ∧ chain root leaf (mp_nodes p).
Proof.
destruct (decide (mp_nodes p = [])) as [E|E].
- unfold MerkleProof_verify. rewrite E. naive_solver.
- rewrite verify_nonempty by done. naive_solver.
Qed.

(** ** Soundness *)

(** The preimages a verifier hashes: the concatenated node pairs. *)
Fixpoint pair_preimages (nodes : list Hash) : list bytes :=
  match nodes with l :: r :: rest => (hv l ++ hv r) :: pair_preimages rest | _ => [] end.

Definition tree_preimages (es : list MerkleEntry) : list bytes :=
  (λ e, hv (me_left e) ++ hv (me_right e)) <$> es.

Definition collision_free (a b : list bytes) : Prop :=
  Forall (λ x, Forall (λ y, sha3_256 x = sha3_256 y → x = y) b) a.

#[global] Instance collision_free_dec a b : Decision (collision_free a b).
Proof. unfold collision_free. apply _. Defined.

Lemma chain_sound leafs es root k nodes :
  levels leafs es → (∃ top, top ∈ es ∧ root = hv (me_parent top)) →
  Forall (λ h, length (hv h) = 32%nat) nodes →
  Forall (λ e, length (hv (me_left e)) = 32%nat) es →
  collision_free (pair_preimages nodes) (tree_preimages es) →
  Forall (λ x, Forall (λ h, hv h ≠ sha3_256 x) leafs) (pair_preimages nodes) →
  chain root k nodes → k = root ∨ ∃ e, e ∈ es ∧ is_child k e.
Proof.
intros Hlv (top & Htop & ->) Hn He Hcf Hleaf. induction 1 as [|k l r rest _ _ Hkid Hch IH]; [by left|right].
apply Forall_cons in Hn as [Hl Hn]. apply Forall_cons in Hn as [Hr Hn].
apply Forall_cons in Hcf as [Hc Hcf]. apply Forall_cons in Hleaf as [Hlf Hleaf].
assert (∃ e', e' ∈ es ∧ sha3_256 (hv l ++ hv r) = hv (me_parent e')) as (e' & He' & E).
{ destruct (IH Hn Hcf Hleaf) as [E|(e & Hin & Hce)]; [by eauto|].
  destruct (lv_down _ _ Hlv e _ Hin Hce) as [(h & Hh & E)|?]; [|done].
  rewrite Forall_forall in Hlf. by destruct (Hlf h Hh). }
destruct (walk_entry leafs es Hlv e' He') as (_ & _ & _ & Hp). rewrite Hp in E.
rewrite Forall_forall in Hc. rewrite Forall_forall in He. apply Hc in E; [|apply list_elem_of_fmap; eauto].
apply app_inj_1 in E as [E1 E2]; [|rewrite Hl; symmetry; auto].
exists e'. split; [done|]. destruct Hkid as [->| ->]; [left|right]; done.
Qed.

(** C13: soundness. A nonempty proof accepted against the root of a tree built by
    [build_root] is a proof of a hash in that tree: if the nodes and the tree's
    hashes are 32 bytes long, SHA3-256 has no collision between the pairs the
    verifier hashes and the pairs of the tree, and no tree leaf is the digest of
    such a pair, then the proved leaf is a leaf of the tree or one of its
    inner hashes. *)
Theorem merkle_verify_sound leafs t p leaf :
  Forall has_bytes leafs → leafs ≠ [] → build_root leafs = Some (Ok t) →
  MerkleProof_verify p = Ok tt → mp_nodes p ≠ [] →
  hash_at (mp_leaf p) leaf → hash_at (mp_root p) (hv (mt_root t)) →
  Forall (λ h, length (hv h) = 32%nat) (mp_nodes p) →
  Forall (λ e, length (hv (me_left e)) = 32%nat) (mt_entries t) →
  collision_free (pair_preimages (mp_nodes p)) (tree_preimages (mt_entries t)) →
  Forall (λ x, Forall (λ h, hv h ≠ sha3_256 x) leafs) (pair_preimages (mp_nodes p)) →
  (∃ h, h ∈ leafs ∧ leaf = hv h) ∨ (∃ e, e ∈ mt_entries t ∧ leaf = hv (me_parent e)).
Proof.
intros Hb Hne Ht Hv Hnodes Hleaf Hroot H1 H2 H3 H4.
destruct (build_root_levels leafs Hne Hb) as (t' & top & Ht' & Hlv & Hlast & Hr & _).
assert (t' = t) as -> by congruence. apply last_Some_elem_of in Hlast.
apply verify_nonempty in Hv as (k & root & Hk & Hroot' & Hch); [|done].
assert (k = leaf) as -> by (unfold hash_at in *; naive_solver).
assert (root = hv (mt_root t)) as -> by (unfold hash_at in *; naive_solver).
destruct (chain_sound leafs (mt_entries t) (hv (mt_root t)) leaf (mp_nodes p)) as [->|(e & ? & ?)];
  [done|by exists top; rewrite Hr|done|done|done|done|done| |].
- right. exists top. by rewrite Hr.
- eapply lv_down; [exact Hlv|done|done].
Qed.

(** Without the lengths soundness fails: the verifier does not check that a node is a
    digest, so that the bytes of a pair, cut elsewhere, prove a leaf that is not in the
    tree. *)
Lemma resplit_accepted l r a b root :
  has_bytes l → has_bytes r → has_bytes a → has_bytes b → hv a ++ hv b = hv l ++ hv r → merkle_combine l r = Ok root →
  MerkleProof_verify {| mp_root := Some root; mp_leaf := Some a; mp_nodes := [a; b] |} = Ok tt.
Proof.
intros Hl Hr Ha Hb E. rewrite merkle_combine_hv by done. intros [= <-].
unfold MerkleProof_verify. cbn [mp_nodes verify_nodes]. rewrite merkle_combine_hv, E by done.
rewrite bind_Ok. eexists. split; [done|]. rewrite (Hash_vec_hv (digest _)) by by eexists.
unfold check_leaf, check_next. cbn [mp_leaf mp_root safe_get_msg ok_or mbind result_bind].
rewrite (Hash_vec_hv a), (Hash_vec_hv (digest _)) by (done || by eexists). cbn [mbind result_bind].
by rewrite !bool_decide_eq_true_2.
Qed.

End merkle.

(** * Witnesses *)

Definition demo_hash (b : u8) : Hash := digest (crypto := toy_crypto) [b].
Definition demo_leafs : list Hash := demo_hash <$> [Byte.x01; Byte.x02; Byte.x03].
Definition demo_tree : MerkleTree :=
  match build_root (host := toy_host) (crypto := toy_crypto) demo_leafs with
  | Some (Ok t) => t
  | _ => {| mt_root := demo_hash Byte.x00; mt_entries := []; mt_parent_lookup := ∅; mt_child_to_parent := ∅ |}
  end.
Definition demo_proof : MerkleProof :=
  match MerkleTree_proof (host := toy_host) 5 demo_tree (demo_hash Byte.x03) with
  | Some (Ok p) => p
  | _ => {| mp_root := None; mp_leaf := None; mp_nodes := [] |}
  end.

Lemma demo_build : build_root (host := toy_host) (crypto := toy_crypto) demo_leafs = Some (Ok demo_tree).
Proof. vm_compute. reflexivity. Qed.

Lemma demo_leafs_bytes : Forall has_bytes demo_leafs.
Proof. repeat constructor; by eexists. Qed.

Lemma build_root_total_witness :
  ∃ t top, build_root (host := toy_host) (crypto := toy_crypto) demo_leafs = Some (Ok t) ∧
    last (mt_entries t) = Some top ∧ mt_root t = me_parent top.
Proof.
destruct (build_root_total (host := toy_host) (crypto := toy_crypto) demo_leafs) as (t & top & ? & _ & ? & ?).
- discriminate.
- exact demo_leafs_bytes.
- exists t, top. auto.
Defined.

Lemma merkle_proof_complete_witness :
  ∃ p, MerkleTree_proof (host := toy_host) (S (length (mt_entries demo_tree))) demo_tree (demo_hash Byte.x03) = Some (Ok p) ∧
    MerkleProof_verify (host := toy_host) (crypto := toy_crypto) p = Ok tt.
Proof.
destruct (merkle_proof_complete (host := toy_host) (crypto := toy_crypto) demo_leafs demo_tree (demo_hash Byte.x03))
  as (p & ? & _ & _ & _ & ?).
- exact demo_leafs_bytes.
- exact demo_build.
- by_decision.
- by_decision.
- exists p. auto.
Defined.

Lemma merkle_verify_sound_witness :
  (∃ h, h ∈ demo_leafs ∧ hv (demo_hash Byte.x03) = hv h) ∨
  (∃ e, e ∈ mt_entries demo_tree ∧ hv (demo_hash Byte.x03) = hv (me_parent e)).
Proof.
apply (merkle_verify_sound (host := toy_host) (crypto := toy_crypto) demo_leafs demo_tree demo_proof).
- exact demo_leafs_bytes.
- discriminate.
- exact demo_build.
- vm_compute. reflexivity.
- vm_compute. discriminate.
- eexists. split_and!; [vm_compute; reflexivity|by eexists|vm_compute; reflexivity].
- eexists. split_and!; [vm_compute; reflexivity|by eexists|vm_compute; reflexivity].
- by_decision.
- by_decision.
- by_decision.
- by_decision.
Defined.
