(* ===== verification/Transaction.v ===== *)
(** * Transactions, outputs, UTXO entries

    schema/src/transaction.rs, schema/src/output.rs, schema/src/utxo_entry.rs,
    schema/src/utxo_id.rs, schema/src/input.rs, schema/src/observation.rs and the
    hashing traits of schema/src/lib.rs ([HashClear], [ProtoHashable],
    [WithMetadataHashableFields], [WithMetadataHashable]).

    The Rust traits are type classes here, with one instance per message; prost is
    the class [Proto].  A method that mutates [self] returns the new value. *)

From stdpp Require Import base list gmap strings pretty.
From S2P Require Import Prelude Structs Interfaces Schema Merkle.
#[local] Open Scope Z_scope.
#[local] Open Scope redgold_scope.

(** ** Constants (schema/src/constants.rs) *)

Definition DECIMAL_MULTIPLIER : Z := 100000000.
Definition MAX_COIN_SUPPLY : Z := 10000000.
Definition MAX_INPUTS_OUTPUTS : Z := 5000.
Definition VERSION : Z := 0.
Definition MIN_FEE_RAW : Z := DECIMAL_MULTIPLIER / 100.
Definition MAX_TRANSACTION_MESSAGE_SIZE : Z := 40.

(** ** Field updates *)

Definition sm_with_hash (h : option Hash) (s : StructMetadata) : StructMetadata :=
  {| sm_time := sm_time s; sm_version := sm_version s; sm_hash := h;
     sm_signable_hash := sm_signable_hash s; sm_signed_hash := sm_signed_hash s;
     sm_counter_party_hash := sm_counter_party_hash s;
     sm_confirmation_hash := sm_confirmation_hash s |}.
Definition sm_with_signable_hash (h : option Hash) (s : StructMetadata) : StructMetadata :=
  {| sm_time := sm_time s; sm_version := sm_version s; sm_hash := sm_hash s;
     sm_signable_hash := h; sm_signed_hash := sm_signed_hash s;
     sm_counter_party_hash := sm_counter_party_hash s;
     sm_confirmation_hash := sm_confirmation_hash s |}.
Definition i_with_output (o : option Output) (i : Input) : Input :=
  {| i_utxo_id := i_utxo_id i; i_proof := i_proof i; i_product_id := i_product_id i;
     i_output := o; i_floating_utxo_id := i_floating_utxo_id i; i_input_type := i_input_type i |}.
Definition i_with_proof (p : list Proof_) (i : Input) : Input :=
  {| i_utxo_id := i_utxo_id i; i_proof := p; i_product_id := i_product_id i;
     i_output := i_output i; i_floating_utxo_id := i_floating_utxo_id i;
     i_input_type := i_input_type i |}.
Definition o_with_counter_party_proofs (p : list Proof_) (o : Output) : Output :=
  {| o_address := o_address o; o_product_id := o_product_id o; o_counter_party_proofs := p;
     o_data := o_data o; o_contract := o_contract o; o_output_type := o_output_type o;
     o_utxo_id := o_utxo_id o |}.
Definition txc_with_proofs (p : list Proof_) (c : TransactionContract) : TransactionContract :=
  {| txc_confirmation := txc_confirmation c; txc_confirmation_proofs := p;
     txc_finalize_window := txc_finalize_window c; txc_lock_period := txc_lock_period c;
     txc_network_reversible := txc_network_reversible c;
     txc_time_lock_window := txc_time_lock_window c; txc_options := txc_options c;
     txc_pow_proof := txc_pow_proof c |}.
Definition txo_with_contract (c : option TransactionContract) (o : TransactionOptions) : TransactionOptions :=
  {| txo_salt := txo_salt o; txo_network_type := txo_network_type o;
     txo_key_value_options := txo_key_value_options o; txo_data := txo_data o;
     txo_contract := c; txo_time_sponsor := txo_time_sponsor o; txo_is_test := txo_is_test o |}.
Definition tx_with_inputs (l : list Input) (t : Transaction) : Transaction :=
  {| tx_inputs := l; tx_outputs := tx_outputs t; tx_struct_metadata := tx_struct_metadata t;
     tx_options := tx_options t |}.
Definition tx_with_outputs (l : list Output) (t : Transaction) : Transaction :=
  {| tx_inputs := tx_inputs t; tx_outputs := l; tx_struct_metadata := tx_struct_metadata t;
     tx_options := tx_options t |}.
Definition tx_with_metadata (m : option StructMetadata) (t : Transaction) : Transaction :=
  {| tx_inputs := tx_inputs t; tx_outputs := tx_outputs t; tx_struct_metadata := m;
     tx_options := tx_options t |}.
Definition tx_with_options (o : option TransactionOptions) (t : Transaction) : Transaction :=
  {| tx_inputs := tx_inputs t; tx_outputs := tx_outputs t;
     tx_struct_metadata := tx_struct_metadata t; tx_options := o |}.
Definition om_with_metadata (m : option StructMetadata) (o : ObservationMetadata) : ObservationMetadata :=
  {| om_observed_hash := om_observed_hash o; om_observation_type := om_observation_type o;
     om_state := om_state o; om_validation_confidence := om_validation_confidence o;
     om_struct_metadata := m; om_validation_liveness := om_validation_liveness o;
     om_liveness_confidence := om_liveness_confidence o |}.

(** ** The hashing traits (schema/src/lib.rs) *)

(** [trait HashClear]. *)
Class HashClear (A : Type) := hash_clear : A → A.
(** [trait WithMetadataHashableFields]; the mutable accessor is a setter. *)
Class MetadataFields (A : Type) := {
  struct_metadata_opt : A → option StructMetadata;
  set_struct_metadata : option StructMetadata → A → A }.

#[global] Instance StructMetadata_hash_clear : HashClear StructMetadata := λ s,
  {| sm_time := sm_time s; sm_version := sm_version s; sm_hash := None; sm_signable_hash := None;
     sm_signed_hash := None; sm_counter_party_hash := None; sm_confirmation_hash := None |}.

#[global] Instance Transaction_fields : MetadataFields Transaction :=
  {| struct_metadata_opt := tx_struct_metadata; set_struct_metadata := tx_with_metadata |}.
#[global] Instance Transaction_hash_clear : HashClear Transaction := λ t,
  tx_with_metadata (hash_clear <$> tx_struct_metadata t)
    (tx_with_inputs (i_with_output None <$> tx_inputs t) t).

#[global] Instance ObservationMetadata_fields : MetadataFields ObservationMetadata :=
  {| struct_metadata_opt := om_struct_metadata; set_struct_metadata := om_with_metadata |}.
#[global] Instance ObservationMetadata_hash_clear : HashClear ObservationMetadata := λ o,
  om_with_metadata (hash_clear <$> om_struct_metadata o) o.

Definition struct_metadata (time : Z) : option StructMetadata :=
  Some {| sm_time := Some time; sm_version := VERSION; sm_hash := None; sm_signable_hash := None;
          sm_signed_hash := None; sm_counter_party_hash := None; sm_confirmation_hash := None |}.

Section hashable.
Context {host : Host} {crypto : Crypto}.

Section one_message.
Context {A : Type} {proto : Proto A} {clear : HashClear A} {fields : MetadataFields A}.

Definition proto_deserialize (b : bytes) : RgResult A :=
  match proto_decode b with
  | inr a => Ok a
  | inl e => Err (error_message ProtoDecoderFailure e)
  end.
Definition calculate_hash (a : A) : Hash := digest (encode_to_vec (hash_clear a)).
Definition proto_from_hex (hex_value : string) : RgResult A := from_hex hex_value ≫= proto_deserialize.
Definition proto_div_mod (a : A) (bucket : Z) : RgResult Z := div_mod (calculate_hash a) bucket.

Definition struct_metadata_err (a : A) : RgResult StructMetadata :=
  ok_or (struct_metadata_opt a) (error_message MissingField "struct_metadata").
Definition metadata_version (a : A) : RgResult Z := sm_version <$> struct_metadata_err a.
Definition metadata_time (a : A) : RgResult Z := s ← safe_get (struct_metadata_opt a); safe_get (sm_time s).
Definition hash_or (a : A) : Hash :=
  default (calculate_hash a) (struct_metadata_opt a ≫= sm_hash).
Definition hash_bytes (a : A) : RgResult bytes := safe_bytes (h_bytes (hash_or a)).
Definition hash_vec (a : A) : RgResult bytes := expect (hash_bytes a).
Definition hash_hex (a : A) : RgResult string := hex_encode <$> safe_bytes (h_bytes (hash_or a)).
Definition hash_hex_or_missing (a : A) : string :=
  match hash_hex a with Ok s => s | _ => "missing hash" end.
Definition set_hash (h : Hash) (a : A) : RgResult A :=
  s ← struct_metadata_err a; Ok (set_struct_metadata (Some (sm_with_hash (Some h) s)) a).
Definition with_hash (a : A) : RgResult A := expect (set_hash (calculate_hash a) a).
End one_message.

(** ** UtxoId (schema/src/transaction.rs, schema/src/utxo_id.rs) *)

Definition UtxoId_new (h : Hash) (output_index : Z) : UtxoId :=
  {| u_transaction_hash := Some h; u_output_index := output_index |}.
Definition UtxoId_format_str (u : UtxoId) : RgResult string :=
  h ← expect_opt (u_transaction_hash u) ≫= Hash_hex;
  Ok ("UtxoId: " +:+ h +:+ " output: " +:+ pretty (u_output_index u)).

(** [len - 8] wraps below eight bytes and the slice then panics. *)
Definition split_index (id : bytes) : RgResult (bytes * Z) :=
  let len := length id in
  if bool_decide (len < 8)%nat then Panic else
  output_id_vec ← slice id (len - 8) len;
  hash ← slice id 0 (len - 8);
  Ok (hash, i64_from_le_bytes output_id_vec).
Definition UtxoId_from (id : bytes) : RgResult UtxoId :=
  hi ← split_index id;
  Ok {| u_transaction_hash := Some (Hash_new hi.1); u_output_index := hi.2 |}.
Definition utxo_id_vec (u : UtxoId) : RgResult bytes :=
  h ← expect_opt (u_transaction_hash u) ≫= Hash_vec;
  Ok (h ++ i64_to_le_bytes (u_output_index u)).
Definition as_hash (u : UtxoId) : RgResult Hash :=
  v ← utxo_id_vec u;
  let h := Hash_new v in
  Ok {| h_bytes := h_bytes h; h_format_type := h_format_type h; h_type := HashType_UtxoId |}.
Definition utxo_id_hex (u : UtxoId) : RgResult string := hex_encode <$> utxo_id_vec u.

Record OldUtxoId := { old_transaction_hash : bytes; old_output_index : Z }.
Definition OldUtxoId_from (id : bytes) : RgResult OldUtxoId :=
  hi ← split_index id; Ok {| old_transaction_hash := hi.1; old_output_index := hi.2 |}.
Definition coin_id (u : OldUtxoId) : bytes :=
  old_transaction_hash u ++ i64_to_le_bytes (old_output_index u).

(** ** CurrencyAmount and StandardData constructors *)

Definition amount_to_raw_amount (redgold : Z) : RgResult Z :=
  if redgold <=? as_u64 MAX_COIN_SUPPLY then Ok (as_u64 (redgold * as_u64 DECIMAL_MULTIPLIER)) else Panic.
Definition CurrencyAmount_from (amount : Z) : CurrencyAmount :=
  {| ca_amount := amount; ca_bytes := None; ca_currency := None |}.
Definition CurrencyAmount_from_btc (amount : Z) : CurrencyAmount :=
  {| ca_amount := amount; ca_bytes := None; ca_currency := Some SupportedCurrency_Bitcoin |}.
Definition CurrencyAmount_from_rdg (amount : Z) : CurrencyAmount :=
  {| ca_amount := amount; ca_bytes := None; ca_currency := Some SupportedCurrency_Redgold |}.

Definition d_with_amount (a : option CurrencyAmount) (d : StandardData) : StandardData :=
  {| d_amount := a; d_generic_typed_value := d_generic_typed_value d; d_peer_data := d_peer_data d;
     d_node_metadata := d_node_metadata d; d_dynamic_node_metadata := d_dynamic_node_metadata d;
     d_height := d_height d; d_data_hash := d_data_hash d; d_hash := d_hash d;
     d_observation := d_observation d; d_address := d_address d; d_state := d_state d;
     d_request := d_request d; d_standard_request := d_standard_request d;
     d_liquidity_request := d_liquidity_request d; d_portfolio_info := d_portfolio_info d;
     d_schema_def := d_schema_def d; d_data := d_data d;
     d_aggregate_state_hash := d_aggregate_state_hash d;
     d_external_transaction_id := d_external_transaction_id d |}.

(** The argument is a [u64]. *)
Definition amount_data (amount : Z) : option StandardData :=
  Some (d_with_amount (Some (CurrencyAmount_from (as_i64 amount))) default_StandardData).

(** ** Output (schema/src/output.rs) *)

Definition is_request (o : Output) : bool := bool_decide (o_output_type o = Some OutputType_RequestCall).
Definition is_deploy (o : Output) : bool := bool_decide (o_output_type o = Some OutputType_Deploy).
Definition Output_code (o : Output) : option bytes :=
  c ← o_contract o; e ← oc_code_execution_contract c; b ← cec_code e; Some (bd_value b).
Definition validate_deploy_code (o : Output) : RgResult bytes :=
  match (if is_deploy o then Output_code o else None) with
  | Some d =>
      if bool_decide (d ≠ [] ∧ ok_opt (script_hash d) = o_address o) then Ok d
      else Err (error_info "Not a deploy")
  | None => Err (error_info "Not a deploy")
  end.
Definition pay_update_descendents (o : Output) : bool :=
  match o_contract o with Some c => oc_pay_update_descendents c | None => false end.
Definition request_data (o : Output) : RgResult bytes :=
  match (if is_request o then o_data o ≫= d_request else None) with
  | Some d => Ok (bd_value d)
  | None => Err (error_info "Not a request")
  end.
Definition request_selector (o : Output) : RgResult (option StateSelector) :=
  if is_request o then Ok (d ← o_data o; r ← d_standard_request d; sr_selector r)
  else Err (error_info "Not a request").

(** [amount as u64] and back is the identity on [i64]. *)
Definition Output_new (address : Address) (amount : Z) : Output :=
  {| o_address := Some address; o_product_id := None; o_counter_party_proofs := [];
     o_data := amount_data (as_u64 amount); o_contract := None; o_output_type := None;
     o_utxo_id := None |}.
Definition output_data (address : bytes) (amount : Z) : Output :=
  Output_new (Address_new_raw address) (as_i64 amount).
Definition tx_output_data (address : Address) (amount : Z) : Output :=
  Output_new address (as_i64 amount).
Definition Output_from_data (d : StandardData) : Output :=
  {| o_address := None; o_product_id := None; o_counter_party_proofs := []; o_data := Some d;
     o_contract := None; o_output_type := None; o_utxo_id := None |}.
Definition is_swap (o : Output) : bool :=
  bool_decide (o_contract o ≫= oc_standard_contract_type = Some StandardContractType_Swap).
Definition is_peer_data (o : Output) : bool := bool_decide (is_Some (o_data o ≫= d_peer_data)).
Definition is_liquidity (o : Output) : bool := bool_decide (is_Some (o_data o ≫= d_liquidity_request)).

Definition safe_ensure_amount (o : Output) : RgResult Z :=
  d ← safe_get_msg (o_data o) "Missing data field on output";
  a ← safe_get_msg (d_amount d) "Missing amount field on output";
  Ok (ca_amount a).
Definition Output_observation (o : Output) : RgResult Observation :=
  d ← safe_get_msg (o_data o) "Missing data field on output";
  safe_get_msg (d_observation d) "Missing observation field on output".
Definition opt_amount (o : Output) : option Z := ca_amount <$> (o_data o ≫= d_amount).
Definition opt_amount_typed (o : Output) : option CurrencyAmount := o_data o ≫= d_amount.
(** [amount_i64] unwraps the data and the amount. *)
Definition amount_i64 (o : Output) : RgResult Z := expect_opt (opt_amount o).
Definition Output_amount (o : Output) : RgResult Z := wrap_u 64 <$> amount_i64 o.

(** ** UtxoEntry (schema/src/utxo_entry.rs) *)

Definition from_output_new (o : Output) (transaction_hash : Hash) (output_index time : Z) : UtxoEntry :=
  {| ue_utxo_id := Some (UtxoId_new transaction_hash output_index); ue_output := Some o;
     ue_time := time |}.
Definition utxo_entry := from_output_new.
Definition UtxoEntry_address (u : UtxoEntry) : RgResult Address :=
  o ← safe_get_msg (ue_output u) "Missing address from utxo entry";
  safe_get_msg (o_address o) "Missing address from utxo entry".
Definition UtxoEntry_utxo_id (u : UtxoEntry) : RgResult UtxoId :=
  safe_get_msg (ue_utxo_id u) "Missing id from utxo entry".
Definition to_old_utxo_id (u : UtxoEntry) : RgResult OldUtxoId :=
  id ← expect_opt (ue_utxo_id u);
  h ← expect (opt_Hash_safe_bytes (u_transaction_hash id));
  Ok {| old_transaction_hash := h; old_output_index := u_output_index id |}.
Definition UtxoEntry_amount (u : UtxoEntry) : RgResult Z := expect_opt (ue_output u) ≫= Output_amount.
Definition UtxoEntry_opt_amount (u : UtxoEntry) : option CurrencyAmount := ue_output u ≫= opt_amount_typed.
Definition UtxoEntry_height (u : UtxoEntry) : RgResult Z :=
  safe_get_msg (o ← ue_output u; d ← o_data o; d_height d) "Missing height on utxo output".
Definition to_input (u : UtxoEntry) : Input :=
  {| i_utxo_id := ue_utxo_id u; i_proof := []; i_product_id := None; i_output := ue_output u;
     i_floating_utxo_id := None; i_input_type := None |}.

(** [Input::predicate_filter] (schema/src/input.rs). *)
Definition predicate_filter (address : Address) : Input :=
  {| i_utxo_id := None; i_proof := []; i_product_id := None; i_output := None;
     i_floating_utxo_id := Some {| fu_address_selector :=
       Some {| as_address := Some address; as_requires_output_contract_predicate_match := Some true |} |};
     i_input_type := None |}.

End hashable.

(** ** Transaction (schema/src/transaction.rs) *)

Section transaction.
Context {host : Host} {crypto : Crypto} {ptx : Proto Transaction} {pom : Proto ObservationMetadata}.

Definition Transaction_options (t : Transaction) : RgResult TransactionOptions :=
  safe_get_msg (tx_options t) "Missing options".
Definition validate_network (t : Transaction) (network : NetworkEnvironment) : RgResult unit :=
  opts ← Transaction_options t;
  net ← safe_get_msg (txo_network_type opts) "Missing network type";
  net ← safe_get_msg (network_from_i32 net) "Invalid network type";
  if bool_decide (net ≠ network) then Err (error_info "Invalid network type") else Ok tt.
(** The random salt and the clock are arguments. *)
Definition new_blank (salt now : Z) : Transaction :=
  {| tx_inputs := []; tx_outputs := []; tx_struct_metadata := struct_metadata now;
     tx_options := Some {| txo_salt := Some salt; txo_network_type := None;
       txo_key_value_options := []; txo_data := None; txo_contract := None;
       txo_time_sponsor := None; txo_is_test := None |} |}.
Definition Transaction_is_test (t : Transaction) : bool :=
  default false (tx_options t ≫= txo_is_test).
Definition Transaction_salt (t : Transaction) : RgResult Z :=
  o ← Transaction_options t; safe_get_msg (txo_salt o) "Missing salt".
Definition Transaction_height (t : Transaction) : RgResult Z :=
  safe_get_msg (o ← tx_options t; d ← txo_data o; s ← txd_standard_data d; d_height s) "Missing height".

(** [Iterator::find] of the first input or output that satisfies a test. *)
Definition find_first {A} (p : A → bool) (l : list A) : option A := head (List.filter p l).

Definition input_of (t : Transaction) (f : UtxoId) : option Input :=
  find_first (λ i, bool_decide (i_utxo_id i = Some f)) (tx_inputs t).

(** *** Observations carried by a transaction *)

Definition observation_output_index (t : Transaction) : RgResult Z :=
  ok_or (Z.of_nat ∘ fst <$> find_first (λ io, is_ok (Output_observation io.2))
           (imap (λ i o, (i, o)) (tx_outputs t)))
    (error_info "Missing observation output").
Definition observation_as_utxo_id (t : Transaction) : RgResult UtxoId :=
  o ← observation_output_index t;
  Ok {| u_transaction_hash := Some (hash_or t); u_output_index := o |}.
Definition observation_output (t : Transaction) : RgResult Output :=
  o ← observation_output_index t;
  safe_get_msg (tx_outputs t !! Z.to_nat o) "Missing observation output".
Definition observation_output_as (t : Transaction) : RgResult UtxoEntry :=
  idx ← observation_output_index t;
  o ← observation_output t;
  time ← metadata_time t;
  Ok (utxo_entry o (hash_or t) idx time).
Definition Transaction_observation (t : Transaction) : RgResult Observation :=
  ok_or (head (omap (λ o, ok_opt (Output_observation o)) (tx_outputs t)))
    (error_info "Missing observation").
Definition observation_proof (t : Transaction) : RgResult Proof_ :=
  o ← Transaction_observation t;
  p ← safe_get_msg (ob_parent_id o) "Missing parent id";
  input ← safe_get_msg (input_of t p) "Missing input";
  safe_get_msg (i_proof input !! 0%nat) "Missing input proof".
Definition observation_public_key (t : Transaction) : RgResult PublicKey :=
  p ← observation_proof t; safe_get_msg (pf_public_key p) "Missing public key".

(** [Observation] (schema/src/observation.rs).  The walk of [MerkleTree::proof]
    gets one more step than the tree has entries. *)
Definition leafs_hash (o : Observation) : list Hash := hash_or <$> ob_observations o.
Definition leafs (o : Observation) : RgResult (list bytes) := mapR hash_vec (ob_observations o).
Definition observation_proof_of (tree : MerkleTree) (obs_tx_hash : Hash) (proof : Proof_)
    (om : ObservationMetadata) : option (RgResult ObservationProof) :=
  mp ← MerkleTree_proof (S (length (mt_entries tree))) tree (hash_or om);
  Some (merkle_proof ← mp;
        Ok {| op_observation_hash := Some obs_tx_hash; op_merkle_proof := Some merkle_proof;
              op_metadata := Some om; op_proof := Some proof |}).
Definition Observation_build_observation_proofs (o : Observation) (obs_tx_hash : Hash) (proof : Proof_) :
    option (RgResult (list ObservationProof)) :=
  tree ← build_root (leafs_hash o);
  match expect tree with
  | Ok merkle_tree =>
      ps ← mapM (observation_proof_of merkle_tree obs_tx_hash proof) (ob_observations o);
      Some (mapR id ps)
  | Err e => Some (Err e)
  | Panic => Some Panic
  end.
Definition build_observation_proofs (t : Transaction) : option (RgResult (list ObservationProof)) :=
  match (p ← observation_proof t; o ← Transaction_observation t; Ok (p, o)) with
  | Ok (p, o) => Observation_build_observation_proofs o (hash_or t) p
  | Err e => Some (Err e)
  | Panic => Some Panic
  end.

(** *** Signing payloads *)

Definition clear_input_proofs (t : Transaction) : Transaction :=
  tx_with_inputs (i_with_proof [] <$> tx_inputs t) t.
Definition clear_counter_party_proofs (t : Transaction) : Transaction :=
  tx_with_outputs (o_with_counter_party_proofs [] <$> tx_outputs t) t.
Definition clear_confirmation_proofs (t : Transaction) : Transaction :=
  tx_with_options ((λ o, txo_with_contract (txc_with_proofs [] <$> txo_contract o) o) <$> tx_options t) t.

Definition signable_hash (t : Transaction) : Hash :=
  calculate_hash (clear_confirmation_proofs (clear_counter_party_proofs (clear_input_proofs t))).
Definition counter_party_hash (t : Transaction) : Hash :=
  calculate_hash (clear_confirmation_proofs (clear_counter_party_proofs t)).
Definition confirmation_hash (t : Transaction) : Hash := calculate_hash (clear_confirmation_proofs t).

Definition with_signable_hash (t : Transaction) : RgResult Transaction :=
  s ← struct_metadata_err t;
  Ok (tx_with_metadata (Some (sm_with_signable_hash (Some (signable_hash t)) s)) t).
Definition with_hashes (t : Transaction) : RgResult Transaction :=
  t ← with_hash t; expect (with_signable_hash t).
Definition add_proof_per_input (proof : Proof_) (t : Transaction) : Transaction :=
  tx_with_inputs ((λ i, i_with_proof (i_proof i ++ [proof]) i) <$> tx_inputs t) t.

(** *** UTXO ids in and out *)

(** [i as i64] of an index; a vector has fewer than 2^63 elements. *)
Definition indexed {A} (l : list A) : list (Z * A) := imap (λ i x, (Z.of_nat i, x)) l.

Definition iter_utxo_outputs (t : Transaction) : RgResult (list (bytes * Z)) :=
  mapR (λ io, h ← hash_vec t; Ok (h, io.1)) (indexed (tx_outputs t)).
Definition iter_utxo_inputs (t : Transaction) : RgResult (list (bytes * Z)) :=
  mapR (λ u, h ← expect (opt_Hash_safe_bytes (u_transaction_hash u)); Ok (h, u_output_index u))
    (omap i_utxo_id (tx_inputs t)).
Definition fixed_utxo_ids_of_inputs (t : Transaction) : list UtxoId := omap i_utxo_id (tx_inputs t).
Definition floating_inputs (t : Transaction) : list FloatingUtxoId := omap i_floating_utxo_id (tx_inputs t).
Definition from_transaction (t : Transaction) (time : Z) : list UtxoEntry :=
  (λ io, from_output_new io.2 (hash_or t) io.1 time) <$> indexed (tx_outputs t).
Definition to_utxo_entries (t : Transaction) (time : Z) : list UtxoEntry :=
  from_transaction t (as_i64 time).
Definition utxo_outputs (t : Transaction) : RgResult (list UtxoEntry) :=
  from_transaction t <$> metadata_time t.
Definition head_utxo (t : Transaction) : RgResult UtxoEntry :=
  us ← utxo_outputs t; safe_get_msg (us !! 0%nat) "Missing UTXO output for node metadata".
Definition first_peer_utxo (t : Transaction) : RgResult UtxoEntry :=
  us ← utxo_outputs t;
  ok_or (find_first (λ u, match ue_output u with Some o => is_peer_data o | None => false end) us)
    (error_info "Missing peer utxo").

(** *** Addresses.  [Input::address] never panics ([input_address_no_panic]), so
    [.ok()] of it is [ok_opt]. *)

Definition addresses (t : Transaction) : list Address := omap o_address (tx_outputs t).
Definition input_addresses (t : Transaction) : list Address :=
  omap (λ i, ok_opt (Input_address i)) (tx_inputs t).
Definition input_address_set (t : Transaction) : gset Address := list_to_set (input_addresses t).
Definition first_input_address (t : Transaction) : option Address :=
  i ← head (tx_inputs t); ok_opt (Input_address i).
Definition first_input_proof_public_key (t : Transaction) : option PublicKey :=
  i ← head (tx_inputs t); p ← i_proof i !! 0%nat; pf_public_key p.
Definition first_output_address (t : Transaction) : option Address :=
  o ← head (tx_outputs t); o_address o.

(** *** Amounts *)

Definition total_output_amount (t : Transaction) : Z :=
  foldl (λ total o, match opt_amount o with Some a => i64_add total a | None => total end) 0 (tx_outputs t).
Definition total_input_amount (t : Transaction) : Z :=
  i64_sum (omap opt_amount (omap i_output (tx_inputs t))).
Definition output_amount_map (t : Transaction) : gmap Address Z :=
  foldl (λ acc '(ad, a), <[ad := i64_add (default 0 (acc !! ad)) a]> acc) ∅
    (omap (λ o, ad ← o_address o; a ← opt_amount o; Some (ad, a)) (tx_outputs t)).
Definition non_remainder_amount (t : Transaction) : Z :=
  let inputs := input_address_set t in
  i64_sum (omap (λ o, a ← o_address o; if bool_decide (a ∉ inputs) then opt_amount o else None)
             (tx_outputs t)).
Definition output_amount_of (t : Transaction) (address : Address) : Z :=
  i64_sum (omap (λ o, a ← o_address o; if bool_decide (a = address) then opt_amount o else None)
             (tx_outputs t)).
Definition output_of (t : Transaction) (address : Address) : list Output :=
  List.filter (λ o, bool_decide (o_address o = Some address)) (tx_outputs t).
Definition output_swap_amount_of (t : Transaction) (address : Address) : Z :=
  i64_sum (omap (λ o, if is_swap o then
      a ← o_address o; if bool_decide (a = address) then opt_amount o else None else None)
    (tx_outputs t)).
Definition has_swap_to (t : Transaction) (address : Address) : bool := 0 <? output_swap_amount_of t address.
Definition output_bitcoin_address_of (t : Transaction) (address : Address) : option Address :=
  s ← ok_opt (render_string address);
  head (omap (λ o, d ← o_data o; d_address d)
    (List.filter (λ o, if is_swap o then
        bool_decide (o_address o ≫= (λ a, ok_opt (render_string a)) = Some s) else false)
      (tx_outputs t))).
Definition liquidity_of (t : Transaction) (a : Address) : option (CurrencyAmount * LiquidityRequest) :=
  let amount := o ← head (output_of t a); d ← o_data o; d_amount d in
  o ← find_first is_liquidity (tx_outputs t);
  d ← o_data o; r ← d_liquidity_request d; a ← amount; Some (a, r).
Definition output_amounts_by_product (t : Transaction) : gmap ProductId CurrencyAmount :=
  foldl (λ map o,
    match o_product_id o, opt_amount o with
    | Some product_id, Some a =>
        let aa := match map !! product_id with Some x => i64_add (ca_amount x) a | None => a end in
        <[product_id := CurrencyAmount_from aa]> map
    | _, _ => map
    end) ∅ (tx_outputs t).
Definition output_external_txids (t : Transaction) : list ExternalTransactionId :=
  omap d_external_transaction_id (omap o_data (tx_outputs t)).
Definition first_output_external_txid (t : Transaction) : option ExternalTransactionId :=
  head (output_external_txids t).

(** *** Peer and node metadata: exactly one output must carry it *)

Definition Transaction_peer_data (t : Transaction) : RgResult PeerMetadata :=
  match omap d_peer_data (omap o_data (tx_outputs t)) with
  | [d] => Ok d
  | _ => Err (error_info "Missing peer data in transaction")
  end.
Definition Transaction_node_metadata (t : Transaction) : RgResult NodeMetadata :=
  match omap d_node_metadata (omap o_data (tx_outputs t)) with
  | [d] => Ok d
  | _ => Err (error_info "Missing node metadata in transaction")
  end.

(** * Properties *)

(** ** UTXO ids *)

Lemma split_index_app h i :
  in_i64 i → split_index (h ++ i64_to_le_bytes i) = Ok (h, i).
Proof.
intros Hi. unfold split_index.
assert (length (i64_to_le_bytes i) = 8%nat) as H8 by apply le_bytes_length.
rewrite length_app, H8. rewrite bool_decide_eq_false_2 by lia.
replace (length h + 8 - 8)%nat with (length h) by lia. unfold slice.
rewrite !bool_decide_eq_true_2 by (rewrite ?length_app; lia). rg_step.
rewrite drop_app_length, drop_0, Nat.sub_0_r, take_app_length.
replace (length h + 8 - length h)%nat with (length (i64_to_le_bytes i)) by lia.
by rewrite take_ge, i64_le_roundtrip by (lia || done).
Qed.

Lemma split_index_inv b h i : split_index b = Ok (h, i) → b = h ++ i64_to_le_bytes i.
Proof.
unfold split_index. case_bool_decide as Hl; [done|]. intros E.
inv_Ok. apply slice_Ok in H as (_ & _ & ->). apply slice_Ok in H0 as (_ & _ & ->).
simplify_eq. rewrite i64_le_roundtrip' by (rewrite length_take, length_drop; lia).
rewrite drop_0, Nat.sub_0_r. rewrite (take_ge (drop _ b)) by (rewrite length_drop; lia).
by rewrite take_drop.
Qed.

(** The byte form of a UTXO id is lossless both ways: [UtxoId::from] recovers
    the hash bytes and the index from [utxo_id_vec] for every [i64] index, the
    bytes it parses are the bytes it prints, and it panics exactly below eight
    bytes. *)
Theorem utxo_id_bytes_roundtrip :
  (∀ h i b, in_i64 i → utxo_id_vec (UtxoId_new (Hash_new h) i) = Ok b →
            UtxoId_from b = Ok (UtxoId_new (Hash_new h) i)) ∧
  (∀ b u, UtxoId_from b = Ok u → utxo_id_vec u = Ok b) ∧
  (∀ b, UtxoId_from b = Panic ↔ (length b < 8)%nat).
Proof.
split_and!.
- intros h i b Hi E. change (Ok (E:=ErrorInfo) (h ++ i64_to_le_bytes i) = Ok b) in E. simplify_eq.
  unfold UtxoId_from. by rewrite split_index_app.
- intros b u E. unfold UtxoId_from in E. inv_Ok. destruct x as [h i]. apply split_index_inv in H. by subst.
- intros b. unfold UtxoId_from, split_index. case_bool_decide; [done|]. unfold slice.
  rewrite !bool_decide_eq_true_2 by lia. cbn. split; [done|lia].
Qed.

(** ** Hashes and signing payloads *)

(** What is left of a transaction once everything a signature does not cover is
    cleared. *)
Definition payload (t : Transaction) : Transaction :=
  hash_clear (clear_confirmation_proofs (clear_counter_party_proofs (clear_input_proofs t))).
Definition same_payload (t1 t2 : Transaction) : Prop := payload t1 = payload t2.

#[global] Instance same_payload_equivalence : Equivalence same_payload.
Proof. split; unfold same_payload; [by intros ?|by intros ???|intros ????; congruence]. Qed.

#[global] Instance signable_hash_proper : Proper (same_payload ==> eq) signable_hash.
Proof.
intros t1 t2 E. change (digest (encode_to_vec (payload t1)) = digest (encode_to_vec (payload t2))).
by rewrite E.
Qed.

Lemma add_proof_payload p t : same_payload (add_proof_per_input p t) t.
Proof.
unfold same_payload, payload, hash_clear, Transaction_hash_clear, clear_confirmation_proofs,
  clear_counter_party_proofs, clear_input_proofs, add_proof_per_input. cbn.
f_equal. rewrite <-!list_fmap_compose. done.
Qed.

Lemma set_metadata_payload t m :
  hash_clear <$> m = hash_clear <$> tx_struct_metadata t → same_payload (tx_with_metadata m t) t.
Proof. intros E. destruct t. cbv in E |- *. by rewrite E. Qed.

Lemma calculate_hash_metadata t m :
  hash_clear <$> m = hash_clear <$> tx_struct_metadata t →
  calculate_hash (tx_with_metadata m t) = calculate_hash t.
Proof.
intros E. unfold calculate_hash. do 2 f_equal. destruct t. cbv in E |- *. by rewrite E.
Qed.

(** Proofs and stored hashes are outside the payload. *)
#[global] Instance add_proof_proper p : Proper (same_payload ==> same_payload) (add_proof_per_input p).
Proof. intros t1 t2 E. by rewrite !add_proof_payload. Qed.

(** [with_hashes] panics without struct metadata; otherwise the transaction it
    returns stores [calculate_hash] and [signable_hash] of the original, answers
    them from [hash_or], and has unchanged hashes: storing a hash never changes
    the value that is hashed. *)
Theorem with_hashes_spec t :
  match tx_struct_metadata t with
  | None => with_hashes t = Panic
  | Some _ => ∃ t', with_hashes t = Ok t' ∧
      hash_or t' = calculate_hash t ∧ calculate_hash t' = calculate_hash t ∧
      tx_struct_metadata t' ≫= sm_signable_hash = Some (signable_hash t) ∧
      signable_hash t' = signable_hash t ∧
      tx_inputs t' = tx_inputs t ∧ tx_outputs t' = tx_outputs t ∧ tx_options t' = tx_options t
  end.
Proof.
destruct (tx_struct_metadata t) as [s|] eqn:Es.
2:{ unfold with_hashes, with_hash, set_hash, struct_metadata_err. simpl. by rewrite Es. }
set (t1 := tx_with_metadata (Some (sm_with_hash (Some (calculate_hash t)) s)) t).
assert (same_payload t1 t) as Hp by (apply set_metadata_payload; by rewrite Es).
assert (calculate_hash t1 = calculate_hash t) as Hc by (apply calculate_hash_metadata; by rewrite Es).
eexists. split.
{ unfold with_hashes, with_hash, set_hash, struct_metadata_err. simpl. rewrite Es. simpl.
  fold t1. reflexivity. }
set (s' := sm_with_signable_hash _ _).
assert (hash_clear <$> Some s' = hash_clear <$> tx_struct_metadata t1) as Hm by done.
split_and!; [done|by rewrite calculate_hash_metadata| | |done..].
- simpl. by rewrite Hp.
- rewrite (set_metadata_payload t1 _ Hm). by rewrite Hp.
Qed.

(** What a payload determines. *)
Lemma payload_inputs t : fixed_utxo_ids_of_inputs (payload t) = fixed_utxo_ids_of_inputs t.
Proof. unfold fixed_utxo_ids_of_inputs. simpl. rewrite <-!list_fmap_compose. by rewrite omap_fmap_compose. Qed.

Lemma payload_outputs t :
  (λ o, (o_address o, o_data o, o_contract o, o_product_id o)) <$> tx_outputs (payload t) =
  (λ o, (o_address o, o_data o, o_contract o, o_product_id o)) <$> tx_outputs t.
Proof. simpl. rewrite <-list_fmap_compose. done. Qed.

Section binding.
Context {tx_laws : ProtoLaws Transaction}.

(** a signature binds what it should. Two transactions have one signable hash
    exactly when their payloads agree (given that SHA3-256 does not collide on
    the two encodings), and then they spend the same UTXOs, in the same order,
    and create outputs with the same addresses, data, contracts and products;
    adding input proofs never changes the signable hash. *)
Theorem signable_hash_binds t1 t2 p :
  (sha3_256 (encode_to_vec (payload t1)) = sha3_256 (encode_to_vec (payload t2)) →
   encode_to_vec (payload t1) = encode_to_vec (payload t2)) →
  (signable_hash t1 = signable_hash t2 ↔ same_payload t1 t2) ∧
  (signable_hash t1 = signable_hash t2 →
   fixed_utxo_ids_of_inputs t1 = fixed_utxo_ids_of_inputs t2 ∧
   ((λ o, (o_address o, o_data o, o_contract o, o_product_id o)) <$> tx_outputs t1 =
    (λ o, (o_address o, o_data o, o_contract o, o_product_id o)) <$> tx_outputs t2)) ∧
  signable_hash (add_proof_per_input p t1) = signable_hash t1.
Proof using tx_laws.
intros Hcf. assert (signable_hash t1 = signable_hash t2 → same_payload t1 t2) as Hb.
{ intros E. apply encode_to_vec_inj, Hcf. unfold signable_hash, calculate_hash, digest, Hash_new in E.
  by injection E. }
split_and!.
- split; [done|]. by intros ->.
- intros E%Hb. rewrite <-(payload_inputs t1), <-(payload_outputs t1), E.
  by rewrite payload_inputs, payload_outputs.
- by rewrite add_proof_payload.
Qed.
End binding.

(** ** Amounts *)

Lemma total_output_wrap t : total_output_amount t = as_i64 (sum_Z (omap opt_amount (tx_outputs t))).
Proof.
rewrite <-i64_sum_wrap. unfold total_output_amount, i64_sum. generalize 0.
induction (tx_outputs t) as [|o l IH]; intros z; [done|]. cbn. rewrite IH. by destruct (opt_amount o).
Qed.

(** The amount [o] pays to [a]. *)
Definition pays (a : Address) (o : Output) : Z :=
  if bool_decide (o_address o = Some a) then default 0 (opt_amount o) else 0.

Lemma output_amount_of_pays t a : output_amount_of t a = as_i64 (sum_Z (pays a <$> tx_outputs t)).
Proof.
unfold output_amount_of. rewrite i64_sum_wrap, sum_Z_omap. f_equal. apply sum_Z_fmap_ext.
intros o _. unfold pays. destruct (o_address o) as [b|]; [|done]. cbn. repeat case_bool_decide; naive_solver.
Qed.

(** [output_amount_map] agrees with [output_amount_of] at every address,
    including the wrap-around of the [i64] totals, and has a key exactly for the
    addresses of outputs that carry an amount. *)
Theorem output_amount_map_spec t a :
  default 0 (output_amount_map t !! a) = output_amount_of t a ∧
  (is_Some (output_amount_map t !! a) ↔
   ∃ o, o ∈ tx_outputs t ∧ o_address o = Some a ∧ is_Some (opt_amount o)).
Proof.
unfold output_amount_map. rewrite output_amount_of_pays.
induction (tx_outputs t) as [|o l IH] using rev_ind.
{ split; [done|]. cbn. rewrite lookup_empty. split; [by intros []|set_solver]. }
rewrite omap_app, foldl_app, fmap_app, sum_Z_app.
set (m := foldl _ ∅ _) in *. destruct IH as [IH1 IH2].
assert (∀ P : Output → Prop, (∃ o0, o0 ∈ l ++ [o] ∧ P o0) ↔ (∃ o0, o0 ∈ l ∧ P o0) ∨ P o) as Hex by set_solver.
rewrite Hex. clear Hex.
assert (sum_Z (pays a <$> [o]) = pays a o) as -> by (unfold sum_Z; cbn -[pays]; lia).
unfold pays at 2. cbn [omap list_omap]. destruct (o_address o) as [b|]; cbn.
2:{ rewrite Z.add_0_r. split; [done|]. rewrite IH2. naive_solver. }
destruct (opt_amount o) as [x|]; cbn.
2:{ split; [|rewrite IH2; split; [naive_solver|intros [?|(_ & ? & ?)]; naive_solver]].
    rewrite IH1. case_bool_decide; f_equal; lia. }
destruct (decide (b = a)) as [->|Hne].
- rewrite lookup_insert_eq, bool_decide_eq_true_2 by done. cbn. split; [|naive_solver].
  rewrite IH1. unfold i64_add. by rewrite wrap_s_add_l.
- rewrite lookup_insert_ne, bool_decide_eq_false_2 by naive_solver.
  rewrite Z.add_0_r, IH2. split; [done|naive_solver].
Qed.

(** Nothing is lost between the views of a transaction's outputs: the total
    is what goes to addresses that do not sign the inputs
    ([non_remainder_amount]), plus what returns to each input address
    ([output_amount_of]), plus the outputs without an address, modulo the [i64]
    width. *)
Theorem total_output_partition t :
  total_output_amount t =
  as_i64 (non_remainder_amount t +
          sum_Z ((λ a, sum_Z (pays a <$> tx_outputs t)) <$> elements (input_address_set t)) +
          sum_Z (omap opt_amount (List.filter (λ o, bool_decide (o_address o = None)) (tx_outputs t)))).
Proof.
unfold non_remainder_amount. rewrite total_output_wrap, i64_sum_wrap, <-Z.add_assoc, wrap_s_add_l. f_equal.
rewrite (sum_swap pays), !sum_Z_omap, sum_Z_filter, <-!sum_Z_fmap_add.
apply sum_Z_fmap_ext. intros o _. unfold pays. destruct (o_address o) as [a|]; cbn.
- rewrite (sum_Z_fmap_ext _ (λ b, if bool_decide (a = b) then default 0 (opt_amount o) else 0))
    by (intros; repeat case_bool_decide; naive_solver).
  rewrite sum_indicator by apply NoDup_elements.
  repeat case_bool_decide; set_solver by lia.
- rewrite sum_Z_zero. done.
Qed.

(** ** UTXO entries *)

Lemma indexed_lookup {A} (l : list A) i : indexed l !! i = (λ x, (Z.of_nat i, x)) <$> l !! i.
Proof. unfold indexed. by rewrite list_lookup_imap. Qed.

Lemma indexed_length {A} (l : list A) : length (indexed l) = length l.
Proof. apply length_imap. Qed.

Lemma from_transaction_lookup t time i :
  from_transaction t time !! i = (λ o, from_output_new o (hash_or t) (Z.of_nat i) time) <$> tx_outputs t !! i.
Proof. unfold from_transaction. rewrite list_lookup_fmap, indexed_lookup. by destruct (tx_outputs t !! i). Qed.

(** The UTXO entries of a timed transaction are one per output, in order; the
    [i]-th carries the [i]-th output under the id (hash, [i]), and no two entries
    share an id. *)
Theorem utxo_outputs_spec t us :
  utxo_outputs t = Ok us →
  length us = length (tx_outputs t) ∧
  (∀ i u, us !! i = Some u →
     ue_utxo_id u = Some (UtxoId_new (hash_or t) (Z.of_nat i)) ∧ ue_output u = tx_outputs t !! i) ∧
  NoDup (ue_utxo_id <$> us).
Proof.
unfold utxo_outputs. intros E. inv_Ok. subst us.
assert (∀ i u, from_transaction t x !! i = Some u →
  ue_utxo_id u = Some (UtxoId_new (hash_or t) (Z.of_nat i)) ∧ ue_output u = tx_outputs t !! i) as Hi.
{ intros i u. rewrite from_transaction_lookup, fmap_Some. intros (o & Ho & ->). by rewrite Ho. }
split_and!; [by unfold from_transaction; rewrite length_fmap, indexed_length|done|].
apply NoDup_alt. intros i j k. rewrite !list_lookup_fmap, !fmap_Some.
intros (u & Hu & ->) (v & Hv & E). destruct (Hi _ _ Hu) as [E1 _]. destruct (Hi _ _ Hv) as [E2 _].
rewrite E1, E2 in E. simplify_eq. lia.
Qed.

(** ** Observation proofs *)

Lemma observation_proofs_accepted o tx_hash proof tree :
  ob_observations o ≠ [] → Forall has_bytes (leafs_hash o) →
  build_root (leafs_hash o) = Some (Ok tree) →
  Forall (λ e, ¬ is_child (hv (mt_root tree)) e) (mt_entries tree) →
  ∃ ps, Observation_build_observation_proofs o tx_hash proof = Some (Ok ps) ∧
    Forall2 (λ om p, op_metadata p = Some om ∧ op_observation_hash p = Some tx_hash ∧
      op_proof p = Some proof ∧
      ∃ mp, op_merkle_proof p = Some mp ∧ mp_leaf mp = Some (hash_or om) ∧
        mp_root mp = Some (mt_root tree) ∧ mp_nodes mp ≠ [] ∧ MerkleProof_verify mp = Ok tt)
      (ob_observations o) ps.
Proof.
intros Hne Hb Ht Hroot.
assert (∃ ps, Forall2 (λ om p, observation_proof_of tree tx_hash proof om = Some (Ok p) ∧
  op_metadata p = Some om ∧ op_observation_hash p = Some tx_hash ∧ op_proof p = Some proof ∧
  ∃ mp, op_merkle_proof p = Some mp ∧ mp_leaf mp = Some (hash_or om) ∧
    mp_root mp = Some (mt_root tree) ∧ mp_nodes mp ≠ [] ∧ MerkleProof_verify mp = Ok tt)
  (ob_observations o) ps) as [ps Hps].
{ apply Forall_choose. apply Forall_forall. intros om Hom.
  destruct (proof_accepted (leafs_hash o) tree (hash_or om)) as (mp & Hmp & ? & ? & ? & ?);
    [done|done|by apply list_elem_of_fmap_2|done|].
  eexists. split; [unfold observation_proof_of; rewrite Hmp; reflexivity|]. cbn. eauto 10. }
exists ps. split; [|eapply Forall2_impl; [exact Hps|naive_solver]].
unfold Observation_build_observation_proofs. rewrite Ht. cbn [mbind option_bind expect].
rewrite (proj2 (mapM_Some _ _ (Ok <$> ps))); [cbn [mbind option_bind]; by rewrite mapR_id_Ok|].
apply Forall2_fmap_r. eapply Forall2_impl; [exact Hps|naive_solver].
Qed.

(** [Observation::build_observation_proofs] returns one proof per observed
    item, in order, for a nonempty observation whose stored hashes carry bytes
    and whose Merkle root is no child of its own tree: each names the item, the
    observing transaction's hash and its proof, and its Merkle proof is accepted
    by [MerkleProof::verify] for the item's hash against the common root. *)
Theorem observation_proofs_verify o tx_hash proof tree :
  ob_observations o ≠ [] → Forall has_bytes (leafs_hash o) →
  build_root (leafs_hash o) = Some (Ok tree) →
  Forall (λ e, ¬ is_child (hv (mt_root tree)) e) (mt_entries tree) →
  ∃ ps, Observation_build_observation_proofs o tx_hash proof = Some (Ok ps) ∧
    Forall2 (λ om p, op_metadata p = Some om ∧ op_observation_hash p = Some tx_hash ∧
      op_proof p = Some proof ∧
      ∃ mp, op_merkle_proof p = Some mp ∧ mp_leaf mp = Some (hash_or om) ∧
        mp_root mp = Some (mt_root tree) ∧ mp_nodes mp ≠ [] ∧ MerkleProof_verify mp = Ok tt)
      (ob_observations o) ps.
Proof. apply observation_proofs_accepted. Qed.

(** [Input::address] does not panic, and neither does any address check. *)
Lemma input_address_no_panic {laws : CryptoLaws} i : Input_address i ≠ Panic.
Proof.
unfold Input_address, proofs_to_address. intros E.
destruct (foldR _ [] (i_proof i)) as [b| |] eqn:Hf; [|done|].
- destruct (address_hash_checked b) as (a & Ha & Hc). revert E. rg_step. rewrite Ha. rg_step. by rewrite Hc.
- clear E. revert Hf. generalize (@nil u8). induction (i_proof i) as [|p l IH]; intros acc; [done|].
  cbn [foldR]. unfold public_key_bytes. destruct (pf_public_key p) as [k|]; [|done]. rg_step.
  destruct (pk_bytes k); [|done]. rg_step. apply IH.
Qed.

End transaction.

(** * Witnesses *)

Definition demo_pom : Proto ObservationMetadata :=
  const_proto _ (λ om, match om_observed_hash om with Some h => hv h | None => [] end).
Definition demo_ptx : Proto Transaction :=
  const_proto _ (λ t, concat ((λ o, i64_to_le_bytes (default 0 (opt_amount o))) <$> tx_outputs t)).
Definition demo_address : Address := Address_new_raw (repeat Byte.x05 32).
Definition demo_tx : Transaction :=
  tx_with_outputs [Output_new demo_address 7; Output_new demo_address 8] (new_blank 1 2).
Definition demo_om (b : u8) : ObservationMetadata :=
  {| om_observed_hash := Some (Hash_new [b]); om_observation_type := 0; om_state := 0;
     om_validation_confidence := None; om_struct_metadata := None; om_validation_liveness := 0;
     om_liveness_confidence := None |}.
Definition demo_observation : Observation :=
  {| ob_merkle_root := None; ob_observations := demo_om <$> [Byte.x01; Byte.x02; Byte.x03];
     ob_parent_id := None; ob_ancestor_merkle_roots := [] |}.
Definition demo_input_proof : Proof_ := {| pf_signature := None; pf_public_key := None |}.

Lemma utxo_id_bytes_roundtrip_witness :
  UtxoId_from ([Byte.x01; Byte.x02] ++ i64_to_le_bytes (-3)) = Ok (UtxoId_new (Hash_new [Byte.x01; Byte.x02]) (-3)).
Proof.
apply (proj1 (utxo_id_bytes_roundtrip (host := toy_host))); [by_decision|reflexivity].
Defined.

Lemma signable_hash_binds_witness :
  signable_hash (crypto := toy_crypto) (ptx := count_proto Transaction) (add_proof_per_input demo_input_proof demo_tx) =
  signable_hash (crypto := toy_crypto) (ptx := count_proto Transaction) demo_tx.
Proof.
apply (signable_hash_binds (crypto := toy_crypto) (ptx := count_proto Transaction)
         (tx_laws := count_proto_laws Transaction) demo_tx demo_tx demo_input_proof).
intros _. reflexivity.
Defined.

Lemma utxo_outputs_spec_witness :
  ∃ us, utxo_outputs (host := toy_host) (crypto := toy_crypto) (ptx := demo_ptx) demo_tx = Ok us ∧
    length us = 2%nat ∧ NoDup (ue_utxo_id <$> us).
Proof.
eexists. split; [reflexivity|].
destruct (utxo_outputs_spec (host := toy_host) (crypto := toy_crypto) (ptx := demo_ptx) demo_tx
            (from_transaction (crypto := toy_crypto) (ptx := demo_ptx) demo_tx 2)) as (? & _ & ?); [reflexivity|].
split; assumption.
Defined.

Definition demo_observation_tree : MerkleTree :=
  match build_root (host := toy_host) (crypto := toy_crypto)
          (leafs_hash (crypto := toy_crypto) (pom := demo_pom) demo_observation) with
  | Some (Ok t) => t | _ => demo_tree end.

Lemma observation_proofs_verify_witness :
  ∃ ps, Observation_build_observation_proofs (host := toy_host) (crypto := toy_crypto) (pom := demo_pom)
          demo_observation (Hash_new []) demo_input_proof = Some (Ok ps) ∧ length ps = 3%nat.
Proof.
destruct (observation_proofs_verify (host := toy_host) (crypto := toy_crypto) (pom := demo_pom)
  demo_observation (Hash_new []) demo_input_proof demo_observation_tree) as (ps & H & Hf).
- discriminate.
- by_decision.
- vm_compute. reflexivity.
- by_decision.
- exists ps. split; [exact H|]. apply Forall2_length in Hf. symmetry. exact Hf.
Defined.
