(* ===== verification/Keys.v ===== *)
(** * Keys: signatures, proofs, transaction validation, request authentication

    keys/src/util/mod.rs (sign, verify), keys/src/util/bitcoin_message_signer.rs,
    keys/src/lib.rs ([KeyPair]), keys/src/proof_support.rs,
    keys/src/transaction_support.rs, keys/src/request_support.rs,
    keys/src/address_external.rs ([ToBitcoinAddress]) and the response checks of
    schema/src/response.rs.  The secp256k1 and bitcoin crates are the class
    [Secp]. *)

From stdpp Require Import base list gmap strings pretty.
From S2P Require Import Prelude Structs Interfaces Schema Merkle Transaction.
#[local] Open Scope Z_scope.
#[local] Open Scope redgold_scope.

Section keys.
Context {host : Host} {crypto : Crypto} {secp : Secp}.

(** ** Signatures (keys/src/util/mod.rs) *)

(** [Result<T, E>::error_msg(code, context)] on a failed library call. *)
Definition lib_check (r : option string) (code : ErrorCode) (context : string) : RgResult unit :=
  match r with None => Ok tt | Some e => Err (error_msg code context e) end.

Definition sign_bytes (hash : bytes) (key : secret_key) : RgResult bytes :=
  ret ← slice hash 0 32;
  match message_from_slice ret with
  | Some e => Err (error_message IncorrectSignature ("Signature message construction failure " +:+ e))
  | None => Ok (ecdsa_sign ret key)
  end.
Definition sign_hash (h : Hash) (key : secret_key) : RgResult bytes :=
  b ← expect (Hash_safe_bytes h); sign_bytes b key.

Definition verify_bytes (hash signature public_key : bytes) : RgResult unit :=
  ret ← slice hash 0 32;
  _ ← lib_check (message_from_slice ret) IncorrectSignature "Signature message construction failure";
  _ ← lib_check (signature_from_compact signature) IncorrectSignature "Decoded signature construction failure";
  _ ← lib_check (public_key_from_slice public_key) IncorrectSignature "Public key construction failure";
  lib_check (ecdsa_verify ret signature public_key) IncorrectSignature "Signature verification failure".

Definition to_lib_public_key (pk : PublicKey) : RgResult bytes :=
  b ← safe_bytes (pk_bytes pk);
  match public_key_from_slice b with None => Ok b | Some e => Err (error_info e) end.
Definition PublicKey_validate (pk : PublicKey) : RgResult PublicKey := _ ← to_lib_public_key pk; Ok pk.
Definition PublicKeySupport_from_hex (s : string) : RgResult PublicKey :=
  b ← from_hex s; PublicKey_validate (PublicKey_from_bytes b).

(** [prepare_message_sign] (keys/src/util/bitcoin_message_signer.rs). *)
Definition SIGN_MESSAGE_HEADER : string := "Redgold: " +:+ String newline EmptyString.
Definition prepare_message (msg : string) : string := SIGN_MESSAGE_HEADER +:+ msg.
Definition prepare_message_sign (msg : string) : bytes := signed_msg_hash (prepare_message msg).

(** ** Key pairs (keys/src/lib.rs); a public key is its serialized bytes *)

Record KeyPair := { kp_secret_key : secret_key; kp_public_key : bytes }.
Definition KeyPair_public_key (kp : KeyPair) : PublicKey := PublicKey_from_bytes (kp_public_key kp).
Definition address_typed (kp : KeyPair) : RgResult Address := expect (PublicKey_address (KeyPair_public_key kp)).
Definition KeyPair_address (kp : KeyPair) : RgResult bytes :=
  a ← expect (Address_from_struct_public (KeyPair_public_key kp)); expect (safe_bytes (a_address a)).

(** ** Proofs (keys/src/proof_support.rs) *)

Definition Proof_verify (p : Proof_) (h : Hash) : RgResult unit :=
  sig ← safe_get (pf_signature p);
  verify_hash ←
    (if sig_type sig =? 0 then Hash_safe_bytes h
     else if sig_type sig =? 1 then prepare_message_sign <$> Hash_hex h
     else Err (error_info "Invalid signature type"));
  s ← signature_bytes p;
  k ← public_key_bytes p;
  verify_bytes verify_hash s k.
Definition Proof_new (h : Hash) (secret : secret_key) (public : bytes) : RgResult Proof_ :=
  signature ← expect (sign_hash h secret);
  Ok {| pf_signature := signature_data signature;
        pf_public_key := Some (PublicKey_from_bytes public) |}.
Definition from_keypair (hash : bytes) (kp : KeyPair) : RgResult Proof_ :=
  Proof_new (Hash_new hash) (kp_secret_key kp) (kp_public_key kp).
Definition from_keypair_hash (h : Hash) (kp : KeyPair) : RgResult Proof_ :=
  Proof_new h (kp_secret_key kp) (kp_public_key kp).
Definition verify_proofs (proofs : list Proof_) (h : Hash) (address : Address) : RgResult unit :=
  addr ← proofs_to_address proofs;
  if bool_decide (address ≠ addr)
  then Err (error_message AddressPublicKeyProofMismatch "address mismatch in Proof::verify_proofs")
  else iterR (λ p, Proof_verify p h) proofs.

(** ** Inputs ([InputSupport]) *)

Definition verify_proof (i : Input) (address : Address) (h : Hash) : RgResult unit :=
  verify_proofs (i_proof i) h address.
Definition verify_signatures_only (i : Input) (h : Hash) : RgResult unit :=
  iterR (λ p, Proof_verify p h) (i_proof i).
Definition Input_verify (i : Input) (h : Hash) : RgResult unit :=
  o ← safe_get_msg (i_output i) "Missing enriched output on input for transaction verification";
  address ← safe_get_msg (o_address o) "Missing address on enriched output for transaction verification";
  verify_proof i address h.

(** ** Transactions ([TransactionSupport]) *)

Section transaction_support.
Context {ptx : Proto Transaction} {json : Json Input}.

Definition txo_with_time_sponsor (s : option TimeSponsor) (o : TransactionOptions) : TransactionOptions :=
  {| txo_salt := txo_salt o; txo_network_type := txo_network_type o;
     txo_key_value_options := txo_key_value_options o; txo_data := txo_data o;
     txo_contract := txo_contract o; txo_time_sponsor := s; txo_is_test := txo_is_test o |}.
Definition sm_with_signed_hash (h : option Hash) (s : StructMetadata) : StructMetadata :=
  {| sm_time := sm_time s; sm_version := sm_version s; sm_hash := sm_hash s;
     sm_signable_hash := sm_signable_hash s; sm_signed_hash := h;
     sm_counter_party_hash := sm_counter_party_hash s;
     sm_confirmation_hash := sm_confirmation_hash s |}.

(** Without options the sponsor is written to a local default that is dropped;
    the clock is an argument. *)
Definition time_sponsor (kp : KeyPair) (now : Z) (t : Transaction) : RgResult Transaction :=
  x ← with_hash t;
  match default default_TransactionOptions (tx_options x) |> txo_time_sponsor with
  | Some _ => Ok x
  | None =>
      proof ← from_keypair_hash (hash_or x) kp;
      let ot := {| ts_time := now; ts_proof := Some proof |} in
      with_hash (tx_with_options (txo_with_time_sponsor (Some ot) <$> tx_options x) x)
  end.

(** The loop of [sign] over the inputs; it also says whether it signed any. *)
Definition sign_input (h : Hash) (addr : Address) (kp : KeyPair) (i : Input) : RgResult (Input * bool) :=
  match i_output i with
  | Some o =>
      input_addr ← safe_get_msg (o_address o) "Missing address on enriched output during signing";
      if bool_decide (addr = input_addr) then
        proof ← from_keypair_hash h kp; Ok (i_with_proof (i_proof i ++ [proof]) i, true)
      else Ok (i, false)
  | None => Ok (i, false)
  end.
Definition sign (kp : KeyPair) (t : Transaction) : RgResult Transaction :=
  let hash := signable_hash t in
  addr ← address_typed kp;
  ins ← mapR (sign_input hash addr kp) (tx_inputs t);
  if negb (existsb snd ins) then Err (error_info "Couldn't find appropriate input address to sign") else
  x ← with_hash (tx_with_inputs (fst <$> ins) t);
  s ← expect_opt (tx_struct_metadata x);
  Ok (tx_with_metadata (Some (sm_with_signed_hash (Some (hash_or x)) s)) x).

(** [output_index as usize] of a negative index is out of range of any vector. *)
Definition verify_utxo_entry_proof (t : Transaction) (u : UtxoEntry) : RgResult unit :=
  id ← safe_get_msg (ue_utxo_id u) "Missing utxo id during verify_utxo_entry_proof";
  input ← ok_or (if u_output_index id <? 0 then None else tx_inputs t !! Z.to_nat (u_output_index id))
            (error_message MissingInputs ("missing input index: " +:+ pretty (u_output_index id)));
  address ← UtxoEntry_address u;
  verify_proofs (i_proof input) (signable_hash t) address.

Definition MAX_TRANSACTION_BYTES : Z := 10000.

(** The [HashSet] of consumed ids: a repeated one stops the loop. *)
Definition check_duplicates (t : Transaction) : RgResult unit :=
  _ ← foldR (λ (hs : gset UtxoId) f,
        if bool_decide (f ∈ hs) then Err (error_info "Duplicate input UTXO consumption")
        else Ok ({[f]} ∪ hs)) ∅ (fixed_utxo_ids_of_inputs t);
  Ok tt.

Definition check_message (t : Transaction) : RgResult unit :=
  match (o ← tx_options t; d ← txo_data o; txd_message d) with
  | Some m =>
      let i := Z.of_nat (String.length m) in
      if MAX_TRANSACTION_MESSAGE_SIZE <? i
      then Err (error_info ("Message length: " +:+ pretty i +:+ " too large, expected "
                  +:+ pretty MAX_TRANSACTION_MESSAGE_SIZE))
      else Ok tt
  | None => Ok tt
  end.

Definition floating_non_consume_input (i : Input) : bool :=
  bool_decide (i_utxo_id i = None) && bool_decide (is_Some (i_floating_utxo_id i)).

Definition prevalidate_input (t : Transaction) (i : Input) : RgResult unit :=
  _ ← (match i_utxo_id i with
       | Some utxo => if MAX_INPUTS_OUTPUTS <? u_output_index utxo
                      then Err (error_code InvalidAddressInputIndex) else Ok tt
       | None => Ok tt end);
  _ ← (if bool_decide (i_proof i = []) && negb (floating_non_consume_input i)
       then Err (error_message MissingProof ("Input proof is missing on input " +:+ json_or i))
       else Ok tt);
  verify_signatures_only i (signable_hash t).

Definition prevalidate (t : Transaction) : RgResult unit :=
  let size_bytes := Z.of_nat (length (encode_to_vec t)) in
  _ ← (if MAX_TRANSACTION_BYTES <? size_bytes
       then Err (with_detail (error_info ("Transaction size: " +:+ pretty size_bytes
                   +:+ " too large, expected " +:+ pretty MAX_TRANSACTION_BYTES))
                 "size_bytes" (pretty size_bytes))
       else Ok tt);
  options ← safe_get_msg (tx_options t) "Missing options on transaction";
  network_i32 ← safe_get_msg (txo_network_type options) "Missing network type on transaction";
  network ← ok_msg (network_from_i32 network_i32) "Invalid network type on transaction";
  _ ← (if bool_decide (is_Some (txo_contract options)) && is_main network
       then Err (error_info "Contract transactions not yet supported") else Ok tt);
  _ ← check_duplicates t;
  _ ← (if bool_decide (tx_inputs t = []) then Err (error_code MissingInputs) else Ok tt);
  _ ← (if bool_decide (tx_outputs t = []) then Err (error_code MissingOutputs) else Ok tt);
  _ ← check_message t;
  iterR (prevalidate_input t) (tx_inputs t).

(** *** Bitcoin addresses of a transaction (keys/src/address_external.rs) *)

Definition to_bitcoin_address (pk : PublicKey) (network : NetworkEnvironment) : RgResult string :=
  b ← PublicKey_bytes pk;
  _ ← lib_check (btc_key_from_slice b) UnknownError "public key conversion";
  match p2wpkh (bool_decide (network = Main)) b with
  | inr a => Ok a
  | inl e => Err (error_msg UnknownError "bitcoin address conversion" e)
  end.
Definition Address_to_bitcoin_address (a : Address) : RgResult string :=
  if is_bitcoin a then render_string a else Err (error_info "Address is not a bitcoin address").

Definition proof_keys (t : Transaction) : list PublicKey :=
  omap pf_public_key (tx_inputs t ≫= i_proof).
Definition input_bitcoin_address (t : Transaction) (network : NetworkEnvironment) (other : string) : bool :=
  (0 <? length (List.filter (λ a, bool_decide (a = other))
         (omap (λ pk, ok_opt (to_bitcoin_address pk network)) (proof_keys t))))%nat.
(** The amount an output pays to one of the two forms of a key's address. *)
Definition multi_amount (address : Address) (btc_address : string) (o : Output) : option Z :=
  a ← o_address o;
  if bool_decide (a = address ∨ ok_opt (render_string a) = Some btc_address) then opt_amount o else None.
Definition output_swap_amount_of_multi (t : Transaction) (pk : PublicKey) (network : NetworkEnvironment) : RgResult Z :=
  btc_address ← to_bitcoin_address pk network;
  address ← PublicKey_address pk;
  Ok (i64_sum (omap (λ o, if is_swap o then multi_amount address btc_address o else None) (tx_outputs t))).
Definition output_amount_of_multi (t : Transaction) (pk : PublicKey) (network : NetworkEnvironment) : RgResult Z :=
  btc_address ← to_bitcoin_address pk network;
  address ← PublicKey_address pk;
  Ok (i64_sum (omap (multi_amount address btc_address) (tx_outputs t))).
Definition has_swap_to_multi (t : Transaction) (pk : PublicKey) (network : NetworkEnvironment) : bool :=
  match output_swap_amount_of_multi t pk network with Ok b => 0 <? b | _ => false end.
Definition first_input_address_to_btc_address (t : Transaction) (network : NetworkEnvironment) : option string :=
  pk ← head (proof_keys t); ok_opt (to_bitcoin_address pk network).

End transaction_support.

(** ** Request and response authentication (keys/src/request_support.rs)

    [HashClear] of a request drops its proof and origin, that of a response its
    proof.  The two multiparty requests are kept as their encodings, and the fields
    no operation here looks at are one component of arbitrary type. *)

Section auth.
Context {B : Type}.

Record Request := {
  rq_proof : option Proof_; rq_node_metadata : option NodeMetadata; rq_origin : option string;
  rq_initiate_keygen : option bytes; rq_initiate_signing : option bytes; rq_body : B }.
Record Response := {
  rs_response_metadata : option ResponseMetadata; rs_proof : option Proof_;
  rs_node_metadata : option NodeMetadata; rs_body : B }.

#[global] Instance Request_hash_clear : HashClear Request := λ r,
  {| rq_proof := None; rq_node_metadata := rq_node_metadata r; rq_origin := None;
     rq_initiate_keygen := rq_initiate_keygen r; rq_initiate_signing := rq_initiate_signing r;
     rq_body := rq_body r |}.
#[global] Instance Response_hash_clear : HashClear Response := λ r,
  {| rs_response_metadata := rs_response_metadata r; rs_proof := None;
     rs_node_metadata := rs_node_metadata r; rs_body := rs_body r |}.

Context {prq : Proto Request} {prs : Proto Response} {jrq : Json Request} {jrs : Json Response}
        {jpk : Json (option PublicKey)}.

Definition auth_required (r : Request) : bool :=
  bool_decide (is_Some (rq_initiate_keygen r)) || bool_decide (is_Some (rq_initiate_signing r)).
Definition rq_with_proof (p : option Proof_) (r : Request) : Request :=
  {| rq_proof := p; rq_node_metadata := rq_node_metadata r; rq_origin := rq_origin r;
     rq_initiate_keygen := rq_initiate_keygen r; rq_initiate_signing := rq_initiate_signing r;
     rq_body := rq_body r |}.
Definition Request_with_metadata (n : NodeMetadata) (r : Request) : Request :=
  {| rq_proof := rq_proof r; rq_node_metadata := Some n; rq_origin := rq_origin r;
     rq_initiate_keygen := rq_initiate_keygen r; rq_initiate_signing := rq_initiate_signing r;
     rq_body := rq_body r |}.
Definition rs_with_proof (p : option Proof_) (r : Response) : Response :=
  {| rs_response_metadata := rs_response_metadata r; rs_proof := p;
     rs_node_metadata := rs_node_metadata r; rs_body := rs_body r |}.
Definition Response_with_metadata (n : NodeMetadata) (r : Response) : Response :=
  {| rs_response_metadata := rs_response_metadata r; rs_proof := rs_proof r;
     rs_node_metadata := Some n; rs_body := rs_body r |}.

Definition Request_with_auth (kp : KeyPair) (r : Request) : RgResult Request :=
  let hash := calculate_hash r in
  proof ← from_keypair_hash hash kp;
  _ ← expect (Proof_verify proof hash);
  Ok (rq_with_proof (Some proof) r).
Definition Request_verify_auth_inner (r : Request) : RgResult PublicKey :=
  let hash := calculate_hash r in
  proof ← safe_get_msg (rq_proof r) "Missing proof on request authentication verification";
  nmd ← safe_get_msg (rq_node_metadata r) "Missing node metadata on request authentication verification";
  nmd_pk ← safe_get_msg (nm_public_key nmd)
             "Missing public key on node metadata request authentication verification";
  pk ← safe_get_msg (pf_public_key proof) "Missing public key on request authentication verification";
  _ ← Proof_verify proof hash;
  if bool_decide (nmd_pk ≠ pk) then Err (error_info
    "Node metadata public key and proof public key mismatch on request authentication verification")
  else Ok pk.
Definition Request_verify_auth (r : Request) : RgResult PublicKey :=
  add_msg (add_msg (Request_verify_auth_inner r) "Request authorization failure") (json_or r).

Definition Response_with_auth (kp : KeyPair) (r : Response) : RgResult Response :=
  proof ← from_keypair_hash (calculate_hash r) kp; Ok (rs_with_proof (Some proof) r).
Definition Response_verify_auth_inner (r : Response) (intended_pk : option PublicKey) : RgResult Response :=
  nmd ← safe_get_msg (rs_node_metadata r) "Missing node metadata on response authentication verification";
  nmd_pk ← safe_get_msg (nm_public_key nmd)
             "Missing public key on node metadata response authentication verification";
  proof ← safe_get_msg (rs_proof r) "Missing proof on response authentication verification";
  proof_pk ← safe_get_msg (pf_public_key proof)
               "Missing public key on proof on response authentication verification";
  _ ← add_msg (Proof_verify proof (calculate_hash r)) "proof verification failure on response";
  if bool_decide (nmd_pk ≠ proof_pk) then Err (error_info
    "Node metadata public key and proof public key mismatch on response authentication verification")
  else match intended_pk with
       | Some intended =>
           if bool_decide (proof_pk ≠ intended) then Err (error_info
             "Intended public key and proof public key mismatch on response authentication verification")
           else Ok r
       | None => Ok r
       end.
Definition Response_verify_auth (r : Response) (intended_pk : option PublicKey) : RgResult Response :=
  add_msg (add_msg (add_msg (Response_verify_auth_inner r intended_pk) "Response authorization failure")
    (json_or r)) (json_or intended_pk).

(** *** Response errors (schema/src/response.rs) *)

Definition as_error_info (r : Response) : RgResult unit :=
  res ← safe_get (rs_response_metadata r);
  match rm_error_info res with Some e => Err e | None => Ok tt end.
Definition with_error_info (r : Response) : RgResult Response :=
  res ← safe_get (rs_response_metadata r);
  match rm_error_info res with Some e => Err e | None => Ok r end.
Definition ResponseMetadata_from_error (e : ErrorInfo) : ResponseMetadata :=
  {| rm_success := false; rm_error_info := Some e; rm_task_local_details := [];
     rm_request_id := None; rm_trace_id := None |}.
Definition from_error_info (empty : B) (e : ErrorInfo) : Response :=
  {| rs_response_metadata := Some (ResponseMetadata_from_error e); rs_proof := None;
     rs_node_metadata := None; rs_body := empty |}.
End auth.

(** ** Counting observations of a submitted transaction (schema/src/response.rs) *)

Record QueryTransactionResponse := { qtr_observation_proofs : list ObservationProof }.
Record SubmitTransactionResponse := {
  str_transaction_hash : option Hash;
  str_query_transaction_response : option QueryTransactionResponse;
  str_transaction : option Transaction }.

Context {jstate : Json Z}.

Definition observed_by (p : ObservationProof) : RgResult (PublicKey * Z) :=
  m ← safe_get (op_metadata p);
  pr ← safe_get (op_proof p);
  pk ← safe_get (pf_public_key pr);
  Ok (pk, om_state m).
Definition unique_by_state (r : SubmitTransactionResponse) : RgResult (gset (PublicKey * Z)) :=
  q ← safe_get (str_query_transaction_response r);
  foldR (λ results p, x ← observed_by p; Ok ({[x]} ∪ results)) ∅ (qtr_observation_proofs q).
Definition check_by_state (r : SubmitTransactionResponse) (expected_count : nat) (state : Z) : RgResult unit :=
  u ← unique_by_state r;
  let accepted_count := size (filter (λ x, x.2 = state) u) in
  if bool_decide (expected_count ≤ accepted_count)%nat then Ok tt
  else Err (error_info ("not enough " +:+ json_or state +:+ " observations, expected "
              +:+ pretty (N.of_nat expected_count) +:+ ", got " +:+ pretty (N.of_nat accepted_count))).
Definition accepted (r : SubmitTransactionResponse) (n : nat) : RgResult unit := check_by_state r n State_Accepted.
Definition pending (r : SubmitTransactionResponse) (n : nat) : RgResult unit := check_by_state r n State_Pending.
Definition at_least_n (r : SubmitTransactionResponse) (n : nat) : RgResult unit := _ ← accepted r n; pending r n.

End keys.
Arguments Request B : clear implicits.
Arguments Response B : clear implicits.

(** * Properties *)

Section keys_props.
Context {host : Host} {crypto : Crypto} {secp : Secp}.

Definition kp_matches (kp : KeyPair) : Prop := kp_public_key kp = secret_public_key (kp_secret_key kp).
(** A digest: 32 bytes of hash. *)
Definition is_digest (h : Hash) : Prop := ∃ b, h_bytes h = Some b ∧ length (bd_value b) = 32%nat.

Lemma digest_is_digest {laws : CryptoLaws} b : is_digest (digest b).
Proof. eexists. split; [done|]. apply sha3_256_length. Qed.

Lemma slice_all {A} (l : list A) n : length l = n → slice l 0 n = Ok l.
Proof. intros <-. apply slice_Ok. rewrite drop_0, Nat.sub_0_r, firstn_all. auto with lia. Qed.

(** Signing a digest gives a proof that names the key and verifies. *)
Lemma from_keypair_hash_verifies {slaws : SecpLaws} h kp :
  is_digest h → kp_matches kp →
  ∃ p, from_keypair_hash h kp = Ok p ∧ pf_public_key p = Some (KeyPair_public_key kp) ∧
       Proof_verify p h = Ok tt.
Proof.
intros (d & Hd & Hl) Hk. eexists. split_and!.
- unfold from_keypair_hash, Proof_new, sign_hash, sign_bytes, Hash_safe_bytes, safe_bytes.
  rewrite Hd. rg_step. rewrite (slice_all _ 32) by done. rg_step.
  rewrite message_from_slice_32 by done. reflexivity.
- done.
- unfold Proof_verify. rg_step. cbn -[slice verify_bytes]. unfold Hash_safe_bytes, safe_bytes. rewrite Hd.
  rg_step. unfold verify_bytes. rewrite (slice_all _ 32) by done. rg_step.
  rewrite message_from_slice_32 by done. rewrite Hk. cbn.
  rewrite sign_compact, secret_key_valid, verify_sign by done. done.
Qed.

Lemma address_typed_Ok {laws : CryptoLaws} kp : ∃ a, address_typed kp = Ok a ∧ PublicKey_address (KeyPair_public_key kp) = Ok a.
Proof.
destruct (address_hash_checked (kp_public_key kp)) as (b & Hb & Ha). exists (Address_new_raw b).
assert (PublicKey_address (KeyPair_public_key kp) = Ok (Address_new_raw b)) as E.
{ unfold PublicKey_address, Address_from_struct_public.
  change (safe_bytes (pk_bytes (KeyPair_public_key kp))) with (Ok (E:=ErrorInfo) (kp_public_key kp)).
  rg_step. by rewrite Hb. }
split; [|done]. unfold address_typed. by rewrite E.
Qed.

Lemma verify_proofs_Ok ps h a :
  verify_proofs ps h a = Ok tt ↔ proofs_to_address ps = Ok a ∧ Forall (λ p, Proof_verify p h = Ok tt) ps.
Proof.
unfold verify_proofs. rewrite bind_Ok, <-iterR_Ok. split.
- intros (addr & Ha & E). case_bool_decide; [done|]. naive_solver.
- intros [Ha E]. exists a. split; [done|]. by rewrite bool_decide_eq_false_2 by naive_solver.
Qed.

(** ** Signing a transaction *)

Section signing.
Context {ptx : Proto Transaction} {json : Json Input}.

(** Signing one input keeps everything but the proofs. *)
Lemma sign_input_spec h addr kp i i' b :
  sign_input h addr kp i = Ok (i', b) →
  i_with_proof [] i' = i_with_proof [] i ∧ i_output i' = i_output i ∧
  (b = true ↔ ∃ o, i_output i = Some o ∧ o_address o = Some addr) ∧
  (if b then ∃ p, from_keypair_hash h kp = Ok p ∧ i_proof i' = i_proof i ++ [p] else i' = i).
Proof.
unfold sign_input. destruct (i_output i) as [o|] eqn:Eo; [|intros; simplify_eq; naive_solver].
unfold safe_get_msg. destruct (o_address o) as [a|] eqn:Ea; rg_step; [|done].
case_bool_decide as Hd; intros E; inv_Ok; simplify_eq; [|naive_solver].
split_and!; [done|done|naive_solver|eauto].
Qed.

Lemma sign_inputs_payload h addr kp ins ins' :
  mapR (sign_input h addr kp) ins = Ok ins' → i_with_proof [] <$> (fst <$> ins') = i_with_proof [] <$> ins.
Proof.
rewrite mapR_Ok. induction 1 as [|i [i' b] l l' Hi _ IH]; [done|].
rewrite !fmap_cons, IH. f_equal. by apply sign_input_spec in Hi as (? & _).
Qed.

Lemma tx_with_inputs_payload t ins :
  i_with_proof [] <$> ins = i_with_proof [] <$> tx_inputs t → same_payload (tx_with_inputs ins t) t.
Proof.
intros E. unfold same_payload, payload. f_equal. unfold clear_input_proofs. simpl. by rewrite E.
Qed.

Lemma with_hash_Ok t t' :
  with_hash t = Ok t' →
  ∃ s, tx_struct_metadata t = Some s ∧
    t' = tx_with_metadata (Some (sm_with_hash (Some (calculate_hash t)) s)) t.
Proof.
unfold with_hash, set_hash, struct_metadata_err. simpl. destruct (tx_struct_metadata t); [|done].
intros [= <-]. eauto.
Qed.

Lemma sign_Ok kp t t' :
  sign kp t = Ok t' →
  same_payload t' t ∧
  ∃ addr ins, address_typed kp = Ok addr ∧ mapR (sign_input (signable_hash t) addr kp) (tx_inputs t) = Ok ins ∧
    tx_inputs t' = fst <$> ins ∧ existsb snd ins = true.
Proof.
unfold sign. intros E. inv_Ok. destruct (negb _) eqn:Hs; [done|]. inv_Ok. subst t'.
match goal with H : with_hash _ = Ok _ |- _ => apply with_hash_Ok in H as (s & Hs1 & ->) end.
simpl in *. simplify_eq.
apply negb_false_iff in Hs. split; [|eauto 10].
rewrite set_metadata_payload, set_metadata_payload, tx_with_inputs_payload;
  [done|by eapply sign_inputs_payload|simpl in *; by rewrite Hs1|done].
Qed.

(** C6: a transaction signed by the key pair that owns its inputs verifies.  When
    [sign] succeeds with a matching key pair, the signable hash is unchanged,
    some input was signed, and every input whose enriched output pays the key's
    address and had no proof before passes [Input::verify] against the signable
    hash of the signed transaction; all other inputs are untouched. *)
Theorem sign_then_verify {laws : CryptoLaws} {slaws : SecpLaws} kp t t' :
  kp_matches kp → sign kp t = Ok t' →
  signable_hash t' = signable_hash t ∧
  ∃ addr, PublicKey_address (KeyPair_public_key kp) = Ok addr ∧
    (∃ i, i ∈ tx_inputs t ∧ i_output i ≫= o_address = Some addr) ∧
    Forall2 (λ i i',
      if bool_decide (i_output i ≫= o_address = Some addr)
      then i_proof i = [] → Input_verify i' (signable_hash t') = Ok tt
      else i' = i) (tx_inputs t) (tx_inputs t').
Proof.
intros Hk Hs. apply sign_Ok in Hs as (Hp & addr & ins & Ha & Hins & Ht & Hsig).
destruct (address_typed_Ok kp) as (addr' & Ha' & Hpk). assert (addr' = addr) as -> by congruence.
assert (signable_hash t' = signable_hash t) as Hh by by rewrite Hp.
split; [done|]. exists addr. split; [done|]. apply mapR_Ok in Hins. rewrite Ht, Hh. split.
- apply existsb_exists in Hsig as ([i' b] & Hin & Hb). simpl in Hb. subst b.
  apply list_elem_of_In, list_elem_of_lookup in Hin as (n & Hn).
  eapply Forall2_lookup_r in Hins as (i & Hi & Hsi); [|exact Hn].
  apply sign_input_spec in Hsi as (_ & _ & [Hb _] & _). destruct Hb as (o & Ho & Hoa); [done|].
  exists i. split; [by eapply list_elem_of_lookup_2|]. by rewrite Ho.
- apply Forall2_fmap_r. eapply Forall2_impl; [exact Hins|]. intros i [i' b] Hsi. simpl.
  apply sign_input_spec in Hsi as (_ & Ho' & Hb & Hcase).
  case_bool_decide as Hd.
  + apply bind_Some in Hd as (o & Ho & Hoa). destruct b; [|destruct Hb as [_ Hb]; discriminate Hb; eauto].
    intros Hnil. destruct Hcase as (p & Hpf & Hpr). rewrite Hnil in Hpr. simpl in Hpr.
    destruct (from_keypair_hash_verifies (signable_hash t) kp) as (p' & Hp' & Hpk' & Hv);
      [apply digest_is_digest|done|]. assert (p' = p) as -> by congruence.
    unfold Input_verify. rewrite Ho', Ho. unfold safe_get_msg. rg_step. rewrite Hoa. rg_step.
    unfold verify_proof. rewrite Hpr. apply verify_proofs_Ok.
    split; [|by repeat constructor].
    destruct (proofs_to_address_single p _ Hpk') as [E|E]; [by rewrite E|done].
  + destruct b; [|done]. destruct Hb as [Hb _]. destruct Hb as (o & Ho & Hoa); [done|].
    destruct Hd. by rewrite Ho.
Qed.

(** ** Validation *)

Lemma if_Err_Ok (b : bool) (e : ErrorInfo) : (if b then Err e else Ok tt) = Ok tt ↔ b = false.
Proof. destruct b; naive_solver. Qed.

Lemma bind_unit_Ok (r k : RgResult unit) : (_ ← r; k) = Ok tt ↔ r = Ok tt ∧ k = Ok tt.
Proof. rewrite bind_Ok. split; [intros ([] & ? & ?)|intros []]; eauto. Qed.

Lemma check_duplicates_Ok t : check_duplicates t = Ok tt ↔ NoDup (fixed_utxo_ids_of_inputs t).
Proof.
unfold check_duplicates. generalize (fixed_utxo_ids_of_inputs t) as l. intros l.
assert (∀ hs : gset UtxoId,
  (∃ hs', foldR (λ (hs : gset UtxoId) f,
     if bool_decide (f ∈ hs) then Err (error_info "Duplicate input UTXO consumption")
     else Ok ({[f]} ∪ hs)) hs l = Ok hs') ↔ NoDup l ∧ ∀ x, x ∈ l → x ∉ hs) as H.
{ induction l as [|x l IH]; intros hs; cbn [foldR].
  - split; [|eauto]. intros _. split; [constructor|set_solver].
  - rewrite NoDup_cons. case_bool_decide as Hx; rg_step.
    + split; [by intros []|]. intros [_ H]. by destruct (H x); [left|].
    + rewrite IH. set_solver. }
rewrite bind_Ok. specialize (H ∅). split.
- intros (hs & E & _). apply H. eauto.
- intros Hl. destruct H as [_ [hs Hs]]; [set_solver|eauto].
Qed.

Lemma check_message_Ok t :
  check_message t = Ok tt ↔
  ∀ o d m, tx_options t = Some o → txo_data o = Some d → txd_message d = Some m →
           Z.of_nat (String.length m) ≤ MAX_TRANSACTION_MESSAGE_SIZE.
Proof.
unfold check_message. destruct (tx_options t) as [o|]; cbn; [|naive_solver].
destruct (txo_data o) as [d|] eqn:Ed; cbn; [|naive_solver].
destruct (txd_message d) as [m|] eqn:Em; [|naive_solver].
rewrite if_Err_Ok, Z.ltb_ge. naive_solver.
Qed.

Definition input_valid (h : Hash) (i : Input) : Prop :=
  (∀ u, i_utxo_id i = Some u → u_output_index u ≤ MAX_INPUTS_OUTPUTS) ∧
  (i_proof i = [] → i_utxo_id i = None ∧ is_Some (i_floating_utxo_id i)) ∧
  Forall (λ p, Proof_verify p h = Ok tt) (i_proof i).

Lemma prevalidate_input_Ok t i : prevalidate_input t i = Ok tt ↔ input_valid (signable_hash t) i.
Proof.
unfold prevalidate_input, input_valid, verify_signatures_only, floating_non_consume_input.
rewrite !bind_unit_Ok, iterR_Ok. rewrite if_Err_Ok, andb_false_iff, negb_false_iff, andb_true_iff.
rewrite !bool_decide_eq_true, bool_decide_eq_false. destruct (i_utxo_id i) as [u|].
- rewrite if_Err_Ok, Z.ltb_ge. naive_solver.
- destruct (decide (i_proof i = [])); naive_solver.
Qed.

(** [prevalidate] accepts exactly the transactions of at most 10000 encoded
    bytes that name a known network, carry no contract on the main network, have
    inputs and outputs, consume no UTXO twice, have a message of at most 40 bytes
    and whose inputs are all valid: index at most 5000, a proof unless the input
    is a floating one that consumes nothing, and every proof a valid signature of
    the signable hash.  Output amounts are not among the conditions. *)
Theorem prevalidate_iff t :
  prevalidate t = Ok tt ↔
  Z.of_nat (length (encode_to_vec t)) ≤ MAX_TRANSACTION_BYTES ∧
  (∃ o n net, tx_options t = Some o ∧ txo_network_type o = Some n ∧ network_from_i32 n = Some net ∧
     (net = Main → txo_contract o = None)) ∧
  NoDup (fixed_utxo_ids_of_inputs t) ∧ tx_inputs t ≠ [] ∧ tx_outputs t ≠ [] ∧
  (∀ o d m, tx_options t = Some o → txo_data o = Some d → txd_message d = Some m →
     Z.of_nat (String.length m) ≤ MAX_TRANSACTION_MESSAGE_SIZE) ∧
  Forall (input_valid (signable_hash t)) (tx_inputs t).
Proof.
unfold prevalidate. rewrite bind_unit_Ok, if_Err_Ok, Z.ltb_ge.
assert (∀ P Q R : Prop, (Q ↔ R) → (P ∧ Q ↔ P ∧ R)) as Hand by naive_solver. apply Hand. clear Hand.
unfold safe_get_msg, ok_msg, is_main. destruct (tx_options t) as [o|] eqn:Eo; rg_step; [|naive_solver].
destruct (txo_network_type o) as [n|] eqn:En; rg_step; [|naive_solver].
destruct (network_from_i32 n) as [net|] eqn:Enet; rg_step; [|naive_solver].
rewrite !bind_unit_Ok, !if_Err_Ok, check_duplicates_Ok, check_message_Ok, iterR_Ok, Eo.
rewrite andb_false_iff, !bool_decide_eq_false.
assert (¬ is_Some (txo_contract o) ∨ net ≠ Main ↔ (net = Main → txo_contract o = None)) as ->.
{ rewrite <-eq_None_not_Some. destruct (decide (net = Main)); naive_solver. }
assert (Forall (λ x, prevalidate_input t x = Ok tt) (tx_inputs t) ↔ Forall (input_valid (signable_hash t)) (tx_inputs t)) as ->.
{ apply Forall_proper; [|done]. intros i. apply prevalidate_input_Ok. }
naive_solver.
Qed.

End signing.

(** ** Authentication *)

Section auth_props.
Context {B : Type} {prq : Proto (Request B)} {prs : Proto (Response B)} {jrq : Json (Request B)}
        {jrs : Json (Response B)} {jpk : Json (option PublicKey)}.

Lemma verify_auth_Ok (r : Request B) pk :
  Request_verify_auth r = Ok pk ↔
  ∃ proof nmd, rq_proof r = Some proof ∧ rq_node_metadata r = Some nmd ∧
    nm_public_key nmd = Some pk ∧ pf_public_key proof = Some pk ∧
    Proof_verify proof (calculate_hash r) = Ok tt.
Proof.
unfold Request_verify_auth, add_msg. rewrite !map_err_Ok. unfold Request_verify_auth_inner, safe_get_msg.
repeat setoid_rewrite bind_Ok. repeat setoid_rewrite ok_or_Ok. split.
- intros (proof & ? & nmd & ? & npk & ? & pk' & ? & [] & ? & E).
  case_bool_decide as Hd; [done|]. exists proof, nmd. naive_solver.
- intros (proof & nmd & ? & ? & ? & ? & ?). exists proof. split; [done|]. exists nmd. split; [done|].
  exists pk. split; [done|]. exists pk. split; [done|]. exists tt. split; [done|].
  by rewrite bool_decide_eq_false_2 by naive_solver.
Qed.

(** Request authentication. [verify_auth] answers a public key exactly when
    the request carries a proof by that key over the request's hash and the same
    key in its node metadata; and a request that names the signer's key and is
    signed by [with_auth] always passes, with that key, whatever its origin. *)
Theorem request_auth {laws : CryptoLaws} {slaws : SecpLaws} (r : Request B) kp nmd origin :
  kp_matches kp → rq_node_metadata r = Some nmd → nm_public_key nmd = Some (KeyPair_public_key kp) →
  (∀ pk, Request_verify_auth r = Ok pk ↔
     ∃ proof, rq_proof r = Some proof ∧ nm_public_key nmd = Some pk ∧
       pf_public_key proof = Some pk ∧ Proof_verify proof (calculate_hash r) = Ok tt) ∧
  ∃ r', Request_with_auth kp r = Ok r' ∧
    Request_verify_auth {| rq_proof := rq_proof r'; rq_node_metadata := rq_node_metadata r';
      rq_origin := origin; rq_initiate_keygen := rq_initiate_keygen r';
      rq_initiate_signing := rq_initiate_signing r'; rq_body := rq_body r' |} = Ok (KeyPair_public_key kp).
Proof.
intros Hk Hn Hpk. split; [intros pk; rewrite verify_auth_Ok; naive_solver|].
destruct (from_keypair_hash_verifies (calculate_hash r) kp) as (p & Hp & Hpp & Hv);
  [apply digest_is_digest|done|].
exists (rq_with_proof (Some p) r). split.
- unfold Request_with_auth. rewrite Hp. rg_step. by rewrite Hv.
- apply verify_auth_Ok. exists p, nmd. done.
Qed.

(** Response authentication. A response that names the responder's key and is
    signed by [with_auth] passes [verify_auth] when the caller intends that key
    or no particular one, and never passes when the caller intends another. *)
Theorem response_auth {laws : CryptoLaws} {slaws : SecpLaws} (r r' : Response B) kp nmd intended :
  kp_matches kp → rs_node_metadata r = Some nmd → nm_public_key nmd = Some (KeyPair_public_key kp) →
  Response_with_auth kp r = Ok r' →
  (Response_verify_auth r' intended = Ok r' ↔
   intended = None ∨ intended = Some (KeyPair_public_key kp)).
Proof.
intros Hk Hn Hpk. unfold Response_with_auth.
destruct (from_keypair_hash_verifies (calculate_hash r) kp) as (p & Hp & Hpp & Hv);
  [apply digest_is_digest|done|].
rewrite Hp. rg_step. intros [= <-]. unfold Response_verify_auth, add_msg. rewrite !map_err_Ok.
unfold Response_verify_auth_inner, safe_get_msg. cbn [rs_with_proof rs_node_metadata rs_proof].
rewrite Hn. rg_step. rewrite Hpk. rg_step. rewrite Hpp. rg_step.
change (calculate_hash (rs_with_proof (Some p) r)) with (calculate_hash r). unfold add_msg. rewrite Hv. rg_step.
rewrite bool_decide_eq_false_2 by naive_solver. destruct intended as [k|]; [|naive_solver].
case_bool_decide; naive_solver.
Qed.
End auth_props.

(** ** Observation counts *)

Section counts.
Context {jstate : Json Z}.

Lemma unique_fold ps : ∀ acc u,
  foldR (λ results p, x ← observed_by p; Ok ({[x]} ∪ results)) acc ps = Ok u ↔
  ∃ xs, mapR observed_by ps = Ok xs ∧ u = (list_to_set (reverse xs) : gset (PublicKey * Z)) ∪ acc.
Proof.
induction ps as [|p ps IH]; intros acc u; cbn [foldR mapR].
- split; [intros [= <-]; exists []; set_solver|intros (xs & [= <-] & ->); f_equal; set_solver].
- rewrite !bind_Ok. split.
  + intros (a & Ha & E). inv_Ok. subst a. apply IH in E as (xs & Hxs & ->).
    exists (x :: xs). rewrite H, Hxs. rg_step. split; [done|]. rewrite reverse_cons, list_to_set_app_L. set_solver.
  + intros (xs & E & ->). inv_Ok. subst xs. eexists. rewrite H. rg_step. split; [done|].
    apply IH. eexists. split; [done|]. rewrite reverse_cons, list_to_set_app_L. set_solver.
Qed.

(** The distinct pairs in one state are as many as the distinct keys in it. *)
Lemma unique_size xs state :
  size (filter (λ x, x.2 = state) (list_to_set (reverse xs) ∪ ∅ : gset (PublicKey * Z))) =
  size (list_to_set (fst <$> List.filter (λ x, bool_decide (x.2 = state)) xs) : gset PublicKey).
Proof.
set (A := filter _ _).
assert (∀ k s, (k, s) ∈ A ↔ (k, s) ∈ xs ∧ s = state) as HA.
{ intros k s. unfold A. rewrite elem_of_filter, elem_of_union, elem_of_list_to_set, elem_of_reverse.
  simpl. set_solver. }
assert (fst <$> elements A ≡ₚ elements (list_to_set (fst <$> List.filter (λ x, bool_decide (x.2 = state)) xs) : gset PublicKey)) as HP.
{ apply NoDup_Permutation; [|apply NoDup_elements|].
  - apply NoDup_fmap_2_strong; [|apply NoDup_elements]. intros [k s] [k' s'].
    rewrite !elem_of_elements, !HA. simpl. naive_solver.
  - intros k. rewrite elem_of_elements, elem_of_list_to_set, !list_elem_of_fmap. split.
    + intros ([k' s] & -> & Hk). rewrite elem_of_elements, HA in Hk. exists (k', s). split; [done|].
      apply list_elem_of_In, List.filter_In. rewrite <-list_elem_of_In, bool_decide_eq_true. done.
    + intros ([k' s] & -> & Hk). apply list_elem_of_In, List.filter_In in Hk as [Hk Hs].
      exists (k', s). split; [done|]. rewrite elem_of_elements, HA, list_elem_of_In.
      simpl in Hs. by apply bool_decide_eq_true in Hs. }
unfold size, set_size. simpl. by rewrite <-HP, length_fmap.
Qed.

(** The observation count is a count of distinct public keys: [accepted] and
    [pending] with threshold [n] succeed exactly when every observation proof is
    complete and at least [n] different keys signed a proof in that state, so a
    peer repeating its proof is counted once. *)
Theorem check_by_state_counts_keys r n state q xs :
  str_query_transaction_response r = Some q → mapR observed_by (qtr_observation_proofs q) = Ok xs →
  (check_by_state r n state = Ok tt ↔
   (n ≤ size (list_to_set (fst <$> List.filter (λ x, bool_decide (x.2 = state)) xs) : gset PublicKey))%nat).
Proof.
intros Hq Hxs. unfold check_by_state, unique_by_state. rewrite Hq. unfold safe_get. rg_step.
rewrite (proj2 (unique_fold _ _ (list_to_set (reverse xs) ∪ ∅))) by eauto. rg_step.
rewrite unique_size. case_bool_decide; naive_solver.
Qed.
End counts.
End keys_props.

(** * Witnesses *)

Definition demo_kp : KeyPair (secp := toy_secp) :=
  Build_KeyPair (secp := toy_secp) (repeat Byte.x07 33 : secret_key (Secp := toy_secp)) (repeat Byte.x07 33).
Definition demo_json {A} : Json A := λ _, "{}".
Definition demo_kp_address : Address :=
  match address_typed (host := toy_host) (crypto := toy_crypto) demo_kp with Ok a => a | _ => demo_address end.
Definition demo_spend : Transaction :=
  {| tx_inputs := [to_input (from_output_new (Output_new demo_kp_address 10) (Hash_new [Byte.x01]) 0 5)];
     tx_outputs := [Output_new demo_address 7; Output_new demo_kp_address 3];
     tx_struct_metadata := struct_metadata 6;
     tx_options := Some {| txo_salt := Some 1; txo_network_type := Some (network_to_i32 Dev);
       txo_key_value_options := []; txo_data := None; txo_contract := None; txo_time_sponsor := None;
       txo_is_test := None |} |}.
Definition demo_signed : Transaction :=
  match sign (host := toy_host) (crypto := toy_crypto) (ptx := demo_ptx) demo_kp demo_spend with
  | Ok t => t | _ => demo_spend end.

Lemma sign_then_verify_witness :
  ∃ addr, PublicKey_address (host := toy_host) (crypto := toy_crypto) (KeyPair_public_key demo_kp) = Ok addr ∧
    Forall2 (λ i i', if bool_decide (i_output i ≫= o_address = Some addr)
      then i_proof i = [] → Input_verify (host := toy_host) (crypto := toy_crypto) (secp := toy_secp) i'
             (signable_hash (crypto := toy_crypto) (ptx := demo_ptx) demo_signed) = Ok tt
      else i' = i) (tx_inputs demo_spend) (tx_inputs demo_signed).
Proof.
destruct (sign_then_verify (host := toy_host) (laws := toy_crypto_laws) (slaws := toy_secp_laws) (ptx := demo_ptx)
  demo_kp demo_spend demo_signed) as (_ & addr & ? & _ & ?).
- reflexivity.
- vm_compute. reflexivity.
- exists addr. auto.
Defined.

Lemma prevalidate_iff_witness :
  prevalidate (host := toy_host) (crypto := toy_crypto) (secp := toy_secp) (ptx := demo_ptx) (json := demo_json)
    demo_signed = Ok tt ∧ tx_outputs demo_signed ≠ [].
Proof.
assert (prevalidate (host := toy_host) (crypto := toy_crypto) (secp := toy_secp) (ptx := demo_ptx) (json := demo_json)
    demo_signed = Ok tt) as H by (vm_compute; reflexivity).
split; [exact H|].
destruct (proj1 (prevalidate_iff (host := toy_host) (crypto := toy_crypto) (secp := toy_secp) (ptx := demo_ptx)
                   (json := demo_json) demo_signed) H) as (_ & _ & _ & _ & ? & _). assumption.
Defined.

Definition demo_nmd : NodeMetadata :=
  {| nm_transport_info := None; nm_public_key := Some (KeyPair_public_key demo_kp); nm_node_type := None;
     nm_version_info := None; nm_partition_info := None; nm_node_name := None; nm_peer_id := None;
     nm_parties := [] |}.
Definition demo_request : Request unit :=
  {| rq_proof := None; rq_node_metadata := Some demo_nmd; rq_origin := None; rq_initiate_keygen := None;
     rq_initiate_signing := None; rq_body := tt |}.
Definition demo_response : Response unit :=
  {| rs_response_metadata := None; rs_proof := None; rs_node_metadata := Some demo_nmd; rs_body := tt |}.
Definition demo_prq : Proto (Request unit) := const_proto _ (λ _, [Byte.x01]).
Definition demo_prs : Proto (Response unit) := const_proto _ (λ _, [Byte.x02]).

Lemma request_auth_witness :
  ∃ r', Request_with_auth (host := toy_host) (crypto := toy_crypto) (prq := demo_prq) demo_kp demo_request = Ok r'.
Proof.
destruct (request_auth (host := toy_host) (laws := toy_crypto_laws) (slaws := toy_secp_laws) (prq := demo_prq)
  (jrq := demo_json) demo_request demo_kp demo_nmd (Some "relay")) as (_ & r' & ? & _);
  [reflexivity..|].
exists r'. assumption.
Defined.

Definition demo_signed_response : Response unit :=
  match Response_with_auth (host := toy_host) (crypto := toy_crypto) (prs := demo_prs) demo_kp demo_response with
  | Ok r => r | _ => demo_response end.

Lemma response_auth_witness :
  Response_verify_auth (host := toy_host) (crypto := toy_crypto) (secp := toy_secp) (prs := demo_prs)
    (jrs := demo_json) (jpk := demo_json) demo_signed_response None = Ok demo_signed_response.
Proof.
apply (response_auth (host := toy_host) (laws := toy_crypto_laws) (slaws := toy_secp_laws) (prs := demo_prs)
  (jrs := demo_json) (jpk := demo_json) demo_response demo_signed_response demo_kp demo_nmd None).
- reflexivity.
- reflexivity.
- reflexivity.
- vm_compute. reflexivity.
- left. reflexivity.
Defined.

Definition demo_op (b : u8) : ObservationProof :=
  {| op_observation_hash := None; op_merkle_proof := None; op_metadata := Some (demo_om b);
     op_proof := Some {| pf_signature := None; pf_public_key := Some demo_key |} |}.

Definition two_proofs_one_key : SubmitTransactionResponse :=
  {| str_transaction_hash := None; str_query_transaction_response :=
       Some {| qtr_observation_proofs := [demo_op Byte.x01; demo_op Byte.x02] |};
     str_transaction := None |}.

Lemma check_by_state_counts_keys_witness :
  demo_op Byte.x01 ≠ demo_op Byte.x02 ∧
  check_by_state (host := toy_host) (jstate := demo_json) two_proofs_one_key 2 State_Pending ≠ Ok tt.
Proof.
split; [discriminate|]. intros H.
apply (check_by_state_counts_keys (host := toy_host) (jstate := demo_json) two_proofs_one_key 2 State_Pending
  {| qtr_observation_proofs := [demo_op Byte.x01; demo_op Byte.x02] |} [(demo_key, 0); (demo_key, 0)]) in H;
  [|reflexivity|reflexivity].
vm_compute in H. repeat apply le_S_n in H. inversion H.
Defined.
