(* ===== verification/Builder.v ===== *)
(** * The transaction builder

    src/core/transact/tx_builder_supports.rs: [TransactionBuilder], its setters,
    coin selection and the remainder output of [build].  The data store and client
    handles of the builder are not used by these operations and are left out; the
    random salt and the clock of [Transaction::new_blank] are arguments. *)

From stdpp Require Import base list gmap strings.
From S2P Require Import Prelude Structs Interfaces Schema Merkle Transaction Keys.
#[local] Open Scope Z_scope.
#[local] Open Scope redgold_scope.

Record TransactionBuilder := {
  tb_transaction : Transaction; tb_utxos : list UtxoEntry; tb_used_utxos : list UtxoEntry;
  tb_network : option NetworkEnvironment }.

Definition tb_with_tx (t : Transaction) (b : TransactionBuilder) : TransactionBuilder :=
  {| tb_transaction := t; tb_utxos := tb_utxos b; tb_used_utxos := tb_used_utxos b;
     tb_network := tb_network b |}.
Definition push_output (o : Output) (b : TransactionBuilder) : TransactionBuilder :=
  tb_with_tx (tx_with_outputs (tx_outputs (tb_transaction b) ++ [o]) (tb_transaction b)) b.
Definition push_input (i : Input) (b : TransactionBuilder) : TransactionBuilder :=
  tb_with_tx (tx_with_inputs (tx_inputs (tb_transaction b) ++ [i]) (tb_transaction b)) b.
Definition map_options (f : TransactionOptions → TransactionOptions) (b : TransactionBuilder) : TransactionBuilder :=
  let t := tb_transaction b in
  tb_with_tx (tx_with_options (Some (f (default default_TransactionOptions (tx_options t)))) t) b.

(** [outputs.last_mut()] *)
Fixpoint map_last {A} (f : A → A) (l : list A) : list A :=
  match l with [] => [] | [x] => [f x] | x :: l => x :: map_last f l end.
Definition map_last_output (f : Output → Output) (b : TransactionBuilder) : TransactionBuilder :=
  let t := tb_transaction b in tb_with_tx (tx_with_outputs (map_last f (tx_outputs t)) t) b.

(** ** Field updates *)

Definition d_with_height (h : option Z) (d : StandardData) : StandardData :=
  {| d_amount := d_amount d; d_generic_typed_value := d_generic_typed_value d; d_peer_data := d_peer_data d;
     d_node_metadata := d_node_metadata d; d_dynamic_node_metadata := d_dynamic_node_metadata d;
     d_height := h; d_data_hash := d_data_hash d; d_hash := d_hash d;
     d_observation := d_observation d; d_address := d_address d; d_state := d_state d;
     d_request := d_request d; d_standard_request := d_standard_request d;
     d_liquidity_request := d_liquidity_request d; d_portfolio_info := d_portfolio_info d;
     d_schema_def := d_schema_def d; d_data := d_data d;
     d_aggregate_state_hash := d_aggregate_state_hash d;
     d_external_transaction_id := d_external_transaction_id d |}.
Definition d_with_external_id (e : option ExternalTransactionId) (d : StandardData) : StandardData :=
  {| d_amount := d_amount d; d_generic_typed_value := d_generic_typed_value d; d_peer_data := d_peer_data d;
     d_node_metadata := d_node_metadata d; d_dynamic_node_metadata := d_dynamic_node_metadata d;
     d_height := d_height d; d_data_hash := d_data_hash d; d_hash := d_hash d;
     d_observation := d_observation d; d_address := d_address d; d_state := d_state d;
     d_request := d_request d; d_standard_request := d_standard_request d;
     d_liquidity_request := d_liquidity_request d; d_portfolio_info := d_portfolio_info d;
     d_schema_def := d_schema_def d; d_data := d_data d;
     d_aggregate_state_hash := d_aggregate_state_hash d; d_external_transaction_id := e |}.
(** A [StandardData] with only the fields the builder sets. *)
Definition data_of (obs : option Observation) (peer : option PeerMetadata) (node : option NodeMetadata)
    (request : option BytesData) : StandardData :=
  {| d_amount := None; d_generic_typed_value := None; d_peer_data := peer; d_node_metadata := node;
     d_dynamic_node_metadata := None; d_height := None; d_data_hash := None; d_hash := None;
     d_observation := obs; d_address := None; d_state := None; d_request := request;
     d_standard_request := None; d_liquidity_request := None; d_portfolio_info := None;
     d_schema_def := None; d_data := None; d_aggregate_state_hash := None;
     d_external_transaction_id := None |}.
Definition o_with_type (ty : option Z) (o : Output) : Output :=
  {| o_address := o_address o; o_product_id := o_product_id o;
     o_counter_party_proofs := o_counter_party_proofs o; o_data := o_data o;
     o_contract := o_contract o; o_output_type := ty; o_utxo_id := o_utxo_id o |}.
Definition o_with_data (d : option StandardData) (o : Output) : Output :=
  {| o_address := o_address o; o_product_id := o_product_id o;
     o_counter_party_proofs := o_counter_party_proofs o; o_data := d;
     o_contract := o_contract o; o_output_type := o_output_type o; o_utxo_id := o_utxo_id o |}.
Definition o_with_contract (c : option OutputContract) (o : Output) : Output :=
  {| o_address := o_address o; o_product_id := o_product_id o;
     o_counter_party_proofs := o_counter_party_proofs o; o_data := o_data o;
     o_contract := c; o_output_type := o_output_type o; o_utxo_id := o_utxo_id o |}.
Definition addressed_output (address : Address) (d : option StandardData) : Output :=
  {| o_address := Some address; o_product_id := None; o_counter_party_proofs := []; o_data := d;
     o_contract := None; o_output_type := None; o_utxo_id := None |}.
Definition txo_with_network (n : option Z) (o : TransactionOptions) : TransactionOptions :=
  {| txo_salt := txo_salt o; txo_network_type := n; txo_key_value_options := txo_key_value_options o;
     txo_data := txo_data o; txo_contract := txo_contract o; txo_time_sponsor := txo_time_sponsor o;
     txo_is_test := txo_is_test o |}.
Definition txo_with_data (d : option TransactionData) (o : TransactionOptions) : TransactionOptions :=
  {| txo_salt := txo_salt o; txo_network_type := txo_network_type o;
     txo_key_value_options := txo_key_value_options o; txo_data := d; txo_contract := txo_contract o;
     txo_time_sponsor := txo_time_sponsor o; txo_is_test := txo_is_test o |}.
Definition txo_with_is_test (b : option bool) (o : TransactionOptions) : TransactionOptions :=
  {| txo_salt := txo_salt o; txo_network_type := txo_network_type o;
     txo_key_value_options := txo_key_value_options o; txo_data := txo_data o;
     txo_contract := txo_contract o; txo_time_sponsor := txo_time_sponsor o; txo_is_test := b |}.
Definition txo_with_salt (s : option Z) (o : TransactionOptions) : TransactionOptions :=
  {| txo_salt := s; txo_network_type := txo_network_type o;
     txo_key_value_options := txo_key_value_options o; txo_data := txo_data o;
     txo_contract := txo_contract o; txo_time_sponsor := txo_time_sponsor o;
     txo_is_test := txo_is_test o |}.
Definition sm_with_time (time : option Z) (s : StructMetadata) : StructMetadata :=
  {| sm_time := time; sm_version := sm_version s; sm_hash := sm_hash s;
     sm_signable_hash := sm_signable_hash s; sm_signed_hash := sm_signed_hash s;
     sm_counter_party_hash := sm_counter_party_hash s;
     sm_confirmation_hash := sm_confirmation_hash s |}.

Section builder.
Context {host : Host} {crypto : Crypto}.

(** ** Setters *)

Definition with_network (n : NetworkEnvironment) (b : TransactionBuilder) : TransactionBuilder :=
  let b := {| tb_transaction := tb_transaction b; tb_utxos := tb_utxos b;
              tb_used_utxos := tb_used_utxos b; tb_network := Some n |} in
  map_options (txo_with_network (Some (network_to_i32 n))) b.
Definition TransactionBuilder_new (n : NetworkEnvironment) (salt now : Z) : TransactionBuilder :=
  with_network n {| tb_transaction := new_blank salt now; tb_utxos := []; tb_used_utxos := [];
                    tb_network := Some n |}.
Definition with_options_height (height : Z) : TransactionBuilder → TransactionBuilder :=
  map_options (λ o,
    let data := default default_TransactionData (txo_data o) in
    let sd := default default_StandardData (txd_standard_data data) in
    txo_with_data (Some {| txd_message := txd_message data; txd_time := txd_time data;
                           txd_standard_data := Some (d_with_height (Some height) sd) |}) o).
Definition with_is_test : TransactionBuilder → TransactionBuilder :=
  map_options (txo_with_is_test (Some true)).
Definition with_input (i : Input) (b : TransactionBuilder) : TransactionBuilder := push_input i b.
Definition with_observation (o : Observation) (height : Z) (address : Address) (b : TransactionBuilder) :
    TransactionBuilder :=
  push_output (addressed_output address (Some (data_of (Some o) None None None)))
    (with_options_height height b).
Definition with_no_salt (b : TransactionBuilder) : TransactionBuilder :=
  let t := tb_transaction b in tb_with_tx (tx_with_options (txo_with_salt None <$> tx_options t) t) b.
Definition with_time (time : option Z) (b : TransactionBuilder) : TransactionBuilder :=
  let t := tb_transaction b in
  tb_with_tx (tx_with_metadata (sm_with_time time <$> tx_struct_metadata t) t) b.
Definition with_output (destination : Address) (amount : CurrencyAmount) (b : TransactionBuilder) :
    TransactionBuilder := push_output (Output_new destination (ca_amount amount)) b.
Definition with_fee (destination : Address) (amount : CurrencyAmount) (b : TransactionBuilder) :
    RgResult TransactionBuilder :=
  let b := with_output destination amount b in
  _ ← ok_or (last (tx_outputs (tb_transaction b))) (error_info "Missing output");
  Ok (map_last_output (o_with_type (Some OutputType_Fee)) b).

Definition push_utxo (u : UtxoEntry) (b : TransactionBuilder) : TransactionBuilder :=
  {| tb_transaction := tb_transaction b; tb_utxos := tb_utxos b ++ [u];
     tb_used_utxos := tb_used_utxos b; tb_network := tb_network b |}.
Definition with_utxo (u : UtxoEntry) (b : TransactionBuilder) : RgResult TransactionBuilder :=
  o ← safe_get_msg (ue_output u) "Missing output";
  _ ← safe_get_msg (o_address o) "Missing address";
  _ ← safe_ensure_amount o;
  Ok (push_utxo u b).
Definition with_maybe_currency_utxo (u : UtxoEntry) (b : TransactionBuilder) : RgResult TransactionBuilder :=
  o ← safe_get_msg (ue_output u) "Missing output";
  if is_ok (safe_ensure_amount o) then with_utxo u b else Ok b.
Definition with_utxos (us : list UtxoEntry) (b : TransactionBuilder) : RgResult TransactionBuilder :=
  foldR (λ b u, with_maybe_currency_utxo u b) b us.
(** The [utxo_entries] of an [AddressInfo]. *)
Definition with_address_info (us : list UtxoEntry) (b : TransactionBuilder) : RgResult TransactionBuilder :=
  foldR (λ b u, with_utxo u b) b us.
Definition with_message (msg : string) (b : TransactionBuilder) : RgResult TransactionBuilder :=
  let t := tb_transaction b in
  x ← expect_opt (tx_options t);
  let d := match txo_data x with
           | None => {| txd_message := Some msg; txd_time := None; txd_standard_data := None |}
           | Some d => {| txd_message := Some msg; txd_time := txd_time d;
                          txd_standard_data := txd_standard_data d |}
           end in
  Ok (tb_with_tx (tx_with_options (Some (txo_with_data (Some d) x)) t) b).

Definition with_contract_request_output (destination : Address) (serialized_request : bytes)
    (b : TransactionBuilder) : TransactionBuilder :=
  let c := {| oc_standard_contract_type := None; oc_code_execution_contract := None; oc_threshold := None;
              oc_weights := []; oc_pay_update_descendents := true; oc_consumable := false |} in
  push_output (o_with_type (Some OutputType_RequestCall) (o_with_contract (Some c)
    (addressed_output destination (Some (data_of None None None (bytes_data serialized_request)))))) b.
Definition with_contract_deploy_output_and_predicate_input (code : bytes) (c_amount : CurrencyAmount)
    (use_predicate_input : bool) (b : TransactionBuilder) : RgResult TransactionBuilder :=
  destination ← script_hash code;
  let code_exec := {| cec_address := None; cec_code := bytes_data code;
                      cec_executor := Some ExecutorBackend_Extism |} in
  let contract := {| oc_standard_contract_type := None; oc_code_execution_contract := Some code_exec;
              oc_threshold := None; oc_weights := []; oc_pay_update_descendents := false;
              oc_consumable := false |} in
  let o := o_with_contract (Some contract) (o_with_type (Some OutputType_Deploy)
             (addressed_output destination (amount_data (as_u64 (ca_amount c_amount))))) in
  let b := push_output o b in
  Ok (if use_predicate_input then push_input (predicate_filter destination) b else b).
Definition with_last_output_deposit_swap_fulfillment (btc_txid : string) : TransactionBuilder → TransactionBuilder :=
  map_last_output (λ o,
    o_with_data (d_with_external_id (Some {| ext_identifier := btc_txid |}) <$> o_data o) o).
Definition contract_of_type (ty : Z) : OutputContract :=
  {| oc_standard_contract_type := Some ty; oc_code_execution_contract := None; oc_threshold := None;
     oc_weights := []; oc_pay_update_descendents := false; oc_consumable := false |}.
Definition with_last_output_contract_type (ty : Z) : TransactionBuilder → TransactionBuilder :=
  map_last_output (o_with_contract (Some (contract_of_type ty))).
(** The assertion that the output is a swap holds by construction. *)
Definition with_last_output_withdrawal_swap : TransactionBuilder → TransactionBuilder :=
  with_last_output_contract_type StandardContractType_Swap.
Definition with_last_output_stake : TransactionBuilder → TransactionBuilder :=
  with_last_output_contract_type StandardContractType_Stake.
Definition with_output_peer_data (destination : Address) (pd : PeerMetadata) (height : Z)
    (b : TransactionBuilder) : TransactionBuilder :=
  push_output (addressed_output destination
      (Some (d_with_height (Some height) (data_of None (Some pd) None None))))
    (with_options_height height b).
Definition with_output_node_metadata (destination : Address) (pd : NodeMetadata) (height : Z)
    (b : TransactionBuilder) : TransactionBuilder :=
  push_output (addressed_output destination
      (Some (d_with_height (Some height) (data_of None None (Some pd) None)))) b.
Definition with_genesis_input (address : Address) (b : TransactionBuilder) : TransactionBuilder :=
  push_input {| i_utxo_id := None; i_proof := []; i_product_id := None;
                i_output := Some (addressed_output address None); i_floating_utxo_id := None;
                i_input_type := Some InputType_GenesisInput |} b.

(** ** Coin selection *)

Definition with_unsigned_input (u : UtxoEntry) (b : TransactionBuilder) : RgResult TransactionBuilder :=
  output ← safe_get (ue_output u);
  _ ← safe_get (o_data output);
  let b := {| tb_transaction := tb_transaction b; tb_utxos := tb_utxos b;
              tb_used_utxos := tb_used_utxos b ++ [u]; tb_network := tb_network b |} in
  Ok (push_input (to_input u) b).
Definition balance (b : TransactionBuilder) : Z :=
  i64_sub (total_input_amount (tb_transaction b)) (total_output_amount (tb_transaction b)).

Definition with_remainder (b : TransactionBuilder) : RgResult TransactionBuilder :=
  i ← expect_opt (tx_inputs (tb_transaction b) !! 0%nat);
  o ← expect_opt (i_output i);
  address ← expect_opt (o_address o);
  Ok (push_output (Output_new address (balance b)) b).

(** [utxos.sort_by(|a, b| a.amount().cmp(&b.amount()))]: [amount] panics on an
    entry without one, and every entry is compared once there are two. *)
Definition sort_utxos (us : list UtxoEntry) : RgResult (list UtxoEntry) :=
  if bool_decide (length us ≤ 1)%nat then Ok us else
  ams ← mapR UtxoEntry_amount us;
  Ok (snd <$> sort_by (λ a b, a.1 <=? b.1) (zip ams us)).

Fixpoint select_inputs (us : list UtxoEntry) (b : TransactionBuilder) : RgResult TransactionBuilder :=
  match us with
  | [] => Ok b
  | u :: us =>
      b ← with_unsigned_input u b;
      if 0 <? balance b then Ok b else select_inputs us b
  end.

Definition build (b : TransactionBuilder) : RgResult (Transaction * TransactionBuilder) :=
  utxos ← sort_utxos (tb_utxos b);
  let b := {| tb_transaction := tb_transaction b; tb_utxos := utxos;
              tb_used_utxos := tb_used_utxos b; tb_network := tb_network b |} in
  b ← select_inputs utxos b;
  if balance b <? 0 then Err (error_info "Insufficient funds") else
  b ← (if 0 <? balance b then with_remainder b else Ok b);
  Ok (tb_transaction b, b).

(** [Transaction::new] of [TransactionHelpBuildSupport]: the scaled
    [amount_actual] is computed and not used. *)
Definition Transaction_new {secp : Secp} {ptx : Proto Transaction} (source : UtxoEntry) (destination : bytes)
    (amount : Z) (kp : KeyPair) (salt now : Z) : RgResult Transaction :=
  let amount := CurrencyAmount_from (as_i64 amount) in
  destination ← expect (Address_from_bytes destination);
  b ← expect (with_utxo source (TransactionBuilder_new Debug_ salt now));
  tb ← expect (build (with_output destination amount b));
  expect (sign kp tb.1).

(** * Properties *)

Definition input_amounts (t : Transaction) : list Z := omap opt_amount (omap i_output (tx_inputs t)).
Definition output_amounts (t : Transaction) : list Z := omap opt_amount (tx_outputs t).

Lemma balance_wrap b :
  balance b = as_i64 (sum_Z (input_amounts (tb_transaction b)) - sum_Z (output_amounts (tb_transaction b))).
Proof. unfold balance, i64_sub, total_input_amount. by rewrite total_output_wrap, i64_sum_wrap, wrap_s_sub. Qed.

Lemma Output_new_amount a z : in_i64 z → opt_amount (Output_new a z) = Some z.
Proof.
intros Hz. unfold opt_amount. cbn -[wrap_s wrap_u]. f_equal.
unfold wrap_s, wrap_u. rewrite Zplus_mod_idemp_l. by apply wrap_s_id.
Qed.

Lemma with_unsigned_input_Ok u b b' :
  with_unsigned_input u b = Ok b' →
  tb_transaction b' = tx_with_inputs (tx_inputs (tb_transaction b) ++ [to_input u]) (tb_transaction b).
Proof. unfold with_unsigned_input. intros E. inv_Ok. by subst b'. Qed.

Lemma select_inputs_Ok us b b' :
  select_inputs us b = Ok b' →
  ∃ us1 us2, us = us1 ++ us2 ∧ (us2 = [] ∨ 0 < balance b') ∧
    tb_transaction b' = tx_with_inputs (tx_inputs (tb_transaction b) ++ (to_input <$> us1)) (tb_transaction b).
Proof.
revert b. induction us as [|u us IH]; intros b; cbn [select_inputs].
{ intros [= <-]. exists [], []. split_and!; [done|by left|]. cbn. rewrite app_nil_r. by destruct (tb_transaction b). }
intros E. inv_Ok. apply with_unsigned_input_Ok in H. destruct (Z.ltb_spec 0 (balance x)).
- inv_Ok. subst. exists [u], us. split_and!; [done|by right|done].
- apply IH in H0 as (us1 & us2 & -> & Hor & Ht). exists (u :: us1), us2. split_and!; [done|done|].
  rewrite Ht, H. simpl. by rewrite <-app_assoc.
Qed.

Lemma sort_utxos_Ok us us' : sort_utxos us = Ok us' → us' ≡ₚ us.
Proof.
unfold sort_utxos. case_bool_decide; [by intros [= ->]|]. intros E. inv_Ok. subst us'.
rewrite sort_by_perm. apply mapR_length in H0. apply reflexive_eq. by apply snd_zip; lia.
Qed.

(** What [build] returns. *)
Lemma build_Ok b t b' :
  build b = Ok (t, b') →
  total_input_amount t = total_output_amount t ∧
  (tx_outputs t = tx_outputs (tb_transaction b) ∨
   ∃ i a z, head (tx_inputs t) = Some i ∧ i_output i ≫= o_address = Some a ∧ 0 < z ∧
     tx_outputs t = tx_outputs (tb_transaction b) ++ [Output_new a z]) ∧
  (∃ used rest, tb_utxos b ≡ₚ used ++ rest ∧
     tx_inputs t = tx_inputs (tb_transaction b) ++ (to_input <$> used)) ∧
  tx_struct_metadata t = tx_struct_metadata (tb_transaction b) ∧
  tx_options t = tx_options (tb_transaction b).
Proof.
unfold build. intros E. inv_Ok. rename x into us, x0 into b1.
destruct (Z.ltb_spec (balance b1) 0) as [|Hnn]; [done|]. apply bind_Ok in H1 as (b2 & Hb2 & E).
injection E as <- <-. apply sort_utxos_Ok in H.
apply select_inputs_Ok in H0 as (us1 & us2 & -> & _ & Ht). cbn [tb_transaction] in Ht.
assert (∃ used rest, tb_utxos b ≡ₚ used ++ rest ∧
  tx_inputs (tb_transaction b1) = tx_inputs (tb_transaction b) ++ (to_input <$> used)) as Hin.
{ exists us1, us2. split; [done|]. by rewrite Ht. }
destruct (Z.ltb_spec 0 (balance b1)) as [Hpos|Hz].
- unfold with_remainder in Hb2. inv_Ok. subst b2. rename x into i, x0 into o, x1 into a.
  assert (in_i64 (balance b1)) as Hr by (rewrite balance_wrap; by apply wrap_s_in).
  split_and!.
  + unfold total_input_amount. rewrite total_output_wrap, i64_sum_wrap. cbn [tb_transaction push_output tb_with_tx tx_with_outputs tx_outputs tx_inputs].
    rewrite omap_app, sum_Z_app. cbn [omap list_omap]. rewrite Output_new_amount by done.
    rewrite balance_wrap. unfold input_amounts, output_amounts, sum_Z at 3. cbn [foldr].
    rewrite Z.add_0_r, Z.add_comm, wrap_s_add_l. f_equal. lia.
  + right. exists i, a, (balance b1). split_and!; [|simpl; apply bind_Some; eauto|done|by simpl; rewrite Ht].
    simpl. by rewrite head_lookup.
  + done.
  + simpl. by rewrite Ht.
  + simpl. by rewrite Ht.
- injection Hb2 as <-. split_and!; [|by left; rewrite Ht|done|by rewrite Ht|by rewrite Ht].
  apply wrap_s_diff_0.
  + unfold total_input_amount. rewrite i64_sum_wrap. by apply wrap_s_in.
  + rewrite total_output_wrap. by apply wrap_s_in.
  + change (balance b1 = 0). lia.
Qed.

(** C15: a transaction that [build] returns is balanced: its enriched inputs carry
    exactly what its outputs pay, in [i64] arithmetic and whatever the amounts.
    The requested outputs are kept, followed at most by one positive remainder
    paid to the address of the first input; the inputs are those already there
    followed by some of the offered UTXOs, each at most as often as offered; the
    metadata and options are unchanged. *)
Theorem build_balanced b t b' :
  build b = Ok (t, b') →
  total_input_amount t = total_output_amount t ∧
  (tx_outputs t = tx_outputs (tb_transaction b) ∨
   ∃ i a z, head (tx_inputs t) = Some i ∧ i_output i ≫= o_address = Some a ∧ 0 < z ∧
     tx_outputs t = tx_outputs (tb_transaction b) ++ [Output_new a z]) ∧
  (∃ used rest, tb_utxos b ≡ₚ used ++ rest ∧
     tx_inputs t = tx_inputs (tb_transaction b) ++ (to_input <$> used)) ∧
  tx_struct_metadata t = tx_struct_metadata (tb_transaction b) ∧
  tx_options t = tx_options (tb_transaction b).
Proof. exact (build_Ok b t b'). Qed.

(** ** When [build] succeeds *)

(** An entry that passed [with_utxo], with its amount. *)
Definition spendable (u : UtxoEntry) (z : Z) : Prop :=
  ∃ o, ue_output u = Some o ∧ is_Some (o_address o) ∧ opt_amount o = Some z ∧ 0 ≤ z.

Lemma spendable_input u z b :
  spendable u z → ∃ b', with_unsigned_input u b = Ok b' ∧
    tb_transaction b' = tx_with_inputs (tx_inputs (tb_transaction b) ++ [to_input u]) (tb_transaction b).
Proof.
intros (o & Ho & _ & Ha & _). unfold opt_amount in Ha. apply fmap_Some in Ha as (ca & Ha & _).
apply bind_Some in Ha as (d & Hd & _). unfold with_unsigned_input, safe_get. rewrite Ho. rg_step. rewrite Hd.
rg_step. eexists. done.
Qed.

Lemma select_inputs_total us zs b :
  Forall2 spendable us zs → ∃ b', select_inputs us b = Ok b'.
Proof.
intros H. revert b. induction H as [|u z us zs Hu _ IH]; intros b; [by eexists|].
cbn [select_inputs]. destruct (spendable_input u z b Hu) as (b1 & -> & _). rg_step.
destruct (0 <? balance b1); eauto.
Qed.

Lemma spendable_amount u z : spendable u z → in_i64 z → UtxoEntry_amount u = Ok z.
Proof.
intros (o & Ho & _ & Ha & Hz) Hr. unfold UtxoEntry_amount, Output_amount, amount_i64. rewrite Ho. rg_step.
rewrite Ha. rg_step. f_equal. apply wrap_u_id. unfold in_u, in_s in *. lia.
Qed.

Lemma spendable_inputs us zs : Forall2 spendable us zs → omap opt_amount (omap i_output (to_input <$> us)) = zs.
Proof.
induction 1 as [|u z us zs (o & Ho & _ & Ha & _) _ IH]; [done|].
rewrite fmap_cons. cbn. rewrite Ho. cbn. rewrite Ha. f_equal. exact IH.
Qed.

Lemma sort_utxos_total us zs :
  Forall2 spendable us zs → Forall in_i64 zs → ∃ us', sort_utxos us = Ok us'.
Proof.
intros H Hr. unfold sort_utxos. case_bool_decide; [by eexists|].
assert (mapR UtxoEntry_amount us = Ok zs) as ->.
{ apply mapR_Ok. clear -H Hr. induction H; [constructor|]. apply Forall_cons in Hr as [].
  constructor; [by apply spendable_amount|auto]. }
rg_step. by eexists.
Qed.

Lemma spendable_nonneg us zs : Forall2 spendable us zs → Forall (λ z, 0 ≤ z) zs.
Proof. induction 1 as [|u z us zs' (o & _ & _ & _ & ?) _ IH]; by constructor. Qed.

Lemma spendable_in_range us zs : Forall2 spendable us zs → in_i64 (sum_Z zs) → Forall in_i64 zs.
Proof.
intros Hsp Hsum. apply Forall_forall. intros z Hz. pose proof (spendable_nonneg _ _ Hsp) as Hpos.
pose proof (sum_Z_elem zs z Hpos Hz). rewrite Forall_forall in Hpos. specialize (Hpos z Hz).
unfold in_s in *. lia.
Qed.

(** C16: coin selection is complete. Starting from no inputs, with offered UTXOs
    that passed [with_utxo] and carry nonnegative amounts whose sum fits an
    [i64], and a nonnegative requested total, [build] returns a transaction
    exactly when the offered UTXOs cover the requested total, and otherwise
    answers the insufficient funds error; it never panics.  Without these conditions
    it may ([deploy_predicate_build_panics]). *)
Theorem build_succeeds_iff b zs :
  tx_inputs (tb_transaction b) = [] → Forall2 spendable (tb_utxos b) zs →
  in_i64 (sum_Z zs) → 0 ≤ sum_Z (output_amounts (tb_transaction b)) < 2 ^ 63 →
  if bool_decide (sum_Z (output_amounts (tb_transaction b)) ≤ sum_Z zs)
  then ∃ t b', build b = Ok (t, b')
  else build b = Err (error_info "Insufficient funds").
Proof.
intros Hin Hsp Hsum Hout. set (req := sum_Z (output_amounts (tb_transaction b))) in *.
pose proof spendable_nonneg as Hpos. pose proof (spendable_in_range _ _ Hsp Hsum) as Hr.
destruct (sort_utxos_total _ _ Hsp Hr) as (us & Hus). unfold build. rewrite Hus. rg_step.
apply sort_utxos_Ok in Hus. destruct (Forall2_perm _ _ _ _ Hus Hsp) as (zs' & Hzs & Hsp').
set (b0 := {| tb_transaction := _ |}).
destruct (select_inputs_total us zs' b0 Hsp') as (b1 & Hb1). rewrite Hb1. rg_step.
apply select_inputs_Ok in Hb1 as (us1 & us2 & -> & Hor & Ht). simpl in Ht. rewrite Hin in Ht. simpl in Ht.
apply Forall2_app_inv_l in Hsp' as (zs1 & zs2 & Hs1 & Hs2 & ->).
assert (balance b1 = sum_Z zs1 - req) as Hbal.
{ pose proof (sum_Z_nonneg _ (Hpos _ _ Hs1)). pose proof (sum_Z_nonneg _ (Hpos _ _ Hs2)).
  rewrite <-Hzs, sum_Z_app in Hsum.
  rewrite balance_wrap, Ht. unfold input_amounts. simpl. rewrite (spendable_inputs us1 zs1 Hs1).
  apply wrap_s_id; [done|]. unfold in_s in *. change (sum_Z (output_amounts _)) with req. lia. }
assert (sum_Z zs = sum_Z zs1 + sum_Z zs2) as Hsz by (by rewrite <-Hzs, sum_Z_app).
pose proof (sum_Z_nonneg _ (Hpos _ _ Hs2)) as H2. case_bool_decide as Hc.
- destruct (Z.ltb_spec (balance b1) 0) as [Hneg|].
  { exfalso. destruct Hor as [->|]; [|lia]. apply Forall2_nil_inv_l in Hs2 as ->. simpl in Hsz. lia. }
  destruct (Z.ltb_spec 0 (balance b1)); [|rg_step; by eexists _, _].
  destruct us1 as [|u us1].
  { apply Forall2_nil_inv_l in Hs1 as ->. simpl in Hbal. lia. }
  apply Forall2_cons_inv_l in Hs1 as (z & zs1' & (o & Ho & (a & Ha) & _) & _ & _).
  unfold with_remainder. rewrite Ht. cbn [tx_inputs tx_with_inputs]. rewrite fmap_cons. cbn [lookup list_lookup].
  rg_step. cbn [to_input i_output]. rewrite Ho. rg_step. rewrite Ha. rg_step. by eexists _, _.
- destruct (Z.ltb_spec (balance b1) 0); [done|lia].
Qed.

(** [build] panics when a remainder is due and the first input carries no
    enriched output, which is what
    [with_contract_deploy_output_and_predicate_input] leaves behind when called
    before any other input: a deploy with a predicate input, paid by UTXOs that
    exceed the deployed amount, never builds. *)
Theorem deploy_predicate_build_panics b code amount b1 zs :
  tx_inputs (tb_transaction b) = [] → tx_outputs (tb_transaction b) = [] →
  with_contract_deploy_output_and_predicate_input code amount true b = Ok b1 →
  Forall2 spendable (tb_utxos b) zs → in_i64 (sum_Z zs) →
  0 ≤ ca_amount amount < sum_Z zs →
  build b1 = Panic.
Proof.
intros Hin Hout Hd Hsp Hsum Ham. unfold with_contract_deploy_output_and_predicate_input in Hd. inv_Ok.
rename x into dest. subst b1.
pose proof spendable_nonneg as Hpos. pose proof (spendable_in_range _ _ Hsp Hsum) as Hr.
set (b1 := push_input _ _). destruct (sort_utxos_total _ _ Hsp Hr) as (us & Hus).
unfold build. change (tb_utxos b1) with (tb_utxos b). rewrite Hus. rg_step.
apply sort_utxos_Ok in Hus. destruct (Forall2_perm _ _ _ _ Hus Hsp) as (zs' & Hzs & Hsp').
set (b0 := {| tb_transaction := _ |}).
destruct (select_inputs_total us zs' b0 Hsp') as (b2 & Hb2). rewrite Hb2. rg_step.
apply select_inputs_Ok in Hb2 as (us1 & us2 & -> & Hor & Ht).
assert (tx_inputs (tb_transaction b0) = [predicate_filter dest]) as Hb0 by (simpl; by rewrite Hin).
rewrite Hb0 in Ht.
apply Forall2_app_inv_l in Hsp' as (zs1 & zs2 & Hs1 & Hs2 & ->).
assert (0 < balance b2) as Hbal.
{ destruct Hor as [->|]; [|done]. apply Forall2_nil_inv_l in Hs2 as ->. rewrite app_nil_r in Hzs.
  rewrite balance_wrap, Ht. unfold input_amounts, output_amounts. simpl tx_inputs. simpl tx_outputs.
  cbn [omap list_omap i_output predicate_filter app]. rewrite (spendable_inputs us1 zs1 Hs1), Hout, Hzs.
  assert (opt_amount (o_with_contract (Some {| oc_standard_contract_type := None;
     oc_code_execution_contract := Some {| cec_address := None; cec_code := bytes_data code;
       cec_executor := Some ExecutorBackend_Extism |};
     oc_threshold := None; oc_weights := []; oc_pay_update_descendents := false; oc_consumable := false |})
     (o_with_type (Some OutputType_Deploy) (addressed_output dest (amount_data (as_u64 (ca_amount amount)))))) =
     Some (ca_amount amount)) as Hoa.
  { apply (Output_new_amount dest). unfold in_s in *. lia. }
  simpl app. cbn [omap list_omap]. rewrite Hoa. cbn [sum_Z foldr]. fold (sum_Z zs). unfold sum_Z in *.
  rewrite Z.add_0_r, wrap_s_id by (unfold in_s in *; lia). lia. }
destruct (Z.ltb_spec (balance b2) 0); [lia|]. destruct (Z.ltb_spec 0 (balance b2)); [|lia].
unfold with_remainder. rewrite Ht. done.
Qed.

End builder.

(** * Witnesses *)

Definition demo_utxo (z : Z) : UtxoEntry := from_output_new (Output_new demo_kp_address z) (Hash_new [Byte.x01]) z 5.
Definition demo_builder (us : list Z) (request : Z) : TransactionBuilder :=
  {| tb_transaction := tx_with_outputs [Output_new demo_address request] (new_blank 1 2);
     tb_utxos := demo_utxo <$> us; tb_used_utxos := []; tb_network := Some Dev |}.

Lemma demo_spendable z : in_i64 z → 0 ≤ z → spendable (demo_utxo z) z.
Proof.
intros Hr Hz. exists (Output_new demo_kp_address z).
split_and!; [done|by eexists|by apply Output_new_amount|done].
Qed.

Lemma build_balanced_witness :
  match build (host := toy_host) (demo_builder [9; 4; 3] 5) with
  | Ok (t, _) => total_input_amount t = total_output_amount t ∧ length (tx_outputs t) = 2%nat
  | _ => False
  end.
Proof.
destruct (build (host := toy_host) (demo_builder [9; 4; 3] 5)) as [[t b']| |] eqn:E;
  [|vm_compute in E; discriminate E|vm_compute in E; discriminate E].
pose proof (build_balanced (host := toy_host) (demo_builder [9; 4; 3] 5) t b' E) as [H _].
split; [exact H|]. vm_compute in E. injection E as <- _. reflexivity.
Defined.

Lemma build_succeeds_iff_witness :
  build (host := toy_host) (demo_builder [9; 4; 3] 17) = Err (error_info (host := toy_host) "Insufficient funds").
Proof.
apply (build_succeeds_iff (host := toy_host) (demo_builder [9; 4; 3] 17) [9; 4; 3]).
- reflexivity.
- repeat constructor; apply demo_spendable; by_decision || lia.
- by_decision.
- vm_compute. split; discriminate || reflexivity.
Defined.

Definition demo_deploy : TransactionBuilder :=
  {| tb_transaction := new_blank 1 2; tb_utxos := [demo_utxo 9]; tb_used_utxos := [];
     tb_network := Some Dev |}.
Definition demo_deployed : TransactionBuilder :=
  match with_contract_deploy_output_and_predicate_input (host := toy_host) (crypto := toy_crypto) [Byte.x01]
          (CurrencyAmount_from 5) true demo_deploy with Ok b => b | _ => demo_deploy end.

Lemma deploy_predicate_build_panics_witness : build (host := toy_host) demo_deployed = Panic.
Proof.
apply (deploy_predicate_build_panics (host := toy_host) (crypto := toy_crypto) demo_deploy [Byte.x01]
         (CurrencyAmount_from 5) demo_deployed [9]).
- reflexivity.
- reflexivity.
- vm_compute. reflexivity.
- repeat constructor; apply demo_spendable; by_decision || lia.
- by_decision.
- vm_compute. split; discriminate || reflexivity.
Defined.
