(* ===== verification/Store.v ===== *)
(** * The data store

    data/src/transaction_store.rs, data/src/utxo_store.rs, data/src/observation_store.rs
    and the tables of data/migrations: [transactions], [utxo], [transaction_edge],
    [address_transaction], [observation] and [observation_edge].  A table is a finite map from its primary key to the
    other columns; [INSERT OR REPLACE] is an insertion, a plain [INSERT] fails on
    an existing key with the error sqlx reports.  The order of rows that SQL
    leaves open is the order of the map; [ORDER BY] is a stable sort.  Failures of
    the connection pool, row ids and metrics gauges are left out. *)

From stdpp Require Import base list gmap strings.
From S2P Require Import Prelude Structs Interfaces Schema Merkle Transaction.
#[local] Open Scope Z_scope.
#[local] Open Scope redgold_scope.

Record TransactionRow := {
  tr_raw : bytes; tr_time : Z; tr_rejection_reason : option bytes; tr_accepted : bool; tr_is_test : bool }.
Record UtxoRow := {
  ur_address : bytes; ur_output : bytes; ur_time : Z; ur_amount : option Z; ur_raw : bytes;
  ur_has_code : bool }.
Record EdgeRow := {
  er_address : bytes; er_child_transaction_hash : bytes; er_child_input_index : Z; er_time : Z }.
Record AddressTransactionRow := { at_time : Z; at_incoming : bool }.
(** Keyed by hash. *)
Record ObservationRow := { obr_raw : bytes; obr_public_key : bytes; obr_time : Z; obr_height : Z }.
(** Keyed by ((observation hash, leaf hash), (root, observed hash)). *)
Record ObservationEdgeRow := { oer_edge : bytes; oer_time : Z }.

Record Store := {
  st_transactions : gmap bytes TransactionRow;
  st_utxo : gmap (bytes * Z) UtxoRow;
  st_edge : gmap (bytes * Z) EdgeRow;
  st_address_transaction : gmap (bytes * bytes) AddressTransactionRow;
  st_observation : gmap bytes ObservationRow;
  st_observation_edge : gmap ((bytes * bytes) * (bytes * bytes)) ObservationEdgeRow }.

(** The store after the migrations. *)
Definition empty_store : Store :=
  {| st_transactions := ∅; st_utxo := ∅; st_edge := ∅; st_address_transaction := ∅; st_observation := ∅;
     st_observation_edge := ∅ |}.

Definition with_transactions (f : gmap bytes TransactionRow → gmap bytes TransactionRow) (s : Store) : Store :=
  {| st_transactions := f (st_transactions s); st_utxo := st_utxo s; st_edge := st_edge s;
     st_address_transaction := st_address_transaction s; st_observation := st_observation s;
     st_observation_edge := st_observation_edge s |}.
Definition with_utxo_table (f : gmap (bytes * Z) UtxoRow → gmap (bytes * Z) UtxoRow) (s : Store) : Store :=
  {| st_transactions := st_transactions s; st_utxo := f (st_utxo s); st_edge := st_edge s;
     st_address_transaction := st_address_transaction s; st_observation := st_observation s;
     st_observation_edge := st_observation_edge s |}.
Definition with_edge_table (f : gmap (bytes * Z) EdgeRow → gmap (bytes * Z) EdgeRow) (s : Store) : Store :=
  {| st_transactions := st_transactions s; st_utxo := st_utxo s; st_edge := f (st_edge s);
     st_address_transaction := st_address_transaction s; st_observation := st_observation s;
     st_observation_edge := st_observation_edge s |}.
Definition with_address_table (f : gmap (bytes * bytes) AddressTransactionRow → gmap (bytes * bytes) AddressTransactionRow)
    (s : Store) : Store :=
  {| st_transactions := st_transactions s; st_utxo := st_utxo s; st_edge := st_edge s;
     st_address_transaction := f (st_address_transaction s); st_observation := st_observation s;
     st_observation_edge := st_observation_edge s |}.
Definition with_observation_table (f : gmap bytes ObservationRow → gmap bytes ObservationRow) (s : Store) : Store :=
  {| st_transactions := st_transactions s; st_utxo := st_utxo s; st_edge := st_edge s;
     st_address_transaction := st_address_transaction s; st_observation := f (st_observation s);
     st_observation_edge := st_observation_edge s |}.
Definition with_observation_edges (f : gmap ((bytes * bytes) * (bytes * bytes)) ObservationEdgeRow →
    gmap ((bytes * bytes) * (bytes * bytes)) ObservationEdgeRow) (s : Store) : Store :=
  {| st_transactions := st_transactions s; st_utxo := st_utxo s; st_edge := st_edge s;
     st_address_transaction := st_address_transaction s; st_observation := st_observation s;
     st_observation_edge := f (st_observation_edge s) |}.

(** [LIMIT n OFFSET m] of SQLite; a negative limit is no limit, a negative offset
    is zero. *)
Definition sql_limit {A} (limit offset : Z) (l : list A) : list A :=
  let l := drop (Z.to_nat offset) l in if limit <? 0 then l else take (Z.to_nat limit) l.
(** [ORDER BY time DESC]. *)
Definition order_by_desc {A} (time : A → Z) (l : list A) : list A :=
  sort_by (λ a b, time b <=? time a) l.

Section store.
Context {host : Host} {crypto : Crypto} {sql : Sql}.
Context {ptx : Proto Transaction} {pue : Proto UtxoEntry} {po : Proto Output} {pei : Proto ErrorInfo}.
Context {pom : Proto ObservationMetadata} {pop : Proto ObservationProof}.
Context {jei : Json ErrorInfo}.

Notation DB := (M Store ErrorInfo).

(** ** Queries on transactions *)

Definition query_transaction (s : Store) (transaction_hash : bytes) : RgResult (option Transaction) :=
  match st_transactions s !! transaction_hash with
  | Some row => Some <$> proto_deserialize (tr_raw row)
  | None => Ok None
  end.
Definition query_transaction_hex (s : Store) (hex : string) : RgResult (option Transaction) :=
  vec ← from_hex hex; query_transaction s vec.
Definition query_accepted_transaction (s : Store) (h : Hash) : RgResult (option Transaction) :=
  bytes ← Hash_safe_bytes h;
  match st_transactions s !! bytes with
  | Some row => if bool_decide (tr_rejection_reason row = None) && tr_accepted row
                then Some <$> proto_deserialize (tr_raw row) else Ok None
  | None => Ok None
  end.
Definition query_maybe_transaction (s : Store) (h : Hash) : RgResult (option (Transaction * option ErrorInfo)) :=
  bytes ← Hash_safe_bytes h;
  match st_transactions s !! bytes with
  | Some row =>
      deser ← proto_deserialize (tr_raw row);
      rej ← match tr_rejection_reason row with
            | Some r => Some <$> proto_deserialize r
            | None => Ok None
            end;
      Ok (Some (deser, rej))
  | None => Ok None
  end.
Definition transaction_known (s : Store) (h : Hash) : RgResult bool :=
  bytes ← Hash_safe_bytes h; Ok (bool_decide (is_Some (st_transactions s !! bytes))).

Definition row_accepted (r : TransactionRow) : bool :=
  bool_decide (tr_rejection_reason r = None) && tr_accepted r.
Definition query_time_transaction (s : Store) (start end_ : Z) : RgResult (list (Z * Transaction)) :=
  mapR (λ r, t ← proto_deserialize (tr_raw r); Ok (as_u64 (tr_time r), t))
    (List.filter (λ r, (start <=? tr_time r) && (tr_time r <? end_)) (snd <$> map_to_list (st_transactions s))).
Definition query_recent_transactions (s : Store) (limit : option Z) (is_test : option bool) : RgResult (list Transaction) :=
  (snd <$> map_to_list (st_transactions s))
  |> List.filter (λ r, row_accepted r &&
       match is_test with Some b => bool_decide (tr_is_test r = b) | None => true end)
  |> order_by_desc tr_time |> sql_limit (default 10 limit) 0 |> mapR (λ r, proto_deserialize (tr_raw r)).
Definition recent_transaction_hashes (s : Store) (limit min_time : option Z) : list Hash :=
  map_to_list (st_transactions s)
  |> List.filter (λ kr, row_accepted kr.2 && (default 0 min_time <? tr_time kr.2))
  |> order_by_desc (λ kr, tr_time kr.2) |> sql_limit (default 10 limit) 0 |> map (λ kr, Hash_new kr.1).
Definition count_total_accepted_transactions (s : Store) : Z :=
  Z.of_nat (length (List.filter row_accepted (snd <$> map_to_list (st_transactions s)))).
Definition count_total_transactions (s : Store) : Z := Z.of_nat (size (st_transactions s)).

(** ** Queries on UTXOs *)

Definition count_total_utxos (s : Store) : Z := Z.of_nat (size (st_utxo s)).
Definition query_utxo_output_index (s : Store) (h : Hash) : RgResult (list Z) :=
  bytes ← Hash_safe_bytes h;
  Ok (as_i32 <$> omap (λ kr : (list u8 * Z) * UtxoRow,
        if bool_decide (kr.1.1 = bytes) then Some kr.1.2 else None) (map_to_list (st_utxo s))).
Definition query_utxo_id_valid (s : Store) (h : Hash) (output_index : Z) : RgResult bool :=
  bytes ← Hash_safe_bytes h; Ok (bool_decide (is_Some (st_utxo s !! (bytes, output_index)))).
Definition utxo_rows (s : Store) : list UtxoRow := snd <$> map_to_list (st_utxo s).
Definition query_utxo_address (s : Store) (address : Address) : RgResult (list UtxoEntry) :=
  bytes ← safe_bytes (a_address address);
  mapR (λ r, proto_deserialize (ur_raw r)) (List.filter (λ r, bool_decide (ur_address r = bytes)) (utxo_rows s)).
Definition utxo_for_addresses (s : Store) (addresses : list Address) : RgResult (list UtxoEntry) :=
  foldR (λ res a, utxos ← query_utxo_address s a; Ok (res ++ utxos)) [] addresses.
Definition get_balance (s : Store) (address : Address) : RgResult (option Z) :=
  utxos ← query_utxo_address s address;
  let balance := i64_sum (omap (λ u, ue_output u ≫= opt_amount) utxos) in
  Ok (if 0 <? balance then Some balance else None).
Definition utxo_all_debug (s : Store) : RgResult (list UtxoEntry) :=
  mapR (λ r, proto_deserialize (ur_raw r)) (utxo_rows s).
Definition utxo_scroll (s : Store) (limit offset : Z) : RgResult (list UtxoEntry) :=
  mapR (λ r, proto_deserialize (ur_raw r)) (sql_limit limit offset (utxo_rows s)).
Definition utxo_filter_time (s : Store) (start end_ : Z) : RgResult (list UtxoEntry) :=
  mapR (λ r, proto_deserialize (ur_raw r))
    (List.filter (λ r, (start <=? ur_time r) && (ur_time r <? end_)) (utxo_rows s)).
(** [UtxoStore::code_utxo]: the address is not part of the query. *)
Definition code_utxo (s : Store) (_address : Address) (has_code : bool) : RgResult (option UtxoEntry) :=
  match List.filter (λ r, Bool.eqb (ur_has_code r) has_code) (utxo_rows s) with
  | r :: _ => Some <$> proto_deserialize (ur_raw r)
  | [] => Ok None
  end.
Definition utxo_used (s : Store) (u : UtxoId) : RgResult (option (Hash * Z)) :=
  bytes ← opt_Hash_safe_bytes (u_transaction_hash u);
  Ok ((λ e, (Hash_new (er_child_transaction_hash e), er_child_input_index e))
        <$> st_edge s !! (bytes, u_output_index u)).

(** ** Queries by address *)

Definition address_rows (s : Store) (address : bytes) (incoming : option bool) : list (bytes * AddressTransactionRow) :=
  omap (λ kr : (bytes * bytes) * AddressTransactionRow,
    if bool_decide (kr.1.1 = address) &&
       match incoming with Some b => Bool.eqb (at_incoming kr.2) b | None => true end
    then Some (kr.1.2, kr.2) else None) (map_to_list (st_address_transaction s)).
Definition load_unrejected (s : Store) (hashes : list bytes) : RgResult (list Transaction) :=
  foldR (λ res h, m ← query_maybe_transaction s (Hash_new h);
                  Ok (match m with Some (tx, None) => res ++ [tx] | _ => res end)) [] hashes.
Definition get_all_tx_for_address (s : Store) (address : Address) (limit offset : Z) : RgResult (list Transaction) :=
  bytes ← safe_bytes (a_address address);
  load_unrejected s (fst <$> sql_limit limit offset
    (order_by_desc (λ kr, at_time kr.2) (address_rows s bytes None))).
Definition get_filter_tx_for_address (s : Store) (address : Address) (limit offset : Z) (incoming : bool) :
    RgResult (list Transaction) :=
  bytes ← safe_bytes (a_address address);
  load_unrejected s (fst <$> sql_limit limit offset
    (order_by_desc (λ kr, at_time kr.2) (address_rows s bytes (Some incoming)))).
Definition get_count_filter_tx_for_address (s : Store) (address : Address) (incoming : bool) : RgResult Z :=
  bytes ← safe_bytes (a_address address); Ok (Z.of_nat (length (address_rows s bytes (Some incoming)))).

(** ** Updates *)

Definition delete_utxo (u : UtxoId) : DB unit :=
  h ← lift (safe_get (u_transaction_hash u));
  bytes ← lift (Hash_safe_bytes h);
  modify (with_utxo_table (delete (bytes, u_output_index u))).

Definition insert_transaction_edge (u : UtxoId) (address : Address) (child : Hash) (child_input_index time : Z) :
    DB unit :=
  hash ← lift (safe_get_msg (u_transaction_hash u) "No transaction hash on utxo_id" ≫= Hash_vec);
  child_hash ← lift (Hash_safe_bytes child);
  address ← lift (safe_bytes (a_address address));
  modify (with_edge_table (insert (hash, u_output_index u)
    {| er_address := address; er_child_transaction_hash := child_hash;
       er_child_input_index := child_input_index; er_time := time |})).

(** The rejection reason is stored as its JSON text. *)
Definition insert_transaction_raw (tx : Transaction) (time : Z) (accepted : bool)
    (rejection_reason : option ErrorInfo) : DB unit :=
  hash_vec ← lift (hash_bytes tx);
  modify (with_transactions (insert hash_vec
    {| tr_raw := encode_to_vec tx; tr_time := time;
       tr_rejection_reason := (λ x, String.list_byte_of_string (json_or x)) <$> rejection_reason;
       tr_accepted := accepted; tr_is_test := Transaction_is_test tx |})).

Definition insert_address_transaction_single (address : Address) (tx_hash : Hash) (time : Z) (incoming : bool) :
    DB unit :=
  hash_vec ← lift (Hash_safe_bytes tx_hash);
  address_vec ← lift (safe_bytes (a_address address));
  modify (with_address_table (insert (address_vec, hash_vec) {| at_time := time; at_incoming := incoming |})).

Definition insert_address_transaction (tx : Transaction) : DB unit :=
  addr_outgoing ← lift (mapR Input_address (tx_inputs tx));
  addr_incoming ← lift (mapR (λ o, safe_get_msg (o_address o)
      "No address on output for insert_address_transaction") (tx_outputs tx));
  let hash := hash_or tx in
  time ← lift (safe_get_msg (tx_struct_metadata tx ≫= sm_time)
      "No time on transaction for insert_address_transaction");
  _ ← iterM (λ a, insert_address_transaction_single a hash time true)
        (elements (list_to_set addr_incoming : gset Address));
  iterM (λ a, insert_address_transaction_single a hash time false)
        (elements (list_to_set addr_outgoing : gset Address)).

Definition insert_input_edge (tx : Transaction) (time : Z) (ix : Z * Input) : DB unit :=
  match i_utxo_id ix.2 with
  | Some utxo =>
      a ← lift (Input_address ix.2);
      insert_transaction_edge utxo a (hash_or tx) ix.1 time
  | None => mret tt
  end.
Definition insert_transaction_indexes (tx : Transaction) (time : Z) : DB unit :=
  _ ← iterM (insert_input_edge tx time) (indexed (tx_inputs tx));
  insert_address_transaction tx.

(** The row [insert_utxo] writes, under its key. *)
Definition utxo_row (u : UtxoEntry) : RgResult ((bytes * Z) * UtxoRow) :=
  id ← safe_get_msg (ue_utxo_id u) "missing utxo id";
  hash ← opt_Hash_safe_bytes (u_transaction_hash id);
  output ← safe_get_msg (ue_output u) "UTxo entry insert missing output";
  addr ← UtxoEntry_address u;
  address ← safe_bytes (a_address addr);
  Ok ((hash, u_output_index id),
      {| ur_address := address; ur_output := encode_to_vec output; ur_time := ue_time u;
         ur_amount := opt_amount output; ur_raw := encode_to_vec u;
         ur_has_code := is_ok (validate_deploy_code output) |}).
Definition insert_utxo (u : UtxoEntry) : DB unit :=
  kr ← lift (utxo_row u);
  existing ← gets (λ s, st_utxo s !! kr.1);
  match existing with
  | Some _ => lift (Err (error_message InternalDatabaseError unique_violation))
  | None => modify (with_utxo_table (insert kr.1 kr.2))
  end.

Definition insert_transaction (tx : Transaction) (time : Z) (accepted : bool)
    (rejection_reason : option ErrorInfo) (update_utxo : bool) : DB unit :=
  _ ← insert_transaction_raw tx time accepted rejection_reason;
  _ ← (if update_utxo then iterM insert_utxo (from_transaction tx time) else mret tt);
  insert_transaction_indexes tx time.

(** ** Observations (data/src/observation_store.rs) *)

Definition observation_rows (s : Store) : list ObservationRow := snd <$> map_to_list (st_observation s).
Definition count_total_observations (s : Store) : Z := Z.of_nat (size (st_observation s)).
Definition get_pk_observations (s : Store) (node_pk : PublicKey) (limit : Z) : RgResult (list Transaction) :=
  bytes ← PublicKey_bytes node_pk;
  observation_rows s |> List.filter (λ r, bool_decide (obr_public_key r = bytes))
  |> order_by_desc obr_height |> sql_limit limit 0 |> mapR (λ r, proto_deserialize (obr_raw r)).
Definition select_latest_observation (s : Store) (peer_key : PublicKey) : RgResult (option Transaction) :=
  head <$> get_pk_observations s peer_key 1.
Definition recent_observation (s : Store) (limit : option Z) : RgResult (list Transaction) :=
  observation_rows s |> order_by_desc obr_height |> sql_limit (default 10 limit) 0
  |> mapR (λ r, proto_deserialize (obr_raw r)).
Definition query_time_observation (s : Store) (start_time end_time : Z) : RgResult (list (Transaction * Z)) :=
  observation_rows s |> List.filter (λ r, (start_time <=? obr_time r) && (obr_time r <=? end_time))
  |> mapR (λ r, t ← proto_deserialize (obr_raw r); Ok (t, obr_time r)).
Definition query_observation (s : Store) (h : Hash) : RgResult (option Transaction) :=
  hash ← Hash_safe_bytes h;
  match st_observation s !! hash with
  | Some row => Some <$> proto_deserialize (obr_raw row)
  | None => Ok None
  end.
Definition insert_observation (observation_tx : Transaction) (time : Z) (tx_hash : Hash) (height : Z)
    (public_key : PublicKey) : DB unit :=
  hash ← lift (Hash_safe_bytes tx_hash);
  pk ← lift (safe_bytes (pk_bytes public_key));
  modify (with_observation_table (insert hash
    {| obr_raw := encode_to_vec observation_tx; obr_public_key := pk; obr_time := time; obr_height := height |})).

(** The key of an edge; the clock of [insert_observation_edge] is an argument. *)
Definition edge_key (proof : ObservationProof) : RgResult ((bytes * bytes) * (bytes * bytes)) :=
  let merkle := op_merkle_proof proof in
  root ← safe_get (merkle ≫= mp_root) ≫= Hash_safe_bytes;
  leaf_hash ← opt_Hash_safe_bytes (merkle ≫= mp_leaf);
  obs_hash ← opt_Hash_safe_bytes (op_observation_hash proof);
  metadata ← safe_get (op_metadata proof);
  observed_hash ← opt_Hash_safe_bytes (om_observed_hash metadata);
  Ok ((obs_hash, leaf_hash), (root, observed_hash)).
Definition insert_observation_edge (now : Z) (proof : option ObservationProof) : DB unit :=
  proof ← lift (safe_get proof);
  key ← lift (edge_key proof);
  modify (with_observation_edges (insert key {| oer_edge := encode_to_vec proof; oer_time := now |})).
Definition select_observation_edge (s : Store) (observed_hash : Hash) : RgResult (list ObservationProof) :=
  bytes ← Hash_safe_bytes observed_hash;
  mapR (λ kr : ((list u8 * list u8) * (list u8 * list u8)) * ObservationEdgeRow, proto_deserialize (oer_edge kr.2))
    (List.filter (λ kr, bool_decide (kr.1.2.2 = bytes)) (map_to_list (st_observation_edge s))).
Definition query_time_observation_edge (s : Store) (start end_ : Z) : RgResult (list (ObservationProof * Z)) :=
  mapR (λ r, p ← proto_deserialize (oer_edge r); Ok (p, oer_time r))
    (List.filter (λ r, (start <=? oer_time r) && (oer_time r <=? end_)) (snd <$> map_to_list (st_observation_edge s))).

(** The Merkle walk of [build_observation_proofs] can diverge; [None] is that. *)
Definition insert_observation_and_edges (now : Z) (tx : Transaction) (s : Store) : option (RgResult unit * Store) :=
  let args :=
    time ← metadata_time tx;
    height ← Transaction_height tx;
    observation ← Transaction_observation tx;
    utxo_id ← safe_get_msg (ob_parent_id observation) "Missing parent id";
    input ← safe_get_msg (input_of tx utxo_id) "Missing input";
    input_proof ← safe_get_msg (i_proof input !! 0%nat) "Missing input proof";
    pk ← safe_get_msg (pf_public_key input_proof) "Missing public key";
    Ok (time, height, observation, input_proof, pk) in
  match args with
  | Ok (time, height, observation, input_proof, pk) =>
      match insert_observation tx time (hash_or tx) height pk s with
      | (Ok _, s1) =>
          proofs ← Observation_build_observation_proofs observation (hash_or tx) input_proof;
          Some ((ps ← lift proofs; iterM (λ p, insert_observation_edge now (Some p)) ps) s1)
      | (Err e, s1) => Some (Err e, s1)
      | (Panic, s1) => Some (Panic, s1)
      end
  | Err e => Some (Err e, s)
  | Panic => Some (Panic, s)
  end.

(** * Properties *)

(** ** UTXO rows *)

Lemma insert_utxo_Ok u s s' :
  insert_utxo u s = (Ok tt, s') ↔
  ∃ k r, utxo_row u = Ok (k, r) ∧ st_utxo s !! k = None ∧ s' = with_utxo_table (insert k r) s.
Proof.
unfold insert_utxo. rewrite M_bind_Ok. setoid_rewrite lift_Ok. split.
- intros ([k r] & s1 & (Hr & ->) & E). apply M_bind_Ok in E as (e & s1 & E & E'). injection E as <- <-.
  simpl in E'. destruct (st_utxo s !! k) eqn:Hk; [done|]. injection E' as <-. eauto.
- intros (k & r & Hr & Hk & ->). eexists _, _. split; [done|]. apply M_bind_Ok.
  eexists _, _. split; [done|]. simpl. by rewrite Hk.
Qed.

Lemma with_utxo_table_id s : with_utxo_table (λ m, ∅ ∪ m) s = s.
Proof. destruct s. unfold with_utxo_table. simpl. by rewrite map_empty_union. Qed.

Lemma insert_utxos_Ok us s s' :
  iterM insert_utxo us s = (Ok tt, s') ↔
  ∃ krs, mapR utxo_row us = Ok krs ∧ NoDup (fst <$> krs) ∧
    Forall (λ kr, st_utxo s !! kr.1 = None) krs ∧
    s' = with_utxo_table (λ m, list_to_map krs ∪ m) s.
Proof.
revert s. induction us as [|u us IH]; intros s.
{ split.
  - intros [= <-]. exists []. split_and!; [done|constructor|constructor|]. symmetry. apply with_utxo_table_id.
  - intros (krs & [= <-] & _ & _ & ->). f_equal. symmetry. apply with_utxo_table_id. }
rewrite iterM_cons_Ok. setoid_rewrite insert_utxo_Ok. setoid_rewrite IH. cbn [mapR]. split.
- intros (s1 & (k & r & Hr & Hk & ->) & krs & Hm & Hnd & Hf & ->). exists ((k, r) :: krs).
  rewrite Hr. rg_step. rewrite Hm. rg_step.
  assert (k ∉ krs.*1) as Hn.
  { intros ([k' r'] & -> & Hin)%list_elem_of_fmap. rewrite Forall_forall in Hf. specialize (Hf _ Hin).
    simpl in Hf. by rewrite lookup_insert_eq in Hf. }
  split_and!; [done|by constructor| |].
  + constructor; [done|]. eapply Forall_impl; [exact Hf|]. intros [k' r']. simpl.
    rewrite lookup_insert_None. naive_solver.
  + unfold with_utxo_table. simpl. f_equal. rewrite <-insert_union_l, insert_union_r; [done|].
    by apply not_elem_of_list_to_map_1.
- intros (krs0 & E & Hnd & Hf & ->). inv_Ok. subst krs0. destruct x as [k r]. rename x0 into krs.
  apply NoDup_cons in Hnd as [Hn Hnd]. apply Forall_cons in Hf as [Hk Hf]. simpl in Hn, Hk.
  eexists. split; [eauto 6|]. exists krs. split_and!; [done|done| |].
  + apply Forall_forall. intros [k' r'] Hin. simpl. rewrite lookup_insert_ne.
    * rewrite Forall_forall in Hf. by apply (Hf (k', r')).
    * intros <-. apply Hn. apply list_elem_of_fmap. by exists (k, r').
  + unfold with_utxo_table. simpl. f_equal. rewrite <-insert_union_l, insert_union_r; [done|].
    by apply not_elem_of_list_to_map_1.
Qed.

Lemma utxo_row_output o h i time :
  utxo_row (from_output_new o h i time) =
  (hash ← Hash_safe_bytes h;
   addr ← safe_get_msg (o_address o) "Missing address from utxo entry";
   address ← safe_bytes (a_address addr);
   Ok ((hash, i), {| ur_address := address; ur_output := encode_to_vec o; ur_time := time;
     ur_amount := opt_amount o; ur_raw := encode_to_vec (from_output_new o h i time);
     ur_has_code := is_ok (validate_deploy_code o) |})).
Proof. reflexivity. Qed.

Lemma utxo_row_from_transaction tx time h krs i k r :
  hash_bytes tx = Ok h → mapR utxo_row (from_transaction tx time) = Ok krs → krs !! i = Some (k, r) →
  k = (h, Z.of_nat i) ∧ ∃ o, tx_outputs tx !! i = Some o ∧ ur_amount r = opt_amount o ∧
    ur_raw r = encode_to_vec (from_output_new o (hash_or tx) (Z.of_nat i) time).
Proof.
intros Hh Hm Hi. apply mapR_Ok in Hm. eapply Forall2_lookup_r in Hm as (u & Hu & Hr); [|exact Hi].
rewrite from_transaction_lookup in Hu. apply fmap_Some in Hu as (o & Ho & ->).
rewrite utxo_row_output in Hr. change (Hash_safe_bytes (hash_or tx)) with (hash_bytes tx) in Hr.
rewrite Hh in Hr. inv_Ok. simplify_eq. eauto.
Qed.

(** ** Frames: what an update leaves alone *)

Definition same_ledger (s s' : Store) : Prop :=
  st_utxo s' = st_utxo s ∧ st_transactions s' = st_transactions s.

#[local] Instance same_ledger_preorder : PreOrder same_ledger.
Proof. split; [by intros s; split|]. intros s1 s2 s3 [] []. split; congruence. Qed.

Lemma insert_address_transaction_frame tx s s' :
  insert_address_transaction tx s = (Ok tt, s') → same_ledger s s' ∧ st_edge s' = st_edge s.
Proof.
unfold insert_address_transaction. intros H. inv_M.
assert (∀ inc l hash time s s', iterM (λ a, insert_address_transaction_single a hash time inc) l s = (Ok tt, s') →
  same_ledger s s' ∧ st_edge s' = st_edge s) as Hs.
{ intros inc l hash time s1 s2. apply (iterM_rel (λ s s', same_ledger s s' ∧ st_edge s' = st_edge s)).
  - by intros.
  - intros ??? [] []. split; [by etrans|congruence].
  - intros a s3 s4 _ H'. unfold insert_address_transaction_single in H'. inv_M. done. }
match goal with H1 : iterM _ _ ?a = (Ok tt, ?b), H2 : iterM _ _ ?b = (Ok tt, ?c) |- _ =>
  apply Hs in H1 as []; apply Hs in H2 as [] end.
split; [by etrans|congruence].
Qed.

Lemma insert_transaction_indexes_frame tx time s s' :
  insert_transaction_indexes tx time s = (Ok tt, s') → same_ledger s s'.
Proof.
unfold insert_transaction_indexes. intros H. inv_M. etrans; [|by eapply insert_address_transaction_frame].
eapply (iterM_rel same_ledger); [done|by intros ?????; etrans| |done].
intros [i x] s1 s2 _ H1. unfold insert_input_edge in H1. destruct (i_utxo_id _); [|by inv_M].
unfold insert_transaction_edge in H1. inv_M. done.
Qed.

(** ** Inserting a transaction *)

Lemma insert_transaction_Ok tx time acc s s' :
  insert_transaction tx time acc None true s = (Ok tt, s') →
  ∃ h krs, hash_bytes tx = Ok h ∧ mapR utxo_row (from_transaction tx time) = Ok krs ∧
    Forall (λ kr, st_utxo s !! kr.1 = None) krs ∧ NoDup (fst <$> krs) ∧
    st_utxo s' = list_to_map krs ∪ st_utxo s ∧
    st_transactions s' = <[h := {| tr_raw := encode_to_vec tx; tr_time := time; tr_rejection_reason := None;
      tr_accepted := acc; tr_is_test := Transaction_is_test tx |}]> (st_transactions s).
Proof.
unfold insert_transaction, insert_transaction_raw. intros H. inv_M.
match goal with H : iterM insert_utxo _ _ = _ |- _ => apply insert_utxos_Ok in H as (krs & Hm & Hnd & Hf & ->) end.
match goal with H : insert_transaction_indexes _ _ _ = _ |- _ => apply insert_transaction_indexes_frame in H as [Hu Ht] end.
eexists _, krs. split_and!; [done|done|exact Hf|done|exact Hu|exact Ht].
Qed.

Lemma hash_bytes_safe (tx : Transaction) h : hash_bytes tx = Ok h ↔ Hash_safe_bytes (hash_or tx) = Ok h.
Proof. done. Qed.

Section lawful_store.
Context {tx_laws : ProtoLaws Transaction} {ue_laws : ProtoLaws UtxoEntry}.

(** A transaction stored with its outputs can be read back: after a
    successful [insert_transaction] the transaction is found under its hash
    without a rejection, each of its outputs is a valid UTXO, none of them was
    one before, and no UTXO of another transaction changed. *)
Theorem insert_transaction_stored tx time acc s s' :
  insert_transaction tx time acc None true s = (Ok tt, s') →
  query_maybe_transaction s' (hash_or tx) = Ok (Some (tx, None)) ∧
  (∀ i, (i < length (tx_outputs tx))%nat →
     query_utxo_id_valid s' (hash_or tx) (Z.of_nat i) = Ok true ∧
     query_utxo_id_valid s (hash_or tx) (Z.of_nat i) = Ok false) ∧
  (∀ h b i, Hash_safe_bytes h = Ok b → hash_bytes tx ≠ Ok b →
     query_utxo_id_valid s' h i = query_utxo_id_valid s h i).
Proof using tx_laws.
intros H. apply insert_transaction_Ok in H as (hb & krs & Hh & Hm & Hf & Hnd & Hu & Ht).
split_and!.
- unfold query_maybe_transaction. rewrite (proj1 (hash_bytes_safe tx hb) Hh). rg_step.
  rewrite Ht, lookup_insert_eq. cbn [tr_raw tr_rejection_reason]. unfold proto_deserialize.
  rewrite proto_decode_encode. done.
- intros i Hi. unfold query_utxo_id_valid. rewrite (proj1 (hash_bytes_safe tx hb) Hh). rg_step.
  pose proof (mapR_length _ _ _ _ _ Hm) as Hlen. unfold from_transaction in Hlen.
  rewrite length_fmap, indexed_length in Hlen.
  destruct (lookup_lt_is_Some_2 krs i) as ([k r] & Hk); [lia|].
  destruct (utxo_row_from_transaction tx time hb krs i k r Hh Hm Hk) as [-> _].
  rewrite Forall_lookup in Hf. specialize (Hf _ _ Hk). simpl in Hf.
  rewrite Hu, lookup_union, Hf. rewrite (elem_of_list_to_map_1 krs _ r Hnd) by (by eapply list_elem_of_lookup_2).
  done.
- intros h b i Hb Hne. unfold query_utxo_id_valid. rewrite Hb. rg_step. rewrite Hu, lookup_union.
  rewrite (not_elem_of_list_to_map_1 krs); [by destruct (st_utxo s !! (b, i))|].
  intros ([k r] & E & Hin)%list_elem_of_fmap. apply list_elem_of_lookup in Hin as (j & Hj).
  destruct (utxo_row_from_transaction tx time hb krs j k r Hh Hm Hj) as [-> _]. simpl in E. naive_solver.
Qed.

(** The write is not atomic. When the first output of a transaction is
    already in the UTXO table under the hash the transaction claims,
    [insert_transaction] fails with a database error and leaves the UTXO table
    alone, but the [transactions] row under that hash has been replaced. *)
Theorem insert_conflict_overwrites tx time acc s h o a ab r0 :
  hash_bytes tx = Ok h → head (tx_outputs tx) = Some o → o_address o = Some a →
  safe_bytes (a_address a) = Ok ab → st_utxo s !! (h, 0) = Some r0 →
  ∃ s', insert_transaction tx time acc None true s =
          (Err (error_message InternalDatabaseError unique_violation), s') ∧
    query_transaction s' h = Ok (Some tx) ∧ st_utxo s' = st_utxo s.
Proof using tx_laws.
intros Hh Ho Ha Hab Hr. destruct (tx_outputs tx) as [|o' os] eqn:Eo; [done|]. injection Ho as ->.
eexists. split_and!.
- unfold insert_transaction. erewrite M_bind_step; cycle 1.
  { unfold insert_transaction_raw. erewrite M_bind_step by (unfold lift; by rewrite Hh). reflexivity. }
  apply M_bind_fail. unfold from_transaction, indexed. rewrite Eo, imap_cons, fmap_cons. cbn [iterM fst snd].
  apply M_bind_fail. unfold insert_utxo. erewrite M_bind_step; cycle 1.
  { unfold lift. rewrite utxo_row_output, (proj1 (hash_bytes_safe tx h) Hh). rg_step. rewrite Ha.
    cbn [safe_get_msg ok_or]. rg_step. rewrite Hab. reflexivity. }
  erewrite M_bind_step by reflexivity. cbn [fst with_transactions st_utxo Z.of_nat].
  change (Z.of_nat 0) with 0. rewrite Hr. reflexivity.
- unfold query_transaction. cbn [with_transactions st_transactions]. rewrite lookup_insert_eq. cbn [tr_raw].
  unfold proto_deserialize. by rewrite proto_decode_encode.
- done.
Qed.

(** ** Balances *)

(** Every row of the UTXO table was written by [insert_utxo]. *)
Definition utxo_table_wf (s : Store) : Prop :=
  ∀ k r, st_utxo s !! k = Some r → ∃ u, utxo_row u = Ok (k, r).

Lemma insert_transaction_wf tx time acc s s' :
  utxo_table_wf s → insert_transaction tx time acc None true s = (Ok tt, s') → utxo_table_wf s'.
Proof.
intros Hs H. apply insert_transaction_Ok in H as (hb & krs & Hh & Hm & Hf & Hnd & Hu & _).
intros k r Hk. rewrite Hu, lookup_union_Some_raw in Hk. destruct Hk as [Hk|[_ Hk]]; [|by apply Hs].
apply elem_of_list_to_map_2, list_elem_of_lookup in Hk as (i & Hi). apply mapR_Ok in Hm.
eapply Forall2_lookup_r in Hm as (u & _ & Hu'); [|exact Hi]. eauto.
Qed.

Lemma delete_utxo_Ok u s s' :
  delete_utxo u s = (Ok tt, s') ↔
  ∃ b, opt_Hash_safe_bytes (u_transaction_hash u) = Ok b ∧ s' = with_utxo_table (delete (b, u_output_index u)) s.
Proof.
unfold delete_utxo, safe_get, opt_Hash_safe_bytes. split.
- intros H. inv_M. inv_Ok. match goal with H : u_transaction_hash u = _ |- _ => rewrite H end. rg_step. eauto.
- intros (b & Hb & ->). destruct (u_transaction_hash u) as [h|]; [|done]. simpl in Hb.
  unfold mbind, M_bind, lift. simpl. by rewrite Hb.
Qed.

Lemma delete_utxo_wf u s s' : utxo_table_wf s → delete_utxo u s = (Ok tt, s') → utxo_table_wf s'.
Proof.
intros Hs (b & _ & ->)%delete_utxo_Ok k r Hk. simpl in Hk. apply lookup_delete_Some in Hk as [_ Hk]. by apply Hs.
Qed.

Lemma utxo_row_raw u k r : utxo_row u = Ok (k, r) →
  ur_raw r = encode_to_vec u ∧ ur_amount r = ue_output u ≫= opt_amount.
Proof.
unfold utxo_row. intros H. inv_Ok. simplify_eq. split; [done|]. unfold safe_get_msg in *. inv_Ok.
match goal with H : ue_output u = Some _ |- _ => rewrite H end. done.
Qed.

(** [get_balance] is the sum of the amounts of the UTXO rows of the address.
    On a table written by [insert_utxo] it never fails for an address with
    bytes, it is the [i64] sum of the [amount] column over those rows, and a sum
    that is not positive is reported as absent; inserting a transaction and
    deleting a UTXO keep the table such. *)
Theorem get_balance_correct s a ab :
  utxo_table_wf s → safe_bytes (a_address a) = Ok ab →
  (let z := i64_sum (omap ur_amount (List.filter (λ r, bool_decide (ur_address r = ab)) (utxo_rows s))) in
   get_balance s a = Ok (if 0 <? z then Some z else None)) ∧
  (∀ tx time acc s', insert_transaction tx time acc None true s = (Ok tt, s') → utxo_table_wf s') ∧
  (∀ u s', delete_utxo u s = (Ok tt, s') → utxo_table_wf s').
Proof using ue_laws.
intros Hwf Ha. split_and!; [|intros; by eapply insert_transaction_wf|intros; by eapply delete_utxo_wf].
unfold get_balance, query_utxo_address. rewrite Ha. rg_step.
set (rows := List.filter _ _).
assert (Forall (λ r, ∃ u, proto_deserialize (ur_raw r) = Ok u ∧ ur_amount r = ue_output u ≫= opt_amount) rows) as Hrows.
{ apply Forall_forall. intros r Hr. apply list_elem_of_In, List.filter_In in Hr as [Hr _].
  apply list_elem_of_In, list_elem_of_fmap in Hr as ([k r'] & -> & Hk%elem_of_map_to_list).
  destruct (Hwf _ _ Hk) as (u & [Hraw Ham]%utxo_row_raw). exists u. simpl. rewrite Hraw. split; [|done].
  unfold proto_deserialize. by rewrite proto_decode_encode. }
apply Forall_choose in Hrows as (us & Hus).
assert (mapR (λ r, proto_deserialize (ur_raw r)) rows = Ok us) as ->.
{ apply mapR_Ok. eapply Forall2_impl; [exact Hus|naive_solver]. }
rg_step. do 2 f_equal.
assert (omap (λ u, ue_output u ≫= opt_amount) us = omap ur_amount rows) as ->; [|done].
clear -Hus. induction Hus as [|r u rows us [_ E] _ IH]; [done|]. cbn. rewrite IH, E. done.
Qed.

End lawful_store.

End store.
