(* ===== verification/Observation.v ===== *)
(** * Forming observations

    src/core/observation.rs: the [ObservationBuffer] of a node collects what it
    has observed and, at every tick, signs it into an observation transaction that
    spends the previous one: the node's own chain of observations.  The proofs of
    the observation go to whoever asked for them.

    The clock and the salt of the new transaction are arguments; a sender is a
    number, and whether its receiver still exists is a parameter.  The walk of
    [MerkleTree::proof] can diverge, so a computation here answers [None] when the
    code does not return. *)

From stdpp Require Import base list gmap strings.
From S2P Require Import Prelude Structs Interfaces Schema Merkle Transaction Keys Builder Store Wire.
#[local] Open Scope Z_scope.
#[local] Open Scope redgold_scope.

(** ** Computations that may diverge *)

Definition MD (S E A : Type) : Type := S → option (result E A * S).

Section diverging.
Context {S E : Type}.

#[global] Instance MD_ret : MRet (MD S E) := λ A a s, Some (Ok a, s).
#[global] Instance MD_bind : MBind (MD S E) := λ A B f m s,
  match m s with
  | Some (Ok a, s') => f a s'
  | Some (Err e, s') => Some (Err e, s')
  | Some (Panic, s') => Some (Panic, s')
  | None => None
  end.
Definition dlift {A} (r : result E A) : MD S E A := λ s, Some (r, s).
Definition dopt {A} (r : option (result E A)) : MD S E A := λ s, r ≫= λ r, Some (r, s).
Definition dgets {A} (f : S → A) : MD S E A := λ s, Some (Ok (f s), s).
Definition dmodify (f : S → S) : MD S E unit := λ s, Some (Ok tt, f s).
Fixpoint diter {A} (f : A → MD S E unit) (l : list A) : MD S E unit :=
  match l with [] => mret tt | x :: l => _ ← f x; diter f l end.

Lemma MD_bind_Ok {A B} (m : MD S E A) (f : A → MD S E B) s b s' :
  (m ≫= f) s = Some (Ok b, s') ↔ ∃ a s1, m s = Some (Ok a, s1) ∧ f a s1 = Some (Ok b, s').
Proof. unfold mbind, MD_bind. destruct (m s) as [[[] ?]|]; naive_solver. Qed.
Lemma MD_bind_step {A B} (m : MD S E A) (f : A → MD S E B) s a s1 :
  m s = Some (Ok a, s1) → (m ≫= f) s = f a s1.
Proof. unfold mbind, MD_bind. by intros ->. Qed.
Lemma dopt_Ok {A} (r : option (result E A)) s a s' : dopt r s = Some (Ok a, s') → r = Some (Ok a) ∧ s' = s.
Proof. unfold dopt. destruct r as [r|]; [|done]. simpl. naive_solver. Qed.
End diverging.

(** What an [Ok] answer says of the parts. *)
Ltac inv_MD :=
repeat match goal with
| H : (_ ≫= _) _ = Some (Ok _, _) |- _ => apply MD_bind_Ok in H as (? & ? & ? & ?)
| H : dlift _ _ = Some (Ok _, _) |- _ => injection H as ? ?; subst
| H : dopt _ _ = Some (Ok _, _) |- _ => apply dopt_Ok in H as [? ?]; subst
| H : dgets _ _ = Some (Ok _, _) |- _ => injection H as ? ?; subst
| H : dmodify _ _ = Some (Ok _, _) |- _ => injection H as ? ?; subst
| H : mret _ _ = Some (Ok _, _) |- _ => injection H as ? ?; subst
| u : unit |- _ => destruct u
end.

(** ** The buffer *)

Definition ANCESTOR_MERKLE_ROOT_LENGTH : nat := 1000.

Record ObservationBuffer := {
  bf_data : list ObservationMetadata;
  bf_latest : Transaction;
  bf_ancestors : list Hash;
  bf_subscribers : gmap Hash nat;
  bf_store : Store;
  bf_delivered : list (nat * ObservationProof) }.

Definition bf_with_data (d : list ObservationMetadata) (b : ObservationBuffer) : ObservationBuffer :=
  {| bf_data := d; bf_latest := bf_latest b; bf_ancestors := bf_ancestors b;
     bf_subscribers := bf_subscribers b; bf_store := bf_store b; bf_delivered := bf_delivered b |}.
Definition bf_with_latest (t : Transaction) (b : ObservationBuffer) : ObservationBuffer :=
  {| bf_data := bf_data b; bf_latest := t; bf_ancestors := bf_ancestors b;
     bf_subscribers := bf_subscribers b; bf_store := bf_store b; bf_delivered := bf_delivered b |}.
Definition bf_with_ancestors (l : list Hash) (b : ObservationBuffer) : ObservationBuffer :=
  {| bf_data := bf_data b; bf_latest := bf_latest b; bf_ancestors := l;
     bf_subscribers := bf_subscribers b; bf_store := bf_store b; bf_delivered := bf_delivered b |}.
Definition bf_with_subscribers (m : gmap Hash nat) (b : ObservationBuffer) : ObservationBuffer :=
  {| bf_data := bf_data b; bf_latest := bf_latest b; bf_ancestors := bf_ancestors b;
     bf_subscribers := m; bf_store := bf_store b; bf_delivered := bf_delivered b |}.
Definition bf_with_store (s : Store) (b : ObservationBuffer) : ObservationBuffer :=
  {| bf_data := bf_data b; bf_latest := bf_latest b; bf_ancestors := bf_ancestors b;
     bf_subscribers := bf_subscribers b; bf_store := s; bf_delivered := bf_delivered b |}.
Definition bf_deliver (s : nat) (p : ObservationProof) (b : ObservationBuffer) : ObservationBuffer :=
  {| bf_data := bf_data b; bf_latest := bf_latest b; bf_ancestors := bf_ancestors b;
     bf_subscribers := bf_subscribers b; bf_store := bf_store b; bf_delivered := bf_delivered b ++ [(s, p)] |}.

Section buffer.
Context {host : Host} {crypto : Crypto} {secp : Secp} {sql : Sql}.
Context {ptx : Proto Transaction} {pue : Proto UtxoEntry} {po : Proto Output} {pei : Proto ErrorInfo}.
Context {pom : Proto ObservationMetadata} {pop : Proto ObservationProof} {jei : Json ErrorInfo}.

(** [node_config.network] and [node_config.words().default_kp()]. *)
Context (network : NetworkEnvironment) (kp : KeyPair).

Notation B := (MD ObservationBuffer ErrorInfo).

Definition on_observation_store (f : Store → option (RgResult unit * Store)) : B unit := λ b,
  '(r, s) ← f (bf_store b); Some (r, bf_with_store s b).

(** [process_incoming]: the latest sender for a hash replaces an earlier one. *)
Definition process_incoming (om : ObservationMetadata) (sender : nat) (b : ObservationBuffer) : ObservationBuffer :=
  match om_observed_hash om with
  | Some h => bf_with_data (bf_data b ++ [om]) (bf_with_subscribers (<[h := sender]> (bf_subscribers b)) b)
  | None => b
  end.

(** The root of the last thousand observations, once there are that many. *)
Definition ancestor_roots : B (list Hash) :=
  ancestors ← dgets bf_ancestors;
  if bool_decide (length ancestors = ANCESTOR_MERKLE_ROOT_LENGTH) then
    tree ← dopt (build_root ancestors);
    _ ← dmodify (bf_with_ancestors []);
    mret [mt_root tree]
  else mret [].

(** The transaction [form_observation] signs. *)
Definition observation_tx (salt now : Z) (o : Observation) (height : Z) (address : Address) (utxo_e : UtxoEntry) :
    Transaction :=
  tb_transaction (with_input (to_input utxo_e)
    (with_observation o height address (TransactionBuilder_new network salt now))).

(** [gossip] is the answer of [gossip_req]; the final log line is left out. *)
Definition form_observation (salt now : Z) (gossip : RgResult unit) : B (list ObservationProof) :=
  observations ← dgets bf_data;
  if bool_decide (observations = []) then mret [] else
  _ ← dmodify (bf_with_data []);
  tree ← dopt (build_root (hash_or <$> observations));
  let root := mt_root tree in
  _ ← dlift (Hash_safe_bytes root);
  latest ← dgets bf_latest;
  h ← dlift (expect (Transaction_height latest));
  utxo_id ← dlift (observation_as_utxo_id latest);
  roots ← ancestor_roots;
  let o := {| ob_merkle_root := Some root; ob_observations := observations; ob_parent_id := Some utxo_id;
              ob_ancestor_merkle_roots := roots |} in
  utxo_e ← dlift (observation_output_as latest);
  address ← dlift (expect (PublicKey_address (KeyPair_public_key kp)));
  signed_tx ← dlift (sign kp (observation_tx salt now o (i64_add h 1) address utxo_e));
  _ ← on_observation_store (insert_observation_and_edges now signed_tx);
  stored ← dgets (λ b, query_observation (bf_store b) (hash_or signed_tx));
  stored ← dlift stored;
  _ ← dlift (if bool_decide (is_Some stored) then Ok tt else Panic);
  _ ← dmodify (bf_with_latest signed_tx);
  _ ← dmodify (λ b, bf_with_ancestors (bf_ancestors b ++ [hash_or signed_tx]) b);
  proof ← dlift (observation_proof signed_tx);
  proofs ← dopt (Observation_build_observation_proofs o (hash_or signed_tx) proof);
  _ ← dlift gossip;
  mret proofs.

(** A send fails when the receiver is gone. *)
Definition respond_to (alive : nat → bool) (p : ObservationProof) : B unit :=
  match op_metadata p ≫= om_observed_hash with
  | Some oh =>
      subscribers ← dgets bf_subscribers;
      match subscribers !! oh with
      | Some s => if alive s then dmodify (bf_deliver s p)
                  else dlift (Err (error_message InternalChannelReceiveError "sending on a closed channel"))
      | None => mret tt
      end
  | None => mret tt
  end.
Definition form_and_respond (salt now : Z) (gossip : RgResult unit) (alive : nat → bool) : B unit :=
  proofs ← form_observation salt now gossip;
  diter (respond_to alive) proofs.

(** [ObservationBuffer::new]: the latest stored observation of the node, or a
    first one of height 0, and the hashes since the last ancestor root. *)
Definition empty_observation : Observation :=
  {| ob_merkle_root := None; ob_observations := []; ob_parent_id := None; ob_ancestor_merkle_roots := [] |}.
Definition first_observation (salt now : Z) : RgResult Transaction :=
  address ← expect (PublicKey_address (KeyPair_public_key kp));
  expect (sign kp (tb_transaction (with_observation empty_observation 0 address
            (with_genesis_input address (TransactionBuilder_new network salt now))))).
Definition ObservationBuffer_new (salt now : Z) (s : Store) : RgResult ObservationBuffer :=
  found ← expect (select_latest_observation s (KeyPair_public_key kp));
  latest ← (match found with Some tx => Ok tx | None => first_observation salt now end);
  cur_height ← expect (Transaction_height latest);
  let ancestor_cutoff := i64_sub cur_height (Z.rem cur_height (Z.of_nat ANCESTOR_MERKLE_ROOT_LENGTH)) in
  recent ← expect (recent_observation s (Some (Z.of_nat ANCESTOR_MERKLE_ROOT_LENGTH)));
  heights ← mapR (λ t, h ← expect (Transaction_height t); Ok (h, hash_or t)) recent;
  Ok {| bf_data := []; bf_latest := latest;
        bf_ancestors := snd <$> List.filter (λ ht, ancestor_cutoff <=? ht.1) heights;
        bf_subscribers := ∅; bf_store := s; bf_delivered := [] |}.

(** * Properties *)

Lemma sign_keeps t t' :
  sign kp t = Ok t' →
  tx_outputs t' = tx_outputs t ∧ tx_options t' = tx_options t ∧
  i_utxo_id <$> tx_inputs t' = i_utxo_id <$> tx_inputs t.
Proof.
unfold sign. intros E. inv_Ok. destruct (negb _); [done|]. inv_Ok. subst t'.
match goal with H : with_hash _ = Ok _ |- _ => apply with_hash_Ok in H as (s & Hs1 & ->) end.
simpl in *. split_and!; [done|done|].
match goal with H : mapR (sign_input _ _ _) _ = Ok _ |- _ => apply mapR_Ok in H; revert H end.
clear. induction 1 as [|i [i' b] ins ins' Hi _ IH]; [done|]. rewrite !fmap_cons, IH. f_equal. simpl.
unfold sign_input in Hi. destruct (i_output i); [|by inv_Ok; simplify_eq].
inv_Ok. case_bool_decide; inv_Ok; by simplify_eq.
Qed.

(** The observation transaction carries its height, its observation and the
    spent UTXO. *)
Lemma observation_tx_fields salt now o h a e :
  let t := observation_tx salt now o h a e in
  Transaction_height t = Ok h ∧ Transaction_observation t = Ok o ∧
  tx_inputs t = [to_input e] ∧ tx_options t ≫= txo_network_type = Some (network_to_i32 network).
Proof. done. Qed.

Lemma insert_edges_frame now ps :
  preserves (λ s s', st_observation s' = st_observation s) (iterM (λ p, insert_observation_edge now (Some p)) ps).
Proof.
assert (PreOrder (λ s s', st_observation s' = st_observation s)) by (split; [done|intros ???; congruence]).
apply preserves_iterM; [done|]. intros p _. unfold insert_observation_edge.
eapply preserves_bind; [done|eauto with preserves|intros p'].
eapply preserves_bind; [done|eauto with preserves|intros k]. by apply preserves_modify.
Qed.

Lemma insert_observation_stored {tx_laws : ProtoLaws Transaction} now tx s s' :
  insert_observation_and_edges now tx s = Some (Ok tt, s') → query_observation s' (hash_or tx) = Ok (Some tx).
Proof.
unfold insert_observation_and_edges. cbv zeta.
match goal with |- context [match ?a with Ok _ => _ | _ => _ end] => destruct a as [[[[[time height] o] ip] pk]| |] end;
  [|done..].
destruct (insert_observation _ _ _ _ _ s) as [[[]| |] s1] eqn:E1; [|done..].
destruct (Observation_build_observation_proofs _ _ _) as [ps|]; [|done]. simpl. intros [= E].
destruct ps as [ps| |]; [|done..]. apply M_bind_Ok in E as (ps' & s2 & E2 & E).
apply lift_Ok in E2 as [_ ->]. pose proof (insert_edges_frame now ps' s1) as Hf. rewrite E in Hf. simpl in Hf.
unfold insert_observation in E1. inv_M. unfold query_observation.
match goal with H : Hash_safe_bytes _ = Ok _ |- _ => rewrite H end. rg_step. rewrite Hf. simpl. rewrite lookup_insert_eq.
simpl. unfold proto_deserialize. by rewrite proto_decode_encode.
Qed.

Lemma expect_inv {E A} (r : result E A) a : expect r = Ok a → r = Ok a.
Proof. by destruct r. Qed.

Lemma ancestor_roots_frame b roots b' :
  ancestor_roots b = Some (Ok roots, b') →
  bf_data b' = bf_data b ∧ bf_latest b' = bf_latest b ∧ bf_store b' = bf_store b.
Proof.
unfold ancestor_roots. intros H. apply MD_bind_Ok in H as (anc & b1 & [= <- <-] & H).
case_bool_decide; inv_MD; done.
Qed.

Lemma on_observation_store_Ok f b u b' :
  on_observation_store f b = Some (Ok u, b') → ∃ s, f (bf_store b) = Some (Ok u, s) ∧ b' = bf_with_store s b.
Proof. unfold on_observation_store. destruct (f (bf_store b)) as [[r s]|]; [|done]. intros [= <- <-]. eauto. Qed.

(** What a successful formation consists of. *)
Lemma form_observation_Ok salt now gossip b b' proofs :
  form_observation salt now gossip b = Some (Ok proofs, b') → bf_data b ≠ [] →
  ∃ tree h u roots e a s proof,
    let o := {| ob_merkle_root := Some (mt_root tree); ob_observations := bf_data b; ob_parent_id := Some u;
                ob_ancestor_merkle_roots := roots |} in
    let tx := bf_latest b' in
    build_root (hash_or <$> bf_data b) = Some (Ok tree) ∧ Transaction_height (bf_latest b) = Ok h ∧
    observation_as_utxo_id (bf_latest b) = Ok u ∧ observation_output_as (bf_latest b) = Ok e ∧
    sign kp (observation_tx salt now o (i64_add h 1) a e) = Ok tx ∧
    insert_observation_and_edges now tx s = Some (Ok tt, bf_store b') ∧
    Observation_build_observation_proofs o (hash_or tx) proof = Some (Ok proofs) ∧ bf_data b' = [].
Proof.
unfold form_observation. intros H Hne. apply MD_bind_Ok in H as (obs & b0 & [= <- <-] & H).
rewrite bool_decide_eq_false_2 in H by done. cbv zeta in H. inv_MD.
match goal with H : ancestor_roots _ = _ |- _ => apply ancestor_roots_frame in H as (Hd & Hl & Hs) end.
match goal with H : on_observation_store _ _ = _ |- _ => apply on_observation_store_Ok in H as (s & Hst & ->) end.
repeat match goal with H : expect _ = Ok _ |- _ => apply expect_inv in H end.
simpl in *. eexists _, _, _, _, _, _, _, _. cbv zeta. split_and!; try eassumption; done.
Qed.

(** C14: the observations of a node form a chain.  When [form_observation] succeeds
    on a nonempty buffer, the buffer is empty, the new latest transaction has the
    next height, holds exactly the buffered items, names and spends the
    observation output of the previous one, and is found in the store; there is
    one proof per item, in order, naming the new transaction, and its Merkle
    proof is accepted for the item's hash, as long as the items' hashes carry
    bytes and the Merkle root is no node below itself. *)
Theorem form_observation_chain {tx_laws : ProtoLaws Transaction} salt now gossip b b' proofs :
  form_observation salt now gossip b = Some (Ok proofs, b') → bf_data b ≠ [] →
  bf_data b' = [] ∧
  (∃ h u o i, Transaction_height (bf_latest b) = Ok h ∧ observation_as_utxo_id (bf_latest b) = Ok u ∧
     Transaction_height (bf_latest b') = Ok (i64_add h 1) ∧ Transaction_observation (bf_latest b') = Ok o ∧
     ob_observations o = bf_data b ∧ ob_parent_id o = Some u ∧ tx_inputs (bf_latest b') = [i] ∧ i_utxo_id i = Some u) ∧
  query_observation (bf_store b') (hash_or (bf_latest b')) = Ok (Some (bf_latest b')) ∧
  (∀ tree, build_root (hash_or <$> bf_data b) = Some (Ok tree) → Forall has_bytes (hash_or <$> bf_data b) →
     Forall (λ e, ¬ is_child (hv (mt_root tree)) e) (mt_entries tree) →
     Forall2 (λ om p, op_metadata p = Some om ∧ op_observation_hash p = Some (hash_or (bf_latest b')) ∧
       ∃ mp, op_merkle_proof p = Some mp ∧ mp_leaf mp = Some (hash_or om) ∧ MerkleProof_verify mp = Ok tt)
       (bf_data b) proofs).
Proof.
intros H Hne. apply form_observation_Ok in H as (tree & h & u & roots & e & a & s & proof & Ht & Hh & Hu & He & Hs & Hi & Hp & Hd); [|done].
cbv zeta in *. apply sign_keeps in Hs as Hk. destruct Hk as (Ho & Hopt & Hin).
split_and!; [done| |by eapply insert_observation_stored|].
- destruct (tx_inputs (bf_latest b')) as [|i [|]] eqn:Ei; [done| |done].
  exists h, u. eexists _, i. unfold Transaction_height, Transaction_observation. rewrite Ho, Hopt.
  split_and!; [done|done|reflexivity|reflexivity|done|done|done|].
  assert (i_utxo_id i = ue_utxo_id e) as -> by (by injection Hin).
  unfold observation_output_as in He. unfold observation_as_utxo_id in Hu.
  destruct (observation_output_index (bf_latest b)) as [n| |]; [|done..]. injection Hu as <-.
  apply bind_Ok in He as (n' & [= <-] & He). inv_Ok. by subst e.
- intros tree' Ht' Hb Hroot. assert (tree' = tree) as -> by congruence.
  match type of Hp with Observation_build_observation_proofs ?o ?h _ = _ =>
    destruct (observation_proofs_accepted o h proof tree Hne Hb Ht Hroot) as (ps & Hps & Hall) end.
  rewrite Hp in Hps. injection Hps as <-. eapply Forall2_impl; [exact Hall|].
  intros om p (? & ? & ? & mp & ? & ? & ? & ? & ?). split_and!; [done|done|]. by exists mp.
Qed.

(** The deliveries that proofs ask for. *)
Definition delivery (subscribers : gmap Hash nat) (p : ObservationProof) : option (nat * ObservationProof) :=
  oh ← op_metadata p ≫= om_observed_hash; s ← subscribers !! oh; Some (s, p).

Fixpoint before_dead (alive : nat → bool) (ds : list (nat * ObservationProof)) : list (nat * ObservationProof) :=
  match ds with [] => [] | d :: ds => if alive d.1 then d :: before_dead alive ds else [] end.

Lemma respond_one alive p b :
  respond_to alive p b =
  match delivery (bf_subscribers b) p with
  | Some d => if alive d.1 then Some (Ok tt, bf_deliver d.1 p b)
              else Some (Err (error_message InternalChannelReceiveError "sending on a closed channel"), b)
  | None => Some (Ok tt, b)
  end.
Proof.
unfold respond_to, delivery. destruct (op_metadata p ≫= om_observed_hash) as [oh|]; [|done]. simpl.
unfold mbind, MD_bind, dgets. destruct (bf_subscribers b !! oh) as [n|]; [|done]. simpl. by destruct (alive n).
Qed.

Lemma respond_all alive ps b :
  let ds := omap (delivery (bf_subscribers b)) ps in
  ∃ r b', diter (respond_to alive) ps b = Some (r, b') ∧ bf_latest b' = bf_latest b ∧
    bf_delivered b' = bf_delivered b ++ before_dead alive ds ∧ (r = Ok tt ↔ Forall (λ d, alive d.1 = true) ds).
Proof.
revert b. induction ps as [|p ps IH]; intros b.
{ exists (Ok tt), b. split_and!; [done|done|by rewrite app_nil_r|]. split; [constructor|done]. }
cbn [diter omap list_omap]. unfold mbind, MD_bind. rewrite respond_one.
destruct (delivery (bf_subscribers b) p) as [[n p']|] eqn:Ed; [|apply IH].
assert (p' = p) as ->.
{ unfold delivery in Ed. destruct (op_metadata p ≫= om_observed_hash) as [oh|]; [|done]. simpl in Ed.
  destruct (bf_subscribers b !! oh); [|done]. by simplify_eq/=. }
cbn [fst before_dead]. destruct (alive n) eqn:Ha.
- destruct (IH (bf_deliver n p b)) as (r & b' & H & Hl & Hd & Hr). exists r, b'. split_and!; [done|done| |].
  + rewrite Hd. simpl. by rewrite <-app_assoc.
  + rewrite Forall_cons. simpl in Hr. rewrite Hr. naive_solver.
- eexists _, b. split_and!; [done|done|by rewrite app_nil_r|]. rewrite Forall_cons. split; [done|]. intros [Hn _]. simpl in Hn. congruence.
Qed.

(** Answering subscribers.  After a formation, the proofs go to the subscribers
    of their observed hashes in order, up to the first subscriber whose receiver
    is gone; if there is one, the step fails, the proofs behind it are not
    delivered, and the observation has been made all the same. *)
Theorem form_and_respond_spec salt now gossip alive b b1 proofs :
  form_observation salt now gossip b = Some (Ok proofs, b1) →
  let ds := omap (delivery (bf_subscribers b1)) proofs in
  ∃ r b2, form_and_respond salt now gossip alive b = Some (r, b2) ∧ bf_latest b2 = bf_latest b1 ∧
    bf_delivered b2 = bf_delivered b1 ++ before_dead alive ds ∧ (r = Ok tt ↔ Forall (λ d, alive d.1 = true) ds).
Proof.
intros H ds. unfold form_and_respond. rewrite (MD_bind_step _ _ _ _ _ H). apply respond_all.
Qed.

End buffer.

(** * Witnesses *)

Module BufferDemo.
#[local] Existing Instance toy_host.
#[local] Existing Instance toy_crypto.
#[local] Existing Instance toy_secp.
#[local] Instance sql_demo : Sql := "UNIQUE constraint failed".
#[local] Instance pt_demo : Proto Transaction := ser_proto Transaction.
#[local] Instance pm_demo : Proto ObservationMetadata := ser_proto ObservationMetadata.
#[local] Instance pp_demo : Proto ObservationProof := ser_proto ObservationProof.

Definition fresh : ObservationBuffer :=
  match ObservationBuffer_new Dev demo_kp 1 2 empty_store with
  | Ok b => b
  | _ => {| bf_data := []; bf_latest := new_blank 0 0; bf_ancestors := []; bf_subscribers := ∅;
            bf_store := empty_store; bf_delivered := [] |}
  end.
Definition filled : ObservationBuffer :=
  process_incoming (demo_om Byte.x02) 9 (process_incoming (demo_om Byte.x01) 8 fresh).
Definition formed : option (RgResult (list ObservationProof) * ObservationBuffer) :=
  form_observation Dev demo_kp 3 4 (Ok tt) filled.
Definition formed_proofs : list ObservationProof :=
  match formed with Some (Ok ps, _) => ps | _ => [] end.
Definition formed_buffer : ObservationBuffer := match formed with Some (_, b) => b | None => filled end.

Lemma formed_ok : formed = Some (Ok formed_proofs, formed_buffer).
Proof.
unfold formed_buffer, formed_proofs. assert (match formed with Some (Ok _, _) => true | _ => false end = true) as H by by_decision.
destruct formed as [[[]]|]; done.
Qed.

Lemma form_observation_chain_witness :
  Transaction_height (bf_latest formed_buffer) = Ok 1 ∧
  query_observation (bf_store formed_buffer) (hash_or (bf_latest formed_buffer)) = Ok (Some (bf_latest formed_buffer)).
Proof.
destruct (form_observation_chain Dev demo_kp (tx_laws := ser_proto_laws Transaction) 3 4 (Ok tt) filled formed_buffer
  formed_proofs) as (_ & (h & u & o & i & Hh & _ & Hh' & _) & Hq & _).
- exact formed_ok.
- by_decision.
- split; [|exact Hq]. vm_compute in Hh. injection Hh as <-. exact Hh'.
Defined.

Lemma form_and_respond_spec_witness :
  ∃ r b, form_and_respond Dev demo_kp 3 4 (Ok tt) (λ s, bool_decide (s = 8%nat)) filled = Some (r, b) ∧
    bf_delivered b = before_dead (λ s, bool_decide (s = 8%nat))
                       (omap (delivery (bf_subscribers formed_buffer)) formed_proofs).
Proof.
destruct (form_and_respond_spec Dev demo_kp 3 4 (Ok tt) (λ s, bool_decide (s = 8%nat)) filled formed_buffer formed_proofs)
  as (r & b & H1 & _ & H2 & _); [exact formed_ok|].
exists r, b. split; [exact H1|]. rewrite H2.
assert (bf_delivered formed_buffer = []) as E by by_decision. rewrite E. reflexivity.
Defined.
End BufferDemo.
