(* ===== verification/Contract.v ===== *)
(** * Contract state

    data/src/state_store.rs with the [state] table, [DataStore::resolve_code] of
    data/src/data_store.rs, and src/core/contract/contract_state_manager.rs, which
    orders the requests to a contract and applies them to its state.

    The WebAssembly runtime behind [invoke_extism_wasm_direct] is a parameter, and
    so is whether the receiver of an answer still exists.  The order in which a
    [HashMap] is iterated is the order of the finite map. *)

From stdpp Require Import base list gmap strings.
From S2P Require Import Prelude Structs Interfaces Schema Merkle Transaction Keys Store Wire.
#[local] Open Scope Z_scope.
#[local] Open Scope redgold_scope.

Record ContractStateMarker := {
  csm_address : option Address; csm_state : option BytesData; csm_selector : option StateSelector;
  csm_transaction_marker : option Hash; csm_nonce : Z; csm_time : Z }.
Record ContentionKey := {
  ck_utxo_id : option UtxoId; ck_address : option Address; ck_selector : option StateSelector;
  ck_transaction_hash : option Hash }.
#[global] Instance ContentionKey_eq_dec : EqDecision ContentionKey.
Proof. solve_decision. Defined.
#[global] Instance ContentionKey_countable : Countable ContentionKey.
Proof.
apply (inj_countable' (λ k, (ck_utxo_id k, ck_address k, ck_selector k, ck_transaction_hash k))
         (λ '(u, a, s, h), {| ck_utxo_id := u; ck_address := a; ck_selector := s; ck_transaction_hash := h |})).
by intros [].
Defined.
Record ExecutionResult := { er_valid : bool; er_result_metadata : option ResponseMetadata; er_data : option StandardData }.
Record StoredTransactionInfo := {
  sti_transaction : option Transaction; sti_observation_proofs : list ObservationProof;
  sti_valid_utxo_index : list Z; sti_accepted : bool; sti_rejection_reason : option ErrorInfo; sti_state : Z }.
Record ResolveCodeResponse := {
  rcr_utxo_entry : option UtxoEntry; rcr_transaction : option StoredTransactionInfo;
  rcr_contract_state_marker : option ContractStateMarker }.

Definition TransactionState_Rejected : Z := 0.
Definition TransactionState_ObservedAccepted : Z := 4.

#[global] Instance BytesData_hash_clear : HashClear BytesData := λ b, b.
#[global] Instance StateSelector_hash_clear : HashClear StateSelector := λ s, s.

(** ** The [state] table *)

Record StateRow := {
  sr_address : bytes; sr_selector_hash : option bytes; sr_state_hash : bytes; sr_transaction_marker : bytes;
  sr_time : Z; sr_nonce : Z; sr_raw : bytes }.

(** The rows, in the order of their row ids, next to the other tables. *)
Record ContractDb := { cd_store : Store; cd_state : list StateRow }.
Definition with_state (f : list StateRow → list StateRow) (d : ContractDb) : ContractDb :=
  {| cd_store := cd_store d; cd_state := f (cd_state d) |}.

(** The primary key is (address, selector_hash): SQLite takes rows with a NULL in
    the key as distinct, so that such a row replaces nothing. *)
Definition same_state_key (r r' : StateRow) : bool :=
  bool_decide (sr_address r = sr_address r' ∧ sr_selector_hash r = sr_selector_hash r' ∧ sr_selector_hash r ≠ None).

Section contract.
Context {host : Host} {crypto : Crypto} {sql : Sql}.
Context {ptx : Proto Transaction} {pue : Proto UtxoEntry} {pei : Proto ErrorInfo} {pop : Proto ObservationProof}.
Context {pcsm : Proto ContractStateMarker} {psel : Proto StateSelector} {pbd : Proto BytesData}.

Definition selector_hash (selector : option StateSelector) : RgResult (option bytes) :=
  match selector with
  | Some s => Some <$> Hash_safe_bytes (calculate_hash s)
  | None => Ok None
  end.
Definition state_row (state : ContractStateMarker) : RgResult StateRow :=
  address ← opt_Address_safe_bytes (csm_address state);
  selector_hash ← selector_hash (csm_selector state);
  st ← safe_get (csm_state state);
  state_hash ← Hash_safe_bytes (calculate_hash st);
  marker ← safe_get (csm_transaction_marker state) ≫= (λ h, safe_bytes (h_bytes h));
  Ok {| sr_address := address; sr_selector_hash := selector_hash; sr_state_hash := state_hash;
        sr_transaction_marker := marker; sr_time := csm_time state; sr_nonce := csm_nonce state;
        sr_raw := encode_to_vec state |}.
Definition insert_state (state : ContractStateMarker) : M ContractDb ErrorInfo unit :=
  row ← lift (state_row state);
  modify (with_state (λ rows, List.filter (λ r, negb (same_state_key r row)) rows ++ [row])).

(** The [WHERE] clause of the two queries. *)
Definition state_where (addr : bytes) (sel : option bytes) (r : StateRow) : bool :=
  bool_decide (sr_address r = addr) &&
  (match sel with Some h => bool_decide (sr_selector_hash r = Some h) | None => true end).
Definition query_recent_state (d : ContractDb) (address : Address) (selector : option StateSelector)
    (limit : option Z) : RgResult (list ContractStateMarker) :=
  addr ← safe_bytes (a_address address);
  let limit := default 20 limit in
  sel ← selector_hash selector;
  cd_state d |> List.filter (state_where addr sel) |> order_by_desc sr_nonce |> sql_limit limit 0
  |> mapR (λ r, proto_deserialize (sr_raw r)).

(** [clean_up] of one selector. *)
Definition clean_up (address : Address) (state_sel : StateSelector) (nonce : Z) : M ContractDb ErrorInfo unit :=
  addr ← lift (safe_bytes (a_address address));
  sel ← lift (Hash_safe_bytes (calculate_hash state_sel));
  modify (with_state (List.filter (λ r, negb (bool_decide (sr_address r = addr ∧ sr_selector_hash r = Some sel) &&
                                              (sr_nonce r <? nonce))))).

(** ** Looking up code *)

Definition ds_resolve_transaction_hash (s : Store) (hash : Hash) : RgResult (option StoredTransactionInfo) :=
  maybe_transaction ← query_maybe_transaction s hash;
  match maybe_transaction with
  | Some (t, e) =>
      observation_proofs ← select_observation_edge s hash;
      valid_utxo_output_ids ← query_utxo_output_index s hash;
      let accepted := bool_decide (e = None) in
      Ok (Some {| sti_transaction := Some t; sti_observation_proofs := observation_proofs;
                  sti_valid_utxo_index := valid_utxo_output_ids; sti_accepted := accepted;
                  sti_rejection_reason := e;
                  sti_state := if accepted then TransactionState_ObservedAccepted else TransactionState_Rejected |})
  | None => Ok None
  end.
Definition resolve_code (d : ContractDb) (address : Address) : RgResult ResolveCodeResponse :=
  res ← code_utxo (cd_store d) address true;
  match (r ← res; u ← ue_utxo_id r; u_transaction_hash u) with
  | Some u =>
      tx_res ← ds_resolve_transaction_hash (cd_store d) u;
      markers ← query_recent_state d address None (Some 1);
      Ok {| rcr_utxo_entry := res; rcr_transaction := tx_res; rcr_contract_state_marker := head markers |}
  | None => Ok {| rcr_utxo_entry := res; rcr_transaction := None; rcr_contract_state_marker := None |}
  end.

(** ** The manager *)

Record ContractStateManager := {
  mg_db : ContractDb;
  mg_unordered : gmap ContentionKey (list (Transaction * Z));
  mg_subscribers : gmap ContentionKey (list nat);
  mg_answers : list (nat * RgResult ContractStateMarker) }.

Definition mg_with_db (d : ContractDb) (m : ContractStateManager) : ContractStateManager :=
  {| mg_db := d; mg_unordered := mg_unordered m; mg_subscribers := mg_subscribers m; mg_answers := mg_answers m |}.
Definition mg_with_unordered (f : gmap ContentionKey (list (Transaction * Z)) → gmap ContentionKey (list (Transaction * Z)))
    (m : ContractStateManager) : ContractStateManager :=
  {| mg_db := mg_db m; mg_unordered := f (mg_unordered m); mg_subscribers := mg_subscribers m;
     mg_answers := mg_answers m |}.
Definition mg_with_subscribers (f : gmap ContentionKey (list nat) → gmap ContentionKey (list nat))
    (m : ContractStateManager) : ContractStateManager :=
  {| mg_db := mg_db m; mg_unordered := mg_unordered m; mg_subscribers := f (mg_subscribers m);
     mg_answers := mg_answers m |}.
Definition mg_answer (s : nat) (a : RgResult ContractStateMarker) (m : ContractStateManager) : ContractStateManager :=
  {| mg_db := mg_db m; mg_unordered := mg_unordered m; mg_subscribers := mg_subscribers m;
     mg_answers := mg_answers m ++ [(s, a)] |}.

Context (invoke : bytes → bytes → bytes → RgResult ExecutionResult).
Context (alive : nat → bool).

Notation C := (M ContractStateManager ErrorInfo).

Definition on_contract_db {A} (m : M ContractDb ErrorInfo A) : C A := λ g,
  let '(a, d) := m (mg_db g) in (a, mg_with_db d g).

Definition contract_request (address : Address) (selector : option StateSelector) : ContentionKey :=
  {| ck_utxo_id := None; ck_address := Some address; ck_selector := selector; ck_transaction_hash := None |}.
Definition request_contention_key (o : Output) : RgResult ContentionKey :=
  address ← safe_get_msg (o_address o) "Missing address";
  sel ← request_selector o;
  Ok (contract_request address sel).

Definition process_tx (transaction : Transaction) (output : Output) (response : nat) (now : Z) : C unit :=
  _ ← lift (if is_deploy output then Err (error_info "Deploy transactions not supported") else Ok tt);
  _ ← lift (if is_request output then Ok tt
            else Err (error_info "Non-request transaction outputs not supported"));
  contention_key ← lift (request_contention_key output);
  _ ← modify (mg_with_unordered (partial_alter (λ v, Some (default [] v ++ [(transaction, now)])) contention_key));
  modify (mg_with_subscribers (partial_alter (λ v, Some (default [] v ++ [response])) contention_key)).

Definition send_marker (csm : ContractStateMarker) (sub : nat) : C unit :=
  if alive sub then modify (mg_answer sub (Ok csm))
  else lift (Err (error_message InternalChannelReceiveError "sending on a closed channel")).

(** The marker that a transaction leads to, from the state read before the loop. *)
Definition next_marker (address : Address) (sel : option StateSelector) (most_recent : ContractStateMarker)
    (code : bytes) (tx : Transaction) : RgResult ContractStateMarker :=
  output ← safe_get_msg (head (output_of tx address)) "Missing output";
  input ← request_data output;
  state ← safe_bytes (csm_state most_recent);
  er ← invoke code input state;
  d ← safe_get_msg (er_data er) "data";
  updated_state ← safe_get_msg (d_state d) "state";
  time ← metadata_time tx;
  Ok {| csm_address := Some address; csm_state := Some updated_state; csm_selector := sel;
        csm_transaction_marker := Some (hash_or tx); csm_nonce := i64_add (csm_nonce most_recent) 1;
        csm_time := time |}.

(** One turn of the inner loop; [Vec::remove] panics out of range. *)
Definition apply_request (k : ContentionKey) (address : Address) (most_recent : ContractStateMarker) (code : bytes)
    (idx : nat) (tx : Transaction) : C unit :=
  csm ← lift (next_marker address (ck_selector k) most_recent code tx);
  _ ← on_contract_db (insert_state csm);
  subs ← gets (λ m, mg_subscribers m !! k);
  _ ← modify (mg_with_subscribers (delete k));
  _ ← iterM (send_marker csm) (default [] subs);
  v ← gets (λ m, default [] (mg_unordered m !! k));
  if bool_decide (length v ≤ idx)%nat then lift Panic
  else modify (mg_with_unordered <[k := delete idx v]>).
Fixpoint apply_requests (k : ContentionKey) (address : Address) (most_recent : ContractStateMarker) (code : bytes)
    (idx : nat) (txs : list Transaction) : C unit :=
  match txs with
  | [] => mret tt
  | tx :: txs => _ ← apply_request k address most_recent code idx tx; apply_requests k address most_recent code (S idx) txs
  end.

(** [v2.sort_by(|a, b| ..time..)]: a comparison panics without a time, and a
    single entry is not compared. *)
Definition sort_by_time (v : list (Transaction * Z)) : RgResult (list Transaction) :=
  match v with
  | [] | [_] => Ok (fst <$> v)
  | _ => keyed ← mapR (λ e, t ← expect (metadata_time e.1); Ok (t, e.1)) v;
         Ok (snd <$> sort_by (λ a b, a.1 <=? b.1) keyed)
  end.

(** The body of the outer loop for one key. *)
Definition order_key (k : ContentionKey) : C unit :=
  v ← gets (λ m, default [] (mg_unordered m !! k));
  address ← lift (safe_get_msg (ck_address k) "Missing address on contention key");
  recent ← gets (λ m, query_recent_state (mg_db m) address (ck_selector k) (Some 1));
  recent ← lift recent;
  most_recent ← lift (safe_get_msg (head recent) "Missing most recent contract state");
  resolve ← gets (λ m, resolve_code (mg_db m) address);
  resolve ← lift resolve;
  u ← lift (safe_get_msg (rcr_utxo_entry resolve) "Code Utxo");
  o ← lift (safe_get_msg (ue_output u) "Output");
  code ← lift (safe_get_msg (Output_code o) "Code");
  v2 ← lift (sort_by_time v);
  apply_requests k address most_recent code 0 v2.
Definition manager_interval : C unit :=
  keys ← gets (λ m, fst <$> map_to_list (mg_unordered m));
  _ ← iterM order_key keys;
  modify (mg_with_unordered (λ u, foldr delete u keys)).

(** [interval_fold_or_recv]: a message, or a tick of the interval. *)
Definition manager_step (message : option (Transaction * Output * nat * Z)) : C unit :=
  match message with
  | Some (transaction, output, response, now) => λ m,
      match process_tx transaction output response now m with
      | (Err e, m') =>
          if alive response then (Ok tt, mg_answer response (Err e) m')
          else (Err (error_message InternalChannelReceiveError "sending on a closed channel"), m')
      | r => r
      end
  | None => manager_interval
  end.

(** * Properties *)

Definition alive_subs (k : ContentionKey) (m : ContractStateManager) : Prop :=
  Forall (λ s, alive s = true) (default [] (mg_subscribers m !! k)).

Lemma send_markers csm subs m :
  Forall (λ s, alive s = true) subs →
  iterM (send_marker csm) subs m =
  (Ok tt, {| mg_db := mg_db m; mg_unordered := mg_unordered m; mg_subscribers := mg_subscribers m;
             mg_answers := mg_answers m ++ ((λ s, (s, Ok csm)) <$> subs) |}).
Proof.
intros H. revert m. induction H as [|s subs Hs _ IH]; intros m.
{ simpl. rewrite app_nil_r. by destruct m. }
cbn [iterM]. rewrite (M_bind_step _ _ _ () (mg_answer s (Ok csm) m)) by (unfold send_marker; by rewrite Hs).
rewrite IH. simpl.
by rewrite <-app_assoc.
Qed.

(** One turn of the loop when the request can be served. *)
Lemma apply_request_run k address csm0 code idx tx m csm row :
  next_marker address (ck_selector k) csm0 code tx = Ok csm → state_row csm = Ok row → alive_subs k m →
  let v := default [] (mg_unordered m !! k) in
  let rows := List.filter (λ r, negb (same_state_key r row)) (cd_state (mg_db m)) ++ [row] in
  let m1 := {| mg_db := with_state (λ _, rows) (mg_db m); mg_unordered := mg_unordered m;
               mg_subscribers := delete k (mg_subscribers m);
               mg_answers := mg_answers m ++ ((λ s, (s, Ok csm)) <$> default [] (mg_subscribers m !! k)) |} in
  apply_request k address csm0 code idx tx m =
    if bool_decide (length v ≤ idx)%nat then (Panic, m1)
    else (Ok tt, mg_with_unordered <[k := delete idx v]> m1).
Proof.
intros Hn Hr Ha v rows m1. unfold apply_request. rewrite Hn. erewrite M_bind_step by reflexivity.
assert (on_contract_db (insert_state csm) m = (Ok tt, mg_with_db (with_state (λ _, rows) (mg_db m)) m)) as Hi.
{ unfold on_contract_db, insert_state. rewrite Hr. erewrite M_bind_step by reflexivity. reflexivity. }
rewrite (M_bind_step _ _ _ _ _ Hi). erewrite M_bind_step by reflexivity. erewrite M_bind_step by reflexivity.
erewrite M_bind_step by (by apply send_markers). erewrite M_bind_step by reflexivity. simpl. fold v.
by case_bool_decide.
Qed.

Definition servable (k : ContentionKey) (address : Address) (csm0 : ContractStateMarker) (code : bytes)
    (tx : Transaction) : Prop :=
  ∃ csm row, next_marker address (ck_selector k) csm0 code tx = Ok csm ∧ state_row csm = Ok row.

(** From the second turn on, the removals run out of range. *)
Lemma later_turns_panic k address csm0 code idx txs m :
  Forall (servable k address csm0 code) txs → alive_subs k m → txs ≠ [] →
  length (default [] (mg_unordered m !! k)) = length txs → (1 ≤ idx)%nat →
  ∃ m', apply_requests k address csm0 code idx txs m = (Panic, m').
Proof.
intros H. revert idx m. induction H as [|tx txs (csm & row & Hn & Hr) _ IH]; intros idx m Ha Hne Hlen Hidx; [done|].
cbn [apply_requests]. unfold mbind, M_bind.
rewrite (apply_request_run k address csm0 code idx tx m csm row Hn Hr Ha). case_bool_decide as Hle; [by eexists|].
apply IH; [| | |lia].
- unfold alive_subs. simpl. rewrite lookup_delete_eq. constructor.
- intros ->. simpl in Hlen. lia.
- simpl. rewrite lookup_insert_eq. simpl. rewrite length_delete; [simpl in Hlen; lia|].
  apply lookup_lt_is_Some. lia.
Qed.

(** *** The table *)

(** Every row was written by [insert_state], and a key without NULL occurs once. *)
Definition row_key (r : StateRow) : option (bytes * bytes) := pair (sr_address r) <$> sr_selector_hash r.
Record table_wf (rows : list StateRow) : Prop := {
  twf_rows : Forall (λ r, ∃ c, state_row c = Ok r) rows;
  twf_keys : NoDup (omap row_key rows) }.

Lemma state_row_fields c r :
  state_row c = Ok r → sr_nonce r = csm_nonce c ∧ sr_raw r = encode_to_vec c ∧
  opt_Address_safe_bytes (csm_address c) = Ok (sr_address r) ∧ selector_hash (csm_selector c) = Ok (sr_selector_hash r).
Proof.
unfold state_row. intros H. apply bind_Ok in H as (a & Ha & H). apply bind_Ok in H as (sh & Hs & H). inv_Ok.
by simplify_eq.
Qed.

Lemma same_state_key_iff r r' : same_state_key r r' = true ↔ row_key r = row_key r' ∧ row_key r ≠ None.
Proof.
clear invoke alive.
unfold same_state_key, row_key. rewrite bool_decide_eq_true.
destruct (sr_selector_hash r), (sr_selector_hash r'); simpl; naive_solver congruence.
Qed.

Lemma omap_row_key_replace rows row :
  omap row_key (List.filter (λ r, negb (same_state_key r row)) rows) =
  match row_key row with Some k => filter (.≠ k) (omap row_key rows) | None => omap row_key rows end.
Proof.
clear invoke alive.
induction rows as [|r rows IH]; [by destruct (row_key row)|]. cbn [List.filter omap list_omap].
pose proof (same_state_key_iff r row) as Hk. destruct (same_state_key r row); cbn [negb].
- destruct Hk as [[Hk Hn] _]; [done|]. rewrite IH. cbn [omap list_omap]. rewrite Hk. destruct (row_key row) as [k|]; [|done].
  by rewrite filter_cons_False by auto.
- cbn [omap list_omap]. rewrite IH. destruct (row_key r) as [k'|], (row_key row) as [k|]; try done.
  rewrite filter_cons_True; [done|]. intros ->. by destruct Hk as [_ Hk]; discriminate Hk.
Qed.

Lemma order_by_desc_head {A} (f : A → Z) l x l' :
  order_by_desc f l = x :: l' → x ∈ l ∧ Forall (λ y, f y ≤ f x) l.
Proof.
unfold order_by_desc. intros H. apply sort_by_head in H as [Hin Hall].
- split; [done|]. eapply Forall_impl; [exact Hall|]. simpl. intros. lia.
- intros. simpl. lia.
- intros. simpl in *. lia.
Qed.

(** What [LIMIT 1] answers: a marker of the greatest nonce, if there is a row. *)
Lemma query_recent_one `{!ProtoLaws ContractStateMarker} d address selector addr sel :
  safe_bytes (a_address address) = Ok addr → selector_hash selector = Ok sel → table_wf (cd_state d) →
  let rows := List.filter (state_where addr sel) (cd_state d) in
  (rows = [] ∧ query_recent_state d address selector (Some 1) = Ok []) ∨
  (∃ c r, query_recent_state d address selector (Some 1) = Ok [c] ∧ state_row c = Ok r ∧ r ∈ rows ∧
          Forall (λ r, sr_nonce r ≤ csm_nonce c) rows).
Proof.
intros Ha Hs [Hw _] rows. unfold query_recent_state. rewrite Ha. cbn [mbind result_bind]. rewrite Hs.
cbn [mbind result_bind default from_option id]. fold rows.
destruct (order_by_desc sr_nonce rows) as [|r rest] eqn:E.
{ left. split; [|done]. apply Permutation_nil_r. by rewrite <-(sort_by_perm (λ a b, sr_nonce b <=? sr_nonce a) rows), <-E. }
right. apply order_by_desc_head in E as [Hin Hall].
assert (∃ c, state_row c = Ok r) as [c Hc].
{ rewrite Forall_forall in Hw. apply Hw. apply list_elem_of_In, filter_In in Hin as [? _]. by apply list_elem_of_In. }
destruct (state_row_fields c r Hc) as (Hn & Hraw & _ & _).
exists c, r. split_and!; [|done|done|by rewrite <-Hn].
change (sql_limit 1 0 (r :: rest)) with [r]. cbn [mapR]. unfold proto_deserialize.
by rewrite Hraw, proto_decode_encode.
Qed.

Lemma table_wf_insert rows row c :
  table_wf rows → state_row c = Ok row → table_wf (List.filter (λ r, negb (same_state_key r row)) rows ++ [row]).
Proof.
intros [Hw Hk] Hc. split.
- apply Forall_app. split; [|by repeat constructor; exists c]. rewrite Forall_forall in *.
  intros r Hr. apply Hw. apply list_elem_of_In, filter_In in Hr as [? _]. by apply list_elem_of_In.
- rewrite omap_app, omap_row_key_replace. cbn [omap list_omap]. destruct (row_key row) as [k|] eqn:E.
  + apply NoDup_app. split_and!; [by apply NoDup_filter| |apply NoDup_singleton].
    intros k' [Hne _]%list_elem_of_filter ->%list_elem_of_singleton. by apply Hne.
  + by rewrite app_nil_r.
Qed.

(** The tables that insertions and cleanups lead to. *)
Inductive table_reach : list StateRow → Prop :=
| tr_empty : table_reach []
| tr_insert d c d' : table_reach (cd_state d) → insert_state c d = (Ok tt, d') → table_reach (cd_state d')
| tr_clean d a s n d' : table_reach (cd_state d) → clean_up a s n d = (Ok tt, d') → table_reach (cd_state d').

Lemma table_wf_filter f rows : table_wf rows → table_wf (List.filter f rows).
Proof.
intros [Hw Hk]. split.
- apply Forall_forall. intros r Hr. rewrite Forall_forall in Hw. apply Hw.
  apply list_elem_of_In, filter_In in Hr as [? _]. by apply list_elem_of_In.
- eapply sublist_NoDup; [exact Hk|]. clear.
  induction rows as [|r rows IH]; [done|]. cbn [List.filter]. destruct (f r); cbn [omap list_omap]; destruct (row_key r); auto using sublist.
Qed.

Lemma table_reach_wf rows : table_reach rows → table_wf rows.
Proof.
induction 1 as [|d c d' _ IH H|d a s n d' _ IH H]; [split; constructor| |].
- unfold insert_state in H. inv_M. by eapply table_wf_insert.
- unfold clean_up in H. inv_M. by apply table_wf_filter.
Qed.

(** C37: In every table that insertions and cleanups lead to, every row decodes to the
    marker it was written for, no key occurs twice, and the query for the recent
    state answers a marker of the greatest nonce. *)
Theorem reachable_table_wf `{!ProtoLaws ContractStateMarker} d address selector addr sel :
  table_reach (cd_state d) → safe_bytes (a_address address) = Ok addr → selector_hash selector = Ok sel →
  let rows := List.filter (state_where addr sel) (cd_state d) in
  table_wf (cd_state d) ∧
  ((rows = [] ∧ query_recent_state d address selector (Some 1) = Ok []) ∨
   (∃ c r, query_recent_state d address selector (Some 1) = Ok [c] ∧ state_row c = Ok r ∧ r ∈ rows ∧
           Forall (λ r, sr_nonce r ≤ csm_nonce c) rows)).
Proof. intros Hr Ha Hs. apply table_reach_wf in Hr. split; [done|]. by apply query_recent_one. Qed.

(** Inserting a marker of a greater nonce makes it the recent one. *)
Lemma insert_is_recent `{!ProtoLaws ContractStateMarker} d address sel csm0 csm row :
  table_wf (cd_state d) → query_recent_state d address sel (Some 1) = Ok [csm0] →
  state_row csm = Ok row → csm_address csm = Some address → csm_selector csm = sel →
  csm_nonce csm0 < csm_nonce csm →
  query_recent_state (with_state (λ rows, List.filter (λ r, negb (same_state_key r row)) rows ++ [row]) d)
    address sel (Some 1) = Ok [csm].
Proof.
intros Hwf Hq Hrow Haddr Hsel Hlt. destruct (state_row_fields _ _ Hrow) as (Hn & Hraw & Ha & Hs).
rewrite Haddr in Ha. cbn in Ha. rewrite Hsel in Hs.
destruct (query_recent_one d address sel _ _ Ha Hs Hwf) as [[_ ?]|(c & r0 & Hc & _ & _ & Hmax)]; [congruence|].
rewrite Hq in Hc. injection Hc as <-.
set (d' := with_state _ d). assert (table_wf (cd_state d')) as Hwf' by (by eapply table_wf_insert).
assert (row ∈ List.filter (state_where (sr_address row) (sr_selector_hash row)) (cd_state d')) as Hin.
{ apply list_elem_of_In, filter_In. split; [apply in_or_app; right; by left|]. unfold state_where.
  rewrite bool_decide_true by done. destruct (sr_selector_hash row); [by rewrite bool_decide_true|done]. }
destruct (query_recent_one d' address sel _ _ Ha Hs Hwf') as [[E _]|(c & r & Hc & Hr & Hrin & Hmax')].
{ rewrite E in Hin. by apply not_elem_of_nil in Hin. }
rewrite Hc. do 2 f_equal. destruct (state_row_fields _ _ Hr) as (Hn' & Hraw' & _ & _).
rewrite Forall_forall in Hmax, Hmax'. specialize (Hmax' _ Hin). rewrite Hn in Hmax'.
apply list_elem_of_In, filter_In in Hrin as [Hrin Hwhere]. apply in_app_or in Hrin as [Hrin|[->|[]]].
- apply filter_In in Hrin as [Hrin _]. assert (sr_nonce r ≤ csm_nonce csm0); [|lia].
  apply Hmax, list_elem_of_In, filter_In. done.
- rewrite Hraw in Hraw'. by apply encode_to_vec_inj in Hraw'.
Qed.

(** *** The contract, abstractly

    A contract is its state and a count of the requests it has served; a request
    runs the code on the state. *)

Record ContractSpec := { cs_state : bytes; cs_nonce : Z }.
Definition spec_step (address : Address) (code : bytes) (c : ContractSpec) (tx : Transaction) : option ContractSpec :=
  output ← head (output_of tx address); input ← ok_opt (request_data output);
  er ← ok_opt (invoke code input (cs_state c)); d ← er_data er; st ← d_state d;
  Some {| cs_state := bd_value st; cs_nonce := cs_nonce c + 1 |}.
(** The states after each of the requests, if the code answers a state for each. *)
Fixpoint spec_run (address : Address) (code : bytes) (c : ContractSpec) (txs : list Transaction) : option (list ContractSpec) :=
  match txs with
  | [] => Some []
  | tx :: txs => c' ← spec_step address code c tx; cs ← spec_run address code c' txs; Some (c' :: cs)
  end.

(** A request with its output, its answer channel and the time of receipt. *)
Record ContractRequest := { cq_tx : Transaction; cq_output : Output; cq_sub : nat; cq_now : Z }.
Definition admissible (address : Address) (sel : option StateSelector) (rq : ContractRequest) : bool :=
  bool_decide (head (output_of (cq_tx rq) address) = Some (cq_output rq)) && is_request (cq_output rq) &&
  bool_decide (ok_opt (request_selector (cq_output rq)) = Some sel) &&
  bool_decide (is_Some (ok_opt (metadata_time (cq_tx rq)))) && bool_decide (is_Some (ok_opt (hash_bytes (cq_tx rq)))) &&
  alive (cq_sub rq).
(** A request arrives, and the interval passes. *)
Definition round (rq : ContractRequest) : C unit :=
  _ ← manager_step (Some (cq_tx rq, cq_output rq, cq_sub rq, cq_now rq)); manager_step None.

(** The marker that answers a request after which the contract is [c]. *)
Record answer_of (address : Address) (sel : option StateSelector) (rq : ContractRequest) (c : ContractSpec)
    (csm : ContractStateMarker) : Prop := {
  ans_address : csm_address csm = Some address;
  ans_selector : csm_selector csm = sel;
  ans_state : safe_bytes (csm_state csm) = Ok (cs_state c);
  ans_nonce : csm_nonce csm = cs_nonce c;
  ans_transaction : csm_transaction_marker csm = Some (hash_or (cq_tx rq));
  ans_time : metadata_time (cq_tx rq) = Ok (csm_time csm) }.

Definition code_ready (d : ContractDb) (address : Address) (code : bytes) : Prop :=
  ∃ r u o, resolve_code d address = Ok r ∧ rcr_utxo_entry r = Some u ∧ ue_output u = Some o ∧ Output_code o = Some code.
Record represents (address : Address) (sel : option StateSelector) (code : bytes) (m : ContractStateManager)
    (c : ContractSpec) : Prop := {
  rep_idle : mg_unordered m = ∅ ∧ mg_subscribers m = ∅;
  rep_table : table_wf (cd_state (mg_db m));
  rep_code : code_ready (mg_db m) address code;
  rep_recent : ∃ csm, query_recent_state (mg_db m) address sel (Some 1) = Ok [csm] ∧
                      safe_bytes (csm_state csm) = Ok (cs_state c) ∧ csm_nonce csm = cs_nonce c }.

Lemma code_ready_state `{!ProtoLaws ContractStateMarker} d rows address code addr :
  safe_bytes (a_address address) = Ok addr → table_wf rows → code_ready d address code →
  code_ready (with_state (λ _, rows) d) address code.
Proof.
intros Ha Hwf (r & u & o & Hr & Hu & Ho & Hc). unfold resolve_code in Hr.
apply bind_Ok in Hr as (res & Hres & Hr). unfold code_ready, resolve_code. cbn [with_state cd_store]. rewrite Hres.
cbn [mbind result_bind]. destruct (res ≫= _) as [h|].
2: { injection Hr as <-. cbn in Hu. by eauto 10. }
apply bind_Ok in Hr as (tx & Htx & Hr). apply bind_Ok in Hr as (ms & _ & Hr). injection Hr as <-. rewrite Htx.
cbn [mbind result_bind].
destruct (query_recent_one (with_state (λ _, rows) d) address None addr None Ha eq_refl Hwf)
  as [[_ ->]|(? & ? & -> & _)]; cbn in Hu |- *; by eauto 10.
Qed.

(** What the outer loop reads before the requests of a key. *)
Lemma order_key_ready k m v v2 address csm0 code :
  ck_address k = Some address → mg_unordered m !! k = Some v →
  query_recent_state (mg_db m) address (ck_selector k) (Some 1) = Ok [csm0] →
  code_ready (mg_db m) address code → sort_by_time v = Ok v2 →
  order_key k m = apply_requests k address csm0 code 0 v2 m.
Proof.
intros Ha Hv Hq (r & u & o & Hr & Hu & Ho & Hc) Hs. unfold order_key.
erewrite M_bind_step by reflexivity. rewrite Hv, Ha. erewrite M_bind_step by reflexivity.
erewrite M_bind_step by reflexivity. rewrite Hq. do 2 (erewrite M_bind_step by reflexivity).
erewrite M_bind_step by reflexivity. rewrite Hr. erewrite M_bind_step by reflexivity. rewrite Hu.
erewrite M_bind_step by reflexivity. rewrite Ho. erewrite M_bind_step by reflexivity. rewrite Hc.
erewrite M_bind_step by reflexivity. cbn [default from_option id]. rewrite Hs. by erewrite M_bind_step by reflexivity.
Qed.

(** Two or more pending requests of one key make the ordering panic. *)
Theorem contended_key_panics k m v v2 address csm0 code :
  ck_address k = Some address → mg_unordered m !! k = Some v → (2 ≤ length v)%nat →
  query_recent_state (mg_db m) address (ck_selector k) (Some 1) = Ok [csm0] →
  code_ready (mg_db m) address code → sort_by_time v = Ok v2 →
  Forall (servable k address csm0 code) v2 → alive_subs k m →
  ∃ m', order_key k m = (Panic, m').
Proof.
intros Ha Hv Hlen Hq Hc Hs Hsv Hal. rewrite (order_key_ready k m v v2 address csm0 code) by done.
assert (length v2 = length v) as Hl.
{ destruct v as [|e1 [|e2 v]]; simpl in Hlen; [lia..|]. cbn [sort_by_time] in Hs.
  apply bind_Ok in Hs as (keyed & Hk & Hs). injection Hs as <-. rewrite length_fmap, sort_by_perm.
  by apply mapR_length in Hk. }
destruct v2 as [|tx v2]; [simpl in Hl; lia|]. apply Forall_cons in Hsv as [(csm & row & Hn & Hr) Hsv].
cbn [apply_requests]. unfold mbind, M_bind. rewrite (apply_request_run k address csm0 code 0 tx m csm row Hn Hr Hal).
rewrite Hv. cbn [default from_option id]. rewrite bool_decide_false by lia.
apply later_turns_panic; [done| | | |lia].
- unfold alive_subs. simpl. rewrite lookup_delete_eq. constructor.
- intros ->. simpl in Hl. lia.
- simpl. rewrite lookup_insert_eq. simpl. rewrite length_delete by (apply lookup_lt_is_Some; lia). simpl in Hl. lia.
Qed.

Lemma next_marker_Ok address sel csm0 code tx c c' time :
  safe_bytes (csm_state csm0) = Ok (cs_state c) → spec_step address code c tx = Some c' → metadata_time tx = Ok time →
  ∃ st, bd_value st = cs_state c' ∧ next_marker address sel csm0 code tx = Ok
    {| csm_address := Some address; csm_state := Some st; csm_selector := sel;
       csm_transaction_marker := Some (hash_or tx); csm_nonce := i64_add (csm_nonce csm0) 1; csm_time := time |}.
Proof.
intros Hst Hs Ht. unfold spec_step in Hs.
apply bind_Some in Hs as (o & Ho & Hs). apply bind_Some in Hs as (input & Hi & Hs).
apply bind_Some in Hs as (er & He & Hs). apply bind_Some in Hs as (d & Hd & Hs).
apply bind_Some in Hs as (st & Hstd & Hs). injection Hs as <-. exists st. split; [done|].
unfold next_marker. rewrite Ho. cbn [mbind result_bind safe_get_msg ok_or].
destruct (request_data o); simplify_eq/=. rewrite Hst. cbn.
destruct (invoke code input (cs_state c)); simplify_eq/=. rewrite Hd. cbn. rewrite Hstd. cbn. by rewrite Ht.
Qed.

Lemma selector_hash_Ok s : is_Some (ok_opt (selector_hash s)).
Proof. destruct s; by eexists. Qed.

Lemma admissible_spec address sel rq :
  admissible address sel rq = true →
  head (output_of (cq_tx rq) address) = Some (cq_output rq) ∧ o_address (cq_output rq) = Some address ∧
  is_request (cq_output rq) = true ∧ is_deploy (cq_output rq) = false ∧
  request_selector (cq_output rq) = Ok sel ∧ (∃ t, metadata_time (cq_tx rq) = Ok t) ∧
  (∃ h, hash_bytes (cq_tx rq) = Ok h) ∧ alive (cq_sub rq) = true.
Proof.
unfold admissible. rewrite !andb_true_iff, !bool_decide_eq_true. intros (((((Ho & Hr) & Hs) & [t Ht]) & [h Hh]) & Hal).
split_and!; try done.
- destruct (output_of (cq_tx rq) address) as [|o l] eqn:E; [done|]. injection Ho as ->.
  assert (In (cq_output rq) (output_of (cq_tx rq) address)) as Hin by (rewrite E; by left).
  apply filter_In in Hin as [_ Hin]. by apply bool_decide_eq_true in Hin.
- unfold is_request, is_deploy in *. apply bool_decide_eq_true in Hr. rewrite Hr. by apply bool_decide_eq_false.
- destruct (request_selector (cq_output rq)); by simplify_eq/=.
- destruct (metadata_time (cq_tx rq)); simplify_eq/=. by eexists.
- destruct (hash_bytes (cq_tx rq)); simplify_eq/=. by eexists.
Qed.

(** A request that arrives at an idle manager is the one pending request. *)
Lemma process_tx_idle address sel rq m :
  admissible address sel rq = true → mg_unordered m = ∅ → mg_subscribers m = ∅ →
  let k := contract_request address sel in
  manager_step (Some (cq_tx rq, cq_output rq, cq_sub rq, cq_now rq)) m =
  (Ok tt, {| mg_db := mg_db m; mg_unordered := {[k := [(cq_tx rq, cq_now rq)]]};
             mg_subscribers := {[k := [cq_sub rq]]}; mg_answers := mg_answers m |}).
Proof.
intros Had Hu Hs k. destruct (admissible_spec _ _ _ Had) as (_ & Ha & Hr & Hd & Hsel & _).
unfold manager_step, process_tx. rewrite Hd, Hr. do 2 (erewrite M_bind_step by reflexivity).
assert (request_contention_key (cq_output rq) = Ok k) as -> by (unfold request_contention_key; rewrite Ha; cbn; by rewrite Hsel).
do 2 (erewrite M_bind_step by reflexivity). unfold modify, mg_with_unordered, mg_with_subscribers.
cbn [mg_unordered mg_subscribers mg_db mg_answers]. rewrite Hu, Hs. do 2 f_equal; apply map_eq; intros k';
  (destruct (decide (k = k')) as [<-|]; [by rewrite lookup_partial_alter_eq, lookup_singleton_eq
                                        |by rewrite lookup_partial_alter_ne, lookup_singleton_ne]).
Qed.

Lemma state_row_total c address addr st mk h :
  csm_address c = Some address → safe_bytes (a_address address) = Ok addr → csm_state c = Some st →
  csm_transaction_marker c = Some mk → safe_bytes (h_bytes mk) = Ok h → ∃ row, state_row c = Ok row.
Proof.
intros Ha Hb Hs Hm Hh. unfold state_row. rewrite Ha, Hs, Hm. cbn [opt_Address_safe_bytes ok_or mbind result_bind].
rewrite Hb. cbn [mbind result_bind]. destruct (selector_hash_Ok (csm_selector c)) as [x Hx].
destruct (selector_hash (csm_selector c)); simplify_eq/=. rewrite Hh. by eexists.
Qed.

(** The interval with one pending request. *)
Lemma interval_single k m v address csm0 code csm row tx now :
  ck_address k = Some address → mg_unordered m = {[k := [(tx, now)]]} →
  query_recent_state (mg_db m) address (ck_selector k) (Some 1) = Ok [csm0] → code_ready (mg_db m) address code →
  next_marker address (ck_selector k) csm0 code tx = Ok csm → state_row csm = Ok row → 
  mg_subscribers m !! k = Some v → Forall (λ s, alive s = true) v →
  manager_interval m = (Ok tt, 
    {| mg_db := with_state (λ rows, List.filter (λ r, negb (same_state_key r row)) rows ++ [row]) (mg_db m);
       mg_unordered := ∅; mg_subscribers := delete k (mg_subscribers m);
       mg_answers := mg_answers m ++ ((λ s, (s, Ok csm)) <$> v) |}).
Proof.
intros Ha Hu Hq Hc Hn Hr Hs Hal. unfold manager_interval. erewrite M_bind_step by reflexivity.
rewrite Hu, map_to_list_singleton. cbn [fmap list_fmap fst iterM].
assert (order_key k m = apply_requests k address csm0 code 0 [tx] m) as Hok.
{ apply (order_key_ready k m [(tx, now)]); try done. by rewrite Hu, lookup_singleton_eq. }
cbn [apply_requests] in Hok.
assert (alive_subs k m) as Hsubs by (unfold alive_subs; by rewrite Hs).
pose proof (apply_request_run k address csm0 code 0 tx m csm row Hn Hr Hsubs) as Hrun. cbv zeta in Hrun.
rewrite Hu, lookup_singleton_eq, Hs in Hrun. cbn [default from_option id length] in Hrun.
rewrite bool_decide_false in Hrun by lia. rewrite (M_bind_step _ _ _ _ _ Hrun) in Hok.
rewrite (M_bind_step _ _ _ tt _ (M_bind_step _ _ _ tt _ Hok)).
unfold modify, mg_with_unordered, with_state. cbn [foldr mg_db mg_unordered mg_subscribers mg_answers].
by rewrite delete_insert_eq, delete_singleton_eq.
Qed.

(** One round serves one request. *)
Lemma round_refines `{!ProtoLaws ContractStateMarker} address sel code m c c' rq addr :
  safe_bytes (a_address address) = Ok addr → represents address sel code m c → admissible address sel rq = true →
  spec_step address code c (cq_tx rq) = Some c' → in_s 64 (cs_nonce c) → in_s 64 (cs_nonce c + 1) →
  ∃ m' csm, round rq m = (Ok tt, m') ∧ represents address sel code m' c' ∧
    mg_answers m' = mg_answers m ++ [(cq_sub rq, Ok csm)] ∧ answer_of address sel rq c' csm ∧ cs_nonce c' = cs_nonce c + 1.
Proof.
intros Haddr [[Hu Hs] Hwf Hcode (csm0 & Hq & Hst & Hn)] Had Hstep Hin0 Hin.
destruct (admissible_spec _ _ _ Had) as (_ & Ha & _ & _ & Hsel & [t Ht] & [h Hh] & Hal).
set (k := contract_request address sel).
destruct (next_marker_Ok address sel csm0 code (cq_tx rq) c c' t Hst Hstep Ht) as (st & Hbd & Hnext).
set (csm := {| csm_address := _ |}) in Hnext.
assert (csm_nonce csm = cs_nonce c + 1) as Hcn.
{ cbn. unfold i64_add. rewrite Hn. by apply wrap_s_id. }
assert (cs_nonce c' = cs_nonce c + 1) as Hc'.
{ unfold spec_step in Hstep. by repeat (apply bind_Some in Hstep as (? & _ & Hstep)); simplify_eq. }
assert (∃ row, state_row csm = Ok row) as [row Hrow].
{ by eapply (state_row_total csm). }
unfold round. rewrite (M_bind_step _ _ _ _ _ (process_tx_idle address sel rq m Had Hu Hs)). fold k.
cbn [manager_step]. 
rewrite (interval_single k _ [cq_sub rq] address csm0 code csm row (cq_tx rq) (cq_now rq)); try done;
  [|cbn [mg_subscribers]; by rewrite lookup_singleton_eq|by repeat constructor].
eexists _, csm. split; [reflexivity|]. split_and!; [|done| |done]; [|split; try done; [by rewrite <-Hbd|by rewrite Hcn]].
split; cbn [mg_db mg_unordered mg_subscribers].
- by rewrite delete_singleton_eq.
- by eapply table_wf_insert.
- eapply code_ready_state; [done| |done]. by eapply table_wf_insert.
- exists csm. split_and!; [|by rewrite <-Hbd|by rewrite Hcn].
  eapply insert_is_recent; try done. lia.
Qed.

Lemma last_cons_default {A} (x d : A) l : List.last (x :: l) d = List.last l x.
Proof. revert x d. induction l as [|y l IH]; intros x d; [done|]. change (List.last (y :: l) d = List.last (y :: l) x). by rewrite (IH y d), (IH y x). Qed.

(** C4: The manager refines the abstract contract: whatever the code, when it answers a
    state for each of the requests and they are sent one per interval, all are served
    and answered in order; each answer has the contract's address and selector, the
    request's hash and time, and the state and the nonce that the abstract contract has
    after that request; the table then holds the last of these states. *)
Theorem manager_refines_contract `{!ProtoLaws ContractStateMarker} address sel code addr rqs m c cs :
  safe_bytes (a_address address) = Ok addr → represents address sel code m c →
  Forall (λ rq, admissible address sel rq = true) rqs →
  spec_run address code c (cq_tx <$> rqs) = Some cs → in_s 64 (cs_nonce c) → in_s 64 (cs_nonce c + Z.of_nat (length rqs)) →
  ∃ m' csms, iterM round rqs m = (Ok tt, m') ∧ represents address sel code m' (List.last cs c) ∧
    cs_nonce <$> cs = seqZ (cs_nonce c + 1) (Z.of_nat (length rqs)) ∧
    mg_answers m' = mg_answers m ++ zip_with (λ rq csm, (cq_sub rq, Ok csm)) rqs csms ∧
    Forall3 (answer_of address sel) rqs cs csms.
Proof.
intros Ha Hr Had. revert m c cs Hr. induction Had as [|rq rqs Had _ IH]; intros m c cs Hr Hrun Hin0 Hin.
{ injection Hrun as <-. exists m, []. cbn. rewrite app_nil_r. split_and!; try done. constructor. }
cbn [fmap list_fmap spec_run] in Hrun. apply bind_Some in Hrun as (c1 & Hstep & Hrun). apply bind_Some in Hrun as (cs1 & Hrun & [= <-]).
cbn [length] in Hin. assert (in_s 64 (cs_nonce c + 1)) as Hin1 by (unfold in_s in *; lia).
destruct (round_refines address sel code m c c1 rq addr) as (m1 & csm & Hround & Hr1 & Hans & Hcsm & Hc1); try done.
destruct (IH m1 c1 cs1 Hr1 Hrun) as (m' & csms & Hrest & Hr' & Hn & Hans' & Hall).
{ by rewrite Hc1. }
{ rewrite Hc1. unfold in_s in *. lia. }
exists m', (csm :: csms). cbn [iterM length zip_with]. rewrite (M_bind_step _ _ _ _ _ Hround).
split_and!; [done| | | |by constructor].
- by rewrite last_cons_default.
- rewrite seqZ_cons by lia. cbn [fmap list_fmap]. rewrite Hn, Hc1. f_equal. f_equal; lia.
- by rewrite Hans', Hans, <-app_assoc.
Qed.
End contract.

(** * A contract that appends its input to its state *)

Module ContractDemo.
#[local] Existing Instance toy_host.
#[local] Existing Instance toy_crypto.
#[local] Instance demo_sql : Sql := "UNIQUE constraint failed".
#[local] Instance demo_pt : Proto Transaction := ser_proto Transaction.
#[local] Instance demo_pu : Proto UtxoEntry := ser_proto UtxoEntry.
#[local] Instance demo_po : Proto Output := ser_proto Output.
#[local] Instance demo_pp : Proto ObservationProof := ser_proto ObservationProof.
#[local] Instance demo_pe : Proto ErrorInfo := const_proto ErrorInfo (λ _, []).
#[local] Instance demo_je : Json ErrorInfo := demo_json.
#[local] Instance demo_psel : Proto StateSelector := const_proto StateSelector (λ _, []).
#[local] Instance demo_pbd : Proto BytesData := ser_proto BytesData.
#[global] Instance ser_StateSelector : Ser StateSelector :=
  ser_via (λ _, 0) (λ _, mk_StateSelector) (λ r, match r with mk_StateSelector => eq_refl end).
#[global] Instance ser_ContractStateMarker : Ser ContractStateMarker :=
  ser_via (λ r, (csm_address r, csm_state r, csm_selector r, csm_transaction_marker r, csm_nonce r, csm_time r))
    (λ '(a, s, l, t, n, c), {| csm_address := a; csm_state := s; csm_selector := l; csm_transaction_marker := t;
                               csm_nonce := n; csm_time := c |})
    (λ r, match r with Build_ContractStateMarker _ _ _ _ _ _ => eq_refl end).
#[local] Instance demo_pcsm : Proto ContractStateMarker := ser_proto ContractStateMarker.
#[local] Instance demo_pcsm_laws : ProtoLaws ContractStateMarker := ser_proto_laws ContractStateMarker.

Definition code : bytes := [Byte.x07].
Definition home : Address := match script_hash code with Ok a => a | _ => demo_kp_address end.
Definition contract_output (data : option StandardData) (contract : option OutputContract) (type : Z) : Output :=
  {| o_address := Some home; o_product_id := None; o_counter_party_proofs := []; o_data := data;
     o_contract := contract; o_output_type := Some type; o_utxo_id := None |}.
Definition contract_tx (time : Z) (o : Output) : Transaction :=
  {| tx_inputs := []; tx_outputs := [o]; tx_struct_metadata := struct_metadata time; tx_options := tx_options demo_spend |}.
Definition deploy : Transaction := contract_tx 1 (contract_output (amount_data 10)
  (Some {| oc_standard_contract_type := None;
           oc_code_execution_contract := Some {| cec_address := None; cec_code := bytes_data code; cec_executor := None |};
           oc_threshold := None; oc_weights := []; oc_pay_update_descendents := false; oc_consumable := false |})
  OutputType_Deploy).
Definition request_payload (b : bytes) : StandardData :=
  {| d_amount := None; d_generic_typed_value := None; d_peer_data := None; d_node_metadata := None;
     d_dynamic_node_metadata := None; d_height := None; d_data_hash := None; d_hash := None; d_observation := None;
     d_address := None; d_state := None; d_request := bytes_data b;
     d_standard_request := Some {| sr_selector := Some mk_StateSelector |}; d_liquidity_request := None; d_portfolio_info := None;
     d_schema_def := None; d_data := None; d_aggregate_state_hash := None; d_external_transaction_id := None |}.
Definition request (time : Z) (b : bytes) (sub : nat) : ContractRequest :=
  let o := contract_output (Some (request_payload b)) None OutputType_RequestCall in
  {| cq_tx := contract_tx time o; cq_output := o; cq_sub := sub; cq_now := time |}.

Definition d_of_state (b : bytes) : StandardData :=
  {| d_amount := None; d_generic_typed_value := None; d_peer_data := None; d_node_metadata := None;
     d_dynamic_node_metadata := None; d_height := None; d_data_hash := None; d_hash := None; d_observation := None;
     d_address := None; d_state := bytes_data b; d_request := None; d_standard_request := None;
     d_liquidity_request := None; d_portfolio_info := None; d_schema_def := None; d_data := None;
     d_aggregate_state_hash := None; d_external_transaction_id := None |}.
Definition run_append (c input state : bytes) : RgResult ExecutionResult :=
  Ok {| er_valid := true; er_result_metadata := None; er_data := Some (d_of_state (state ++ input)) |}.
Definition always (_ : nat) : bool := true.
Definition sel : option StateSelector := Some mk_StateSelector.

Definition initial_marker : ContractStateMarker :=
  {| csm_address := Some home; csm_state := bytes_data []; csm_selector := sel;
     csm_transaction_marker := Some (hash_or deploy); csm_nonce := 0; csm_time := 1 |}.
Definition deployed : ContractDb :=
  (insert_state initial_marker {| cd_store := (insert_transaction deploy 1 true None true empty_store).2; cd_state := [] |}).2.
Definition idle : ContractStateManager :=
  {| mg_db := deployed; mg_unordered := ∅; mg_subscribers := ∅; mg_answers := [] |}.
Definition requests : list ContractRequest := [request 5 [Byte.x41] 1; request 6 [Byte.x42] 2; request 7 [Byte.x43] 3].

Lemma deployed_wf : table_wf (cd_state deployed).
Proof.
split; [|by_decision]. change (cd_state deployed) with (from_option (λ r, [r]) [] (ok_opt (state_row initial_marker))).
destruct (state_row initial_marker) eqn:E; repeat constructor. by exists initial_marker.
Qed.
Lemma deployed_code : code_ready deployed home code.
Proof. unfold code_ready. eexists _, _, _. split; [vm_compute; reflexivity|]. split_and!; reflexivity. Qed.
Lemma idle_represents : represents home sel code idle {| cs_state := []; cs_nonce := 0 |}.
Proof.
split; [done|apply deployed_wf|apply deployed_code|]. exists initial_marker. split_and!; [vm_compute; reflexivity|done|done].
Qed.

Definition states : list ContractSpec :=
  [{| cs_state := [Byte.x41]; cs_nonce := 1 |}; {| cs_state := [Byte.x41; Byte.x42]; cs_nonce := 2 |};
   {| cs_state := [Byte.x41; Byte.x42; Byte.x43]; cs_nonce := 3 |}].
Lemma manager_refines_witness :
  ∃ m' csms, iterM (round run_append always) requests idle = (Ok tt, m') ∧
    represents home sel code m' {| cs_state := [Byte.x41; Byte.x42; Byte.x43]; cs_nonce := 3 |} ∧
    Forall3 (answer_of home sel) requests states csms.
Proof.
destruct (manager_refines_contract run_append always home sel code (from_option bd_value [] (a_address home)) requests idle
  {| cs_state := []; cs_nonce := 0 |} states)
  as (m' & csms & Hrun & Hrep & _ & _ & Hall).
- vm_compute. reflexivity.
- apply idle_represents.
- repeat constructor; vm_compute; reflexivity.
- vm_compute. reflexivity.
- by_decision.
- by_decision.
- exists m', csms. split; [exact Hrun|]. split; [exact Hrep|exact Hall].
Defined.

(** Two requests that arrive in one interval. *)
Definition contended : ContractStateManager :=
  (iterM (λ rq, manager_step run_append always (Some (cq_tx rq, cq_output rq, cq_sub rq, cq_now rq))) (take 2 requests) idle).2.

Lemma contended_key_witness : ∃ m', order_key run_append always (contract_request home sel) contended = (Panic, m').
Proof.
apply (contended_key_panics run_append always (contract_request home sel) contended
  ((λ rq, (cq_tx rq, cq_now rq)) <$> take 2 requests) (cq_tx <$> take 2 requests) home initial_marker code).
- vm_compute. reflexivity.
- vm_compute. reflexivity.
- by_decision.
- vm_compute. reflexivity.
- apply deployed_code.
- vm_compute. reflexivity.
- repeat constructor; eexists _, _; (split; [vm_compute; reflexivity|vm_compute; reflexivity]).
- apply Forall_true. intros x. exact eq_refl.
Defined.

Lemma reachable_table_witness :
  table_wf (cd_state deployed) ∧ query_recent_state deployed home sel (Some 1) = Ok [initial_marker].
Proof.
assert (table_reach (cd_state deployed)) as Hr.
{ eapply (tr_insert {| cd_store := (insert_transaction deploy 1 true None true empty_store).2; cd_state := [] |} initial_marker);
    [constructor|vm_compute; reflexivity]. }
destruct (reachable_table_wf deployed home sel (from_option bd_value [] (a_address home))
  (match selector_hash sel with Ok x => x | _ => None end) Hr) as [Hwf _]; [vm_compute; reflexivity..|].
split; [exact Hwf|vm_compute; reflexivity].
Defined.
End ContractDemo.
