(* ===== verification/Contention.v ===== *)
(** * Contention on a key

    src/core/transact/contention_conflicts.rs: transactions register under a
    [ContentionKey] and are told whether they are alone. *)

From stdpp Require Import base list gmap strings pretty.
From S2P Require Import Prelude Structs Interfaces Schema Transaction Keys Contract.
#[local] Open Scope Z_scope.
#[local] Open Scope redgold_scope.

Record ContentionResult := { cr_winner : option Hash; cr_no_contest : bool; cr_proofs : list ObservationProof }.
Inductive ContentionMessageInner :=
| RegisterPotentialContention (transaction_hash : Hash)
| ObservationInfo (observation_metadata : ObservationMetadata)
| CheckContentionAccepted (transaction_hash : Hash).
Record ContentionMessage := { cm_key : ContentionKey; cm_response : nat; cm_message : ContentionMessageInner }.

(** The subscribers and the proof buffer of the manager are never used. *)
Record ContentionConflictManager := {
  cc_contentions : gmap ContentionKey (gmap Hash Z);
  cc_answers : list (nat * RgResult ContentionResult) }.
Definition cc_new : ContentionConflictManager := {| cc_contentions := ∅; cc_answers := [] |}.

Section contention.
Context {host : Host} {jh : Json Hash}.

Definition no_result : ContentionResult := {| cr_winner := None; cr_no_contest := false; cr_proofs := [] |}.
Definition process_message (key : ContentionKey) (msg : ContentionMessageInner) (time : Z)
    (c : ContentionConflictManager) : RgResult ContentionResult * ContentionConflictManager :=
  match msg with
  | RegisterPotentialContention hash =>
      match cc_contentions c !! key with
      | Some contentions =>
          match contentions !! hash with
          | Some ts =>
              (Err (error_info ("Duplicate contention, hash already registered at time " +:+ pretty ts +:+ " " +:+ json_or hash)), c)
          | None =>
              (Ok {| cr_winner := Some hash; cr_no_contest := true; cr_proofs := [] |},
               {| cc_contentions := <[key := <[hash := time]> contentions]> (cc_contentions c); cc_answers := cc_answers c |})
          end
      | None =>
          (Ok no_result,
           {| cc_contentions := <[key := {[hash := time]}]> (cc_contentions c); cc_answers := cc_answers c |})
      end
  | ObservationInfo _ | CheckContentionAccepted _ => (Ok no_result, c)
  end.

(** [interval_fold_or_recv]: a message is answered, an interval does nothing; an
    answer that nobody receives ends the task. *)
Definition contention_step (alive : nat → bool) (m : option (ContentionMessage * Z)) :
    M ContentionConflictManager ErrorInfo unit := λ c,
  match m with
  | Some (m, time) =>
      let '(r, c) := process_message (cm_key m) (cm_message m) time c in
      if alive (cm_response m)
      then (Ok tt, {| cc_contentions := cc_contentions c; cc_answers := cc_answers c ++ [(cm_response m, r)] |})
      else (Err (error_message InternalChannelReceiveError "sending on a closed channel"), c)
  | None => (Ok tt, c)
  end.

(** * Properties *)

(** Whoever registered under the key. *)
Definition registered (c : ContentionConflictManager) (key : ContentionKey) : gset Hash :=
  dom (default ∅ (cc_contentions c !! key)).
Definition registrations (key : ContentionKey) (claims : list (Hash * nat * Z)) : list (option (ContentionMessage * Z)) :=
  (λ '(h, s, t), Some ({| cm_key := key; cm_response := s; cm_message := RegisterPotentialContention h |}, t)) <$> claims.
(** What the [i]th of several distinct claims on a fresh key is told. *)
Definition claim_answer (first : bool) (h : Hash) : RgResult ContentionResult :=
  Ok (if first then no_result else {| cr_winner := Some h; cr_no_contest := true; cr_proofs := [] |}).

Lemma later_claims alive key claims c tbl :
  Forall (λ x, alive x.1.2 = true) claims → NoDup (claims.*1.*1) →
  cc_contentions c !! key = Some tbl → Forall (λ x, tbl !! x.1.1 = None) claims →
  ∃ c', iterM (contention_step alive) (registrations key claims) c = (Ok tt, c') ∧
    cc_answers c' = cc_answers c ++ ((λ x, (x.1.2, claim_answer false x.1.1)) <$> claims).
Proof.
revert c tbl. induction claims as [|[[h s] t] claims IH]; intros c tbl Hal Hnd Hk Hfree.
{ exists c. cbn. by rewrite app_nil_r. }
apply Forall_cons in Hal as [Hs Hal]. apply Forall_cons in Hfree as [Hh Hfree]. cbn [fmap list_fmap fst] in Hnd.
apply NoDup_cons in Hnd as [Hni Hnd]. cbn [registrations fmap list_fmap iterM].
erewrite M_bind_step.
2: { unfold contention_step. cbn [cm_key cm_message cm_response process_message]. rewrite Hk. cbn in Hh. rewrite Hh.
     cbn in Hs. rewrite Hs. reflexivity. }
destruct (IH {| cc_contentions := <[key := <[h := t]> tbl]> (cc_contentions c);
                cc_answers := cc_answers c ++ [(s, claim_answer false h)] |} (<[h := t]> tbl)) as (c' & Hr & Ha);
  [exact Hal|exact Hnd|cbn; apply lookup_insert_eq| |].
- apply Forall_forall. intros [[h' s'] t'] Hin. rewrite Forall_forall in Hfree. cbn [fst].
  rewrite lookup_insert_ne; [by apply (Hfree _ Hin)|]. intros <-. apply Hni. apply list_elem_of_fmap. exists (h, s'). split; [done|]. apply list_elem_of_fmap. by exists (h, s', t').
- exists c'. split; [exact Hr|]. rewrite Ha. cbn. by rewrite <-app_assoc.
Qed.

(** Of several transactions that claim one key, the first is told nothing and every
    other one that it won without a contest. *)
Theorem every_later_claim_wins alive key claims c :
  Forall (λ x, alive x.1.2 = true) claims → NoDup (claims.*1.*1) → cc_contentions c !! key = None →
  ∃ c', iterM (contention_step alive) (registrations key claims) c = (Ok tt, c') ∧
    cc_answers c' = cc_answers c ++ imap (λ i x, (x.1.2, claim_answer (bool_decide (i = 0%nat)) x.1.1)) claims.
Proof.
intros Hal Hnd Hk. destruct claims as [|[[h s] t] claims]; [exists c; cbn; by rewrite app_nil_r|].
apply Forall_cons in Hal as [Hs Hal]. cbn [fmap list_fmap fst] in Hnd. apply NoDup_cons in Hnd as [Hni Hnd].
cbn [registrations fmap list_fmap iterM]. erewrite M_bind_step.
2: { unfold contention_step. cbn [cm_key cm_message cm_response process_message]. rewrite Hk. cbn in Hs. rewrite Hs. reflexivity. }
destruct (later_claims alive key claims {| cc_contentions := <[key := {[h := t]}]> (cc_contentions c);
    cc_answers := cc_answers c ++ [(s, claim_answer true h)] |} {[h := t]}) as (c' & Hr & Ha);
  [exact Hal|exact Hnd|cbn; apply lookup_insert_eq| |].
- apply Forall_forall. intros [[h' s'] t'] Hin. cbn [fst]. rewrite lookup_singleton_ne; [done|]. intros <-. apply Hni.
  apply list_elem_of_fmap. exists (h, s'). split; [done|]. apply list_elem_of_fmap. by exists (h, s', t').
- exists c'. split; [exact Hr|]. rewrite Ha. cbn [cc_answers imap]. rewrite <-app_assoc. f_equal. cbn. f_equal.
  apply list_eq. intros i. rewrite list_lookup_fmap, list_lookup_imap. by destruct (claims !! i).
Qed.
End contention.

Lemma every_later_claim_witness :
  ∃ c', iterM (contention_step (host := toy_host) (jh := demo_json) (λ _, true))
    (registrations (contract_request demo_address None) [(Hash_new [Byte.x01], 1%nat, 5); (Hash_new [Byte.x02], 2%nat, 6)]) cc_new = (Ok tt, c') ∧
    cc_answers c' = [(1%nat, Ok no_result);
      (2%nat, Ok {| cr_winner := Some (Hash_new [Byte.x02]); cr_no_contest := true; cr_proofs := [] |})].
Proof.
apply (every_later_claim_wins (host := toy_host) (jh := demo_json) (λ _, true) (contract_request demo_address None)
  [(Hash_new [Byte.x01], 1%nat, 5); (Hash_new [Byte.x02], 2%nat, 6)] cc_new).
- repeat constructor.
- by_decision.
- reflexivity.
Defined.
