(* ===== verification/Mempool.v ===== *)
(** * The mempool

    src/core/mempool.rs: transactions wait in a [BinaryHeap] until the processing
    channel has room; [run_interval_inner] of src/core/stream_handlers.rs drives
    [interval_fold] and stops at its first error.

    A [BinaryHeap] is the list of its elements: which of several greatest elements
    [pop] answers is left open by its documentation, so [pop] is an operation with
    a law ([Heap], [HeapLaws]) and [toy_heap] is an instance.  [BinaryHeap] compares
    with [partial_cmp] only. *)

From stdpp Require Import base list gmap strings sorting.
From S2P Require Import Prelude Structs Interfaces Schema Merkle Transaction Keys Store Wire.
#[local] Open Scope Z_scope.
#[local] Open Scope redgold_scope.

(** The sender of a response is named by a number. *)
Record TransactionMessage := { tm_transaction : Transaction; tm_response_channel : option nat }.
Record MempoolEntry := { me_transaction : TransactionMessage; me_fee_acceptable_address : list Address }.
#[global] Instance TransactionMessage_eq_dec : EqDecision TransactionMessage.
Proof. solve_decision. Defined.
#[global] Instance MempoolEntry_eq_dec : EqDecision MempoolEntry.
Proof. solve_decision. Defined.

Definition entry_tx (e : MempoolEntry) : Transaction := tm_transaction (me_transaction e).
(** [partial_cmp] compares the other's amount with one's own: the greatest entry is
    one with the least amount. *)
Definition entry_le (a b : MempoolEntry) : bool := total_output_amount (entry_tx b) <=? total_output_amount (entry_tx a).

Class Heap := heap_pop : list MempoolEntry → option (MempoolEntry * list MempoolEntry).
Class HeapLaws `{Heap} : Prop := {
  heap_pop_empty : heap_pop [] = None;
  heap_pop_greatest h : h ≠ [] →
    ∃ e h', heap_pop h = Some (e, h') ∧ h ≡ₚ e :: h' ∧ Forall (λ x, entry_le x e = true) h' }.

(** What [try_send] answers. *)
Inductive TrySend := Sent | Full | Disconnected.

(** The relay as the mempool sees it: [mempool_entries], the keys of
    [transaction_channels], the data store, what was sent on to processing, and the
    answers to submitters. *)
Record Mempool := {
  mp_heap : list MempoolEntry; mp_entries : gmap Hash Transaction; mp_channels : gset Hash; mp_store : Store;
  mp_sent : list TransactionMessage; mp_answers : list (nat * ErrorInfo) }.

Section mempool.
Context {host : Host} {crypto : Crypto} {sql : Sql}.
Context {ptx : Proto Transaction} {pei : Proto ErrorInfo}.
Context {heap : Heap}.
(** The addresses of the seeds, and whether a submitter still waits. *)
Context (addrs : list Address) (alive : nat → bool).

Notation P := (M Mempool ErrorInfo).

Definition mp_with_heap (h : list MempoolEntry) (m : Mempool) : Mempool :=
  {| mp_heap := h; mp_entries := mp_entries m; mp_channels := mp_channels m; mp_store := mp_store m;
     mp_sent := mp_sent m; mp_answers := mp_answers m |}.
Definition mp_with_entries (f : gmap Hash Transaction → gmap Hash Transaction) (m : Mempool) : Mempool :=
  {| mp_heap := mp_heap m; mp_entries := f (mp_entries m); mp_channels := mp_channels m; mp_store := mp_store m;
     mp_sent := mp_sent m; mp_answers := mp_answers m |}.
Definition mp_send (t : TransactionMessage) (m : Mempool) : Mempool :=
  {| mp_heap := mp_heap m; mp_entries := mp_entries m; mp_channels := mp_channels m; mp_store := mp_store m;
     mp_sent := mp_sent m ++ [t]; mp_answers := mp_answers m |}.
Definition mp_answer (s : nat) (e : ErrorInfo) (m : Mempool) : Mempool :=
  {| mp_heap := mp_heap m; mp_entries := mp_entries m; mp_channels := mp_channels m; mp_store := mp_store m;
     mp_sent := mp_sent m; mp_answers := mp_answers m ++ [(s, e)] |}.

Definition push (e : MempoolEntry) : P unit :=
  _ ← modify (λ m, mp_with_heap (e :: mp_heap m) m);
  modify (mp_with_entries <[hash_or (entry_tx e) := entry_tx e]>).
Definition pop : P (option MempoolEntry) :=
  h ← gets mp_heap;
  match heap_pop h with
  | Some (e, h') =>
      _ ← modify (mp_with_heap h');
      _ ← modify (mp_with_entries (delete (hash_or (entry_tx e))));
      mret (Some e)
  | None => mret None
  end.

(** [Relay::transaction_known]. *)
Definition relay_transaction_known (m : Mempool) (h : Hash) : RgResult bool :=
  if bool_decide (is_Some (mp_entries m !! h)) then Ok true
  else if bool_decide (h ∈ mp_channels m) then Ok true
  else r ← query_maybe_transaction (mp_store m) h; Ok (bool_decide (is_Some r)).

Definition send_response (channel : nat) (e : ErrorInfo) : P unit :=
  if alive channel then modify (mp_answer channel e)
  else lift (Err (error_message InternalChannelReceiveError "sending on a closed channel")).
Definition receive (message : TransactionMessage) : P unit :=
  is_known ← gets (λ m, relay_transaction_known m (hash_or (tm_transaction message)));
  is_known ← lift is_known;
  if (is_known : bool) then
    match tm_response_channel message with
    | Some r => send_response r (error_info "Transaction already in process or known")
    | None => mret tt
    end
  else push {| me_transaction := message; me_fee_acceptable_address := addrs |}.

(** The second loop; [outcomes] answers the attempts to send.  Every turn takes an
    entry off the heap or ends the loop, so as many turns as entries and one more
    are enough ([drain_total]). *)
Fixpoint drain (fuel : nat) (outcomes : list TrySend) : P unit :=
  match fuel with
  | O => mret tt
  | S fuel =>
      popped ← pop;
      match (popped : option MempoolEntry) with
      | Some entry =>
          match default Full (head outcomes) with
          | Sent => _ ← modify (mp_send (me_transaction entry)); drain fuel (tail outcomes)
          | Full => push entry
          | Disconnected => lift (Err (error_info "transaction process channel closed unexpectedly"))
          end
      | None => mret tt
      end
  end.
(** [messages] is what [recv_while] took off the channel. *)
Definition interval_fold (messages : list TransactionMessage) (outcomes : list TrySend) : P unit :=
  _ ← iterM receive messages;
  n ← gets (λ m, length (mp_heap m));
  drain (S n) outcomes.
(** [run_interval_inner]: the first error ends the task. *)
Definition run_interval_inner (ticks : list (list TransactionMessage * list TrySend)) : P unit :=
  iterM (λ t, interval_fold t.1 t.2) ticks.

(** * Properties *)

Context {laws : HeapLaws}.

Definition entry_hash (e : MempoolEntry) : Hash := hash_or (entry_tx e).
(** [mempool_entries] is the heap, by hash. *)
Record mempool_wf (m : Mempool) : Prop := {
  mwf_nodup : NoDup (entry_hash <$> mp_heap m);
  mwf_entries : ∀ h, is_Some (mp_entries m !! h) ↔ h ∈ entry_hash <$> mp_heap m }.

Lemma push_run e m :
  push e m = (Ok tt, mp_with_entries <[entry_hash e := entry_tx e]> (mp_with_heap (e :: mp_heap m) m)).
Proof. done. Qed.
Lemma push_wf e m : entry_hash e ∉ entry_hash <$> mp_heap m → mempool_wf m → mempool_wf (push e m).2.
Proof.
intros Hn [Hd He]. split; rewrite push_run; cbn [snd mp_heap mp_entries mp_with_entries mp_with_heap fmap list_fmap].
- by constructor.
- intros h. rewrite lookup_insert_is_Some, He, elem_of_cons. destruct (decide (entry_hash e = h)); naive_solver.
Qed.

Lemma pop_cases m :
  (mp_heap m = [] ∧ pop m = (Ok None, m)) ∨
  ∃ e h', pop m = (Ok (Some e), mp_with_entries (delete (entry_hash e)) (mp_with_heap h' m)) ∧
    mp_heap m ≡ₚ e :: h' ∧ Forall (λ x, entry_le x e = true) h'.
Proof.
destruct (mp_heap m) as [|e0 h0] eqn:E.
- left. split; [done|]. unfold pop. erewrite M_bind_step by reflexivity. by rewrite E, heap_pop_empty.
- right. destruct (heap_pop_greatest (mp_heap m)) as (e & h' & Hp & Hperm & Hall); [by rewrite E|].
  exists e, h'. rewrite <-E. split_and!; [|done|done]. unfold pop. erewrite M_bind_step by reflexivity. by rewrite Hp.
Qed.
Lemma pop_wf m e h' :
  mp_heap m ≡ₚ e :: h' → mempool_wf m → mempool_wf (mp_with_entries (delete (entry_hash e)) (mp_with_heap h' m)).
Proof.
intros Hp [Hd He]. rewrite Hp in Hd. cbn [fmap list_fmap] in Hd. apply NoDup_cons in Hd as [Hn Hd].
split; cbn [mp_heap mp_entries mp_with_entries mp_with_heap]; [done|].
intros h. rewrite lookup_delete_is_Some, He, Hp. cbn [fmap list_fmap]. rewrite elem_of_cons. naive_solver.
Qed.

Definition amount_of (e : MempoolEntry) : Z := total_output_amount (entry_tx e).
(** How many attempts are answered [Sent] before the first other answer. *)
Fixpoint leading_sent (outcomes : list TrySend) : nat :=
  match outcomes with Sent :: o => S (leading_sent o) | _ => 0 end.
Definition same_outside (m m' : Mempool) : Prop :=
  mp_channels m' = mp_channels m ∧ mp_store m' = mp_store m.
#[local] Instance same_outside_preorder : PreOrder same_outside.
Proof. split; unfold same_outside; red; naive_solver congruence. Qed.

(** The loop sends the entries of least amount, in ascending order, as many as the
    channel takes, keeps the others, and ends. *)
Lemma drain_total fuel outcomes m :
  (length (mp_heap m) < fuel)%nat → mempool_wf m → Forall (λ o, o ≠ Disconnected) outcomes →
  ∃ m' sent, drain fuel outcomes m = (Ok tt, m') ∧ mp_heap m ≡ₚ sent ++ mp_heap m' ∧
    mp_sent m' = mp_sent m ++ (me_transaction <$> sent) ∧ StronglySorted (λ a b, amount_of a ≤ amount_of b) sent ∧
    (∀ s x, s ∈ sent → x ∈ mp_heap m' → amount_of s ≤ amount_of x) ∧
    length sent = Nat.min (leading_sent outcomes) (length (mp_heap m)) ∧ mempool_wf m' ∧ same_outside m m' ∧
    mp_answers m' = mp_answers m.
Proof.
revert outcomes m. induction fuel as [|fuel IH]; intros outcomes m Hf Hwf Ho; [lia|]. cbn [drain].
destruct (pop_cases m) as [[Hnil Hpop]|(e & h' & Hpop & Hperm & Hall)]; rewrite (M_bind_step _ _ _ _ _ Hpop).
{ exists m, []. rewrite Hnil. cbn. rewrite app_nil_r, Nat.min_0_r. split_and!; try done. constructor. set_solver. }
set (m1 := mp_with_entries _ _). assert (mempool_wf m1) as Hwf1 by (by apply pop_wf).
assert (length (mp_heap m) = S (length h')) as Hlen by (by rewrite Hperm).
assert (Forall (λ x, amount_of e ≤ amount_of x) h') as Hle.
{ eapply Forall_impl; [exact Hall|]. unfold entry_le, amount_of. intros x. by rewrite Z.leb_le. }
destruct outcomes as [|[| |] outcomes]; cbn [head default from_option id tail hd_error].
1, 3: exists (push e m1).2, []; rewrite push_run; cbn [snd mp_heap mp_with_entries mp_with_heap]; split_and!; try done;
  [cbn; by rewrite app_nil_r|constructor|set_solver|];
  change (mempool_wf (push e m1).2); apply push_wf; [|done]; destruct Hwf as [Hd _]; rewrite Hperm in Hd;
  by apply NoDup_cons in Hd as [? _].
2: by apply Forall_cons in Ho as [[] _].
apply Forall_cons in Ho as [_ Ho]. erewrite M_bind_step by reflexivity.
destruct (IH outcomes (mp_send (me_transaction e) m1)) as (m' & sent & Hd & Hp & Hs & Hsort & Hmin & Hn & Hw & Hso & Han).
{ cbn. lia. } { destruct Hwf1. by split. } { done. }
cbn [mp_send m1 mp_heap mp_with_entries mp_with_heap] in Hp.
exists m', (e :: sent). rewrite Hp in Hle. apply Forall_app in Hle as [Hle1 Hle2]. split_and!; try done.
- by rewrite Hperm, Hp.
- rewrite Hs. cbn. by rewrite <-app_assoc.
- by constructor.
- intros s x [->|Hs']%elem_of_cons Hx; [|by apply Hmin]. rewrite Forall_forall in Hle2. by apply Hle2.
- cbn [length leading_sent]. rewrite Hlen, Hn. cbn [mp_send m1 mp_heap mp_with_entries mp_with_heap]. lia.
Qed.

Definition entry_for (message : TransactionMessage) : MempoolEntry :=
  {| me_transaction := message; me_fee_acceptable_address := addrs |}.
Definition message_hash (message : TransactionMessage) : Hash := hash_or (tm_transaction message).
(** The store can be asked about the transaction, and its submitter still waits. *)
Definition receivable (m : Mempool) (message : TransactionMessage) : Prop :=
  (∃ r, query_maybe_transaction (mp_store m) (message_hash message) = Ok r) ∧
  (∀ c, tm_response_channel message = Some c → alive c = true).

(** A transaction is known when it waits, is in process or is stored. *)
Definition known_in (m : Mempool) (h : Hash) : bool :=
  bool_decide (h ∈ entry_hash <$> mp_heap m) || bool_decide (h ∈ mp_channels m) ||
  match query_maybe_transaction (mp_store m) h with Ok (Some _) => true | _ => false end.
(** The messages whose transaction is not known, the first of each; and the others. *)
Fixpoint newcomers (known : Hash → bool) (messages : list TransactionMessage) : list TransactionMessage :=
  match messages with
  | [] => []
  | t :: ts => if known (message_hash t) then newcomers known ts
               else t :: newcomers (λ h, bool_decide (h = message_hash t) || known h) ts
  end.
Fixpoint refused (known : Hash → bool) (messages : list TransactionMessage) : list TransactionMessage :=
  match messages with
  | [] => []
  | t :: ts => if known (message_hash t) then t :: refused known ts
               else refused (λ h, bool_decide (h = message_hash t) || known h) ts
  end.
Definition refusal (message : TransactionMessage) : option (nat * ErrorInfo) :=
  (λ c, (c, error_info "Transaction already in process or known")) <$> tm_response_channel message.

Lemma relay_known m message :
  mempool_wf m → receivable m message →
  relay_transaction_known m (message_hash message) = Ok (known_in m (message_hash message)).
Proof.
intros [_ He] [[r Hr] _]. unfold relay_transaction_known, known_in. rewrite (bool_decide_ext _ _ (He _)).
case_bool_decide; [done|]. case_bool_decide; [done|]. rewrite Hr. by destruct r.
Qed.

Lemma receive_known m message :
  relay_transaction_known m (message_hash message) = Ok true → receivable m message →
  receive message m = (Ok tt, {| mp_heap := mp_heap m; mp_entries := mp_entries m; mp_channels := mp_channels m;
    mp_store := mp_store m; mp_sent := mp_sent m; mp_answers := mp_answers m ++ option_list (refusal message) |}).
Proof.
intros Hk [_ Hal]. unfold receive, refusal. erewrite M_bind_step by reflexivity. fold (message_hash message). rewrite Hk.
erewrite M_bind_step by reflexivity. destruct (tm_response_channel message) as [c|] eqn:Ec.
- unfold send_response. by rewrite (Hal c).
- cbn. rewrite app_nil_r. by destruct m.
Qed.
Lemma receive_new m message :
  relay_transaction_known m (message_hash message) = Ok false → receive message m = push (entry_for message) m.
Proof.
intros Hk. unfold receive. erewrite M_bind_step by reflexivity. fold (message_hash message). rewrite Hk.
by erewrite M_bind_step by reflexivity.
Qed.
Lemma known_push m t h : known_in (push (entry_for t) m).2 h = bool_decide (h = message_hash t) || known_in m h.
Proof.
unfold known_in. rewrite push_run. cbn [snd mp_heap mp_channels mp_store mp_with_entries mp_with_heap fmap list_fmap].
rewrite (bool_decide_ext _ _ (elem_of_cons _ _ _)), bool_decide_or. by rewrite !orb_assoc.
Qed.

Lemma receive_all messages : ∀ known m,
  mempool_wf m → Forall (receivable m) messages → (∀ h, known_in m h = known h) →
  ∃ m1, iterM receive messages m = (Ok tt, m1) ∧ mempool_wf m1 ∧
    mp_heap m1 ≡ₚ (entry_for <$> newcomers known messages) ++ mp_heap m ∧ mp_sent m1 = mp_sent m ∧
    mp_answers m1 = mp_answers m ++ omap refusal (refused known messages).
Proof.
induction messages as [|msg messages IH]; intros known m Hwf H Hk.
{ exists m. cbn. by rewrite app_nil_r. }
apply Forall_cons in H as [Hmsg H]. cbn [iterM newcomers refused].
pose proof (relay_known m msg Hwf Hmsg) as Hrk. rewrite Hk in Hrk. destruct (known (message_hash msg)) eqn:E.
- rewrite (M_bind_step _ _ _ _ _ (receive_known m msg Hrk Hmsg)).
  edestruct (IH known {| mp_heap := mp_heap m; mp_entries := mp_entries m; mp_channels := mp_channels m;
    mp_store := mp_store m; mp_sent := mp_sent m; mp_answers := mp_answers m ++ option_list (refusal msg) |})
    as (m1 & Hr & Hw & Hp & Hs & Ha); [destruct Hwf; by split|done|done|].
  exists m1. split_and!; try done. rewrite Ha. cbn [mp_answers omap list_omap]. rewrite <-app_assoc. by destruct (refusal msg).
- assert (receive msg m = (Ok tt, (push (entry_for msg) m).2)) as Hr1 by (by rewrite receive_new).
  rewrite (M_bind_step _ _ _ _ _ Hr1).
  destruct (IH (λ h, bool_decide (h = message_hash msg) || known h) (push (entry_for msg) m).2) as (m1 & Hr & Hw & Hp & Hs & Ha).
  { apply push_wf; [|done]. intros Hin. rewrite <-Hk in E. unfold known_in in E. by rewrite bool_decide_eq_true_2 in E. }
  { done. } { intros h. by rewrite known_push, Hk. }
  exists m1. split_and!; try done.
  rewrite Hp, push_run. cbn [snd mp_heap mp_with_entries mp_with_heap fmap list_fmap]. by rewrite <-Permutation_middle.
Qed.

(** C24: A turn of the mempool whose store can be asked, whose submitters still wait and
    whose channel is open loses and duplicates nothing.  Of the messages it receives
    it takes in exactly those whose transaction neither waits nor is in process nor is
    stored, the first of each transaction; the others are dropped and, if someone waits,
    answered with an error.  What waited and what was taken in is sent or waits on,
    cheapest first and as many as the channel takes, and [mempool_entries] remains the
    index of the heap. *)
Theorem interval_fold_spec messages outcomes m :
  mempool_wf m → Forall (receivable m) messages → Forall (λ o, o ≠ Disconnected) outcomes →
  let taken := newcomers (known_in m) messages in
  ∃ m' sent, interval_fold messages outcomes m = (Ok tt, m') ∧
    (entry_for <$> taken) ++ mp_heap m ≡ₚ sent ++ mp_heap m' ∧
    mp_sent m' = mp_sent m ++ (me_transaction <$> sent) ∧ StronglySorted (λ a b, amount_of a ≤ amount_of b) sent ∧
    (∀ s x, s ∈ sent → x ∈ mp_heap m' → amount_of s ≤ amount_of x) ∧
    length sent = Nat.min (leading_sent outcomes) (length taken + length (mp_heap m)) ∧
    mp_answers m' = mp_answers m ++ omap refusal (refused (known_in m) messages) ∧ mempool_wf m'.
Proof.
intros Hwf Hm Ho taken. destruct (receive_all messages (known_in m) m Hwf Hm (λ _, eq_refl)) as (m1 & Hr & Hw & Hp & Hs & Ha).
destruct (drain_total (S (length (mp_heap m1))) outcomes m1) as (m' & sent & Hd & Hp' & Hs' & Hsort & Hmin & Hn & Hw' & _ & Ha');
  [lia|done|done|].
exists m', sent. unfold interval_fold. rewrite (M_bind_step _ _ _ _ _ Hr). erewrite M_bind_step by reflexivity.
split_and!; try done.
- unfold taken. by rewrite <-Hp, Hp'.
- by rewrite Hs', Hs.
- unfold taken. by rewrite Hn, Hp, length_app, length_fmap.
- by rewrite Ha'.
Qed.

(** A resubmitted transaction that was rejected ends the mempool: the stored
    rejection does not decode, the lookup fails, and the error ends the task with
    the rest of the batch unread. *)
Theorem rejected_resubmission_stops message rest outcomes ticks m row bytes reason e :
  mp_entries m !! message_hash message = None → message_hash message ∉ mp_channels m →
  Hash_safe_bytes (message_hash message) = Ok bytes → st_transactions (mp_store m) !! bytes = Some row →
  (∃ t : Transaction, proto_decode (tr_raw row) = inr t) → tr_rejection_reason row = Some reason →
  proto_decode (A := ErrorInfo) reason = inl e →
  run_interval_inner ((message :: rest, outcomes) :: ticks) m = (Err (error_message ProtoDecoderFailure e), m).
Proof.
intros He Hc Hb Hrow [t Ht] Hrej Hdec. unfold run_interval_inner. cbn [iterM fst snd].
apply M_bind_fail. unfold interval_fold. apply M_bind_fail. cbn [iterM]. apply M_bind_fail.
unfold receive. erewrite M_bind_step by reflexivity. fold (message_hash message).
assert (relay_transaction_known m (message_hash message) = Err (error_message ProtoDecoderFailure e)) as ->.
{ unfold relay_transaction_known. rewrite bool_decide_false by (rewrite He; by intros []). rewrite bool_decide_false by done.
  unfold query_maybe_transaction. rewrite Hb. cbn [mbind result_bind]. rewrite Hrow.
  unfold proto_deserialize. rewrite Ht. cbn [mbind result_bind]. rewrite Hrej, Hdec. done. }
by apply M_bind_fail.
Qed.
End mempool.

(** * A heap and a mempool *)

(** Takes the first entry of least amount. *)
Fixpoint pop_least (h : list MempoolEntry) : option (MempoolEntry * list MempoolEntry) :=
  match h with
  | [] => None
  | e :: h =>
      match pop_least h with
      | Some (e', h') => if total_output_amount (entry_tx e) <=? total_output_amount (entry_tx e') then Some (e, h)
                         else Some (e', e :: h')
      | None => Some (e, [])
      end
  end.
Definition toy_heap : Heap := pop_least.
Lemma pop_least_None h : pop_least h = None → h = [].
Proof. destruct h as [|e h]; [done|]. cbn. destruct (pop_least h) as [[]|]; [by case_match|done]. Qed.
Lemma pop_least_spec h e h' :
  pop_least h = Some (e, h') → h ≡ₚ e :: h' ∧ Forall (λ x, entry_le x e = true) h'.
Proof.
revert e h'. induction h as [|e0 h IH]; intros e h'; [done|]. cbn. destruct (pop_least h) as [[e1 h1]|] eqn:E.
- destruct (IH e1 h1 eq_refl) as [Hp Hall]. destruct (Z.leb_spec (total_output_amount (entry_tx e0)) (total_output_amount (entry_tx e1)));
    intros [= <- <-]; unfold entry_le in *.
  + split; [done|]. rewrite Hp. constructor; [by apply Z.leb_le|]. eapply Forall_impl; [exact Hall|]. simpl. intros x. rewrite !Z.leb_le. lia.
  + split; [rewrite Hp; apply Permutation_swap|]. constructor; [apply Z.leb_le; lia|done].
- apply pop_least_None in E as ->. intros [= <- <-]. split; [done|constructor].
Qed.
Lemma toy_heap_laws : HeapLaws (H := toy_heap).
Proof.
split; [done|]. intros h Hne. unfold heap_pop, toy_heap. destruct (pop_least h) as [[e h']|] eqn:E.
- destruct (pop_least_spec h e h' E). by exists e, h'.
- by apply pop_least_None in E.
Qed.

Module MempoolDemo.
#[local] Existing Instance toy_host.
#[local] Existing Instance toy_crypto.
#[local] Instance demo_sql : Sql := "UNIQUE constraint failed".
#[local] Instance demo_pt : Proto Transaction := ser_proto Transaction.
#[local] Instance demo_pe : Proto ErrorInfo := const_proto ErrorInfo (λ _, []).
#[local] Existing Instance toy_heap.

Definition paying (amount : Z) : TransactionMessage :=
  {| tm_transaction := {| tx_inputs := []; tx_outputs := [Output_new demo_address amount];
                          tx_struct_metadata := struct_metadata 1; tx_options := None |};
     tm_response_channel := None |}.
Definition empty_mempool (s : Store) : Mempool :=
  {| mp_heap := []; mp_entries := ∅; mp_channels := ∅; mp_store := s; mp_sent := []; mp_answers := [] |}.

Lemma interval_fold_witness :
  ∃ m' sent, interval_fold [] (λ _, true) [paying 30; paying 10; paying 30; paying 20] [Sent; Sent; Full] (empty_mempool empty_store) = (Ok tt, m') ∧
    (entry_for [] <$> [paying 30; paying 10; paying 20]) ++ [] ≡ₚ sent ++ mp_heap m' ∧ length sent = 2%nat.
Proof.
destruct (interval_fold_spec (laws := toy_heap_laws) [] (λ _, true) [paying 30; paying 10; paying 30; paying 20] [Sent; Sent; Full]
  (empty_mempool empty_store)) as (m' & sent & H1 & H2 & _ & _ & _ & H3 & _).
- split; [constructor|]. intros h. split; [by intros [? ?]|]. intros H. exfalso. exact (not_elem_of_nil _ H).
- repeat constructor; try (by intros ? [=]); eexists; vm_compute; reflexivity.
- by repeat constructor.
- assert (newcomers (known_in (empty_mempool empty_store)) [paying 30; paying 10; paying 30; paying 20] = [paying 30; paying 10; paying 20])
    as E by (vm_compute; reflexivity). rewrite E in H2, H3.
  exists m', sent. split; [exact H1|]. split; [exact H2|exact H3].
Defined.
(** The run of the witness: the two cheapest go on. *)
Example cheapest_first :
  (λ t, total_output_amount (tm_transaction t)) <$>
    mp_sent (interval_fold [] (λ _, true) [paying 30; paying 10; paying 20] [Sent; Sent; Full] (empty_mempool empty_store)).2
  = [10; 20].
Proof. vm_compute. reflexivity. Qed.

(** A rejection is stored as JSON text. *)
Definition rejected_store : Store :=
  (insert_transaction_raw (jei := demo_json) (tm_transaction (paying 10)) 1 false (Some (error_info "rejected")) empty_store).2.
Lemma rejected_resubmission_witness :
  run_interval_inner [] (λ _, true) [([paying 10; paying 20], [Sent; Sent])] (empty_mempool rejected_store) =
    (Err (error_message ProtoDecoderFailure "unsupported"), empty_mempool rejected_store).
Proof.
eapply (rejected_resubmission_stops [] (λ _, true) (paying 10) [paying 20]).
- reflexivity.
- set_solver.
- vm_compute. reflexivity.
- vm_compute. reflexivity.
- eexists. vm_compute. reflexivity.
- vm_compute. reflexivity.
- reflexivity.
Defined.
End MempoolDemo.
