(* ===== verification/Market.v ===== *)
(** * The market maker

    src/multiparty/watcher.rs: the curve of bids and asks that a multiparty
    address offers ([PriceVolume], [BidAsk]), filling an order from it
    ([fulfill_taker_order]) and the allocations of deposit keys.  Prices are
    [f64]; volumes are [u64].  The powers of the geometric curve come from the
    platform ([Libm]). *)

From stdpp Require Import base list gmap strings.
From S2P Require Import Prelude Structs Interfaces F64 Schema Transaction Keys Builder.
#[local] Open Scope Z_scope.
#[local] Open Scope redgold_scope.

Record PriceVolume := { pv_price : f64; pv_volume : Z }.
Definition DUST_LIMIT : Z := 2500.
Definition pv_with_volume (v : Z) (p : PriceVolume) : PriceVolume := {| pv_price := pv_price p; pv_volume := v |}.
(** [.iter().map(|pv| pv.volume).sum::<u64>()]. *)
Definition sum_volume (l : list PriceVolume) : Z := u64_sum (pv_volume <$> l).

Definition f64_one : f64 := f64_of_Z 1.

(** [PriceVolume::normalize_volumes]. *)
Definition normalize_volume (available_volume total : Z) (pv : PriceVolume) : PriceVolume :=
  pv_with_volume (f64_to_u64 (f64_round
    (f64_mul (f64_div (f64_of_Z (pv_volume pv)) (f64_of_Z total)) (f64_of_Z available_volume)))) pv.
Definition normalize_volumes (available_volume : Z) (price_volumes : list PriceVolume) : list PriceVolume :=
  let current_total_volume := sum_volume price_volumes in
  let price_volumes := normalize_volume available_volume current_total_volume <$> price_volumes in
  let dust_trigger := existsb (λ pv, pv_volume pv <? DUST_LIMIT) price_volumes in
  if dust_trigger then
    let divs := Z.to_nat (available_volume / DUST_LIMIT) in
    pv_with_volume DUST_LIMIT <$> take divs price_volumes
  else price_volumes.

(** The loop that takes the difference to the available volume off one by one. *)
Fixpoint adjust_volumes (adjustment : Z) (price_volumes : list PriceVolume) : list PriceVolume :=
  match price_volumes with
  | [] => []
  | pv :: rest =>
      if adjustment =? 0 then pv :: rest
      else if (0 <? adjustment) && (0 <? pv_volume pv) then
        pv_with_volume (as_u64 (pv_volume pv + 1)) pv :: adjust_volumes (adjustment - 1) rest
      else if (adjustment <? 0) && (1 <? pv_volume pv) then
        pv_with_volume (pv_volume pv - 1) pv :: adjust_volumes (adjustment + 1) rest
      else pv :: adjust_volumes adjustment rest
  end.

Section generate.
Context {libm : Libm}.

(** The levels before normalisation; a level without a usable price is dropped. *)
Definition price_level (center_price price_width divisions_f64 first_term ratio : f64) (divisions i : Z) :
    option PriceVolume :=
  let price_offset := f64_of_Z (i + 1) in
  let price := f64_add center_price (f64_mul price_offset (f64_div price_width divisions_f64)) in
  if f64_is_nan price || f64_is_infinite price || f64_is_sign_negative price then None
  else Some {| pv_price := price; pv_volume := f64_to_u64 (f64_mul first_term (powi ratio (divisions - i))) |}.
Definition price_levels (available_volume : Z) (center_price : f64) (divisions : Z) (price_width scale : f64) :
    list PriceVolume :=
  let divisions_f64 := f64_of_Z divisions in
  let ratio := powf (f64_div f64_one scale) (f64_div f64_one (f64_sub divisions_f64 f64_one)) in
  let first_term := f64_div (f64_mul (f64_of_Z available_volume) scale) (f64_sub f64_one (powf ratio divisions_f64)) in
  omap (price_level center_price price_width divisions_f64 first_term ratio divisions) (seqZ 0 divisions).

Definition generate (available_volume : Z) (center_price : f64) (divisions : Z) (price_width scale : f64) :
    RgResult (list PriceVolume) :=
  if available_volume <? DUST_LIMIT then Ok []
  else
    let price_volumes := price_levels available_volume center_price divisions price_width scale in
    let price_volumes := normalize_volumes available_volume price_volumes in
    let adjusted_total_volume := sum_volume price_volumes in
    let adjustment := i64_sub (as_i64 available_volume) (as_i64 adjusted_total_volume) in
    let price_volumes := adjust_volumes adjustment price_volumes in
    let final_total_volume := sum_volume price_volumes in
    if final_total_volume <=? available_volume then
      Ok (List.filter (λ pv, negb ((pv_volume pv <=? 0) || (available_volume <? pv_volume pv))) price_volumes)
    else Panic.

(** ** Bids and asks *)

Record BidAsk := { ba_bids : list PriceVolume; ba_asks : list PriceVolume; ba_center_price : f64 }.

Definition asking_price (b : BidAsk) : f64 := default f64_zero (pv_price <$> head (ba_asks b)).
Definition sum_bid_volume (b : BidAsk) : Z := sum_volume (ba_bids b).
Definition sum_ask_volume (b : BidAsk) : Z := sum_volume (ba_asks b).
Definition volume_empty (b : BidAsk) : bool :=
  existsb (λ v, pv_volume v =? 0) (ba_bids b) || existsb (λ v, pv_volume v =? 0) (ba_asks b).
Definition remove_empty (b : BidAsk) : BidAsk :=
  {| ba_bids := List.filter (λ v, 0 <? pv_volume v) (ba_bids b);
     ba_asks := List.filter (λ v, 0 <? pv_volume v) (ba_asks b); ba_center_price := ba_center_price b |}.

Definition BidAsk_generate (available_balance_rdg pair_balance_btc : Z) (last_exchange_price : f64) (divisions : Z)
    (scale min_ask : f64) : RgResult BidAsk :=
  bids ← (if 0 <? pair_balance_btc then
            generate pair_balance_btc last_exchange_price divisions
              (f64_mul last_exchange_price (f64_dec 9 1)) (f64_div scale (f64_of_Z 2))
          else Ok []);
  let ask_price_expected := f64_div f64_one last_exchange_price in
  let ask_price := f64_max ask_price_expected min_ask in
  asks ← (if 0 <? available_balance_rdg then
            generate (as_u64 available_balance_rdg) ask_price divisions (f64_mul ask_price (f64_of_Z 3)) scale
          else Ok []);
  Ok {| ba_bids := bids; ba_asks := asks; ba_center_price := last_exchange_price |}.
Definition generate_default (available_balance pair_balance : Z) (last_exchange_price min_ask : f64) : RgResult BidAsk :=
  BidAsk_generate available_balance pair_balance last_exchange_price 40 (f64_of_Z 20) min_ask.
Definition regenerate (b : BidAsk) (price min_ask : f64) : RgResult BidAsk :=
  generate_default (as_i64 (sum_ask_volume b)) (sum_bid_volume b) price min_ask.
End generate.

(** ** Orders *)

Record OrderFulfillment := {
  of_order_amount : Z; of_fulfilled_amount : Z; of_updated_curve : list PriceVolume;
  of_is_ask : bool; of_event_time : Z; of_tx_id_ref : option ExternalTransactionId; of_destination : Address }.

Definition fulfillment_price (f : OrderFulfillment) : f64 :=
  f64_div (f64_of_Z (of_fulfilled_amount f)) (f64_of_Z (of_order_amount f)).
Definition fulfillment_fraction (f : OrderFulfillment) : f64 :=
  let total := as_u64 (of_fulfilled_amount f + sum_volume (of_updated_curve f)) in
  f64_div (f64_of_Z (of_fulfilled_amount f)) (f64_of_Z total).
Definition fulfilled_currency_amount (f : OrderFulfillment) : CurrencyAmount :=
  CurrencyAmount_from (as_i64 (of_fulfilled_amount f)).

(** The loop over the curve: what is left of the order, what was filled and the
    levels after it.  The subtraction of the cost wraps. *)
Fixpoint fill_curve (remaining fulfilled : Z) (curve : list PriceVolume) : Z * list PriceVolume :=
  match curve with
  | [] => (fulfilled, [])
  | pv :: rest =>
      let other_amount_requested := f64_to_u64 (f64_div (f64_of_Z remaining) (pv_price pv)) in
      let this_vol := pv_volume pv in
      if this_vol <=? other_amount_requested then
        let cost := f64_to_u64 (f64_mul (f64_of_Z this_vol) (pv_price pv)) in
        let '(f, rest') := fill_curve (as_u64 (remaining - cost)) (as_u64 (fulfilled + this_vol)) rest in
        (f, pv_with_volume 0 pv :: rest')
      else
        (as_u64 (fulfilled + other_amount_requested), pv_with_volume (this_vol - other_amount_requested) pv :: rest)
  end.
Definition fulfill_taker_order (b : BidAsk) (order_amount : Z) (is_ask : bool) (event_time : Z)
    (tx_id : option string) (destination : Address) : option OrderFulfillment :=
  let curve := if is_ask then ba_asks b else ba_bids b in
  let '(fulfilled_amount, updated_curve) := fill_curve order_amount 0 curve in
  let updated_curve := List.filter (λ v, 0 <? pv_volume v) updated_curve in
  if fulfilled_amount <? DUST_LIMIT then None
  else Some {| of_order_amount := order_amount; of_fulfilled_amount := fulfilled_amount;
               of_updated_curve := updated_curve; of_is_ask := is_ask; of_event_time := event_time;
               of_tx_id_ref := (λ id, {| ext_identifier := id |}) <$> tx_id; of_destination := destination |}.

(** * Properties *)

(** The volume of a curve, without wrap-around. *)
Definition volume (l : list PriceVolume) : Z := sum_Z (pv_volume <$> l).
Definition volumes_above (b : Z) (l : list PriceVolume) : Prop := Forall (λ pv, b ≤ pv_volume pv) l.

Lemma volume_cons pv l : volume (pv :: l) = pv_volume pv + volume l.
Proof. done. Qed.
Lemma volume_nonneg l : volumes_above 0 l → 0 ≤ volume l.
Proof. induction 1; [done|]. rewrite volume_cons. lia. Qed.
Lemma volume_app l l' : volume (l ++ l') = volume l + volume l'.
Proof. induction l as [|pv l IH]; [done|]. cbn [app]. rewrite !volume_cons. lia. Qed.
Lemma volumes_above_weaken a b l : a ≤ b → volumes_above b l → volumes_above a l.
Proof. intros Hab H. eapply Forall_impl; [exact H|]. simpl. lia. Qed.

Lemma u64_sum_acc l s : 0 ≤ s → Forall (λ v, 0 ≤ v) l → s + sum_Z l < 2 ^ 64 →
  foldl (λ a b, as_u64 (a + b)) s l = s + sum_Z l.
Proof.
intros Hs H. revert s Hs. induction H as [|v l Hv Hl IH]; intros s Hs Hlt; simpl in *; [lia|].
assert (0 ≤ sum_Z l) by (clear -Hl; induction Hl; simpl in *; lia).
rewrite (wrap_u_id 64) by (unfold in_u; lia). rewrite IH by lia. lia.
Qed.
Lemma sum_volume_exact l : volumes_above 0 l → volume l < 2 ^ 64 → sum_volume l = volume l.
Proof.
intros H Hlt. unfold sum_volume, u64_sum, volume in *. rewrite u64_sum_acc; [done|done| |lia]. by apply Forall_fmap.
Qed.

(** What is positive stays when the empty levels are dropped. *)
Lemma volume_filter_pos l : volumes_above 0 l → volume (List.filter (λ v, 0 <? pv_volume v) l) = volume l.
Proof.
induction 1 as [|pv l Hv _ IH]; [done|]. cbn [List.filter].
destruct (Z.ltb_spec 0 (pv_volume pv)); rewrite ?volume_cons; lia.
Qed.

(** ** Filling an order

    The reference: the first [k] levels are emptied and [q] is taken from the next. *)
Definition consume (k : nat) (q : Z) (curve : list PriceVolume) : list PriceVolume :=
  (pv_with_volume 0 <$> take k curve) ++
  match drop k curve with [] => [] | pv :: rest => pv_with_volume (pv_volume pv - q) pv :: rest end.
Definition partial_fill (k : nat) (q : Z) (curve : list PriceVolume) : Prop :=
  match drop k curve with [] => q = 0 | pv :: _ => 0 ≤ q < pv_volume pv end.

Lemma consume_volume k q curve :
  volumes_above 0 curve → partial_fill k q curve →
  volumes_above 0 (consume k q curve) ∧ volume (take k curve) + q + volume (consume k q curve) = volume curve.
Proof.
intros H Hq. assert (volume (pv_with_volume 0 <$> take k curve) = 0) as H0.
{ induction (take k curve); [done|]. cbn [fmap list_fmap]. by rewrite volume_cons. }
assert (volumes_above 0 (pv_with_volume 0 <$> take k curve)) as H1.
{ apply Forall_fmap, Forall_true. intros ?. simpl. lia. }
assert (volume curve = volume (take k curve) + volume (drop k curve)) as -> by (by rewrite <-volume_app, take_drop).
apply (Forall_drop _ k) in H. unfold consume, partial_fill in *. rewrite volume_app, H0. destruct (drop k curve) as [|pv rest].
- subst q. rewrite app_nil_r. split; [done|]. change (volume []) with 0. lia.
- apply Forall_cons in H as [Hv Hr]. split.
  + apply Forall_app. split; [done|]. constructor; [simpl; lia|done].
  + rewrite !volume_cons. simpl. lia.
Qed.

Lemma fill_curve_spec R F curve :
  volumes_above 0 curve → 0 ≤ F → F + volume curve < 2 ^ 64 →
  ∃ k q, partial_fill k q curve ∧ fill_curve R F curve = (F + volume (take k curve) + q, consume k q curve).
Proof.
intros H. revert R F. induction H as [|pv rest Hv Hr IH]; intros R F HF Hlt.
{ exists 0%nat, 0. split; [done|]. cbn. f_equal. change (volume []) with 0. lia. }
pose proof (volume_nonneg rest Hr) as Hn. pose proof (volume_cons pv rest) as Hc.
cbn [fill_curve]. set (req := f64_to_u64 _). pose proof (f64_to_u64_range (f64_div (f64_of_Z R) (pv_price pv))) as Hreq.
fold req in Hreq. destruct (Z.leb_spec (pv_volume pv) req) as [Hle|Hgt].
- edestruct (IH (as_u64 (R - f64_to_u64 (f64_mul (f64_of_Z (pv_volume pv)) (pv_price pv)))) (F + pv_volume pv))
    as (k & q & Hp & Hf); [lia..|].
  exists (S k), q. split; [done|]. rewrite (wrap_u_id 64 (F + pv_volume pv)) by (unfold in_u; lia). rewrite Hf.
  f_equal. cbn [take]. rewrite volume_cons. lia.
- exists 0%nat, req. clearbody req. split; [unfold partial_fill; cbn [drop]; lia|].
  rewrite wrap_u_id by (unfold in_u; lia). f_equal. change (volume (take 0 (pv :: rest))) with 0. lia.
Qed.

(** C23: An order takes a prefix of the curve: levels are emptied in order, the last
    one in part; what it fills and what stays add up to the curve, and an order
    that fills less than the dust limit fills nothing. *)
Theorem fulfill_taker_order_spec (b : BidAsk) (amount : Z) (is_ask : bool) (time : Z) (tx_id : option string)
    (dest : Address) :
  let curve := if is_ask then ba_asks b else ba_bids b in
  volumes_above 0 curve → volume curve < 2 ^ 64 →
  ∃ k q, partial_fill k q curve ∧
    let filled := volume (take k curve) + q in
    let rest := List.filter (λ v, 0 <? pv_volume v) (consume k q curve) in
    filled + volume rest = volume curve ∧ volumes_above 1 rest ∧
    fulfill_taker_order b amount is_ask time tx_id dest =
      if filled <? DUST_LIMIT then None
      else Some {| of_order_amount := amount; of_fulfilled_amount := filled; of_updated_curve := rest;
                   of_is_ask := is_ask; of_event_time := time;
                   of_tx_id_ref := (λ id, {| ext_identifier := id |}) <$> tx_id; of_destination := dest |}.
Proof.
intros curve H Hlt. destruct (fill_curve_spec amount 0 curve) as (k & q & Hp & Hf); [done|lia..|].
exists k, q. split; [done|]. destruct (consume_volume k q curve H Hp) as [Hc Hs]. split_and!.
- rewrite volume_filter_pos by done. lia.
- apply Forall_forall. intros pv Hin. apply list_elem_of_In, filter_In in Hin as [_ Hin]. lia.
- unfold fulfill_taker_order. fold curve. by rewrite Hf, Z.add_0_l.
Qed.

(** ** The generated curve *)

Lemma normalize_volumes_dust A l : volumes_above DUST_LIMIT (normalize_volumes A l).
Proof.
unfold normalize_volumes. destruct (existsb _ _) eqn:E.
- apply Forall_fmap, Forall_true. intros. simpl. lia.
- apply Forall_forall. intros pv Hin. destruct (Z.le_gt_cases DUST_LIMIT (pv_volume pv)) as [|Hlt]; [done|].
  exfalso. apply not_true_iff_false in E. apply E, existsb_exists. exists pv. split; [by apply list_elem_of_In|].
  by apply Z.ltb_lt.
Qed.

Lemma adjust_volumes_up adj l :
  0 ≤ adj → volumes_above 1 l → volume l + adj < 2 ^ 64 →
  volumes_above 1 (adjust_volumes adj l) ∧ volume (adjust_volumes adj l) = volume l + Z.min adj (Z.of_nat (length l)) ∧
  pv_price <$> adjust_volumes adj l = pv_price <$> l.
Proof.
intros Ha H. revert adj Ha. induction H as [|pv l Hv Hl IH]; intros adj Ha Hlt; cbn [adjust_volumes].
{ split_and!; [constructor|cbn; lia|done]. }
pose proof (volume_cons pv l) as Hc.
pose proof (volume_nonneg l (volumes_above_weaken 0 1 l ltac:(lia) Hl)).
destruct (Z.eqb_spec adj 0) as [->|Hne]; [split_and!; [by constructor|cbn [length]; lia|done]|].
destruct (Z.ltb_spec 0 adj); [|lia]. destruct (Z.ltb_spec 0 (pv_volume pv)); [|lia]. cbn [andb].
destruct (IH (adj - 1)) as (Hab & Hvol & Hpr); [lia..|]. rewrite wrap_u_id by (unfold in_u; lia). split_and!.
- constructor; [simpl; lia|done].
- rewrite volume_cons. cbn [pv_volume pv_with_volume length]. lia.
- cbn. by f_equal.
Qed.

Lemma adjust_volumes_down adj l :
  adj ≤ 0 → volumes_above 2 l → 
  volumes_above 1 (adjust_volumes adj l) ∧ volume (adjust_volumes adj l) = volume l - Z.min (- adj) (Z.of_nat (length l)) ∧
  pv_price <$> adjust_volumes adj l = pv_price <$> l.
Proof.
intros Ha H. revert adj Ha. induction H as [|pv l Hv Hl IH]; intros adj Ha; cbn [adjust_volumes].
{ split_and!; [constructor|cbn; lia|done]. }
pose proof (volume_cons pv l) as Hc.
destruct (Z.eqb_spec adj 0) as [->|Hne].
{ split_and!; [|cbn [length]; lia|done]. constructor; [lia|]. by eapply volumes_above_weaken; [|exact Hl]; lia. }
destruct (Z.ltb_spec 0 adj); [lia|]. destruct (Z.ltb_spec adj 0); [|lia]. destruct (Z.ltb_spec 1 (pv_volume pv)); [|lia].
cbn [andb]. destruct (IH (adj + 1)) as (Hab & Hvol & Hpr); [lia..|]. split_and!.
- constructor; [simpl; lia|done].
- rewrite volume_cons. cbn [pv_volume pv_with_volume length]. lia.
- cbn. by f_equal.
Qed.

Section generate_properties.
Context {libm : Libm}.

(** What the division into levels and the normalisation give. *)
Definition normalized (A : Z) (center_price : f64) (divisions : Z) (price_width scale : f64) : list PriceVolume :=
  normalize_volumes A (price_levels A center_price divisions price_width scale).

Lemma as_i64_id z : 0 ≤ z < 2 ^ 63 → as_i64 z = z.
Proof. intros. apply wrap_s_id; [lia|]. unfold in_s. simpl. lia. Qed.

Lemma volume_bounds_level l pv : volumes_above 0 l → pv ∈ l → pv_volume pv ≤ volume l.
Proof.
intros H Hin. induction H as [|p l Hp Hl IH]; [by apply not_elem_of_nil in Hin|]. rewrite volume_cons.
pose proof (volume_nonneg l Hl). apply elem_of_cons in Hin as [->|Hin]; [lia|]. specialize (IH Hin). lia.
Qed.

(** C35: The curve of [generate], for an available volume of at least the dust limit and
    totals that fit: it has the prices of the normalised levels, each level is between
    one and the available volume, and the levels are moved by at most one unit each
    toward the available volume, so that they sum to the available volume or, when the
    normalised levels sum to less than that by more than their number, to their sum and
    their number; the assertion on the total fails exactly when the normalised levels
    sum to more than the available volume and their number. *)
Theorem generate_spec A center_price divisions price_width scale :
  let N := normalized A center_price divisions price_width scale in
  let n := Z.of_nat (length N) in
  DUST_LIMIT ≤ A → A < 2 ^ 63 → volume N < 2 ^ 63 →
  if volume N <=? A + n then
    ∃ l, generate A center_price divisions price_width scale = Ok l ∧ pv_price <$> l = pv_price <$> N ∧
      Forall (λ pv, 1 ≤ pv_volume pv ≤ A) l ∧ volume l = Z.min A (volume N + n)
  else generate A center_price divisions price_width scale = Panic.
Proof.
intros N n HA HA2 HN. assert (volumes_above DUST_LIMIT N) as Hd by apply normalize_volumes_dust.
assert (volumes_above 0 N) as H0 by (eapply volumes_above_weaken; [|exact Hd]; done).
pose proof (volume_nonneg N H0) as HN0. assert (0 ≤ n) as Hn by (unfold n; lia).
assert (∃ l, l = adjust_volumes (A - volume N) N ∧ volumes_above 1 l ∧ pv_price <$> l = pv_price <$> N ∧
  volume l = if volume N <=? A then Z.min A (volume N + n) else Z.max A (volume N - n)) as (l & Hl & Hl1 & Hlp & Hlv).
{ eexists. split; [done|]. destruct (Z.leb_spec (volume N) A) as [Hle|Hgt].
  - destruct (adjust_volumes_up (A - volume N) N) as (? & -> & ?); [lia| |lia|].
    + eapply volumes_above_weaken; [|exact Hd]. done.
    + split_and!; [done|done|lia].
  - destruct (adjust_volumes_down (A - volume N) N) as (? & -> & ?); [lia| |].
    + eapply volumes_above_weaken; [|exact Hd]. done.
    + split_and!; [done|done|lia]. }
assert (volumes_above 0 l) as Hl0 by (eapply volumes_above_weaken; [|exact Hl1]; lia).
assert (generate A center_price divisions price_width scale =
  if volume l <=? A then Ok (List.filter (λ pv, negb ((pv_volume pv <=? 0) || (A <? pv_volume pv))) l) else Panic) as ->.
{ unfold generate. destruct (Z.ltb_spec A DUST_LIMIT); [lia|]. fold (normalized A center_price divisions price_width scale).
  fold N. rewrite (sum_volume_exact N) by (done || lia). rewrite !as_i64_id by (unfold DUST_LIMIT in *; lia).
  unfold i64_sub. rewrite wrap_s_id by (done || (unfold in_s, DUST_LIMIT in *; lia)). rewrite <-Hl.
  rewrite (sum_volume_exact l); [done|done|]. rewrite Hlv. destruct (Z.leb_spec (volume N) A); lia. }
destruct (Z.leb_spec (volume N) (A + n)) as [Hok|Hno].
- assert (volume l = Z.min A (volume N + n)) as Hv by (rewrite Hlv; destruct (Z.leb_spec (volume N) A); lia).
  destruct (Z.leb_spec (volume l) A); [|lia].
  assert (Forall (λ pv, 1 ≤ pv_volume pv ≤ A) l) as Hb.
  { apply Forall_forall. intros pv Hin. pose proof (volume_bounds_level l pv Hl0 Hin).
    pose proof (proj1 (Forall_forall _ _) Hl1 pv Hin) as Hp. simpl in Hp. lia. }
  assert (List.filter (λ pv, negb ((pv_volume pv <=? 0) || (A <? pv_volume pv))) l = l) as ->.
  { clear -Hb. induction Hb as [|pv l Hpv _ IH]; [done|]. cbn [List.filter].
    destruct (Z.leb_spec (pv_volume pv) 0), (Z.ltb_spec A (pv_volume pv)); try lia. cbn. by rewrite IH. }
  by exists l.
- destruct (Z.leb_spec (volume l) A); [|done]. rewrite Hlv in *. destruct (Z.leb_spec (volume N) A); lia.
Qed.
End generate_properties.

(** * A curve *)

(** Powers for the examples: a fixed ratio, and repeated multiplication. *)
Definition toy_libm : Libm :=
  {| powf := λ _ _, f64_dec 9 1; powi := λ x n, Nat.iter (Z.to_nat n) (f64_mul x) f64_one |}.

Module MarketDemo.
#[local] Existing Instance toy_libm.

Lemma generate_spec_witness :
  ∃ l, generate 1000000 f64_one 20 (f64_of_Z 3) (f64_of_Z 20) = Ok l ∧
    Forall (λ pv, 1 ≤ pv_volume pv ≤ 1000000) l ∧ volume l = 1000000.
Proof.
pose proof (generate_spec 1000000 f64_one 20 (f64_of_Z 3) (f64_of_Z 20)) as H. cbv zeta in H.
assert (volume (normalized 1000000 f64_one 20 (f64_of_Z 3) (f64_of_Z 20)) = 1000001) as E by (vm_compute; reflexivity).
assert (length (normalized 1000000 f64_one 20 (f64_of_Z 3) (f64_of_Z 20)) = 20%nat) as El by (vm_compute; reflexivity).
rewrite E, El in H. destruct H as (l & H1 & _ & H2 & H3); [by_decision..|].
exists l. split; [exact H1|]. split; [exact H2|exact H3].
Defined.

(** A small curve: two levels of 3000 and 4000 at prices 1 and 2. *)
Definition small : BidAsk :=
  {| ba_bids := []; ba_asks := [{| pv_price := f64_one; pv_volume := 3000 |}; {| pv_price := f64_of_Z 2; pv_volume := 4000 |}];
     ba_center_price := f64_one |}.

Lemma fulfill_taker_order_witness :
  ∃ k q, partial_fill k q (ba_asks small) ∧
    volume (take k (ba_asks small)) + q +
      volume (List.filter (λ v, 0 <? pv_volume v) (consume k q (ba_asks small))) = 7000.
Proof.
destruct (fulfill_taker_order_spec small 5000 true 1 None demo_address) as (k & q & Hp & Hc & _).
- by repeat constructor.
- by_decision.
- exists k, q. split; [exact Hp|exact Hc].
Defined.
Example small_order : of_fulfilled_amount <$> fulfill_taker_order small 5000 true 1 None demo_address = Some 4000.
Proof. vm_compute. reflexivity. Qed.
End MarketDemo.
