(* ===== verification/Party.v ===== *)
(** * The events of a multiparty address

    src/multiparty/party_stream.rs replays the transactions of a multiparty address
    on both networks ([PartyEvents]): deposits and withdrawals open orders, the
    payouts settle them, and the curve of Market.v follows the balances.
    [process_requests_new] of src/multiparty/watcher.rs turns the open orders into
    payouts.  [get_all_tx] of keys/src/util/btc_wallet.rs describes a Bitcoin
    transaction to it; the wallet library's list of transactions is an argument. *)

From stdpp Require Import base list gmap strings.
From S2P Require Import Prelude Structs Interfaces F64 Schema Merkle Transaction Keys Builder Store Market.
#[local] Open Scope Z_scope.
#[local] Open Scope redgold_scope.

(** ** Bitcoin transactions (keys/src/util/btc_wallet.rs) *)

Record ExternalTimedTransaction := {
  et_tx_id : string; et_timestamp : option Z; et_other_address : string; et_other_output_addresses : list string;
  et_amount : Z; et_incoming : bool; et_currency : Z }.
#[global] Instance ExternalTimedTransaction_eq_dec : EqDecision ExternalTimedTransaction.
Proof. solve_decision. Defined.

Definition ett_confirmed (t : ExternalTimedTransaction) : bool := bool_decide (is_Some (et_timestamp t)).
Definition other_address_typed {host : Host} (t : ExternalTimedTransaction) : RgResult Address :=
  if bool_decide (et_currency t = SupportedCurrency_Bitcoin) then Ok (Address_from_bitcoin (et_other_address t))
  else Err (error_info "Unsupported currency").

(** What the wallet library lists: the transaction's id, its inputs and outputs as
    addresses with amounts, and the time of its block. *)
Record WalletTransaction := {
  wt_txid : string; wt_inputs : list string; wt_outputs : list (string * Z); wt_block_time : option Z }.
Definition external_of (self_addr : string) (x : WalletTransaction) : option ExternalTimedTransaction :=
  let other_output_addresses := fst <$> List.filter (λ o, negb (bool_decide (o.1 = self_addr))) (wt_outputs x) in
  let has_self_input := existsb (λ a, bool_decide (a = self_addr)) (wt_inputs x) in
  let incoming := negb has_self_input in
  let other_outputs := List.filter (λ o, negb (bool_decide (o.1 = self_addr))) (wt_outputs x) in
  let other_address :=
    if incoming then head (List.filter (λ a, negb (bool_decide (a = self_addr))) (wt_inputs x))
    else fst <$> head other_outputs in
  let amount :=
    if incoming then snd <$> head (List.filter (λ o, bool_decide (o.1 = self_addr)) (wt_outputs x))
    else snd <$> head other_outputs in
  match other_address, amount with
  | Some a, Some value =>
      Some {| et_tx_id := wt_txid x; et_timestamp := wt_block_time x; et_other_address := a;
              et_other_output_addresses := other_output_addresses; et_amount := value; et_incoming := incoming;
              et_currency := SupportedCurrency_Bitcoin |}
  | _, _ => None
  end.
Definition get_all_tx (self_addr : string) (listed : list WalletTransaction) : list ExternalTimedTransaction :=
  omap (external_of self_addr) listed.

(** ** Events *)

Record TransactionWithObservations := { two_tx : Transaction; two_observations : list ObservationProof }.
#[global] Instance TransactionWithObservations_eq_dec : EqDecision TransactionWithObservations.
Proof. solve_decision. Defined.
Inductive AddressEvent :=
| External (t : ExternalTimedTransaction)
| Internal (t : TransactionWithObservations).
#[global] Instance AddressEvent_eq_dec : EqDecision AddressEvent.
Proof. solve_decision. Defined.

(** 0.00222222222f64. *)
Definition BTC_RDG_STARTING : f64 := f64_dec 222222222 11.
Definition get_btc_per_rdg_starting_min_ask (time : Z) : f64 :=
  if 1707715165171 <? time then BTC_RDG_STARTING else BTC_RDG_STARTING.

Record PartyEvents := {
  pe_key_address : Address; pe_party_public_key : PublicKey; pe_network : NetworkEnvironment; pe_seeds : list PublicKey;
  pe_events : list AddressEvent; pe_balance_map : gmap Z Z;
  pe_unfulfilled_deposits : list (OrderFulfillment * AddressEvent);
  pe_unfulfilled_withdrawals : list (OrderFulfillment * AddressEvent);
  pe_price : f64; pe_bid_ask : BidAsk; pe_unconfirmed_events : list AddressEvent;
  pe_fulfillment_history : list (OrderFulfillment * AddressEvent * AddressEvent) }.

Section party.
Context {host : Host} {crypto : Crypto} {secp : Secp} {libm : Libm}.
Context {ptx : Proto Transaction} {pue : Proto UtxoEntry} {pop : Proto ObservationProof} {pom : Proto ObservationMetadata}
  {pei : Proto ErrorInfo}.

(** The accepted, live observation of a seed and its time. *)
Definition seed_observation_time (seeds : list PublicKey) (o : ObservationProof) : option Z :=
  p ← op_proof o; pk ← pf_public_key p;
  m ← (if bool_decide (pk ∈ seeds) then op_metadata o else None);
  t ← ok_opt (metadata_time m);
  if bool_decide (om_validation_liveness m = ValidationLiveness_Live) && bool_decide (om_state m = State_Accepted)
  then Some t else None.
(** The mean is an integer division: without an observation it panics. *)
Definition event_time (seeds : list PublicKey) (e : AddressEvent) : RgResult (option Z) :=
  match e with
  | External t => Ok ((λ t, as_i64 (as_u64 (t * 1000))) <$> et_timestamp t)
  | Internal t =>
      let seed_obs := omap (seed_observation_time seeds) (two_observations t) in
      let times := i64_sum seed_obs in
      if bool_decide (length seed_obs = 0%nat) then Panic
      else let avg := Z.quot times (Z.of_nat (length seed_obs)) in
           Ok (if avg =? 0 then None else Some avg)
  end.
Definition event_identifier (e : AddressEvent) : RgResult string :=
  match e with External e => Ok (et_tx_id e) | Internal t => Hash_hex (hash_or (two_tx t)) end.

Definition PartyEvents_new (pk : PublicKey) (network : NetworkEnvironment) (seeds : list PublicKey) : RgResult PartyEvents :=
  let btc_rdg := get_btc_per_rdg_starting_min_ask 0 in
  let min_ask := btc_rdg in
  let price := f64_div f64_one btc_rdg in
  key_address ← expect (PublicKey_address pk);
  bid_ask ← generate_default 0 0 price min_ask;
  Ok {| pe_key_address := key_address; pe_party_public_key := pk; pe_network := network; pe_seeds := seeds;
        pe_events := []; pe_balance_map := ∅; pe_unfulfilled_deposits := []; pe_unfulfilled_withdrawals := [];
        pe_price := price; pe_bid_ask := bid_ask; pe_unconfirmed_events := []; pe_fulfillment_history := [] |}.

(** ** Field updates *)

Definition pe_with_events (es : list AddressEvent) (p : PartyEvents) : PartyEvents :=
  {| pe_key_address := pe_key_address p; pe_party_public_key := pe_party_public_key p; pe_network := pe_network p;
     pe_seeds := pe_seeds p; pe_events := es; pe_balance_map := pe_balance_map p;
     pe_unfulfilled_deposits := pe_unfulfilled_deposits p; pe_unfulfilled_withdrawals := pe_unfulfilled_withdrawals p;
     pe_price := pe_price p; pe_bid_ask := pe_bid_ask p; pe_unconfirmed_events := pe_unconfirmed_events p;
     pe_fulfillment_history := pe_fulfillment_history p |}.
Definition pe_with_balance (currency value : Z) (p : PartyEvents) : PartyEvents :=
  {| pe_key_address := pe_key_address p; pe_party_public_key := pe_party_public_key p; pe_network := pe_network p;
     pe_seeds := pe_seeds p; pe_events := pe_events p; pe_balance_map := <[currency := value]> (pe_balance_map p);
     pe_unfulfilled_deposits := pe_unfulfilled_deposits p; pe_unfulfilled_withdrawals := pe_unfulfilled_withdrawals p;
     pe_price := pe_price p; pe_bid_ask := pe_bid_ask p; pe_unconfirmed_events := pe_unconfirmed_events p;
     pe_fulfillment_history := pe_fulfillment_history p |}.
Definition pe_with_deposits (d : list (OrderFulfillment * AddressEvent))
    (h : list (OrderFulfillment * AddressEvent * AddressEvent)) (p : PartyEvents) : PartyEvents :=
  {| pe_key_address := pe_key_address p; pe_party_public_key := pe_party_public_key p; pe_network := pe_network p;
     pe_seeds := pe_seeds p; pe_events := pe_events p; pe_balance_map := pe_balance_map p;
     pe_unfulfilled_deposits := d; pe_unfulfilled_withdrawals := pe_unfulfilled_withdrawals p;
     pe_price := pe_price p; pe_bid_ask := pe_bid_ask p; pe_unconfirmed_events := pe_unconfirmed_events p;
     pe_fulfillment_history := h |}.
Definition pe_with_withdrawals (w : list (OrderFulfillment * AddressEvent))
    (h : list (OrderFulfillment * AddressEvent * AddressEvent)) (p : PartyEvents) : PartyEvents :=
  {| pe_key_address := pe_key_address p; pe_party_public_key := pe_party_public_key p; pe_network := pe_network p;
     pe_seeds := pe_seeds p; pe_events := pe_events p; pe_balance_map := pe_balance_map p;
     pe_unfulfilled_deposits := pe_unfulfilled_deposits p; pe_unfulfilled_withdrawals := w;
     pe_price := pe_price p; pe_bid_ask := pe_bid_ask p; pe_unconfirmed_events := pe_unconfirmed_events p;
     pe_fulfillment_history := h |}.
Definition pe_with_unconfirmed (u : list AddressEvent) (p : PartyEvents) : PartyEvents :=
  {| pe_key_address := pe_key_address p; pe_party_public_key := pe_party_public_key p; pe_network := pe_network p;
     pe_seeds := pe_seeds p; pe_events := pe_events p; pe_balance_map := pe_balance_map p;
     pe_unfulfilled_deposits := pe_unfulfilled_deposits p; pe_unfulfilled_withdrawals := pe_unfulfilled_withdrawals p;
     pe_price := pe_price p; pe_bid_ask := pe_bid_ask p; pe_unconfirmed_events := u;
     pe_fulfillment_history := pe_fulfillment_history p |}.
Definition pe_with_curve (price : f64) (b : BidAsk) (p : PartyEvents) : PartyEvents :=
  {| pe_key_address := pe_key_address p; pe_party_public_key := pe_party_public_key p; pe_network := pe_network p;
     pe_seeds := pe_seeds p; pe_events := pe_events p; pe_balance_map := pe_balance_map p;
     pe_unfulfilled_deposits := pe_unfulfilled_deposits p; pe_unfulfilled_withdrawals := pe_unfulfilled_withdrawals p;
     pe_price := price; pe_bid_ask := b; pe_unconfirmed_events := pe_unconfirmed_events p;
     pe_fulfillment_history := pe_fulfillment_history p |}.

(** ** Settling orders *)

Definition retain_unfulfilled_deposits (tx_id : ExternalTransactionId) (d : AddressEvent) : bool :=
  match d with
  | External t2 => negb (bool_decide (et_tx_id t2 = ext_identifier tx_id))
  | Internal _ => true
  end.
Definition retain_unfulfilled_withdrawals (t : ExternalTimedTransaction) (d : AddressEvent) (pk : PublicKey)
    (network : NetworkEnvironment) : bool :=
  match d with
  | Internal t2 =>
      let is_swap := has_swap_to_multi (two_tx t2) pk network in
      let address_match := input_bitcoin_address (two_tx t2) network (et_other_address t) in
      negb (is_swap && address_match)
  | External _ => true
  end.
(** [Vec::retain] that moves what it drops to the history, with the receipt. *)
Definition settle (keep : AddressEvent → bool) (receipt : AddressEvent) (open : list (OrderFulfillment * AddressEvent))
    (history : list (OrderFulfillment * AddressEvent * AddressEvent)) :
    list (OrderFulfillment * AddressEvent) * list (OrderFulfillment * AddressEvent * AddressEvent) :=
  (List.filter (λ x, keep x.2) open,
   history ++ ((λ x, (x.1, x.2, receipt)) <$> List.filter (λ x, negb (keep x.2)) open)).

Definition same_event (e e2 : AddressEvent) : bool :=
  match e, e2 with
  | External e, External e2 => bool_decide (et_tx_id e = et_tx_id e2)
  | Internal t, Internal t2 => bool_decide (hash_or (two_tx t) = hash_or (two_tx t2))
  | _, _ => false
  end.
Definition remove_unconfirmed_event (event : AddressEvent) (p : PartyEvents) : PartyEvents :=
  pe_with_unconfirmed (List.filter (λ e, negb (same_event e event)) (pe_unconfirmed_events p)) p.

(** ** One event: the state after its branch and the order it opened *)

Definition process_external (t : ExternalTimedTransaction) (time : Z) (p : PartyEvents) :
    RgResult (PartyEvents * option OrderFulfillment) :=
  let e := External t in
  let balance := default 0 (pe_balance_map p !! et_currency t) in
  r ← (if et_incoming t then
         other_addr ← expect (other_address_typed t);
         let fulfillment := fulfill_taker_order (pe_bid_ask p) (et_amount t) true time (Some (et_tx_id t)) other_addr in
         Ok (match fulfillment with
             | Some f => pe_with_deposits (pe_unfulfilled_deposits p ++ [(f, e)]) (pe_fulfillment_history p) p
             | None => p
             end, fulfillment, 1)
       else
         let '(w, h) := settle (λ d, retain_unfulfilled_withdrawals t d (pe_party_public_key p) (pe_network p)) e
                          (pe_unfulfilled_withdrawals p) (pe_fulfillment_history p) in
         Ok (remove_unconfirmed_event e (pe_with_withdrawals w h p), None, -1));
  let '(p, event_fulfillment, balance_sign) := (r : PartyEvents * option OrderFulfillment * Z) in
  let delta := as_i64 (as_i64 (et_amount t) * balance_sign) in
  Ok (pe_with_balance (et_currency t) (i64_add balance delta) p, event_fulfillment).

(** A payout names the deposits it answers. *)
Definition settle_deposit (e : AddressEvent) (p : PartyEvents) (tx_id : ExternalTransactionId) : PartyEvents :=
  let p := remove_unconfirmed_event e p in
  let '(d, h) := settle (retain_unfulfilled_deposits tx_id) e (pe_unfulfilled_deposits p) (pe_fulfillment_history p) in
  pe_with_deposits d h p.
Definition process_internal (t : TransactionWithObservations) (time : Z) (p : PartyEvents) :
    PartyEvents * option OrderFulfillment :=
  let e := Internal t in
  let tx := two_tx t in
  let balance := default 0 (pe_balance_map p !! SupportedCurrency_Redgold) in
  let incoming := negb (bool_decide (pe_key_address p ∈ input_addresses tx)) in
  let '(p, event_fulfillment, amount, balance_sign) :=
    if incoming then
      let amount := default 0 (ok_opt (output_amount_of_multi tx (pe_party_public_key p) (pe_network p))) in
      let is_swap := has_swap_to_multi tx (pe_party_public_key p) (pe_network p) in
      let fulfillment :=
        if is_swap then
          addr ← first_input_address_to_btc_address tx (pe_network p);
          fulfill_taker_order (pe_bid_ask p) (as_u64 amount) false time None (Address_from_bitcoin addr)
        else None in
      (match fulfillment with
       | Some f => pe_with_withdrawals (pe_unfulfilled_withdrawals p ++ [(f, e)]) (pe_fulfillment_history p) p
       | None => p
       end, fulfillment, amount, 1)
    else
      let amount := non_remainder_amount tx in
      (foldl (settle_deposit e) p (output_external_txids tx), None, amount, -1) in
  let delta := as_i64 (amount * balance_sign) in
  (pe_with_balance SupportedCurrency_Redgold (i64_add balance delta) p, event_fulfillment).

(** The price and the curve that follow an event. *)
Definition update_curve (event_fulfillment : option OrderFulfillment) (time : Z) (p : PartyEvents) : RgResult PartyEvents :=
  let new_price :=
    match event_fulfillment with
    | Some f => f64_mul (pe_price p) (f64_add f64_one (fulfillment_fraction f))
    | None => pe_price p
    end in
  let min_ask := get_btc_per_rdg_starting_min_ask time in
  let balance := default 0 (pe_balance_map p !! SupportedCurrency_Redgold) in
  let pair_balance := as_u64 (default 0 (pe_balance_map p !! SupportedCurrency_Bitcoin)) in
  bid_ask ← generate_default balance pair_balance new_price min_ask;
  Ok (pe_with_curve new_price bid_ask p).

Definition process_confirmed_event (e : AddressEvent) (time : Z) (p : PartyEvents) : RgResult PartyEvents :=
  r ← (match e with
       | External t => process_external t time p
       | Internal t => Ok (process_internal t time p)
       end);
  update_curve r.2 time r.1.
Definition process_event (p : PartyEvents) (e : AddressEvent) : RgResult PartyEvents :=
  time ← event_time (pe_seeds p) e;
  match time with
  | Some t => process_confirmed_event e t p
  | None => Ok (pe_with_unconfirmed (pe_unconfirmed_events p ++ [e]) p)
  end.

(** [Option<i64>] orders [None] first; [sort_by] compares nothing in a list of one. *)
Definition time_leb (a b : option Z) : bool :=
  match a, b with None, _ => true | Some _, None => false | Some a, Some b => a <=? b end.
Definition sort_events (seeds : list PublicKey) (res : list AddressEvent) : RgResult (list AddressEvent) :=
  match res with
  | [] | [_] => Ok res
  | _ => keyed ← mapR (λ e, t ← event_time seeds e; Ok (t, e)) res;
         Ok (snd <$> sort_by (λ a b, time_leb a.1 b.1) keyed)
  end.
Definition replay (n : PartyEvents) (res : list AddressEvent) : RgResult PartyEvents :=
  res ← sort_events (pe_seeds n) res;
  foldR process_event (pe_with_events res n) res.
Definition historical_initialize (s : Store) (wallet : list WalletTransaction) (wallet_address : string)
    (pk : PublicKey) (network : NetworkEnvironment) (seeds : list PublicKey) : RgResult PartyEvents :=
  n ← PartyEvents_new pk network seeds;
  tx ← get_all_tx_for_address s (pe_key_address n) 100000 0;
  internal ← mapR (λ t, obs ← select_observation_edge s (hash_or t);
                        Ok (Internal {| two_tx := t; two_observations := obs |})) tx;
  replay n (internal ++ (External <$> get_all_tx wallet_address wallet)).

(** ** Orders to pay *)

Definition unconfirmed_rdg_output_btc_txid_refs (p : PartyEvents) : gset string :=
  list_to_set (pe_unconfirmed_events p ≫= λ e,
    match e with Internal t => ext_identifier <$> output_external_txids (two_tx t) | External _ => [] end).
Definition unconfirmed_btc_output_other_addresses (p : PartyEvents) : gset string :=
  list_to_set (pe_unconfirmed_events p ≫= λ e,
    match e with External t => if et_incoming t then [] else et_other_output_addresses t | Internal _ => [] end).
Definition deposit_orders (p : PartyEvents) : list OrderFulfillment :=
  omap (λ x : OrderFulfillment * AddressEvent,
    match x.2 with
    | External t => if bool_decide (et_tx_id t ∈ unconfirmed_rdg_output_btc_txid_refs p) then None else Some x.1
    | Internal _ => None
    end) (pe_unfulfilled_deposits p).
Definition withdrawal_orders (p : PartyEvents) : list OrderFulfillment :=
  omap (λ x : OrderFulfillment * AddressEvent,
    match x.2 with
    | Internal t =>
        addr ← first_input_address_to_btc_address (two_tx t) (pe_network p);
        if bool_decide (addr ∈ unconfirmed_btc_output_other_addresses p) then None else Some x.1
    | External _ => None
    end) (pe_unfulfilled_withdrawals p).
Definition orders (p : PartyEvents) : list OrderFulfillment :=
  sort_by (λ a b, of_event_time a <=? of_event_time b) (deposit_orders p ++ withdrawal_orders p).

(** ** Payouts (src/multiparty/watcher.rs) *)

(** [initiate] is an [InitiateMultipartyKeygenRequest], whose one field is the
    identifier. *)
Record DepositKeyAllocation := {
  dk_key : PublicKey; dk_allocation : f64; dk_initiate_identifier : option MultipartyIdentifier;
  dk_balance_btc : Z; dk_balance_rdg : Z }.
Record DepositWatcherConfig := {
  dwc_deposit_allocations : list DepositKeyAllocation; dwc_bid_ask : BidAsk; dwc_last_btc_timestamp : Z;
  dwc_ask_bid_code_reset : option bool }.
Definition is_self_initiated (d : DepositKeyAllocation) (self_key : PublicKey) : RgResult bool :=
  id ← safe_get_msg (dk_initiate_identifier d) "Missing identifier";
  head_pk ← safe_get_msg (head (mi_party_keys id)) "Missing party keys";
  Ok (bool_decide (head_pk = self_key)).
Definition dk_party_id (d : DepositKeyAllocation) : RgResult PartyId :=
  id ← safe_get_msg (dk_initiate_identifier d) "Missing identifier";
  Ok {| pty_public_key := Some (dk_key d); pty_owner := head (mi_party_keys id) |}.
Definition CurrencyAmount_of_currency (amount currency : Z) : CurrencyAmount :=
  {| ca_amount := amount; ca_bytes := None; ca_currency := Some currency |}.
(** The second balance is the Bitcoin balance too. *)
Definition balances (d : DepositKeyAllocation) : list CurrencyAmount :=
  [CurrencyAmount_of_currency (as_i64 (dk_balance_btc d)) SupportedCurrency_Bitcoin;
   CurrencyAmount_of_currency (as_i64 (dk_balance_btc d)) SupportedCurrency_Redgold].

Record CurveUpdateResult := {
  cu_bid_ask : BidAsk; cu_btc_timestamp : Z; cu_allocation : DepositKeyAllocation }.
(** What a round hands to the signing parties: the Redgold transaction, if any, and
    the outputs of the one Bitcoin transaction.  Failures to sign or send are
    logged and dropped. *)
Record Payouts := { po_rdg : option Transaction; po_btc : list (string * Z) }.

Definition ask_payouts (os : list OrderFulfillment) (tb : TransactionBuilder) : RgResult TransactionBuilder :=
  foldR (λ tb o,
    let tb := with_output (of_destination o) (fulfilled_currency_amount o) tb in
    id ← expect_opt (of_tx_id_ref o);
    Ok (with_last_output_deposit_swap_fulfillment (ext_identifier id) tb))
    tb (List.filter (λ o, of_is_ask o && bool_decide (is_Some (of_tx_id_ref o))) os).
Definition btc_payouts (os : list OrderFulfillment) : list (string * Z) :=
  omap (λ o, if of_is_ask o then None
             else btc ← ok_opt (Address_to_bitcoin_address (of_destination o)); Some (btc, of_fulfilled_amount o)) os.
Definition process_requests_new (s : Store) (wallet : list WalletTransaction) (wallet_address : string) (wallet_key : PublicKey)
    (btc_starting_balance : Z) (network : NetworkEnvironment) (seeds : list PublicKey)
    (alloc : DepositKeyAllocation) (last_timestamp salt now : Z) : RgResult (Payouts * CurveUpdateResult) :=
  key_address ← PublicKey_address (dk_key alloc);
  ps ← historical_initialize s wallet wallet_address (dk_key alloc) network seeds;
  let os := orders ps in
  let cutoff_time := i64_sub now 30000 in
  _ ← safe_get (dk_initiate_identifier alloc);
  _ ← to_bitcoin_address wallet_key network;
  balance ← get_balance s key_address;
  rdg_starting_balance ← safe_get_msg balance "Missing balance";
  utxos ← query_utxo_address s key_address;
  let with_cutoff := List.filter (λ o, of_event_time o <? cutoff_time) os in
  tb ← with_utxos utxos (TransactionBuilder_new network salt now);
  tb ← ask_payouts with_cutoff tb;
  rdg ← (if (0 <? length (tx_outputs (tb_transaction tb)))%nat then r ← build tb; Ok (Some r.1) else Ok None);
  Ok ({| po_rdg := rdg; po_btc := btc_payouts with_cutoff |},
      {| cu_bid_ask := pe_bid_ask ps; cu_btc_timestamp := last_timestamp;
         cu_allocation := {| dk_key := dk_key alloc; dk_allocation := dk_allocation alloc;
                             dk_initiate_identifier := dk_initiate_identifier alloc;
                             dk_balance_btc := btc_starting_balance; dk_balance_rdg := as_u64 rdg_starting_balance |} |}).

(** * Properties *)

(** ** Time *)

Definition unobserved (seeds : list PublicKey) (e : AddressEvent) : Prop :=
  match e with
  | External _ => False
  | Internal t => omap (seed_observation_time seeds) (two_observations t) = []
  end.

Lemma event_time_panics seeds e : event_time seeds e = Panic ↔ unobserved seeds e.
Proof.
destruct e as [t|t]; simpl; [naive_solver|]. destruct (omap _ _) as [|x l]; [naive_solver|].
rewrite bool_decide_false by done. naive_solver.
Qed.
Lemma event_time_no_error seeds e err : event_time seeds e ≠ Err err.
Proof. destruct e as [t|t]; simpl; [done|]. by case_bool_decide. Qed.

Lemma mapR_panics {A B E} (f : A → result E B) l x :
  (∀ y e, f y ≠ Err e) → x ∈ l → f x = Panic → mapR f l = Panic.
Proof.
intros He Hin Hx. induction l as [|y l IH]; [by apply not_elem_of_nil in Hin|]. cbn [mapR].
destruct (f y) as [b|e|] eqn:Ey; [|by destruct (He y e)|done]. apply elem_of_cons in Hin as [->|Hin]; [congruence|].
cbn. by rewrite IH.
Qed.

(** One transaction of the address that no seed has observed makes the whole
    replay panic: the mean of no times is a division by zero. *)
Theorem unobserved_transaction_panics n res e :
  e ∈ res → unobserved (pe_seeds n) e → replay n res = Panic.
Proof.
intros Hin Hu. apply event_time_panics in Hu. unfold replay. destruct res as [|e1 [|e2 res]].
- by apply not_elem_of_nil in Hin.
- apply list_elem_of_singleton in Hin as ->. cbn. unfold process_event. cbn [pe_seeds pe_with_events]. by rewrite Hu.
- cbn [sort_events]. rewrite (mapR_panics _ _ e); [done| |done|by rewrite Hu].
  intros y err. destruct (event_time (pe_seeds n) y) eqn:Ey; [done| |done]. by destruct (event_time_no_error _ _ _ Ey).
Qed.

(** ** No order is lost or opened twice *)

Definition all_orders (p : PartyEvents) : list (OrderFulfillment * AddressEvent) :=
  pe_unfulfilled_deposits p ++ pe_unfulfilled_withdrawals p ++ (fst <$> pe_fulfillment_history p).
Definition same_party (p p' : PartyEvents) : Prop :=
  pe_key_address p' = pe_key_address p ∧ pe_party_public_key p' = pe_party_public_key p ∧
  pe_network p' = pe_network p ∧ pe_seeds p' = pe_seeds p.
#[local] Instance same_party_preorder : PreOrder same_party.
Proof. split; unfold same_party; red; naive_solver congruence. Qed.

Lemma filter_partition {A} (f : A → bool) l : List.filter f l ++ List.filter (λ x, negb (f x)) l ≡ₚ l.
Proof.
induction l as [|x l IH]; [done|]. cbn [List.filter]. destruct (f x); cbn [negb app]; [by rewrite IH|].
by rewrite <-Permutation_middle, IH.
Qed.

Lemma settle_perm keep r open h open' h' :
  settle keep r open h = (open', h') → open' ++ (fst <$> h') ≡ₚ open ++ (fst <$> h).
Proof.
unfold settle. intros [= <- <-]. rewrite fmap_app, <-list_fmap_compose.
assert (fst ∘ (λ x : OrderFulfillment * AddressEvent, (x.1, x.2, r)) <$> List.filter (λ x, negb (keep x.2)) open =
  List.filter (λ x, negb (keep x.2)) open) as ->.
{ rewrite <-(list_fmap_id (List.filter _ open)) at 2. apply list_fmap_ext. by intros ? [] _. }
rewrite (Permutation_app_comm (fst <$> h)), app_assoc. f_equiv. by apply (filter_partition (λ x, keep x.2)).
Qed.

(** What an event adds to the orders. *)
Definition opened (e : AddressEvent) (o : option OrderFulfillment) : list (OrderFulfillment * AddressEvent) :=
  match o with Some f => [(f, e)] | None => [] end.

Lemma process_external_orders t time p p' o :
  process_external t time p = Ok (p', o) →
  same_party p p' ∧ all_orders p' ≡ₚ all_orders p ++ opened (External t) o.
Proof.
unfold process_external. intros H. apply bind_Ok in H as ([[p1 o1] sign] & H1 & H). injection H as <- <-.
destruct (et_incoming t).
- apply bind_Ok in H1 as (a & _ & H1). injection H1 as H1 <- <-.
  destruct (fulfill_taker_order _ _ _ _ _ _) as [f|]; subst p1; (split; [done|]); unfold all_orders; cbn.
  + solve_Permutation.
  + by rewrite app_nil_r.
- destruct (settle _ _ _ _) as [w h] eqn:E. injection H1 as <- <- <-. split; [done|].
  unfold all_orders. cbn. rewrite app_nil_r. apply Permutation_app_head. by eapply settle_perm.
Qed.

Lemma settle_deposits_orders e ids p :
  let p' := foldl (settle_deposit e) p ids in
  same_party p p' ∧ all_orders p' ≡ₚ all_orders p ∧ pe_balance_map p' = pe_balance_map p ∧
  pe_unfulfilled_withdrawals p' = pe_unfulfilled_withdrawals p.
Proof.
revert p. induction ids as [|id ids IH]; intros p; [done|]. cbn [foldl].
destruct (settle (retain_unfulfilled_deposits id) e (pe_unfulfilled_deposits p) (pe_fulfillment_history p)) as [d h] eqn:E.
assert (settle_deposit e p id = pe_with_deposits d h (remove_unconfirmed_event e p)) as ->.
{ unfold settle_deposit. cbn [remove_unconfirmed_event pe_with_unconfirmed pe_unfulfilled_deposits pe_fulfillment_history]. by rewrite E. }
destruct (IH (pe_with_deposits d h (remove_unconfirmed_event e p))) as (Hs & Ho & Hb & Hw). split_and!; [by rewrite <-Hs|rewrite Ho|done|done].
apply settle_perm in E. unfold all_orders. cbn in *.
transitivity (pe_unfulfilled_withdrawals p ++ (d ++ h.*1)); [solve_Permutation|]. rewrite E. solve_Permutation.
Qed.

Lemma process_internal_orders t time p p' o :
  process_internal t time p = (p', o) →
  same_party p p' ∧ all_orders p' ≡ₚ all_orders p ++ opened (Internal t) o.
Proof.
unfold process_internal. destruct (negb _).
- destruct (if has_swap_to_multi _ _ _ then _ else _) as [f|]; intros [= <- <-]; (split; [done|]); unfold all_orders; cbn.
  + solve_Permutation.
  + by rewrite app_nil_r.
- intros [= <- <-]. destruct (settle_deposits_orders (Internal t) (output_external_txids (two_tx t)) p) as (Hs & Ho & _).
  split; [exact Hs|]. cbn [opened]. rewrite app_nil_r, <-Ho. done.
Qed.

Lemma update_curve_frame o time p p' :
  update_curve o time p = Ok p' →
  same_party p p' ∧ pe_unfulfilled_deposits p' = pe_unfulfilled_deposits p ∧
  pe_unfulfilled_withdrawals p' = pe_unfulfilled_withdrawals p ∧ pe_fulfillment_history p' = pe_fulfillment_history p ∧
  pe_balance_map p' = pe_balance_map p ∧ pe_unconfirmed_events p' = pe_unconfirmed_events p.
Proof. unfold update_curve. intros H. apply bind_Ok in H as (b & _ & H). injection H as <-. done. Qed.

Lemma process_event_orders p e p' :
  process_event p e = Ok p' → same_party p p' ∧ ∃ o, all_orders p' ≡ₚ all_orders p ++ opened e o.
Proof.
unfold process_event. intros H. apply bind_Ok in H as ([time|] & Ht & H).
2: { injection H as <-. split; [done|]. exists None. unfold all_orders. cbn. by rewrite app_nil_r. }
unfold process_confirmed_event in H. apply bind_Ok in H as ([p1 o] & H1 & H). cbn [fst snd] in H.
assert (same_party p p1 ∧ all_orders p1 ≡ₚ all_orders p ++ opened e o) as [Hs Ho].
{ destruct e as [t|t]; [by eapply process_external_orders|]. injection H1 as H1. by eapply process_internal_orders. }
apply update_curve_frame in H as (Hs' & Hd & Hw & Hh & _). split; [by rewrite Hs|]. exists o.
rewrite <-Ho. unfold all_orders. by rewrite Hd, Hw, Hh.
Qed.

(** C20: In every replay each event opens at most one order, and every order that was
    opened is in exactly one place: open, or in the history. *)
Theorem orders_conserved es p p' :
  foldR process_event p es = Ok p' →
  ∃ os : list (option OrderFulfillment), length os = length es ∧
    all_orders p' ≡ₚ all_orders p ++ concat (zip_with opened es os).
Proof.
revert p. induction es as [|e es IH]; intros p H.
{ injection H as <-. exists []. cbn. by rewrite app_nil_r. }
cbn [foldR] in H. apply bind_Ok in H as (p1 & H1 & H). destruct (process_event_orders _ _ _ H1) as [_ [o Ho]].
destruct (IH p1 H) as (os & Hlen & Hos). exists (o :: os). split; [cbn; lia|].
rewrite Hos, Ho. cbn. by rewrite app_assoc.
Qed.

(** ** Balances *)

Definition balance_of (p : PartyEvents) (currency : Z) : Z := default 0 (pe_balance_map p !! currency).
(** What an event moves: a currency and a signed amount. *)
Definition event_delta (p : PartyEvents) (e : AddressEvent) : Z * Z :=
  match e with
  | External t => (et_currency t, as_i64 (as_i64 (et_amount t) * (if et_incoming t then 1 else -1)))
  | Internal t =>
      (SupportedCurrency_Redgold,
       if bool_decide (pe_key_address p ∈ input_addresses (two_tx t)) then as_i64 (non_remainder_amount (two_tx t) * -1)
       else as_i64 (default 0 (ok_opt (output_amount_of_multi (two_tx t) (pe_party_public_key p) (pe_network p))) * 1))
  end.
Definition moves (p : PartyEvents) (currency : Z) (e : AddressEvent) : option Z :=
  match event_time (pe_seeds p) e with
  | Ok (Some _) => let '(c, d) := event_delta p e in if bool_decide (c = currency) then Some d else None
  | _ => None
  end.

Lemma process_confirmed_balance p e time p' :
  process_confirmed_event e time p = Ok p' →
  let '(c, d) := event_delta p e in pe_balance_map p' = <[c := i64_add (balance_of p c) d]> (pe_balance_map p).
Proof.
unfold process_confirmed_event. intros H. apply bind_Ok in H as ([p1 o] & H1 & H). cbn [fst snd] in H.
apply update_curve_frame in H as (_ & _ & _ & _ & -> & _). destruct e as [t|t]; cbn [event_delta].
- unfold process_external in H1. apply bind_Ok in H1 as ([[p2 o2] sign] & H2 & H1). injection H1 as <- <-.
  destruct (et_incoming t).
  + apply bind_Ok in H2 as (a & _ & H2). injection H2 as H2 <- <-. by destruct (fulfill_taker_order _ _ _ _ _ _); subst.
  + destruct (settle _ _ _ _). by injection H2 as <- <- <-.
- injection H1 as H1. unfold process_internal in H1. case_bool_decide; cbn [negb] in H1.
  + injection H1 as <- <-. cbn [pe_with_balance pe_balance_map].
    by destruct (settle_deposits_orders (Internal t) (output_external_txids (two_tx t)) p) as (_ & _ & -> & _).
  + destruct (if has_swap_to_multi _ _ _ then _ else _); by injection H1 as <- <-.
Qed.

Lemma moves_same p p' c e : same_party p p' → moves p' c e = moves p c e.
Proof. intros (Hk & Hp & Hn & Hs). unfold moves, event_delta. by rewrite Hk, Hp, Hn, Hs. Qed.

(** C34: After a replay the balance of a currency is the sum of what the confirmed
    events moved, in [i64]. *)
Theorem replay_balance es p p' c :
  foldR process_event p es = Ok p' → in_s 64 (balance_of p c) →
  balance_of p' c = as_i64 (balance_of p c + sum_Z (omap (moves p c) es)).
Proof.
revert p. induction es as [|e es IH]; intros p H Hin.
{ injection H as <-. cbn. rewrite Z.add_0_r. symmetry. by apply wrap_s_id. }
cbn [foldR] in H. apply bind_Ok in H as (p1 & H1 & H). destruct (process_event_orders _ _ _ H1) as [Hs _].
assert (omap (moves p1 c) es = omap (moves p c) es) as Hm.
{ apply list_omap_ext. apply Forall2_same_length_lookup. split; [done|]. intros ? ? ? ? ?. simplify_eq. by apply moves_same. }
assert (in_s 64 (balance_of p1 c) ∧
  balance_of p1 c = match moves p c e with Some d => as_i64 (balance_of p c + d) | None => balance_of p c end) as [Hin1 Hb].
{ unfold process_event in H1. apply bind_Ok in H1 as (time & Ht & H1). unfold moves. rewrite Ht. destruct time as [time|].
  - apply process_confirmed_balance in H1. destruct (event_delta p e) as [c' d]. unfold balance_of at 1 2. rewrite H1.
    case_bool_decide as Hc; [subst c'; rewrite lookup_insert_eq|by rewrite lookup_insert_ne].
    split; [|done]. apply wrap_s_in. lia.
  - by injection H1 as <-. }
rewrite (IH p1 H Hin1), Hm, Hb. cbn [omap list_omap]. destruct (moves p c e) as [d|]; [|done].
rewrite wrap_s_add_l. f_equal.
change (sum_Z (d :: omap (moves p c) es)) with (d + sum_Z (omap (moves p c) es)). lia.
Qed.

(** ** Batches of Bitcoin payouts *)

Definition other_outputs (self_addr : string) (x : WalletTransaction) : list (string * Z) :=
  List.filter (λ o, negb (bool_decide (o.1 = self_addr))) (wt_outputs x).

(** An outgoing transaction is described by its first foreign output alone. *)
Lemma external_of_outgoing self x a v rest :
  existsb (λ a, bool_decide (a = self)) (wt_inputs x) = true → other_outputs self x = (a, v) :: rest →
  external_of self x = Some {| et_tx_id := wt_txid x; et_timestamp := wt_block_time x; et_other_address := a;
    et_other_output_addresses := fst <$> other_outputs self x; et_amount := v; et_incoming := false;
    et_currency := SupportedCurrency_Bitcoin |}.
Proof. unfold external_of, other_outputs. intros -> ->. done. Qed.

Lemma orders_withdrawal p f t a :
  (f, Internal t) ∈ pe_unfulfilled_withdrawals p → first_input_address_to_btc_address (two_tx t) (pe_network p) = Some a →
  a ∉ unconfirmed_btc_output_other_addresses p → f ∈ orders p.
Proof.
intros Hin Ha Hu. unfold orders. rewrite sort_by_perm. apply elem_of_app. right. apply list_elem_of_omap.
exists (f, Internal t). split; [done|]. cbn. rewrite Ha. cbn. by rewrite bool_decide_false.
Qed.

(** The payouts of a round go out in one Bitcoin transaction.  When it is confirmed,
    the order of every recipient but the first is still open, and is paid again in
    the next round; the balance is lowered by the first output only. *)
Theorem batch_payout_left_open self x a1 v1 a2 v2 rest t p p' f tx block :
  existsb (λ a, bool_decide (a = self)) (wt_inputs x) = true →
  other_outputs self x = (a1, v1) :: (a2, v2) :: rest → wt_block_time x = Some block →
  external_of self x = Some t → process_event p (External t) = Ok p' →
  (f, Internal tx) ∈ pe_unfulfilled_withdrawals p →
  first_input_address_to_btc_address (two_tx tx) (pe_network p) = Some a2 →
  input_bitcoin_address (two_tx tx) (pe_network p) a1 = false →
  a2 ∉ unconfirmed_btc_output_other_addresses p' →
  f ∈ orders p' ∧
  balance_of p' SupportedCurrency_Bitcoin = i64_add (balance_of p SupportedCurrency_Bitcoin) (as_i64 (as_i64 v1 * -1)).
Proof.
intros Hself Hout Hblock Hext Hstep Hin Ha2 Ha1 Hu.
rewrite (external_of_outgoing _ _ _ _ _ Hself Hout) in Hext. injection Hext as Hext.
destruct (process_event_orders _ _ _ Hstep) as [(_ & _ & Hn & _) _].
unfold process_event in Hstep. rewrite <-Hext in Hstep. cbn [event_time et_timestamp] in Hstep. rewrite Hblock in Hstep.
cbn [fmap option_fmap option_map mbind result_bind] in Hstep. pose proof (process_confirmed_balance _ _ _ _ Hstep) as Hb.
unfold process_confirmed_event in Hstep. apply bind_Ok in Hstep as ([p1 o] & H1 & H). cbn [fst snd] in H.
apply update_curve_frame in H as (_ & _ & Hw & _ & _). unfold process_external in H1.
apply bind_Ok in H1 as ([[p2 o2] sign] & H2 & H1). injection H1 as <- <-. cbn [et_incoming] in H2.
destruct (settle _ _ _ _) as [w h] eqn:Es. injection H2 as <- <- <-. split.
- eapply orders_withdrawal; [|by rewrite Hn|done]. rewrite Hw. cbn. unfold settle in Es. injection Es as <- _.
  apply list_elem_of_In, filter_In. split; [by apply list_elem_of_In|].
  cbn [snd retain_unfulfilled_withdrawals et_other_address]. by rewrite Ha1, andb_false_r.
- unfold balance_of at 1. rewrite Hb. cbn [event_delta et_currency et_amount et_incoming]. by rewrite lookup_insert_eq.
Qed.

(** ** A deposit that was answered is not answered again *)

Record party_wf (p : PartyEvents) : Prop := {
  pwf_deposits : ∀ f e, (f, e) ∈ pe_unfulfilled_deposits p →
    ∃ t, e = External t ∧ of_tx_id_ref f = Some {| ext_identifier := et_tx_id t |};
  pwf_withdrawals : ∀ f e, (f, e) ∈ pe_unfulfilled_withdrawals p → of_tx_id_ref f = None }.

Lemma fulfill_tx_id b amount is_ask time tx_id dest f :
  fulfill_taker_order b amount is_ask time tx_id dest = Some f →
  of_tx_id_ref f = (λ id, {| ext_identifier := id |}) <$> tx_id.
Proof. unfold fulfill_taker_order. destruct (fill_curve _ _ _). case_match; [done|]. by intros [= <-]. Qed.

Lemma settle_open keep r open h x : x ∈ (settle keep r open h).1 ↔ x ∈ open ∧ keep x.2 = true.
Proof. unfold settle. cbn [fst]. by rewrite list_elem_of_In, filter_In, <-list_elem_of_In. Qed.

Lemma settle_deposits_open e ids p f d :
  (f, d) ∈ pe_unfulfilled_deposits (foldl (settle_deposit e) p ids) ↔
  (f, d) ∈ pe_unfulfilled_deposits p ∧ Forall (λ id, retain_unfulfilled_deposits id d = true) ids.
Proof.
revert p. induction ids as [|id ids IH]; intros p; [naive_solver|]. cbn [foldl]. rewrite IH, Forall_cons.
assert (pe_unfulfilled_deposits (settle_deposit e p id) =
  (settle (retain_unfulfilled_deposits id) e (pe_unfulfilled_deposits p) (pe_fulfillment_history p)).1) as -> by done.
rewrite settle_open. naive_solver.
Qed.

(** What an event leaves of the open orders. *)
Lemma process_event_open p e p' :
  process_event p e = Ok p' →
  (∀ f d, (f, d) ∈ pe_unfulfilled_deposits p' → (f, d) ∈ pe_unfulfilled_deposits p ∨
     ∃ t, d = e ∧ e = External t ∧ et_incoming t = true ∧ of_tx_id_ref f = Some {| ext_identifier := et_tx_id t |}) ∧
  (∀ f d, (f, d) ∈ pe_unfulfilled_withdrawals p' → (f, d) ∈ pe_unfulfilled_withdrawals p ∨ of_tx_id_ref f = None).
Proof.
unfold process_event. intros H. apply bind_Ok in H as ([time|] & Ht & H); [|by injection H as <-; split; auto].
unfold process_confirmed_event in H. apply bind_Ok in H as ([p1 o] & H1 & H). cbn [fst snd] in H.
apply update_curve_frame in H as (_ & Hd & Hw & _). rewrite Hd, Hw. clear Hd Hw. destruct e as [t|t].
- unfold process_external in H1. apply bind_Ok in H1 as ([[p2 o2] sign] & H2 & H1). injection H1 as <- <-.
  destruct (et_incoming t) eqn:Ein.
  + apply bind_Ok in H2 as (a & _ & H2). injection H2 as H2 <- <-.
    destruct (fulfill_taker_order _ _ _ _ _ _) as [f0|] eqn:Ef; subst p2; cbn; [|by auto].
    apply fulfill_tx_id in Ef. split; [|by auto]. intros f d [Hin|Hin]%elem_of_app; [by left|].
    apply list_elem_of_singleton in Hin. simplify_eq. right. by eauto.
  + destruct (settle _ _ _ _) as [w h] eqn:Es. injection H2 as <- <- <-. cbn. split; [by auto|]. intros f d Hin.
    left. eapply (settle_open _ _ _ _ (f, d)). by rewrite Es.
- injection H1 as H1. unfold process_internal in H1. destruct (negb _).
  + destruct (if has_swap_to_multi _ _ _ then _ else _) as [f0|] eqn:Ef; injection H1 as <- <-; cbn; [|by auto].
    split; [by auto|]. intros f d [Hin|Hin]%elem_of_app; [by left|]. apply list_elem_of_singleton in Hin. simplify_eq.
    right. destruct (has_swap_to_multi _ _ _); [|done]. apply bind_Some in Ef as (a & _ & Ef). by apply fulfill_tx_id in Ef.
  + injection H1 as <- <-. cbn [pe_with_balance pe_unfulfilled_deposits pe_unfulfilled_withdrawals]. split.
    * intros f d Hin. apply settle_deposits_open in Hin as [Hin _]. by left.
    * intros f d. destruct (settle_deposits_orders (Internal t) (output_external_txids (two_tx t)) p) as (_ & _ & _ & ->). by left.
Qed.

Lemma process_event_wf p e p' : process_event p e = Ok p' → party_wf p → party_wf p'.
Proof.
intros H [Hd Hw]. destruct (process_event_open _ _ _ H) as [H1 H2]. split.
- intros f d Hin. destruct (H1 f d Hin) as [?|(t & -> & -> & _ & Ht)]; [by apply Hd|]. by exists t.
- intros f d Hin. destruct (H2 f d Hin) as [?|?]; [by eapply Hw|done].
Qed.

(** No open deposit carries the id. *)
Definition answered (id : ExternalTransactionId) (p : PartyEvents) : Prop :=
  ∀ f e, (f, e) ∈ pe_unfulfilled_deposits p → of_tx_id_ref f ≠ Some id.

Lemma receipt_answers p t time p' id :
  party_wf p → event_time (pe_seeds p) (Internal t) = Ok (Some time) → process_event p (Internal t) = Ok p' →
  pe_key_address p ∈ input_addresses (two_tx t) → id ∈ output_external_txids (two_tx t) → answered id p'.
Proof.
intros [Hd _] Ht H Hk Hid. unfold process_event in H. rewrite Ht in H. cbn [mbind result_bind] in H.
unfold process_confirmed_event in H. cbn [mbind result_bind] in H. apply update_curve_frame in H as (_ & Hd' & _).
unfold answered. rewrite Hd'. unfold process_internal. rewrite bool_decide_true by done. cbn [negb fst pe_with_balance pe_unfulfilled_deposits].
intros f e Hin. apply settle_deposits_open in Hin as [Hin Hr]. destruct (Hd f e Hin) as (t' & -> & Href).
rewrite Forall_forall in Hr. specialize (Hr id Hid). cbn in Hr. apply negb_true_iff, bool_decide_eq_false in Hr.
rewrite Href. destruct id. intros [= E]. by apply Hr.
Qed.

(** C19: Once a confirmed payout of the party names a deposit, no later replay state
    asks to pay for it again, unless the deposit itself is reported again. *)
Theorem deposit_settled es1 es2 p p1 p' t time id :
  party_wf p → foldR process_event p es1 = Ok p1 → foldR process_event p1 (Internal t :: es2) = Ok p' →
  event_time (pe_seeds p1) (Internal t) = Ok (Some time) → pe_key_address p1 ∈ input_addresses (two_tx t) →
  id ∈ output_external_txids (two_tx t) →
  Forall (λ e, ∀ t', e = External t' → et_incoming t' = true → et_tx_id t' ≠ ext_identifier id) es2 →
  Forall (λ f, of_tx_id_ref f ≠ Some id) (orders p').
Proof.
intros Hwf H1 H2 Ht Hk Hid Hes. assert (party_wf p1) as Hwf1.
{ eapply (foldR_inv _ _ party_wf); [|exact Hwf|exact H1]. intros ? ? ? _ ? ?. by eapply process_event_wf. }
cbn [foldR] in H2. apply bind_Ok in H2 as (p2 & Hr & H2).
assert (party_wf p2 ∧ answered id p2) as H0.
{ split; [by eapply process_event_wf|by eapply receipt_answers]. }
assert (party_wf p' ∧ answered id p') as [[Hd Hw] Ha].
{ eapply (foldR_inv _ _ (λ p, party_wf p ∧ answered id p)); [|exact H0|exact H2].
  intros q e q' Hin [Hq Hqa] Hstep. split; [by eapply process_event_wf|]. intros f d Hf.
  destruct (process_event_open _ _ _ Hstep) as [Ho _]. destruct (Ho f d Hf) as [?|(t' & -> & -> & Hi & Href)]; [by eapply Hqa|].
  rewrite Forall_forall in Hes. rewrite Href. destruct id. intros [= E]. by eapply (Hes _ Hin). }
rewrite Forall_forall. intros f Hf. unfold orders in Hf. rewrite sort_by_perm in Hf. apply elem_of_app in Hf as [Hf|Hf].
- apply list_elem_of_omap in Hf as ([f' e] & Hin & Hf). cbn in Hf. destruct e; [|done]. case_bool_decide; simplify_eq.
  by eapply Ha.
- apply list_elem_of_omap in Hf as ([f' e] & Hin & Hf). cbn in Hf. destruct e; [done|].
  destruct (first_input_address_to_btc_address _ _); [|done]. cbn in Hf. case_bool_decide; simplify_eq.
  by rewrite (Hw _ _ Hin).
Qed.
End party.

(** * A party on a small history *)

Module PartyDemo.
#[local] Existing Instance toy_host.
#[local] Existing Instance toy_crypto.
#[local] Existing Instance toy_secp.
#[local] Instance demo_pt : Proto Transaction := const_proto Transaction (λ _, []).
#[local] Existing Instance toy_libm.

Definition party_key : PublicKey := KeyPair_public_key demo_kp.
Definition user_key (b : Byte.byte) : PublicKey := PublicKey_from_bytes (repeat b 33).
Definition btc_address (pk : PublicKey) : string := default "" (ok_opt (to_bitcoin_address pk Dev)).
Definition seed : PublicKey := user_key Byte.x09.
Definition proof_of (pk : PublicKey) : Proof_ := {| pf_signature := None; pf_public_key := Some pk |}.
(** A transaction that the seed observed at the time. *)
Definition observed (time : Z) (tx : Transaction) : AddressEvent :=
  Internal {| two_tx := tx; two_observations :=
    [{| op_observation_hash := None; op_merkle_proof := None;
        op_metadata := Some {| om_observed_hash := None; om_observation_type := 0; om_state := State_Accepted;
          om_validation_confidence := None; om_struct_metadata := struct_metadata time;
          om_validation_liveness := ValidationLiveness_Live; om_liveness_confidence := None |};
        op_proof := Some (proof_of seed) |}] |}.
Definition input_of (pk : PublicKey) : Input :=
  {| i_utxo_id := None; i_proof := [proof_of pk]; i_product_id := None; i_output := None; i_floating_utxo_id := None;
     i_input_type := None |}.
Definition transfer (from : PublicKey) (o : Output) : Transaction :=
  {| tx_inputs := [input_of from]; tx_outputs := [o]; tx_struct_metadata := struct_metadata 1; tx_options := None |}.
Definition swap_output (amount : Z) : Output :=
  o_with_contract (Some (contract_of_type StandardContractType_Swap)) (Output_new demo_kp_address amount).
Definition payout_output (txid : string) (amount : Z) : Output :=
  let o := Output_new demo_address amount in
  o_with_data (d_with_external_id (Some {| ext_identifier := txid |}) <$> o_data o) o.
Definition btc (txid : string) (time : Z) (other : string) (amount : Z) (incoming : bool) : AddressEvent :=
  External {| et_tx_id := txid; et_timestamp := Some time; et_other_address := other; et_other_output_addresses := [other];
              et_amount := amount; et_incoming := incoming; et_currency := SupportedCurrency_Bitcoin |}.

Definition party0 : PartyEvents :=
  {| pe_key_address := demo_kp_address; pe_party_public_key := party_key; pe_network := Dev; pe_seeds := [seed];
     pe_events := []; pe_balance_map := ∅; pe_unfulfilled_deposits := []; pe_unfulfilled_withdrawals := [];
     pe_price := f64_div f64_one BTC_RDG_STARTING;
     pe_bid_ask := {| ba_bids := []; ba_asks := []; ba_center_price := f64_div f64_one BTC_RDG_STARTING |};
     pe_unconfirmed_events := []; pe_fulfillment_history := [] |}.
Definition run (es : list AddressEvent) : PartyEvents :=
  match foldR process_event party0 es with Ok p => p | _ => party0 end.

Definition funding : AddressEvent := observed 1000 (transfer (user_key Byte.x03) (Output_new demo_kp_address 10000000)).
Definition deposits : list AddressEvent := [btc "d1" 2 "alice" 40000 true; btc "d2" 3 "bob" 40000 true].

(** The curve is made from the balances alone: two deposits are promised more than
    the party holds. *)
Theorem party_overcommits :
  ∃ p, foldR process_event party0 (funding :: deposits) = Ok p ∧ balance_of p SupportedCurrency_Redgold = 10000000 ∧
    length (orders p) = 2%nat ∧ 10000000 < sum_Z (of_fulfilled_amount <$> orders p).
Proof. exists (run (funding :: deposits)). split; [vm_compute; reflexivity|]. by_decision. Qed.

Lemma unobserved_transaction_panics_witness :
  replay party0 [funding; Internal {| two_tx := transfer party_key (payout_output "d1" 5); two_observations := [] |}] = Panic.
Proof. eapply (unobserved_transaction_panics _ _ (Internal _)); [right; left|reflexivity]. Defined.

Lemma orders_conserved_witness :
  ∃ os : list (option OrderFulfillment), length os = 3%nat ∧
    all_orders (run (funding :: deposits)) ≡ₚ [] ++ concat (zip_with opened (funding :: deposits) os).
Proof. apply (orders_conserved (funding :: deposits) party0). vm_compute. reflexivity. Defined.

Lemma replay_balance_witness :
  balance_of (run (funding :: deposits)) SupportedCurrency_Bitcoin =
  as_i64 (0 + sum_Z (omap (moves party0 SupportedCurrency_Bitcoin) (funding :: deposits))).
Proof. apply (replay_balance (funding :: deposits) party0); [vm_compute; reflexivity|by_decision]. Defined.

(** The payout of the first deposit. *)
Definition receipt : TransactionWithObservations :=
  match observed 5000 (transfer party_key (payout_output "d1" 5000000)) with
  | Internal t => t | External _ => {| two_tx := transfer party_key (payout_output "d1" 5000000); two_observations := [] |}
  end.
Lemma deposit_settled_witness :
  length (orders (run (funding :: deposits))) = 2%nat ∧
  Forall (λ f, of_tx_id_ref f ≠ Some {| ext_identifier := "d1" |}) (orders (run ((funding :: deposits) ++ [Internal receipt]))).
Proof.
split; [by_decision|].
apply (deposit_settled (funding :: deposits) [] party0 (run (funding :: deposits)) _ receipt 5000).
- split; intros f e H; exfalso; exact (not_elem_of_nil _ H).
- vm_compute. reflexivity.
- vm_compute. reflexivity.
- vm_compute. reflexivity.
- by_decision.
- by_decision.
- constructor.
Defined.

(** Two withdrawals, paid in one Bitcoin transaction. *)
Definition withdrawal (b : Byte.byte) (time : Z) : AddressEvent := observed time (transfer (user_key b) (swap_output 8000000)).
Definition withdrawals : list AddressEvent :=
  funding :: deposits ++ [withdrawal Byte.x03 6000; withdrawal Byte.x04 7000].
Definition batch : WalletTransaction :=
  {| wt_txid := "batch"; wt_inputs := [btc_address party_key];
     wt_outputs := [(btc_address (user_key Byte.x03), 4000); (btc_address (user_key Byte.x04), 4000);
                    (btc_address party_key, 70000)];
     wt_block_time := Some 8 |}.
Definition batch_event : ExternalTimedTransaction :=
  match external_of (btc_address party_key) batch with
  | Some t => t
  | None => {| et_tx_id := ""; et_timestamp := None; et_other_address := ""; et_other_output_addresses := []; et_amount := 0;
               et_incoming := false; et_currency := 0 |}
  end.
Definition last_withdrawal (l : list (OrderFulfillment * AddressEvent)) : OrderFulfillment * TransactionWithObservations :=
  match last l with
  | Some (f, Internal t) => (f, t)
  | _ => ({| of_order_amount := 0; of_fulfilled_amount := 0; of_updated_curve := []; of_is_ask := false; of_event_time := 0;
             of_tx_id_ref := None; of_destination := demo_address |}, receipt)
  end.
Definition second_order : OrderFulfillment * TransactionWithObservations :=
  last_withdrawal (pe_unfulfilled_withdrawals (run withdrawals)).
Lemma batch_payout_witness :
  second_order.1 ∈ orders (run (withdrawals ++ [External batch_event])) ∧
  balance_of (run (withdrawals ++ [External batch_event])) SupportedCurrency_Bitcoin = 76000.
Proof.
destruct (batch_payout_left_open (btc_address party_key) batch (btc_address (user_key Byte.x03)) 4000
  (btc_address (user_key Byte.x04)) 4000 [] batch_event (run withdrawals) (run (withdrawals ++ [External batch_event]))
  second_order.1 second_order.2 8) as [H1 H2].
- vm_compute. reflexivity.
- vm_compute. reflexivity.
- reflexivity.
- vm_compute. reflexivity.
- vm_compute. reflexivity.
- assert (pe_unfulfilled_withdrawals (run withdrawals) =
    take 1 (pe_unfulfilled_withdrawals (run withdrawals)) ++ [(second_order.1, Internal second_order.2)]) as ->
    by (vm_compute; reflexivity).
  apply elem_of_app. right. left.
- vm_compute. reflexivity.
- vm_compute. reflexivity.
- unfold unconfirmed_btc_output_other_addresses.
  assert (pe_unconfirmed_events (run (withdrawals ++ [External batch_event])) = []) as -> by (vm_compute; reflexivity).
  apply not_elem_of_empty.
- split; [exact H1|]. rewrite H2. by_decision.
Defined.
End PartyDemo.
