(* ===== verification/Resolver.v ===== *)
(** * Input resolution and the balance check

    src/core/resolver.rs: finding the parent transaction of every input, in the
    local store or from the peers, checking the input's proof against the parent
    output, and the balance check of [ResolvedTransaction::validate].

    What the peers answer is an argument: [peer_answers hash index] is the list of
    replies [Relay::broadcast_async] collects for a [ResolveHashRequest] sent to
    the peers near the hash.  The tasks spawned per input do not share state, so
    they are evaluated in input order; a failed join is left out. *)

From stdpp Require Import base list gmap strings.
From S2P Require Import Prelude Structs Interfaces Schema Merkle Transaction Keys Store.
#[local] Open Scope Z_scope.
#[local] Open Scope redgold_scope.

Record TransactionInfo := {
  tin_transaction : option Transaction; tin_observation_proofs : list ObservationProof;
  tin_queried_output_index_valid : option bool }.
Record ResolveHashResponse := { rhr_transaction_info : option TransactionInfo }.
(** A peer's reply; the other response fields are not looked at. *)
Notation ResolveReply := (Response (option ResolveHashResponse)).

Record ResolvedInput := {
  ri_input : Input; ri_parent_transaction : Transaction; ri_internal_accepted : bool;
  ri_internal_valid_index : bool; ri_observation_proofs : gset ObservationProof;
  ri_peer_valid_index : gset PublicKey; ri_peer_invalid_index : gset PublicKey;
  ri_signable_hash : Hash }.
Record ResolvedTransactionHash := {
  rth_hash : Hash; rth_transaction : Transaction; rth_observation_proofs : gset ObservationProof;
  rth_peer_valid_index : gset PublicKey; rth_peer_invalid_index : gset PublicKey }.
Record ResolvedTransaction := {
  rt_transaction : Transaction; rt_fixed_resolutions : list ResolvedInput; rt_resolved_internally : bool }.

Section resolver.
Context {host : Host} {crypto : Crypto} {secp : Secp} {sql : Sql}.
Context {ptx : Proto Transaction} {pei : Proto ErrorInfo} {pop : Proto ObservationProof}.

(** ** A resolved input *)

(** [outputs.get(index as usize)]: a negative index is out of range. *)
Definition output_at (t : Transaction) (index : Z) : option Output :=
  if index <? 0 then None else tx_outputs t !! Z.to_nat index.
Definition prior_output (r : ResolvedInput) : RgResult Output :=
  u ← safe_get_msg (i_utxo_id (ri_input r)) "missing utxoid";
  ok_or (output_at (ri_parent_transaction r) (u_output_index u)) (error_info "Output index out of bounds").
Definition ResolvedInput_verify_proof (r : ResolvedInput) : RgResult unit :=
  o ← prior_output r;
  address ← safe_get (o_address o);
  verify_proof (ri_input r) address (ri_signable_hash r).
Definition ResolvedInput_amount (r : ResolvedInput) : RgResult (option Z) := opt_amount <$> prior_output r.

(** ** Resolution from peers *)

Definition validate_single_result (hash : Hash) (response : RgResult ResolveReply) :
    RgResult (Transaction * list ObservationProof * bool) :=
  response ← response;
  _ ← as_error_info response;
  response ← safe_get_msg (rs_body response) "Missing resolve response";
  response ← safe_get_msg (rhr_transaction_info response) "Missing transaction info";
  tx ← safe_get_msg (tin_transaction response) "Missing transaction";
  if bool_decide (calculate_hash tx ≠ hash) then Err (error_info "Invalid transaction hash")
  else Ok (tx, tin_observation_proofs response, default false (tin_queried_output_index_valid response)).

Record PeerTally := {
  pt_res : option Transaction; pt_proofs : gset ObservationProof;
  pt_valid : gset PublicKey; pt_invalid : gset PublicKey }.
Definition empty_tally : PeerTally := {| pt_res := None; pt_proofs := ∅; pt_valid := ∅; pt_invalid := ∅ |}.

(** One reply: only a reply that names its signer counts. *)
Definition tally_reply (hash : Hash) (acc : PeerTally) (result : RgResult ResolveReply) : PeerTally :=
  match (r ← ok_opt result; p ← rs_proof r; pf_public_key p) with
  | Some pk =>
      match validate_single_result hash result with
      | Ok (tx, proofs, valid_idx) =>
          {| pt_res := Some tx; pt_proofs := pt_proofs acc ∪ list_to_set proofs;
             pt_valid := if valid_idx then {[pk]} ∪ pt_valid acc else pt_valid acc;
             pt_invalid := if valid_idx then pt_invalid acc else {[pk]} ∪ pt_invalid acc |}
      | _ => acc
      end
  | None => acc
  end.

Context (peer_answers : Hash → option Z → RgResult (list (RgResult ResolveReply))).

Definition resolve_transaction_hash (hash : Hash) (output_index : option Z) :
    RgResult (option ResolvedTransactionHash) :=
  results ← peer_answers hash output_index;
  let t := foldl (tally_reply hash) empty_tally results in
  Ok ((λ r, {| rth_hash := hash; rth_transaction := r; rth_observation_proofs := pt_proofs t;
               rth_peer_valid_index := pt_valid t; rth_peer_invalid_index := pt_invalid t |}) <$> pt_res t).

(** ** One input *)

(** The [if !internal_accepted] block of [resolve_input]. *)
Definition resolve_remote (hash : Hash) (output_index : Z) (local : PeerTally)
    (internal_valid_index check_liveness : bool) : RgResult PeerTally :=
  resolved ← resolve_transaction_hash hash (Some output_index);
  let t := match resolved with
           | Some r => {| pt_res := Some (rth_transaction r); pt_proofs := rth_observation_proofs r;
                          pt_valid := rth_peer_valid_index r; pt_invalid := rth_peer_invalid_index r |}
           | None => local
           end in
  if bool_decide (size (pt_proofs t) = 0%nat) then Err (error_info "Missing observation proofs") else
  if bool_decide (size (pt_valid t) < size (pt_invalid t))%nat && check_liveness
  then Err (error_info "UTXO considered invalid by peer selection") else
  if bool_decide (pt_valid t = ∅) && negb internal_valid_index && check_liveness
  then Err (error_info "No peers considered UTXO valid") else Ok t.

Definition resolve_input (s : Store) (input : Input) (signable : Hash) (check_liveness : bool) :
    RgResult ResolvedInput :=
  u ← safe_get_msg (i_utxo_id input) "Missing utxo id";
  hash ← safe_get_msg (u_transaction_hash u) "Missing transaction hash on input";
  res_terr ← query_maybe_transaction s hash;
  res ← match res_terr with
        | None => Ok None
        | Some (t, Some e) => Err e
        | Some (t, None) => Ok (Some t)
        end;
  internal_valid_index ← query_utxo_id_valid s hash (u_output_index u);
  let internal_accepted := bool_decide (is_Some res) in
  if internal_accepted && negb internal_valid_index && check_liveness
  then Err (error_info "Missing valid UTXO index on accepted transaction") else
  oe ← select_observation_edge s hash;
  let local := {| pt_res := res; pt_proofs := list_to_set oe; pt_valid := ∅; pt_invalid := ∅ |} in
  t ← (if internal_accepted then Ok local
       else resolve_remote hash (u_output_index u) local internal_valid_index check_liveness);
  parent ← ok_or (pt_res t) (error_info "Missing parent transaction");
  let resolved := {| ri_input := input; ri_parent_transaction := parent;
    ri_internal_accepted := internal_accepted; ri_internal_valid_index := internal_valid_index;
    ri_observation_proofs := pt_proofs t; ri_peer_valid_index := pt_valid t;
    ri_peer_invalid_index := pt_invalid t; ri_signable_hash := signable |} in
  _ ← ResolvedInput_verify_proof resolved;
  Ok resolved.

(** ** The whole transaction *)

Definition total_parent_amount_available (r : ResolvedTransaction) : RgResult Z :=
  foldR (λ total ri, result ← ResolvedInput_amount ri;
           Ok (match result with Some a => i64_add total a | None => total end)) 0 (rt_fixed_resolutions r).
Definition ResolvedTransaction_validate (r : ResolvedTransaction) : RgResult unit :=
  let requested_total := total_output_amount (rt_transaction r) in
  available_total ← total_parent_amount_available r;
  if bool_decide (available_total ≠ requested_total) then Err (error_info "Balance mismatch") else Ok tt.

(** The notification of inputs that were not known locally has no effect here. *)
Definition resolve_transaction (s : Store) (tx : Transaction) : RgResult ResolvedTransaction :=
  vec ← mapR (λ i, resolve_input s i (signable_hash tx) true)
          (List.filter (λ i, bool_decide (i_floating_utxo_id i = None)) (tx_inputs tx));
  Ok {| rt_transaction := tx; rt_fixed_resolutions := vec;
        rt_resolved_internally := forallb ri_internal_accepted vec |}.

End resolver.
