(* ===== verification/Ledger.v ===== *)
(** * The ledger: accepting a transaction

    The commit step of src/core/process_transaction.rs ([insert_transaction]) on
    top of the data store, with the checks that precede it: [prevalidate] (Keys.v),
    [resolve_transaction] and [validate] (Resolver.v).

    The theorems say what these checks give: every spent output is authorised by
    its owner's keys, and accepting a transaction whose inputs were resolved
    locally conserves the total of the UTXO table, under conditions that the code
    does not enforce by itself; the conditions are shown to be needed by concrete
    transactions that the checks accept. *)

From stdpp Require Import base list gmap strings.
From S2P Require Import Prelude Structs Interfaces Schema Merkle Transaction Keys Store Resolver Wire.
#[local] Open Scope Z_scope.
#[local] Open Scope redgold_scope.

Section ledger.
Context {host : Host} {crypto : Crypto} {secp : Secp} {sql : Sql}.
Context {ptx : Proto Transaction} {pue : Proto UtxoEntry} {po : Proto Output} {pei : Proto ErrorInfo}.
Context {pop : Proto ObservationProof} {jei : Json ErrorInfo}.

(** [TransactionProcessContext::insert_transaction]; the clock is an argument.
    The id is formatted for the log, which panics on a hash without bytes. *)
Definition consume_utxo (fixed : UtxoId) : M Store ErrorInfo unit :=
  _ ← lift (UtxoId_format_str fixed);
  _ ← delete_utxo fixed;
  h ← lift (safe_get (u_transaction_hash fixed));
  s ← gets id;
  _ ← lift (query_utxo_id_valid s h (u_output_index fixed));
  mret tt.
Definition commit_transaction (now : Z) (tx : Transaction) : M Store ErrorInfo unit :=
  _ ← insert_transaction tx now true None true;
  iterM consume_utxo (fixed_utxo_ids_of_inputs tx).

(** ** Authorisation *)

Section authorisation.
Context (peer_answers : Hash → option Z → RgResult (list (RgResult ResolveReply))).

(** What resolution establishes for one input. *)
Record input_resolved (s : Store) (i : Input) (sh : Hash) (r : ResolvedInput) : Prop := {
  ir_input : ri_input r = i;
  ir_utxo : ∃ u h, i_utxo_id i = Some u ∧ u_transaction_hash u = Some h ∧
    if ri_internal_accepted r
    then query_maybe_transaction s h = Ok (Some (ri_parent_transaction r, None)) ∧
         query_utxo_id_valid s h (u_output_index u) = Ok true
    else calculate_hash (ri_parent_transaction r) = h ∧
         ri_observation_proofs r ≠ ∅ ∧
         (size (ri_peer_invalid_index r) ≤ size (ri_peer_valid_index r))%nat ∧
         (ri_peer_valid_index r ≠ ∅ ∨ query_utxo_id_valid s h (u_output_index u) = Ok true);
  ir_proof : ∃ o a, prior_output r = Ok o ∧ o_address o = Some a ∧
    proofs_to_address (i_proof i) = Ok a ∧ Forall (λ p, Proof_verify p sh = Ok tt) (i_proof i) }.

Lemma tally_hash hash acc rs tx :
  pt_res (foldl (tally_reply hash) acc rs) = Some tx → pt_res acc = Some tx ∨ calculate_hash tx = hash.
Proof.
revert acc. induction rs as [|r rs IH]; intros acc; [by left|]. simpl. intros H.
apply IH in H as [H|H]; [|by right]. unfold tally_reply in H.
destruct (mbind _ _); [|by left]. destruct (validate_single_result hash r) as [[[tx' ps] v]| |] eqn:E; [|by left..].
simpl in H. injection H as ->. right. unfold validate_single_result in E. inv_Ok.
case_bool_decide as Hd; [done|]. inv_Ok. naive_solver.
Qed.

Lemma verify_proof_spec r :
  ResolvedInput_verify_proof r = Ok tt →
  ∃ o a, prior_output r = Ok o ∧ o_address o = Some a ∧ proofs_to_address (i_proof (ri_input r)) = Ok a ∧
    Forall (λ p, Proof_verify p (ri_signable_hash r) = Ok tt) (i_proof (ri_input r)).
Proof.
unfold ResolvedInput_verify_proof, safe_get. intros H. inv_Ok. exists x, x0. split_and!; [done|done|..];
  by apply verify_proofs_Ok in H1 as [].
Qed.

Lemma resolve_remote_spec h idx local v t :
  pt_res local = None →
  resolve_remote peer_answers h idx local v true = Ok t →
  (∀ tx, pt_res t = Some tx → calculate_hash tx = h) ∧ pt_proofs t ≠ ∅ ∧
  (size (pt_invalid t) ≤ size (pt_valid t))%nat ∧ (pt_valid t ≠ ∅ ∨ v = true).
Proof.
intros Hl. unfold resolve_remote, resolve_transaction_hash. intros H. inv_Ok. subst.
set (f := foldl (tally_reply h) empty_tally x0) in *.
set (t' := match _ with Some _ => _ | None => _ end) in H0.
assert (∀ tx, pt_res t' = Some tx → calculate_hash tx = h) as Hhash.
{ unfold t'. destruct (pt_res f) as [tx'|] eqn:E; simpl; [|congruence]. intros tx [= ->].
  apply tally_hash in E as [E|E]; [done|done]. }
case_bool_decide as H1; [done|]. case_bool_decide as H2; [done|]. simpl in H0.
rewrite andb_true_r in H0. destruct (bool_decide (pt_valid t' = ∅) && negb v) eqn:H3; [done|].
injection H0 as <-. split_and!; [done| |lia|].
- intros E. apply H1. rewrite E. apply size_empty.
- apply andb_false_iff in H3 as [H3|H3]; [left; by apply bool_decide_eq_false in H3|right; by apply negb_false_iff in H3].
Qed.

Lemma resolve_input_spec s i sh r :
  resolve_input peer_answers s i sh true = Ok r → input_resolved s i sh r.
Proof.
unfold resolve_input. intros H.
apply bind_Ok in H as (u & Hu & H). apply bind_Ok in H as (h & Hh & H). unfold safe_get_msg in Hu, Hh. inv_Ok.
rename x into q, x0 into res, x1 into v. cbv zeta in *.
destruct (bool_decide (is_Some res) && negb v && true) eqn:Hc; [done|].
apply bind_Ok in H2 as (oe & _ & H2). apply bind_Ok in H2 as (t & Ht & H2).
apply bind_Ok in H2 as (parent & Hp & H2). apply bind_Ok in H2 as ([] & Hver & [= <-]). inv_Ok.
split; [done| |by apply verify_proof_spec in Hver].
exists u, h. split_and!; [done|done|]. simpl. destruct res as [t0|].
- assert (bool_decide (is_Some (Some t0)) = true) as Hb by done. rewrite Hb in *. simpl in Hc. rewrite andb_true_r in Hc.
    apply negb_false_iff in Hc as ->. injection Ht as <-. simpl in *. simplify_eq.
    destruct q as [[? [?|]]|]; by simplify_eq.
- assert (bool_decide (is_Some (None : option Transaction)) = false) as Hb by done. rewrite Hb in *.
    apply resolve_remote_spec in Ht as (Hr & Hpf & Hsz & Hor); [|done].
    split_and!; [by apply Hr|done|done|]. destruct Hor as [?| ->]; [by left|by right].
Qed.

(** C3: nobody spends without the owner's keys, unless an input has a floating
    identifier.  Whatever the peers answer, when [resolve_transaction] succeeds every
    input without one has a parent output whose address is the address of the keys on
    the input's proofs, all of them valid signatures of the transaction's signable
    hash; an input known locally is an unspent output of a stored transaction that
    was not rejected, and one that is not known has the hash it claims, comes with
    observation proofs, and is not held invalid by more peers than hold it valid.  So
    every UTXO that committing the transaction deletes belongs to such an input or is
    named by one that also has a floating identifier, which nothing looks at. *)
Theorem resolve_transaction_authorised s tx rt :
  resolve_transaction peer_answers s tx = Ok rt →
  rt_transaction rt = tx ∧
  Forall2 (λ i r, input_resolved s i (signable_hash tx) r)
    (List.filter (λ i, bool_decide (i_floating_utxo_id i = None)) (tx_inputs tx)) (rt_fixed_resolutions rt) ∧
  Forall (λ u, ∃ i, i ∈ tx_inputs tx ∧ i_utxo_id i = Some u ∧
    (i_floating_utxo_id i ≠ None ∨ ∃ r, r ∈ rt_fixed_resolutions rt ∧ input_resolved s i (signable_hash tx) r))
    (fixed_utxo_ids_of_inputs tx).
Proof.
unfold resolve_transaction. intros H. inv_Ok. subst rt. cbn [rt_transaction rt_fixed_resolutions]. apply mapR_Ok in H.
assert (∀ i r, resolve_input peer_answers s i (signable_hash tx) true = Ok r → input_resolved s i (signable_hash tx) r) as Hres
  by (intros; by eapply resolve_input_spec).
split_and!; [done|by eapply Forall2_impl|]. apply Forall_forall. intros u (i & Hi & Hu)%list_elem_of_omap.
exists i. split_and!; [done|done|]. destruct (decide (i_floating_utxo_id i = None)) as [Hn|]; [right|by left].
assert (i ∈ List.filter (λ i, bool_decide (i_floating_utxo_id i = None)) (tx_inputs tx)) as Hf.
{ apply list_elem_of_In, filter_In. split; [by apply list_elem_of_In|by apply bool_decide_eq_true]. }
apply list_elem_of_lookup in Hf as [j Hj]. eapply Forall2_lookup_l in H as (r & Hr & Hir); [|exact Hj].
exists r. split; [by eapply list_elem_of_lookup_2|by apply Hres].
Qed.

End authorisation.
(** ** Conservation *)

Definition row_value (r : UtxoRow) : Z := default 0 (ur_amount r).
Definition table_total (m : gmap (bytes * Z) UtxoRow) : Z := sum_Z (row_value ∘ snd <$> map_to_list m).
Definition utxo_total (s : Store) : Z := table_total (st_utxo s).

Lemma table_total_insert m k r : m !! k = None → table_total (<[k:=r]> m) = row_value r + table_total m.
Proof. intros H. unfold table_total. by rewrite (sum_Z_perm _ _ (fmap_Permutation _ _ _ (map_to_list_insert m k r H))). Qed.

Lemma table_total_union krs m :
  NoDup (fst <$> krs) → Forall (λ kr, m !! kr.1 = None) krs →
  table_total (list_to_map krs ∪ m) = sum_Z (row_value ∘ snd <$> krs) + table_total m.
Proof.
induction krs as [|[k r] krs IH]; intros Hnd Hf; simpl.
- by rewrite (left_id_L ∅ (∪)).
- apply NoDup_cons in Hnd as [Hk Hnd]. apply Forall_cons in Hf as [Hm Hf].
  rewrite <-insert_union_l, table_total_insert, IH by first [done | apply lookup_union_None; split;
    [by apply not_elem_of_list_to_map_1|done]].
  apply Z.add_assoc.
Qed.

Lemma table_total_delete m k r : m !! k = Some r → table_total (delete k m) = table_total m - row_value r.
Proof.
intros H. rewrite <-(insert_delete_id m k r H) at 2. rewrite table_total_insert; [lia|]. apply lookup_delete_eq.
Qed.

Lemma table_total_deletes ks rs m :
  NoDup ks → Forall2 (λ k r, m !! k = Some r) ks rs →
  table_total (foldl (λ m k, delete k m) m ks) = table_total m - sum_Z (row_value <$> rs).
Proof.
intros Hnd H. revert m Hnd H. revert rs. induction ks as [|k ks IH]; intros rs m Hnd H.
- apply Forall2_nil_inv_l in H as ->. simpl. lia.
- apply Forall2_cons_inv_l in H as (r & rs' & Hk & H & ->). apply NoDup_cons in Hnd as [Hn Hnd]. rewrite fmap_cons, sum_Z_cons. cbn [foldl].
  rewrite (IH rs'); [|done|].
  + rewrite (table_total_delete m k r Hk). lia.
  + clear IH Hnd. induction H as [|k' r' ks' rs' Hk' _ IH]; constructor.
    * rewrite lookup_delete_ne; [done|]. set_solver.
    * apply IH. set_solver.
Qed.

Definition id_key (u : UtxoId) : RgResult (bytes * Z) :=
  b ← opt_Hash_safe_bytes (u_transaction_hash u); Ok (b, u_output_index u).

Lemma consume_all_Ok us s s' :
  iterM consume_utxo us s = (Ok tt, s') →
  ∃ ks, mapR id_key us = Ok ks ∧ st_utxo s' = foldl (λ m k, delete k m) (st_utxo s) ks ∧
    st_transactions s' = st_transactions s.
Proof.
revert s. induction us as [|u us IH]; intros s; [intros [= <-]; by exists []|].
rewrite iterM_cons_Ok. intros (s1 & H1 & H2). unfold consume_utxo in H1. inv_M.
match goal with H : delete_utxo u s = _ |- _ => apply delete_utxo_Ok in H as (b & Hb & ->) end.
apply IH in H2 as (ks & Hks & Hu & Ht). exists ((b, u_output_index u) :: ks).
assert (id_key u = Ok (b, u_output_index u)) as Hk by (unfold id_key; by rewrite Hb).
cbn [mapR]. rewrite Hk. rg_step. rewrite Hks. rg_step. by split_and!.
Qed.

(** Every UTXO row is an output of a stored transaction that was not rejected. *)
Definition ledger_wf (s : Store) : Prop := ∀ b i r, st_utxo s !! (b, i) = Some r →
  ∃ row t o, st_transactions s !! b = Some row ∧ tr_rejection_reason row = None ∧
    proto_deserialize (tr_raw row) = Ok t ∧ output_at t i = Some o ∧ ur_amount r = opt_amount o.

Lemma parent_amounts_fold ris zs acc :
  Forall2 (λ ri z, ResolvedInput_amount ri = Ok z) ris zs →
  foldR (λ total ri, result ← ResolvedInput_amount ri;
    Ok (match result with Some a => i64_add total a | None => total end)) acc ris =
  Ok (foldl i64_add acc (omap id zs)).
Proof.
intros H. revert acc. induction H as [|ri z ris zs Hz _ IH]; intros acc; [done|].
cbn [foldR]. rewrite Hz. rg_step. rewrite IH. by destruct z.
Qed.

(** An input resolved locally is a row of the table that carries its amount. *)
Lemma resolved_row s i sh r :
  ledger_wf s → input_resolved s i sh r → ri_internal_accepted r = true →
  ∃ u k row, i_utxo_id i = Some u ∧ id_key u = Ok k ∧ st_utxo s !! k = Some row ∧
    is_Some (st_transactions s !! k.1) ∧ ResolvedInput_amount r = Ok (ur_amount row).
Proof.
intros Hwf [Hi (u & h & Hu & Hh & Hint) (o & a & Ho & _)] Hacc. rewrite Hacc in Hint.
destruct Hint as [Hq Hv]. unfold query_utxo_id_valid in Hv. inv_Ok. rename x into b.
apply bool_decide_eq_true in H0 as [row Hrow].
exists u, (b, u_output_index u), row.
assert (id_key u = Ok (b, u_output_index u)) as Hk.
{ unfold id_key, opt_Hash_safe_bytes. rewrite Hh. rg_step. by rewrite H. }
destruct (Hwf _ _ _ Hrow) as (trow & t & o' & Ht & Hrej & Hdec & Hout & Ham).
split_and!; [done|done|done|by eexists|].
unfold query_maybe_transaction in Hq. rewrite H in Hq. simpl in Hq. rewrite Ht, Hdec, Hrej in Hq. simpl in Hq.
injection Hq as Hp. unfold ResolvedInput_amount. rewrite Ho. simpl. f_equal. rewrite Ham.
unfold prior_output, safe_get_msg in Ho. rewrite Hi, Hu in Ho. simpl in Ho. rewrite <-Hp, Hout in Ho.
simpl in Ho. by injection Ho as ->.
Qed.

(** Inputs with a UTXO id are not floating ones. *)
Definition fixed_inputs_only (tx : Transaction) : Prop :=
  Forall (λ i, is_Some (i_utxo_id i) → i_floating_utxo_id i = None) (tx_inputs tx).

Lemma fixed_ids_filter tx :
  fixed_inputs_only tx →
  fixed_utxo_ids_of_inputs tx =
  omap i_utxo_id (List.filter (λ i, bool_decide (i_floating_utxo_id i = None)) (tx_inputs tx)).
Proof.
unfold fixed_inputs_only, fixed_utxo_ids_of_inputs. induction 1 as [|i l Hi _ IH]; [done|].
cbn [List.filter omap list_omap]. case_bool_decide; cbn [omap list_omap]; rewrite IH; [done|].
destruct (i_utxo_id i); [|done]. naive_solver.
Qed.

(** The rows that a resolved transaction consumes, with their sum. *)
Lemma resolved_rows peer_answers s tx rt ks :
  ledger_wf s → fixed_inputs_only tx → resolve_transaction peer_answers s tx = Ok rt →
  rt_resolved_internally rt = true → mapR id_key (fixed_utxo_ids_of_inputs tx) = Ok ks →
  ∃ rows, Forall2 (λ k r, st_utxo s !! k = Some r) ks rows ∧
    Forall (λ k : bytes * Z, is_Some (st_transactions s !! k.1)) ks ∧
    total_parent_amount_available rt = Ok (as_i64 (sum_Z (row_value <$> rows))).
Proof.
intros Hwf Hfix Hres Hint Hks. rewrite fixed_ids_filter in Hks by done.
unfold resolve_transaction in Hres. inv_Ok. subst rt. rename x into ris. simpl in Hint. apply mapR_Ok in H.
unfold total_parent_amount_available. simpl.
assert (∃ rows, Forall2 (λ k r, st_utxo s !! k = Some r) ks rows ∧
  Forall (λ k : bytes * Z, is_Some (st_transactions s !! k.1)) ks ∧
  Forall2 (λ ri z, ResolvedInput_amount ri = Ok z) ris (ur_amount <$> rows)) as (rows & H1 & H2 & H3).
{ revert ks Hks. induction H as [|i ri ins ris Hi _ IH]; intros ks Hks.
  { injection Hks as <-. exists []. by repeat constructor. }
  simpl in Hint. apply andb_true_iff in Hint as [Hacc Hint].
  apply resolve_input_spec in Hi.
  destruct (resolved_row s i _ ri Hwf Hi Hacc) as (u & k & row & Hu & Hk & Hrow & Hst & Ham).
  cbn [omap list_omap] in Hks. rewrite Hu in Hks. cbn [mapR] in Hks. rewrite Hk in Hks. inv_Ok. simplify_eq.
  destruct (IH Hint _ H0) as (rows & ? & ? & ?). exists (row :: rows). split_and!; by constructor. }
exists rows. split_and!; [done|done|]. rewrite (parent_amounts_fold _ _ 0 H3). f_equal.
fold (i64_sum (omap id (ur_amount <$> rows))). rewrite i64_sum_wrap, omap_fmap_compose, sum_Z_omap. done.
Qed.

(** The rows that [insert_transaction] adds carry the amounts of the outputs. *)
Lemma created_total tx now hb krs :
  hash_bytes tx = Ok hb → mapR utxo_row (from_transaction tx now) = Ok krs →
  sum_Z (row_value ∘ snd <$> krs) = sum_Z (omap opt_amount (tx_outputs tx)).
Proof.
intros Hh Hm. rewrite sum_Z_omap. f_equal. apply list_eq. intros j. rewrite !list_lookup_fmap.
destruct (krs !! j) as [[k r]|] eqn:Hj; simpl.
- destruct (utxo_row_from_transaction tx now hb krs j k r Hh Hm Hj) as (_ & o & Ho & Ham & _).
  rewrite Ho. simpl. unfold row_value. by rewrite Ham.
- apply lookup_ge_None in Hj. apply mapR_length in Hm. unfold from_transaction in Hm.
  rewrite length_fmap, indexed_length in Hm. by rewrite (proj2 (lookup_ge_None _ _)) by lia.
Qed.

(** Rows of stored transactions are not those of a fresh one. *)
Lemma old_rows_kept tx now hb krs s ks rows :
  hash_bytes tx = Ok hb → mapR utxo_row (from_transaction tx now) = Ok krs →
  st_transactions s !! hb = None → Forall (λ k : bytes * Z, is_Some (st_transactions s !! k.1)) ks →
  Forall2 (λ k r, st_utxo s !! k = Some r) ks rows →
  Forall2 (λ k r, (list_to_map krs ∪ st_utxo s) !! k = Some r) ks rows.
Proof.
intros Hh Hm Hfresh Hst. induction 1 as [|k r ks rows Hk _ IH]; constructor;
  apply Forall_cons in Hst as [[row Hrow] Hst]; [|by apply IH].
rewrite lookup_union_r; [done|]. apply not_elem_of_list_to_map_1.
intros ([k' r'] & -> & Hin)%list_elem_of_fmap. apply list_elem_of_lookup in Hin as (n & Hn).
destruct (utxo_row_from_transaction tx now hb krs n k' r' Hh Hm Hn) as [-> _]. simpl in Hrow. congruence.
Qed.

(** What a commit does to the total of the table. *)
Lemma committed_total now tx s s' hb ks rows :
  hash_bytes tx = Ok hb → st_transactions s !! hb = None →
  mapR id_key (fixed_utxo_ids_of_inputs tx) = Ok ks → NoDup ks →
  Forall2 (λ k r, st_utxo s !! k = Some r) ks rows →
  Forall (λ k : bytes * Z, is_Some (st_transactions s !! k.1)) ks →
  commit_transaction now tx s = (Ok tt, s') →
  utxo_total s' = utxo_total s + sum_Z (omap opt_amount (tx_outputs tx)) - sum_Z (row_value <$> rows).
Proof.
intros Hh Hfresh Hks Hnd Hrows Hst Hc. unfold commit_transaction in Hc. inv_M.
match goal with H : insert_transaction _ _ _ _ _ _ = _ |- _ =>
  apply insert_transaction_Ok in H as (hb' & krs & Hh' & Hm & Hf & Hnd' & Hu & Ht) end.
match goal with H : iterM consume_utxo _ _ = _ |- _ => apply consume_all_Ok in H as (ks' & Hks' & Hu' & _) end.
assert (hb' = hb) as -> by congruence. assert (ks' = ks) as -> by congruence.
unfold utxo_total. rewrite Hu', Hu, (table_total_deletes ks rows) by eauto using old_rows_kept.
rewrite table_total_union, (created_total tx now hb) by done. lia.
Qed.

(** The rows under given keys are determined. *)
Lemma rows_functional (m : gmap (bytes * Z) UtxoRow) ks rows rows' :
  Forall2 (λ k r, m !! k = Some r) ks rows → Forall2 (λ k r, m !! k = Some r) ks rows' → rows' = rows.
Proof.
intros Hrows. revert rows'. induction Hrows as [|k r ks rows Hk _ IH]; intros rows' H.
- by apply Forall2_nil_inv_l in H.
- apply Forall2_cons_inv_l in H as (r' & rows'' & ? & ? & ->). f_equal; [congruence|auto].
Qed.

Section conservation.
Context {tx_laws : ProtoLaws Transaction}.

Lemma commit_wf now tx s s' hb :
  ledger_wf s → hash_bytes tx = Ok hb → st_transactions s !! hb = None →
  commit_transaction now tx s = (Ok tt, s') → ledger_wf s'.
Proof using tx_laws.
intros Hwf Hh Hfresh H. unfold commit_transaction in H. inv_M.
match goal with H : insert_transaction _ _ _ _ _ _ = _ |- _ =>
  apply insert_transaction_Ok in H as (hb' & krs & Hh' & Hm & Hf & Hnd & Hu & Ht) end.
assert (hb' = hb) as -> by congruence.
match goal with H : iterM consume_utxo _ _ = _ |- _ => apply consume_all_Ok in H as (ks & _ & Hu' & Ht') end.
assert (∀ m k r, foldl (λ (m : gmap (bytes * Z) UtxoRow) k, delete k m) m ks !! k = Some r → m !! k = Some r) as Hdel.
{ clear. induction ks as [|k0 ks IH]; intros m k r; [done|]. simpl. intros H%IH. by apply lookup_delete_Some in H as []. }
intros b i r Hr. rewrite Hu' in Hr. apply Hdel in Hr. rewrite Hu, lookup_union_Some_raw in Hr. rewrite Ht', Ht.
destruct Hr as [Hr|[_ Hr]].
- apply elem_of_list_to_map_2, list_elem_of_lookup in Hr as (j & Hj).
  destruct (utxo_row_from_transaction tx now hb krs j _ r Hh Hm Hj) as (E & o & Ho & Ham & _).
  injection E as -> ->. rewrite lookup_insert_eq. eexists _, tx, o. split_and!; [done|done| | |done].
  + simpl. unfold proto_deserialize. by rewrite proto_decode_encode.
  + unfold output_at. destruct (Z.ltb_spec (Z.of_nat j) 0); [lia|]. by rewrite Nat2Z.id.
- destruct (Hwf _ _ _ Hr) as (row & t & o & Hrow & ?). exists row, t, o.
  rewrite lookup_insert_ne; [done|]. naive_solver.
Qed.

(** C1: accepting a transaction conserves the ledger.  In a store where every
    UTXO row is an output of a stored transaction, take a transaction with a
    fresh hash, whose inputs with a UTXO id are not floating ones and name
    pairwise different rows, whose resolution was local and whose balance check
    passed.  Once committed, the store has the same property, the total of the
    UTXO table is unchanged modulo 2^64, and unchanged exactly when the
    transaction's inputs and outputs each sum to an [i64]. *)
Theorem commit_conserves peer_answers now tx rt s s' hb ks :
  ledger_wf s → hash_bytes tx = Ok hb → st_transactions s !! hb = None →
  fixed_inputs_only tx → mapR id_key (fixed_utxo_ids_of_inputs tx) = Ok ks → NoDup ks →
  resolve_transaction peer_answers s tx = Ok rt → rt_resolved_internally rt = true →
  ResolvedTransaction_validate rt = Ok tt → commit_transaction now tx s = (Ok tt, s') →
  ledger_wf s' ∧ as_i64 (utxo_total s') = as_i64 (utxo_total s) ∧
  (∀ rows, Forall2 (λ k r, st_utxo s !! k = Some r) ks rows →
     in_i64 (sum_Z (row_value <$> rows)) → in_i64 (sum_Z (omap opt_amount (tx_outputs tx))) →
     utxo_total s' = utxo_total s).
Proof using tx_laws.
intros Hwf Hh Hfresh Hfix Hks Hnd Hres Hint Hval Hc.
split; [by eapply commit_wf|].
destruct (resolved_rows peer_answers s tx rt ks) as (rows & Hrows & Hst & Hav); [done..|].
unfold ResolvedTransaction_validate in Hval. rewrite Hav in Hval. simpl in Hval.
case_bool_decide as Hbal; [done|]. clear Hval.
assert (rt_transaction rt = tx) as Htx by (unfold resolve_transaction in Hres; inv_Ok; by subst rt).
rewrite Htx, total_output_wrap in Hbal.
pose proof (committed_total now tx s s' hb ks rows Hh Hfresh Hks Hnd Hrows Hst Hc) as Htot.
split.
- rewrite Htot. by apply wrap_s_cancel.
- intros rows' Hrows' Hin Hout.
  rewrite (rows_functional _ _ _ _ Hrows Hrows') in Hin.
  rewrite !wrap_s_id in Hbal by done. lia.
Qed.
End conservation.

End ledger.

(** * Concrete ledgers *)

Module Demo.
#[local] Existing Instance toy_host.
#[local] Existing Instance toy_crypto.
#[local] Existing Instance toy_secp.
#[local] Instance demo_sql : Sql := "UNIQUE constraint failed".
#[local] Instance demo_pt : Proto Transaction := ser_proto Transaction.
#[local] Instance demo_pu : Proto UtxoEntry := ser_proto UtxoEntry.
#[local] Instance demo_po : Proto Output := ser_proto Output.
#[local] Instance demo_pp : Proto ObservationProof := ser_proto ObservationProof.
#[local] Instance demo_pe : Proto ErrorInfo := const_proto ErrorInfo (λ _, []).
#[local] Instance demo_je : Json ErrorInfo := demo_json.
#[local] Instance demo_ji : Json Input := demo_json.

Definition no_peers : Hash → option Z → RgResult (list (RgResult ResolveReply)) := λ _ _, Ok [].

(** A stored transaction that pays 10 to the demo key and 4 to another address. *)
Definition parent : Transaction :=
  {| tx_inputs := []; tx_outputs := [Output_new demo_kp_address 10; Output_new demo_address 4];
     tx_struct_metadata := struct_metadata 1; tx_options := tx_options demo_spend |}.
Definition ledger0 : Store := (commit_transaction 1 parent empty_store).2.
Definition parent_input (i : Z) (a : Address) : Input :=
  to_input (from_output_new (Output_new a 10) (hash_or parent) i 5).
Definition spend_of (ins : list Input) (outs : list Output) : Transaction :=
  let t := {| tx_inputs := ins; tx_outputs := outs; tx_struct_metadata := struct_metadata 6;
              tx_options := tx_options demo_spend |} in
  match sign demo_kp t with Ok t' => t' | _ => t end.

(** The checks of [immediate_validation] and [process] that look at the
    transaction itself, and the commit. *)
Definition accepted_from (tx : Transaction) (s s' : Store) : Prop :=
  ∃ rt, prevalidate tx = Ok tt ∧ resolve_transaction no_peers s tx = Ok rt ∧
    ResolvedTransaction_validate rt = Ok tt ∧ commit_transaction 7 tx s = (Ok tt, s').

Definition accept (tx : Transaction) (s : Store) : option Store :=
  match prevalidate tx, resolve_transaction no_peers s tx with
  | Ok tt, Ok rt =>
      match ResolvedTransaction_validate rt, commit_transaction 7 tx s with
      | Ok tt, (Ok tt, s') => Some s' | _, _ => None
      end
  | _, _ => None
  end.

Lemma accept_sound tx s : is_Some (accept tx s) → accepted_from tx s (default s (accept tx s)).
Proof.
intros [s' H]. rewrite H. unfold accept in H. destruct (prevalidate tx) as [[]| |] eqn:?; try done.
destruct (resolve_transaction no_peers s tx) as [rt| |] eqn:?; try done.
destruct (ResolvedTransaction_validate rt) as [[]| |] eqn:?; try done.
destruct (commit_transaction 7 tx s) as [[[]| |] s1] eqn:?; try done. injection H as ->. by exists rt.
Qed.

Definition honest : Transaction :=
  spend_of [parent_input 0 demo_kp_address] [Output_new demo_address 7; Output_new demo_kp_address 3].

(** The same UTXO under an id whose hash carries another [hash_type]. *)
Definition alias_input : Input :=
  to_input (from_output_new (Output_new demo_kp_address 10)
    {| h_bytes := h_bytes (hash_or parent); h_format_type := 0; h_type := 1 |} 0 5).
Definition alias_spend : Transaction :=
  spend_of [parent_input 0 demo_kp_address; alias_input] [Output_new demo_kp_address 20].

(** The conditions of conservation are needed: the duplicate check compares
    UTXO ids, but the tables compare the bytes of their hashes.  A transaction
    that names one UTXO of 10 twice, the second time with another [hash_type],
    passes every check and pays out 20. *)
Theorem alias_inputs_mint :
  ∃ s', accepted_from alias_spend ledger0 s' ∧ utxo_total ledger0 = 14 ∧ utxo_total s' = 24.
Proof.
exists (default ledger0 (accept alias_spend ledger0)). split_and!.
- apply accept_sound. by_decision.
- by_decision.
- by_decision.
Qed.

(** Somebody else's UTXO of 4, marked as a floating input and signed with the
    demo key. *)
Definition burn_input : Input :=
  let i := parent_input 1 demo_kp_address in
  {| i_utxo_id := i_utxo_id i; i_proof := []; i_product_id := None; i_output := i_output i;
     i_floating_utxo_id := Some {| fu_address_selector := None |}; i_input_type := None |}.
Definition burn_spend : Transaction :=
  spend_of [parent_input 0 demo_kp_address; burn_input] [Output_new demo_kp_address 10].

(** An input with both a UTXO id and a floating UTXO id is not resolved, so
    nobody compares its proof with the owner's address, but its UTXO is deleted on
    acceptance: the owner of the demo key destroys the UTXO of another address. *)
Theorem floating_input_burns :
  ∃ s', accepted_from burn_spend ledger0 s' ∧
    query_utxo_id_valid ledger0 (hash_or parent) 1 = Ok true ∧
    query_utxo_id_valid s' (hash_or parent) 1 = Ok false ∧
    (o_address <$> output_at parent 1) = Some (Some demo_address) ∧ demo_address ≠ demo_kp_address ∧
    utxo_total s' = 10.
Proof.
exists (default ledger0 (accept burn_spend ledger0)). split_and!; [apply accept_sound; by_decision|by_decision..].
Qed.

Definition negative_spend : Transaction :=
  spend_of [parent_input 0 demo_kp_address] [Output_new demo_kp_address 1000; Output_new demo_address (-990)].

(** The balance check adds signed amounts and no check looks at the sign of an
    output, so a UTXO of 10 becomes a balance of 1000, next to a UTXO of -990 for
    another address. *)
Theorem negative_output_mints :
  ∃ s', accepted_from negative_spend ledger0 s' ∧
    get_balance ledger0 demo_kp_address = Ok (Some 10) ∧ get_balance s' demo_kp_address = Ok (Some 1000).
Proof.
exists (default ledger0 (accept negative_spend ledger0)). split_and!; [apply accept_sound; by_decision|by_decision..].
Qed.

(** ** Witnesses *)

Definition ledger1 : Store := (commit_transaction 7 honest ledger0).2.

Definition parent_stored : Store := (insert_transaction parent 1 true None true empty_store).2.
Lemma insert_transaction_stored_witness :
  query_maybe_transaction parent_stored (hash_or parent) = Ok (Some (parent, None)) ∧
  query_utxo_id_valid parent_stored (hash_or parent) 1 = Ok true.
Proof.
destruct (insert_transaction_stored (tx_laws := ser_proto_laws Transaction) parent 1 true empty_store parent_stored)
  as (H1 & H2 & _).
- refine (run_fst (insert_transaction parent 1 true None true empty_store) (Ok tt) _). vm_compute. reflexivity.
- split; [exact H1|]. destruct (H2 1%nat) as [H _]; [repeat constructor|exact H].
Defined.

Definition parent_hash_bytes : bytes := match hash_bytes parent with Ok b => b | _ => [] end.
(** Another transaction that claims the hash of the stored one. *)
Definition impostor : Transaction :=
  {| tx_inputs := []; tx_outputs := [Output_new demo_address 1]; tx_struct_metadata :=
       Some {| sm_time := Some 1; sm_version := 0; sm_hash := Some (hash_or parent); sm_signed_hash := None;
               sm_signable_hash := None; sm_counter_party_hash := None; sm_confirmation_hash := None |};
     tx_options := None |}.

Lemma insert_conflict_overwrites_witness :
  ∃ s', query_transaction s' parent_hash_bytes = Ok (Some impostor) ∧ st_utxo s' = st_utxo ledger0.
Proof.
destruct (st_utxo ledger0 !! (parent_hash_bytes, 0)) as [r0|] eqn:E; [|vm_compute in E; discriminate E].
destruct (insert_conflict_overwrites (tx_laws := ser_proto_laws Transaction) impostor 2 true ledger0 parent_hash_bytes
  (Output_new demo_address 1) demo_address (match a_address demo_address with Some b => bd_value b | None => [] end) r0)
  as (s' & _ & H2 & H3); [reflexivity..|exact E|].
exists s'. split; assumption.
Defined.

Lemma get_balance_correct_witness : get_balance parent_stored demo_kp_address = Ok (Some 10).
Proof.
assert (utxo_table_wf empty_store) as H0.
{ intros k r H. unfold empty_store in H. simpl in H. rewrite lookup_empty in H. discriminate H. }
destruct (get_balance_correct (ue_laws := ser_proto_laws UtxoEntry) empty_store demo_kp_address
  (match a_address demo_kp_address with Some b => bd_value b | None => [] end) H0) as (_ & H & _); [reflexivity|].
destruct (get_balance_correct (ue_laws := ser_proto_laws UtxoEntry) parent_stored demo_kp_address
  (match a_address demo_kp_address with Some b => bd_value b | None => [] end)) as (E & _).
- apply (H parent 1 true). refine (run_fst (insert_transaction parent 1 true None true empty_store) (Ok tt) _). vm_compute. reflexivity.
- reflexivity.
- refine (eq_trans E _). vm_compute. reflexivity.
Defined.

Definition honest_rt : ResolvedTransaction :=
  match resolve_transaction no_peers ledger0 honest with Ok r => r
  | _ => {| rt_transaction := honest; rt_fixed_resolutions := []; rt_resolved_internally := false |} end.

Lemma resolve_transaction_authorised_witness : rt_transaction honest_rt = honest.
Proof.
destruct (resolve_transaction_authorised no_peers ledger0 honest honest_rt) as [H _].
- vm_compute. reflexivity.
- exact H.
Defined.

Lemma empty_ledger_wf : ledger_wf empty_store.
Proof. intros b i r H. unfold empty_store in H. simpl in H. by rewrite lookup_empty in H. Qed.

Lemma ledger0_wf : ledger_wf ledger0.
Proof.
apply (commit_wf (tx_laws := ser_proto_laws Transaction) 1 parent empty_store ledger0 parent_hash_bytes).
- exact empty_ledger_wf.
- vm_compute. reflexivity.
- vm_compute. reflexivity.
- refine (run_fst (commit_transaction 1 parent empty_store) (Ok tt) _). vm_compute. reflexivity.
Qed.

Lemma commit_conserves_witness : as_i64 (utxo_total ledger1) = as_i64 (utxo_total ledger0).
Proof.
destruct (commit_conserves (tx_laws := ser_proto_laws Transaction) no_peers 7 honest honest_rt ledger0 ledger1
  (match hash_bytes honest with Ok b => b | _ => [] end) [(parent_hash_bytes, 0)]) as (_ & H & _);
  [exact ledger0_wf|vm_compute; reflexivity|vm_compute; reflexivity|..|exact H].
- unfold fixed_inputs_only. by_decision.
- vm_compute. reflexivity.
- apply NoDup_singleton.
- vm_compute. reflexivity.
- vm_compute. reflexivity.
- vm_compute. reflexivity.
- refine (run_fst (commit_transaction 7 honest ledger0) (Ok tt) _). vm_compute. reflexivity.
Defined.
End Demo.
