(* ===== verification/Process.v ===== *)
(** * Processing a transaction

    src/core/process_transaction.rs: the life of a submitted transaction, from
    the first checks to its acceptance, with the conflict pools through which
    concurrent transactions that spend the same UTXO find each other.

    A request is a task that runs between the [.await] points of [transaction]
    and [process]; a [Phase] is such a point.  The state that tasks share is a
    [Relay]: the data store, [transaction_channels], [utxo_channels] and the
    receiver of every request.  A [flume] sender never fails here, since every
    [RequestProcessor] holds its own receiver.  What comes from outside (the
    clock, peers, the observation buffer, gossip, contract calls) is an [Env],
    one per step, so that a theorem over all runs covers every answer. *)

From stdpp Require Import base list gmap strings.
From S2P Require Import Prelude Structs Interfaces F64 Schema Merkle Transaction Keys Store Resolver Wire Ledger.
#[local] Open Scope Z_scope.
#[local] Open Scope redgold_scope.

Definition ValidationType_Full : Z := 0.
Definition ValidationType_Partial : Z := 1.

(** The [RequestProcessor] of a conflict is named by its request id. *)
Record Conflict := {
  cf_transaction_hash : Hash; cf_abort : bool; cf_processing_start_time : Z; cf_request_id : string }.
#[global] Instance Conflict_eq_dec : EqDecision Conflict.
Proof. solve_decision. Defined.

(** The receiver of conflicts is [rl_receivers] at the request id. *)
Record RequestProcessor := {
  rp_request_id : string; rp_transaction_hash : Hash; rp_transaction : Transaction }.

Record Relay := {
  rl_store : Store;
  rl_transaction_channels : gmap Hash RequestProcessor;
  rl_utxo_channels : gmap UtxoId (list Conflict);
  rl_receivers : gmap string (list Conflict) }.

Definition with_store (f : Store → Store) (r : Relay) : Relay :=
  {| rl_store := f (rl_store r); rl_transaction_channels := rl_transaction_channels r;
     rl_utxo_channels := rl_utxo_channels r; rl_receivers := rl_receivers r |}.
Definition with_transaction_channels (f : gmap Hash RequestProcessor → gmap Hash RequestProcessor) (r : Relay) : Relay :=
  {| rl_store := rl_store r; rl_transaction_channels := f (rl_transaction_channels r);
     rl_utxo_channels := rl_utxo_channels r; rl_receivers := rl_receivers r |}.
Definition with_utxo_channels (f : gmap UtxoId (list Conflict) → gmap UtxoId (list Conflict)) (r : Relay) : Relay :=
  {| rl_store := rl_store r; rl_transaction_channels := rl_transaction_channels r;
     rl_utxo_channels := f (rl_utxo_channels r); rl_receivers := rl_receivers r |}.
Definition with_receivers (f : gmap string (list Conflict) → gmap string (list Conflict)) (r : Relay) : Relay :=
  {| rl_store := rl_store r; rl_transaction_channels := rl_transaction_channels r;
     rl_utxo_channels := rl_utxo_channels r; rl_receivers := f (rl_receivers r) |}.

Section process.
Context {host : Host} {crypto : Crypto} {secp : Secp} {sql : Sql}.
Context {ptx : Proto Transaction} {pue : Proto UtxoEntry} {po : Proto Output} {pei : Proto ErrorInfo}.
Context {pop : Proto ObservationProof} {jei : Json ErrorInfo} {ji : Json Input}.

(** [node_config.network] and [node_config.transaction_finalization_time]. *)
Context (network : NetworkEnvironment) (transaction_finalization_time : Z).

Notation R := (M Relay ErrorInfo).

(** A computation on the data store, run on the store of the relay. *)
Definition on_store {A} (m : M Store ErrorInfo A) : R A := λ r,
  let '(a, s) := m (rl_store r) in (a, with_store (λ _, s) r).

Record Env := {
  env_now : Z;
  env_resolve : Hash → option Z → RgResult (list (RgResult ResolveReply));
  env_active_nodes : RgResult (list PublicKey);
  env_trust : PublicKey → RgResult (option f64);
  env_observe : Z → Z → RgResult ObservationProof;
  env_gossip : RgResult unit;
  env_recv : bool;
  env_peer_proofs : RgResult (list ObservationProof);
  env_contract : Output → RgResult unit }.

(** ** Conflicts *)

(** The public keys that the edges of a conflict group by: a proof without a key
    panics. *)
Definition edge_keys (res : list ObservationProof) : RgResult (list bytes) :=
  mapR (λ x, p ← expect_opt (op_proof x); expect (public_key_bytes p)) res.
Definition sum_trust (trust : gmap bytes f64) (keys : list bytes) : f64 :=
  foldr (λ k acc, f64_add (default f64_zero (trust !! k)) acc) f64_zero (elements (list_to_set keys : gset bytes)).

(** [resolve_conflict]: trust and start time are computed, and the sort looks at
    the hash.  A comparison takes the bytes of both hashes, so a missing one
    panics as soon as there are two entries. *)
Definition score_conflict (s : Store) (trust : gmap bytes f64) (c : Conflict) : RgResult (f64 * Z * Hash) :=
  res ← select_observation_edge s (cf_transaction_hash c);
  keys ← edge_keys res;
  Ok (f64_mul (f64_of_Z (-1)) (sum_trust trust keys), cf_processing_start_time c, cf_transaction_hash c).
Definition resolve_conflict (env : Env) (s : Store) (conflicts : list Conflict) : RgResult Hash :=
  an ← env_active_nodes env;
  trust ← foldR (λ (m : gmap bytes f64) peer,
            t ← env_trust env peer;
            b ← safe_bytes (pk_bytes peer);
            Ok (<[b := default f64_zero t]> m)) ∅ an;
  trust_conflicts ← mapR (score_conflict s trust) conflicts;
  match trust_conflicts with
  | [] => Panic
  | [t] => Ok t.2
  | _ =>
      keyed ← mapR (λ t : f64 * Z * Hash, v ← Hash_vec t.2; Ok (v, t.2)) trust_conflicts;
      expect_opt (snd <$> head (sort_by (λ a b, bytes_leb a.1 b.1) keyed))
  end.

Definition send_conflict (c : Conflict) (rid : string) : R unit :=
  modify (with_receivers (partial_alter (λ q, Some (default [] q ++ [c])) rid)).

(** Telling an active request; the hashes are formatted for the log. *)
Definition notify (hash : Hash) (c : Conflict) (utxo_id : UtxoId) (active_request : Conflict) : R unit :=
  _ ← lift (Hash_hex hash);
  _ ← lift (Hash_hex (cf_transaction_hash active_request));
  _ ← lift (expect_opt (u_transaction_hash utxo_id) ≫= Hash_hex);
  send_conflict c (cf_request_id active_request).

(** One turn of the loop over [fixed_utxo_ids]: under the lock of the entry, the
    active requests become conflicts and are told, and this request joins them. *)
Definition claim_utxo (hash : Hash) (self_conflict : Conflict) (utxo_id : UtxoId) : R (option (list Conflict)) :=
  pool ← gets (λ r, rl_utxo_channels r !! utxo_id);
  match pool with
  | Some active_requests =>
      _ ← iterM (notify hash self_conflict utxo_id) active_requests;
      _ ← modify (with_utxo_channels <[utxo_id := active_requests ++ [self_conflict]]>);
      mret (Some active_requests)
  | None =>
      _ ← modify (with_utxo_channels <[utxo_id := [self_conflict]]>);
      mret None
  end.

(** ** Registration and release *)

Definition create_receiver_or_err (transaction_hash : Hash) (request_uuid : string) (transaction : Transaction) :
    R RequestProcessor :=
  entry ← gets (λ r, rl_transaction_channels r !! transaction_hash);
  match entry with
  | Some _ => lift (Err (error_message TransactionAlreadyProcessing "Duplicate TX hash found in processing queue"))
  | None =>
      let req := {| rp_request_id := request_uuid; rp_transaction_hash := transaction_hash;
                    rp_transaction := transaction |} in
      _ ← modify (with_receivers <[request_uuid := []]>);
      _ ← modify (with_transaction_channels <[transaction_hash := req]>);
      mret req
  end.

Fixpoint remove_first (rid : string) (l : list Conflict) : list Conflict :=
  match l with
  | [] => []
  | c :: l => if bool_decide (cf_request_id c = rid) then l else c :: remove_first rid l
  end.
Definition clean_utxo (request_processor : RequestProcessor) (utxo_ids : list UtxoId) (i : option nat) : R unit :=
  let i := default (length utxo_ids) i in
  if bool_decide (length utxo_ids < i)%nat then lift Panic else
  iterM (λ u, modify (with_utxo_channels (alter (remove_first (rp_request_id request_processor)) u))) (take i utxo_ids).

(** The fields of [TransactionProcessContext]. *)
Record Context_ := {
  cx_request_processor : option RequestProcessor;
  cx_transaction_hash : option Hash;
  cx_utxo_ids : option (list UtxoId) }.

Definition cleanup (cx : Context_) (ii : option nat) : R unit :=
  h ← lift (safe_get (cx_transaction_hash cx));
  _ ← modify (with_transaction_channels (delete h));
  match cx_request_processor cx, cx_utxo_ids cx with
  | Some request_processor, Some utxo_ids => clean_utxo request_processor utxo_ids ii
  | _, _ => mret tt
  end.

Definition check_peer_message (tx : Transaction) : bool :=
  is_ok (Transaction_node_metadata tx) || is_ok (Transaction_peer_data tx).

Definition immediate_validation (s : Store) (tx : Transaction) : RgResult unit :=
  known ← query_maybe_transaction s (hash_or tx);
  match known with
  | Some (_, Some pre_rejection) => Err pre_rejection
  | _ => _ ← prevalidate tx; validate_network tx network
  end.

(** ** The steps of a request *)

Inductive Outcome :=
| PeerMessage
| Responded (r : result ErrorInfo SubmitTransactionResponse).

Inductive Phase :=
| Received                               (* [transaction] *)
| Validated                              (* [immediate_validation] passed *)
| Registered                             (* in [transaction_channels] *)
| Claiming (todo : list UtxoId)          (* resolved; in the loop over [fixed_utxo_ids] *)
| Revalidated (validation_type : Z)      (* resolved again *)
| Listening (validation_type : Z)        (* gossiped; in the [while elapsed_time()] loop *)
| Deciding (validation_type : Z)         (* the loop is over *)
| Winner (validation_type : Z)           (* no conflict, or the conflict is won *)
| Observed                               (* observed as accepted *)
| Committed                              (* [insert_transaction] done *)
| Finished (o : Outcome).

Record Task := {
  tk_transaction : Transaction;
  tk_processing_time_start : Z;
  tk_context : Context_;
  tk_phase : Phase;
  tk_conflict_detected : bool;
  tk_conflicts : list Conflict;
  tk_observation_proofs : gset ObservationProof }.

Definition new_task (tx : Transaction) (current_time : Z) : Task :=
  {| tk_transaction := tx; tk_processing_time_start := current_time;
     tk_context := {| cx_request_processor := None; cx_transaction_hash := None; cx_utxo_ids := None |};
     tk_phase := Received; tk_conflict_detected := false; tk_conflicts := []; tk_observation_proofs := ∅ |}.

Definition tk_at (p : Phase) (t : Task) : Task :=
  {| tk_transaction := tk_transaction t; tk_processing_time_start := tk_processing_time_start t;
     tk_context := tk_context t; tk_phase := p; tk_conflict_detected := tk_conflict_detected t;
     tk_conflicts := tk_conflicts t; tk_observation_proofs := tk_observation_proofs t |}.
Definition tk_with_context (f : Context_ → Context_) (t : Task) : Task :=
  {| tk_transaction := tk_transaction t; tk_processing_time_start := tk_processing_time_start t;
     tk_context := f (tk_context t); tk_phase := tk_phase t; tk_conflict_detected := tk_conflict_detected t;
     tk_conflicts := tk_conflicts t; tk_observation_proofs := tk_observation_proofs t |}.
Definition tk_add_conflicts (cs : list Conflict) (detected : bool) (t : Task) : Task :=
  {| tk_transaction := tk_transaction t; tk_processing_time_start := tk_processing_time_start t;
     tk_context := tk_context t; tk_phase := tk_phase t; tk_conflict_detected := tk_conflict_detected t || detected;
     tk_conflicts := tk_conflicts t ++ cs; tk_observation_proofs := tk_observation_proofs t |}.
Definition tk_add_proofs (ps : list ObservationProof) (t : Task) : Task :=
  {| tk_transaction := tk_transaction t; tk_processing_time_start := tk_processing_time_start t;
     tk_context := tk_context t; tk_phase := tk_phase t; tk_conflict_detected := tk_conflict_detected t;
     tk_conflicts := tk_conflicts t; tk_observation_proofs := list_to_set ps ∪ tk_observation_proofs t |}.
Definition set_transaction_hash (h : Hash) (c : Context_) : Context_ :=
  {| cx_request_processor := cx_request_processor c; cx_transaction_hash := Some h; cx_utxo_ids := cx_utxo_ids c |}.
Definition set_utxo_ids (us : list UtxoId) (c : Context_) : Context_ :=
  {| cx_request_processor := cx_request_processor c; cx_transaction_hash := cx_transaction_hash c;
     cx_utxo_ids := Some us |}.

Definition tk_hash (t : Task) : Hash := hash_or (tk_transaction t).
Definition conflict_of (rid : string) (t : Task) (abort : bool) : Conflict :=
  {| cf_transaction_hash := tk_hash t; cf_abort := abort;
     cf_processing_start_time := tk_processing_time_start t; cf_request_id := rid |}.

(** The two resolutions of [process]. *)
Definition resolve_and_validate (env : Env) (tx : Transaction) : R ResolvedTransaction :=
  s ← gets rl_store;
  resolver_data ← lift (resolve_transaction (env_resolve env) s tx);
  _ ← lift (ResolvedTransaction_validate resolver_data);
  mret resolver_data.

(** One turn of the [while] loop; a message with the abort flag ends the request. *)
Definition receive_conflict (rid : string) : R (option Conflict) :=
  q ← gets (λ r, default [] (rl_receivers r !! rid));
  match q with
  | [] => mret None
  | c :: q => _ ← modify (with_receivers <[rid := q]>); mret (Some c)
  end.
Definition listen (env : Env) (rid : string) (t : Task) : R Task :=
  if env_recv env then
    res ← receive_conflict rid;
    match res with
    | Some conflict =>
        if cf_abort conflict
        then lift (Err (error_message TransactionRejectedDoubleSpend "Double spend detected in live context"))
        else mret (tk_add_conflicts [conflict] false t)
    | None => mret t
    end
  else mret t.

(** The conflict resolution stage. *)
Definition decide_conflicts (env : Env) (rid : string) (t : Task) : R unit :=
  match tk_conflicts t with
  | [] => mret tt
  | conflicts =>
      let this_as_conflict := conflict_of rid t true in
      s ← gets rl_store;
      winner ← lift (resolve_conflict env s (conflicts ++ [this_as_conflict]));
      if bool_decide (winner ≠ tk_hash t)
      then (w ← lift (Hash_hex winner);
            lift (Err (error_message TransactionRejectedDoubleSpend
              ("Lost conflict to other transaction winner: " +:+ w))))
      else iterM (λ c, send_conflict this_as_conflict (cf_request_id c)) conflicts
  end.

(** The observation proofs in the response, and the calls for outputs that
    deploy code or call a contract. *)
Definition calls_contract (o : Output) : bool :=
  bool_decide ((c ← o_contract o; e ← oc_code_execution_contract c;
                match cec_executor e, cec_code e with
                | Some b, Some _ => if b =? ExecutorBackend_Extism then Some tt else None
                | _, _ => None
                end) = Some tt) || is_request o.
Definition respond (env : Env) (t : Task) : R SubmitTransactionResponse :=
  s ← gets rl_store;
  stored_proofs ← lift (select_observation_edge s (tk_hash t));
  peer_proofs ← lift (env_peer_proofs env);
  let observation_proofs := list_to_set (stored_proofs ++ peer_proofs) ∪ tk_observation_proofs t in
  let submit_response :=
    {| str_transaction_hash := Some (tk_hash t);
       str_query_transaction_response := Some {| qtr_observation_proofs := elements observation_proofs |};
       str_transaction := Some (tk_transaction t) |} in
  _ ← iterM (λ o, if calls_contract o then lift (env_contract env o) else mret tt) (tx_outputs (tk_transaction t));
  _ ← lift (unique_by_state submit_response);
  mret submit_response.

(** From one [.await] point to the next. *)
Definition task_step (env : Env) (rid : string) (t : Task) : R Task :=
  let tx := tk_transaction t in
  let hash := tk_hash t in
  match tk_phase t with
  | Received =>
      let t := tk_with_context (set_transaction_hash hash) t in
      if check_peer_message tx then mret (tk_at (Finished PeerMessage) t) else
      s ← gets rl_store;
      _ ← lift (immediate_validation s tx);
      mret (tk_at Validated t)
  | Validated =>
      _ ← create_receiver_or_err hash rid tx;
      mret (tk_at Registered t)
  | Registered =>
      _ ← resolve_and_validate env tx;
      let fixed_utxo_ids := fixed_utxo_ids_of_inputs tx in
      mret (tk_at (Claiming fixed_utxo_ids) (tk_with_context (set_utxo_ids fixed_utxo_ids) t))
  | Claiming (utxo_id :: todo) =>
      found ← claim_utxo hash (conflict_of rid t false) utxo_id;
      mret (tk_at (Claiming todo) (tk_add_conflicts (default [] found) (bool_decide (is_Some found)) t))
  | Claiming [] =>
      resolver_data ← resolve_and_validate env tx;
      mret (tk_at (Revalidated (if rt_resolved_internally resolver_data then ValidationType_Full
                                else ValidationType_Partial)) t)
  | Revalidated vt =>
      t ← (if tk_conflict_detected t then mret t
           else prf ← lift (env_observe env vt State_Pending); mret (tk_add_proofs [prf] t));
      _ ← lift (env_gossip env);
      mret (tk_at (Listening vt) t)
  | Listening vt =>
      if env_now env - tk_processing_time_start t <? transaction_finalization_time
      then listen env rid t else mret (tk_at (Deciding vt) t)
  | Deciding vt =>
      _ ← decide_conflicts env rid t;
      mret (tk_at (Winner vt) t)
  | Winner vt =>
      prf ← lift (env_observe env vt State_Accepted);
      mret (tk_at Observed (tk_add_proofs [prf] t))
  | Observed =>
      _ ← on_store (commit_transaction (env_now env) tx);
      mret (tk_at Committed t)
  | Committed =>
      r ← respond env t;
      mret (tk_at (Finished (Responded (Ok r))) t)
  | Finished _ => mret t
  end.

(** ** All requests together *)

Record Sys := { sys_relay : Relay; sys_tasks : gmap string Task; sys_crashed : bool }.

(** A new message from [transaction_process] under a fresh uuid, or one step of a
    request.  An error ends the request and is the response; the requests run
    on one stream, so a panic ends them all. *)
Inductive Label :=
| Submit (rid : string) (tx : Transaction) (current_time : Z)
| Run (rid : string) (env : Env).

Definition settle (rid : string) (t : Task) (out : RgResult Task * Relay) (s : Sys) : Sys :=
  match out with
  | (Ok t', r) =>
      match tk_phase t' with
      | Finished (Responded _) =>
          {| sys_relay := (cleanup (tk_context t') None r).2; sys_tasks := <[rid := t']> (sys_tasks s);
             sys_crashed := false |}
      | _ => {| sys_relay := r; sys_tasks := <[rid := t']> (sys_tasks s); sys_crashed := false |}
      end
  | (Err e, r) =>
      let t' := tk_at (Finished (Responded (Err e))) (tk_with_context (set_transaction_hash (tk_hash t)) t) in
      {| sys_relay := (cleanup (tk_context t') None r).2; sys_tasks := <[rid := t']> (sys_tasks s);
         sys_crashed := false |}
  | (Panic, r) => {| sys_relay := r; sys_tasks := sys_tasks s; sys_crashed := true |}
  end.
Definition is_finished (p : Phase) : bool := match p with Finished _ => true | _ => false end.
Definition sys_do (l : Label) (s : Sys) : option Sys :=
  if sys_crashed s then None else
  match l with
  | Submit rid tx current_time =>
      match sys_tasks s !! rid with
      | Some _ => None
      | None => Some {| sys_relay := sys_relay s; sys_tasks := <[rid := new_task tx current_time]> (sys_tasks s);
                        sys_crashed := false |}
      end
  | Run rid env =>
      match sys_tasks s !! rid with
      | Some t => if is_finished (tk_phase t) then None
                  else Some (settle rid t (task_step env rid t (sys_relay s)) s)
      | None => None
      end
  end.

Inductive sys_step (s : Sys) : Sys → Prop :=
| sys_step_label l s' : sys_do l s = Some s' → sys_step s s'.

Definition initial (store : Store) : Sys :=
  {| sys_relay := {| rl_store := store; rl_transaction_channels := ∅; rl_utxo_channels := ∅; rl_receivers := ∅ |};
     sys_tasks := ∅; sys_crashed := false |}.
Definition reachable (store : Store) (s : Sys) : Prop := rtc sys_step (initial store) s.

Fixpoint sys_run (ls : list Label) (s : Sys) : option Sys :=
  match ls with [] => Some s | l :: ls => sys_do l s ≫= sys_run ls end.

(** * Properties *)

Definition queue (r : Relay) (rid : string) : list Conflict := default [] (rl_receivers r !! rid).

(** Nothing is claimed before the loop over the UTXO ids. *)
Definition early (p : Phase) : bool := match p with Received | Validated | Registered => true | _ => false end.
(** The conflict, if any, is decided in favour of the request. *)
Definition won (p : Phase) : bool :=
  match p with Winner _ | Observed | Committed | Finished (Responded (Ok _)) => true | _ => false end.
Definition not_above (h : Hash) (c : Conflict) : Prop :=
  ∃ v w, Hash_vec h = Ok v ∧ Hash_vec (cf_transaction_hash c) = Ok w ∧ bytes_leb v w = true.

(** The winner is a conflict with a least hash. *)
Lemma resolve_conflict_least env s cs h :
  resolve_conflict env s cs = Ok h → (2 ≤ length cs)%nat → Forall (not_above h) cs.
Proof.
unfold resolve_conflict. intros H Hlen.
apply bind_Ok in H as (an & _ & H). apply bind_Ok in H as (trust & _ & H). apply bind_Ok in H as (tcs & Hs & H).
pose proof (mapR_length _ _ _ _ _ Hs) as Hl. apply mapR_Ok in Hs.
destruct tcs as [|t1 [|t2 tcs]]; [simpl in Hl; lia..|]. set (l := t1 :: t2 :: tcs) in *.
apply bind_Ok in H as (keyed & Hk & H3). apply mapR_Ok in Hk.
destruct (sort_by _ keyed) as [|[v h'] rest] eqn:E; [done|]. simpl in H3. injection H3 as ->.
apply sort_by_head in E as [Hin Hall].
- assert (∀ v w, (v, w) ∈ keyed → Hash_vec w = Ok v) as Hvec.
  { intros v' w Hvw. apply list_elem_of_lookup in Hvw as (i & Hi).
    eapply Forall2_lookup_r in Hk as (t & _ & Ht); [|exact Hi]. inv_Ok. by simplify_eq. }
  apply Forall_forall. intros c Hc. apply list_elem_of_lookup in Hc as (i & Hi).
  eapply Forall2_lookup_l in Hs as (t & Hti & Ht); [|exact Hi].
  eapply Forall2_lookup_l in Hk as (k & Hki & Hk); [|exact Hti].
  unfold score_conflict in Ht. inv_Ok. simplify_eq. simpl in *.
  rewrite Forall_forall in Hall. apply list_elem_of_lookup_2 in Hki. exists v. eexists. split_and!; [by apply Hvec|done|].
  apply (Hall _ Hki).
- intros. apply bytes_leb_total.
- intros ???. apply bytes_leb_trans.
Qed.

(** ** What a step does to pools and messages *)

Definition same_pools (r r' : Relay) : Prop := rl_utxo_channels r' = rl_utxo_channels r.
#[local] Instance same_pools_preorder : PreOrder same_pools.
Proof. split; [done|]. unfold same_pools. intros ???. congruence. Qed.

(** A notice of another request is not lost. *)
Definition keeps_notices (r r' : Relay) : Prop :=
  ∀ rid c, cf_abort c = false → c ∈ queue r rid → c ∈ queue r' rid.
#[local] Instance keeps_notices_preorder : PreOrder keeps_notices.
Proof. split; [intros r rid c Hc H; exact H|]. intros r1 r2 r3 H1 H2 rid c Hc H. apply H2, H1; done. Qed.

Definition quiet (r r' : Relay) : Prop := same_pools r r' ∧ keeps_notices r r'.
#[local] Instance quiet_preorder : PreOrder quiet.
Proof. split; [by split|]. intros ??? [H1 H2] [H3 H4]. split; etransitivity; eassumption. Qed.

Lemma on_store_quiet {A} (m : M Store ErrorInfo A) : preserves quiet (on_store m).
Proof. intros r. unfold on_store. destruct (m (rl_store r)). split; [done|]. intros rid c _ H. exact H. Qed.

Lemma queue_send c rid r rid' :
  queue (with_receivers (partial_alter (λ q, Some (default [] q ++ [c])) rid) r) rid' =
  queue r rid' ++ (if bool_decide (rid' = rid) then [c] else []).
Proof.
unfold queue. simpl. case_bool_decide as H; [subst rid'; by rewrite lookup_partial_alter_eq|].
by rewrite lookup_partial_alter_ne, app_nil_r by done.
Qed.

Lemma send_quiet c rid : preserves quiet (send_conflict c rid).
Proof.
apply preserves_modify. intros r. split; [done|]. intros rid' c' _ H. rewrite queue_send. set_solver.
Qed.
#[local] Hint Resolve on_store_quiet send_quiet : preserves.

Lemma decide_conflicts_quiet env rid t : preserves quiet (decide_conflicts env rid t).
Proof. unfold decide_conflicts. destruct (tk_conflicts t); cbn zeta; eauto 10 with preserves. Qed.
Lemma respond_quiet env t : preserves quiet (respond env t).
Proof. unfold respond. eauto 10 with preserves. Qed.
Lemma resolve_and_validate_quiet env tx : preserves quiet (resolve_and_validate env tx).
Proof. unfold resolve_and_validate. eauto 10 with preserves. Qed.
#[local] Hint Resolve decide_conflicts_quiet respond_quiet resolve_and_validate_quiet : preserves.

Definition is_busy (p : Phase) : bool :=
  match p with Validated | Claiming (_ :: _) | Listening _ => true | _ => false end.

Lemma step_quiet env rid t : is_busy (tk_phase t) = false → preserves quiet (task_step env rid t).
Proof.
intros H. unfold task_step. destruct (tk_phase t) as [| | |[|u us]|vt|vt|vt|vt| | |]; try done;
  eauto 10 with preserves.
Qed.

(** Receiving moves a notice from the queue to the list of conflicts. *)
Lemma listen_effect env rid t r :
  same_pools r (listen env rid t r).2 ∧
  ∀ rid' c, cf_abort c = false → c ∈ queue r rid' →
    c ∈ queue (listen env rid t r).2 rid' ∨
    ∃ t', (listen env rid t r).1 = Ok t' ∧ rid' = rid ∧ c ∈ tk_conflicts t'.
Proof.
unfold listen. destruct (env_recv env); [|split; [done|by left]].
unfold receive_conflict, mbind, M_bind, gets. fold (queue r rid).
destruct (queue r rid) as [|c0 q] eqn:Eq; simpl; [split; [done|by left]|].
split; [by destruct (cf_abort c0)|]. intros rid' c Hc Hin.
destruct (decide (rid' = rid)) as [->|Hne].
- rewrite Eq in Hin. apply elem_of_cons in Hin as [->|Hin].
  + rewrite Hc. right. simpl. eexists. split_and!; [done|done|]. simpl. set_solver.
  + left. destruct (cf_abort c0); unfold queue; simpl; by rewrite lookup_insert_eq.
- left. destruct (cf_abort c0); unfold queue in *; simpl; by rewrite lookup_insert_ne.
Qed.

Lemma notify_quiet hash c u l : preserves quiet (iterM (notify hash c u) l).
Proof. unfold notify. eauto 10 with preserves. Qed.

Lemma notify_all hash c u l r r' :
  cf_abort c = false → iterM (notify hash c u) l r = (Ok tt, r') → ∀ a, a ∈ l → c ∈ queue r' (cf_request_id a).
Proof.
intros Hc. revert r. induction l as [|b l IH]; intros r; [by intros _ ? ?%not_elem_of_nil|].
rewrite iterM_cons_Ok. intros (r1 & H1 & H2) a [->|Ha]%elem_of_cons; [|by eapply IH].
pose proof (notify_quiet hash c u l r1) as [_ Hk]. rewrite H2 in Hk. apply Hk; [done|].
unfold notify in H1. inv_M. unfold send_conflict in *. inv_M. rewrite queue_send, bool_decide_eq_true_2 by done. set_solver.
Qed.

(** What claiming a UTXO does: the pool gets the request, its members become
    conflicts and are told. *)
Lemma claim_effect hash c u r res r' :
  cf_abort c = false → claim_utxo hash c u r = (res, r') →
  keeps_notices r r' ∧
  match res with
  | Ok found =>
      let pool := default [] (rl_utxo_channels r !! u) in
      default [] found = pool ∧ rl_utxo_channels r' = <[u := pool ++ [c]]> (rl_utxo_channels r) ∧
      ∀ a, a ∈ pool → c ∈ queue r' (cf_request_id a)
  | _ => same_pools r r'
  end.
Proof.
intros Hc. unfold claim_utxo. unfold mbind at 1, M_bind at 1, gets. destruct (rl_utxo_channels r !! u) as [pool|] eqn:E.
- unfold mbind at 1, M_bind at 1.
  pose proof (notify_quiet hash c u pool r) as Hq. pose proof (notify_all hash c u pool r) as Hn.
  destruct (iterM (notify hash c u) pool r) as [[[]|e|] r1]; simpl in *; intros [= <- <-];
    [|by destruct Hq..].
  split; [by destruct Hq|]. simpl. destruct Hq as [Hp _]. unfold same_pools in Hp. rewrite Hp.
  split_and!; [done|done|]. intros a Ha. by apply (Hn r1).
- simpl. intros [= <- <-]. simpl. split; [intros ?? _ H; exact H|]. split_and!; [done|done|]. by intros a ?%not_elem_of_nil.
Qed.

(** The conflicts a request knows after a step, whatever its outcome. *)
Definition conflicts_after (res : RgResult Task) (t : Task) : list Conflict :=
  match res with Ok t' => tk_conflicts t' | _ => tk_conflicts t end.

(** Registering opens an empty receiver for the request itself. *)
Lemma register_effect hash rid tx r :
  same_pools r (create_receiver_or_err hash rid tx r).2 ∧
  ∀ rid', rid' ≠ rid → queue (create_receiver_or_err hash rid tx r).2 rid' = queue r rid'.
Proof.
unfold create_receiver_or_err, mbind, M_bind, gets. destruct (rl_transaction_channels r !! hash); [done|].
split; [done|]. intros rid' Hne. unfold queue. simpl. by rewrite lookup_insert_ne.
Qed.

Lemma step_notices env rid t r rid' c :
  (tk_phase t = Validated → rid' ≠ rid) → cf_abort c = false → c ∈ queue r rid' →
  c ∈ queue (task_step env rid t r).2 rid' ∨ (rid' = rid ∧ c ∈ conflicts_after (task_step env rid t r).1 t).
Proof.
intros Hv Hc Hin. destruct (is_busy (tk_phase t)) eqn:Hb.
2:{ left. destruct (step_quiet env rid t Hb r) as [_ Hq]. by apply Hq. }
unfold task_step. destruct (tk_phase t) as [| | |[|u us]|vt|vt|vt|vt| | |] eqn:Ep; try done.
- left. pose proof (register_effect (tk_hash t) rid (tk_transaction t) r) as [_ Hq].
  specialize (Hq rid' (Hv eq_refl)). unfold mbind, M_bind.
  destruct (create_receiver_or_err _ _ _ r) as [[] r1]; simpl in *; by rewrite Hq.
- left. unfold mbind, M_bind. destruct (claim_utxo _ _ u r) as [res r1] eqn:E.
  apply claim_effect in E as [Hk _]; [|done]. destruct res; by apply Hk.
- case_match; [|by left]. destruct (listen_effect env rid t r) as [_ Hl].
  destruct (Hl rid' c Hc Hin) as [?|(t' & Ht' & -> & ?)]; [by left|]. right. split; [done|]. unfold conflicts_after. by rewrite Ht'.
Qed.

Lemma step_pools env rid t r :
  let '(res, r') := task_step env rid t r in
  same_pools r r' ∨
  ∃ u todo t', tk_phase t = Claiming (u :: todo) ∧ res = Ok t' ∧
    let pool := default [] (rl_utxo_channels r !! u) in
    rl_utxo_channels r' = <[u := pool ++ [conflict_of rid t false]]> (rl_utxo_channels r) ∧
    tk_conflicts t' = tk_conflicts t ++ pool ∧ ∀ a, a ∈ pool → conflict_of rid t false ∈ queue r' (cf_request_id a).
Proof.
destruct (task_step env rid t r) as [res r'] eqn:E. destruct (is_busy (tk_phase t)) eqn:Hb.
2:{ left. destruct (step_quiet env rid t Hb r) as [Hq _]. by rewrite E in Hq. }
unfold task_step in E. destruct (tk_phase t) as [| | |[|u us]|vt|vt|vt|vt| | |] eqn:Ep; try done.
- left. pose proof (register_effect (tk_hash t) rid (tk_transaction t) r) as [Hq _]. unfold mbind, M_bind in E.
  destruct (create_receiver_or_err _ _ _ r) as [[] r1]; by injection E as <- <-.
- unfold mbind, M_bind in E. destruct (claim_utxo _ _ u r) as [res1 r1] eqn:Ec.
  apply claim_effect in Ec as [_ Hk]; [|done]. destruct res1 as [found|e|].
  + right. injection E as <- <-. destruct Hk as (Hf & Hp & Hn). exists u, us. eexists. cbv zeta. split_and!; [done|done|done| |done].
    simpl. by rewrite Hf.
  + left. by injection E as <- <-.
  + left. by injection E as <- <-.
- left. case_match; [|by injection E as <- <-]. destruct (listen_effect env rid t r) as [Hl _]. by rewrite E in Hl.
Qed.

Lemma decide_least env rid t r r' :
  decide_conflicts env rid t r = (Ok tt, r') → Forall (not_above (tk_hash t)) (tk_conflicts t).
Proof.
unfold decide_conflicts. destruct (tk_conflicts t) as [|c cs] eqn:E; [by constructor|]. cbv zeta. intros H. inv_M.
match goal with H : resolve_conflict _ _ _ = _ |- _ => apply resolve_conflict_least in H as Hl;
  [|rewrite length_app; simpl; lia] end.
case_bool_decide as Hw; [|].
- inv_M. done.
- subst. by apply Forall_app in Hl as [].
Qed.

(** What a successful step keeps of the request, and what winning takes. *)
Record step_ok (t t' : Task) : Prop := {
  so_transaction : tk_transaction t' = tk_transaction t;
  so_start : tk_processing_time_start t' = tk_processing_time_start t;
  so_processor : cx_request_processor (tk_context t') = cx_request_processor (tk_context t);
  so_conflicts : ∃ cs, tk_conflicts t' = tk_conflicts t ++ cs;
  so_early : early (tk_phase t') = true → early (tk_phase t) = true;
  so_won : won (tk_phase t') = true → tk_conflicts t' = tk_conflicts t ∧
    (won (tk_phase t) = true ∨ Forall (not_above (tk_hash t)) (tk_conflicts t)) }.

Lemma listen_ok env rid t r t' r' :
  listen env rid t r = (Ok t', r') → t' = t ∨ ∃ c, t' = tk_add_conflicts [c] false t.
Proof.
unfold listen. destruct (env_recv env); intros H; [|inv_M; by left].
apply M_bind_Ok in H as ([c|] & r1 & _ & H); [|inv_M; by left].
destruct (cf_abort c); inv_M; [done|]. right. by exists c.
Qed.

Lemma step_task env rid t r t' r' : task_step env rid t r = (Ok t', r') → step_ok t t'.
Proof.
assert (∀ cs, ∃ cs', cs = cs ++ cs' :> list Conflict) as Hnil by (intros cs; exists []; by rewrite app_nil_r).
unfold task_step. destruct (tk_phase t) as [| | |[|u us]|vt|vt|vt|vt| | |] eqn:Ep; intros H.
- cbv zeta in H. destruct (check_peer_message _); inv_M; split; simpl; rewrite ?Ep; auto.
- inv_M. split; simpl; rewrite ?Ep; auto.
- inv_M. split; simpl; rewrite ?Ep; auto.
- inv_M. split; simpl; rewrite ?Ep; auto.
- inv_M. split; simpl; rewrite ?Ep; eauto; done.
- destruct (tk_conflict_detected t); inv_M; split; simpl; rewrite ?Ep; auto; done.
- case_match; [|inv_M; split; simpl; rewrite ?Ep; auto; done].
  apply listen_ok in H as [->|[c ->]]; split; simpl; rewrite ?Ep; eauto; done.
- inv_M. match goal with H : decide_conflicts _ _ _ _ = _ |- _ => apply decide_least in H end.
  split; simpl; rewrite ?Ep; auto; done.
- inv_M. split; simpl; rewrite ?Ep; auto; done.
- inv_M. split; simpl; rewrite ?Ep; auto; done.
- inv_M. split; simpl; rewrite ?Ep; auto; done.
- inv_M. split; rewrite ?Ep; auto.
Qed.

(** ** The invariant of all runs *)

Notation pools s := (rl_utxo_channels (sys_relay s)).

(** The later of two claims knows the earlier one, and the earlier one knows the
    later one or has its notice in the queue. *)
Definition aware (s : Sys) (ci cj : Conflict) : Prop :=
  (∃ t, sys_tasks s !! cf_request_id cj = Some t ∧ ci ∈ tk_conflicts t) ∧
  (∃ t, sys_tasks s !! cf_request_id ci = Some t ∧
     (cj ∈ tk_conflicts t ∨ cj ∈ queue (sys_relay s) (cf_request_id ci))).

Record Inv (s : Sys) : Prop := {
  inv_processor : ∀ rid t, sys_tasks s !! rid = Some t → cx_request_processor (tk_context t) = None;
  inv_pool : ∀ u pool c, pools s !! u = Some pool → c ∈ pool →
    ∃ t, sys_tasks s !! cf_request_id c = Some t ∧ c = conflict_of (cf_request_id c) t false ∧
      early (tk_phase t) = false;
  inv_pair : ∀ u pool i j ci cj, pools s !! u = Some pool → pool !! i = Some ci → pool !! j = Some cj →
    (i < j)%nat → aware s ci cj;
  inv_won : ∀ rid t, sys_tasks s !! rid = Some t → won (tk_phase t) = true →
    Forall (not_above (tk_hash t)) (tk_conflicts t) }.

(** What any step of request [rid] does, seen from the invariant. *)
Record progress (rid : string) (t t' : Task) (r r' : Relay) : Prop := {
  pg_task : step_ok t t';
  pg_notices : ∀ rid' c, (early (tk_phase t) = true → rid' ≠ rid) → cf_abort c = false → c ∈ queue r rid' →
    c ∈ queue r' rid' ∨ (rid' = rid ∧ c ∈ tk_conflicts t');
  pg_pools : same_pools r r' ∨
    ∃ u, let pool := default [] (rl_utxo_channels r !! u) in
      early (tk_phase t) = false ∧
      rl_utxo_channels r' = <[u := pool ++ [conflict_of rid t false]]> (rl_utxo_channels r) ∧
      (∀ a, a ∈ pool → a ∈ tk_conflicts t') ∧
      ∀ a, a ∈ pool → conflict_of rid t false ∈ queue r' (cf_request_id a) }.

Definition update (rid : string) (t' : Task) (r' : Relay) (crashed : bool) (s : Sys) : Sys :=
  {| sys_relay := r'; sys_tasks := <[rid := t']> (sys_tasks s); sys_crashed := crashed |}.

Lemma conflict_of_ok rid t t' b : step_ok t t' → conflict_of rid t' b = conflict_of rid t b.
Proof. intros H. unfold conflict_of, tk_hash. by rewrite (so_transaction _ _ H), (so_start _ _ H). Qed.

Section progress.
Context (s : Sys) (rid : string) (t t' : Task) (r' : Relay) (crashed : bool).
Context (HI : Inv s) (Ht : sys_tasks s !! rid = Some t) (Hp : progress rid t t' (sys_relay s) r').
Notation s' := (update rid t' r' crashed s).

Lemma task_after rid0 t0 : sys_tasks s !! rid0 = Some t0 →
  ∃ t1, sys_tasks s' !! rid0 = Some t1 ∧ step_ok t0 t1 ∧ (rid0 = rid → t0 = t ∧ t1 = t').
Proof.
intros H. destruct (decide (rid0 = rid)) as [->|Hne]; simpl.
- exists t'. rewrite lookup_insert_eq. assert (t0 = t) as -> by congruence. split_and!; [done|apply Hp|done].
- exists t0. rewrite lookup_insert_ne by done. split_and!; [done| |done].
  split; auto. exists []. by rewrite app_nil_r.
Qed.

Lemma aware_after ci cj t0 :
  sys_tasks s !! cf_request_id ci = Some t0 → early (tk_phase t0) = false → cf_abort cj = false →
  aware s ci cj → aware s' ci cj.
Proof.
intros Hi Hearly Hab [(tj & Hj & Hcj) (ti & Hi' & Hci)]. assert (ti = t0) as -> by congruence.
destruct (task_after _ _ Hj) as (tj' & Hj' & Hok & _). destruct (task_after _ _ Hi) as (ti' & Hi2 & Hoki & Heq).
destruct (so_conflicts _ _ Hok) as [cs Hcs]. destruct (so_conflicts _ _ Hoki) as [cs' Hcs'].
split; [exists tj'; split; [done|rewrite Hcs; set_solver]|]. exists ti'. split; [done|].
destruct Hci as [Hci|Hci]; [left; rewrite Hcs'; set_solver|].
destruct (pg_notices _ _ _ _ _ Hp (cf_request_id ci) cj) as [?|[Hr ?]]; [|done|done|by right|].
- intros He Hr. destruct (Heq Hr) as [-> _]. congruence.
- left. by destruct (Heq Hr) as [_ ->].
Qed.

Definition claimed_by (c : Conflict) : Prop :=
  ∃ t1, sys_tasks s' !! cf_request_id c = Some t1 ∧ c = conflict_of (cf_request_id c) t1 false ∧
    early (tk_phase t1) = false.

Lemma early_after t0 t1 : step_ok t0 t1 → early (tk_phase t0) = false → early (tk_phase t1) = false.
Proof. intros Hok H0. apply not_true_iff_false. intros H. apply (so_early _ _ Hok) in H. congruence. Qed.

Lemma old_claim u pool c : pools s !! u = Some pool → c ∈ pool → claimed_by c.
Proof.
intros Hu Hc. destruct (inv_pool s HI u pool c Hu Hc) as (t0 & H0 & Hc0 & He0).
destruct (task_after _ _ H0) as (t1 & H1 & Hok & _). exists t1.
split_and!; [done|by rewrite (conflict_of_ok _ _ _ _ Hok)|by eapply early_after].
Qed.

Lemma old_pair u pool i j ci cj :
  pools s !! u = Some pool → pool !! i = Some ci → pool !! j = Some cj → (i < j)%nat → aware s' ci cj.
Proof.
intros Hu Hi Hj Hij.
destruct (inv_pool s HI u pool ci Hu (list_elem_of_lookup_2 _ _ _ Hi)) as (t0 & H0 & _ & He).
destruct (inv_pool s HI u pool cj Hu (list_elem_of_lookup_2 _ _ _ Hj)) as (t1 & _ & Hcj & _).
eapply aware_after; [done|done|by rewrite Hcj|by eapply inv_pair].
Qed.

Lemma new_claims u pool c : pools s' !! u = Some pool → c ∈ pool → claimed_by c.
Proof.
destruct (pg_pools _ _ _ _ _ Hp) as [Hs|(u0 & He & Hs & _)]; intros Hu Hc; simpl in Hu; rewrite Hs in Hu;
  [by eapply old_claim|].
destruct (decide (u = u0)) as [->|Hne]; [|rewrite lookup_insert_ne in Hu by done; by eapply old_claim].
rewrite lookup_insert_eq in Hu. injection Hu as <-. apply elem_of_app in Hc as [Hc|Hc].
- destruct (rl_utxo_channels (sys_relay s) !! u0) as [p0|] eqn:E; [by eapply old_claim|by apply not_elem_of_nil in Hc].
- pose proof (pg_task _ _ _ _ _ Hp) as Hok. apply list_elem_of_singleton in Hc as ->. exists t'. simpl.
  split_and!; [apply lookup_insert_eq|by rewrite (conflict_of_ok _ _ _ _ Hok)|by eapply early_after].
Qed.

Lemma new_pairs u pool i j ci cj :
  pools s' !! u = Some pool → pool !! i = Some ci → pool !! j = Some cj → (i < j)%nat → aware s' ci cj.
Proof.
destruct (pg_pools _ _ _ _ _ Hp) as [Hs|(u0 & He & Hs & Hk & Hn)]; intros Hu Hi Hj Hij; simpl in Hu; rewrite Hs in Hu;
  [by eapply old_pair|].
destruct (decide (u = u0)) as [->|Hne]; [|rewrite lookup_insert_ne in Hu by done; by eapply old_pair].
rewrite lookup_insert_eq in Hu. injection Hu as <-.
destruct (rl_utxo_channels (sys_relay s) !! u0) as [p0|] eqn:E; simpl in *.
- apply lookup_app_Some in Hj as [Hj|[Hl Hj]].
  { rewrite lookup_app_l in Hi by (apply lookup_lt_Some in Hj; lia). by eapply old_pair. }
  destruct (j - length p0)%nat as [|n] eqn:Ej; [|by destruct n]. simpl in Hj. injection Hj as <-.
  rewrite lookup_app_l in Hi by lia. apply list_elem_of_lookup_2 in Hi.
  destruct (old_claim _ _ _ E Hi) as (t1 & H1 & _).
  split; [exists t'; split; [apply lookup_insert_eq|by apply Hk]|exists t1; split; [done|right; by apply Hn]].
- destruct i, j; simpl in *; try lia; done.
Qed.

Lemma progress_inv : Inv s'.
Proof.
pose proof (pg_task _ _ _ _ _ Hp) as Hok. split; [|apply new_claims|apply new_pairs|].
- intros rid0 t0 H. destruct (decide (rid0 = rid)) as [->|Hne]; simpl in H.
  + rewrite lookup_insert_eq in H. injection H as <-. rewrite (so_processor _ _ Hok). by apply (inv_processor s HI rid).
  + rewrite lookup_insert_ne in H by done. by eapply inv_processor.
- intros rid0 t0 H Hw. destruct (decide (rid0 = rid)) as [->|Hne]; simpl in H.
  + rewrite lookup_insert_eq in H. injection H as <-. unfold tk_hash. rewrite (so_transaction _ _ Hok).
    destruct (so_won _ _ Hok Hw) as [-> [Hw0|Hall]]; [by apply (inv_won s HI rid)|done].
  + rewrite lookup_insert_ne in H by done. by eapply inv_won.
Qed.
End progress.

(** Since no step sets the [request_processor] of the context, the cleanup frees
    the transaction's hash and leaves the pools alone. *)
Lemma cleanup_quiet cx ii : cx_request_processor cx = None → preserves quiet (cleanup cx ii).
Proof.
intros H. unfold cleanup. rewrite H. eapply preserves_bind; [apply _|eauto with preserves|intros h].
eapply preserves_bind; [apply _| |intros _; eauto with preserves].
apply preserves_modify. intros r. split; [done|]. intros ?? _ Hin. exact Hin.
Qed.

Lemma progress_quiet rid t t' r r1 r2 : progress rid t t' r r1 → quiet r1 r2 → progress rid t t' r r2.
Proof.
intros [H1 H2 H3] [Hp Hk]. split; [done| |].
- intros rid' c He Hc Hin. destruct (H2 rid' c He Hc Hin) as [?|?]; [left; by apply Hk|by right].
- destruct H3 as [H3|(u & He & H3 & Hc & Hn)]; [left; by etransitivity|]. right. exists u. split_and!; [done| |done|].
  + unfold same_pools in Hp. by rewrite Hp.
  + intros a Ha. apply Hk; [done|by apply Hn].
Qed.

Lemma step_progress env rid t r :
  let '(res, r') := task_step env rid t r in
  ∀ t', match res with Ok t1 => t' = t1 | _ => step_ok t t' ∧ tk_conflicts t' = tk_conflicts t end →
  progress rid t t' r r'.
Proof.
pose proof (step_pools env rid t r) as Hpool. pose proof (λ rid' c, step_notices env rid t r rid' c) as Hn.
pose proof (step_task env rid t r) as Ht.
destruct (task_step env rid t r) as [res r'] eqn:E. intros t' Hres. simpl in Hn.
assert (step_ok t t' ∧ (∀ c, c ∈ conflicts_after res t → c ∈ tk_conflicts t')) as [Hok Hca].
{ destruct res as [t1|e|]; simpl; [subst t1; split; [by eapply Ht|done]|destruct Hres as [? ->]; done..]. }
split; [done| |].
- intros rid' c He Hc Hin. destruct (Hn rid' c) as [?|[? ?]]; [|done|done|by left|right; auto].
  intros Hv. apply He. by rewrite Hv.
- destruct Hpool as [?|(u & todo & t1 & Hph & -> & Hs & Hc & Hno)]; [by left|]. right. exists u. subst t1.
  split_and!; [by rewrite Hph|done| |done]. intros a Ha. rewrite Hc. set_solver.
Qed.

Lemma step_ok_refl t : step_ok t t.
Proof. split; auto. exists []. by rewrite app_nil_r. Qed.
Lemma step_ok_failed t cx e :
  cx_request_processor cx = cx_request_processor (tk_context t) →
  step_ok t (tk_at (Finished (Responded (Err e))) (tk_with_context (λ _, cx) t)).
Proof. intros H. split; simpl; try done. exists []. by rewrite app_nil_r. Qed.

(** A step of the system is a new request or progress of one. *)
Lemma sys_do_cases l s s' : Inv s → sys_do l s = Some s' →
  (∃ rid tx now, sys_tasks s !! rid = None ∧ s' = update rid (new_task tx now) (sys_relay s) false s) ∨
  (∃ rid t t' r' crashed, sys_tasks s !! rid = Some t ∧ progress rid t t' (sys_relay s) r' ∧
     s' = update rid t' r' crashed s).
Proof.
intros HI. unfold sys_do. destruct (sys_crashed s); [done|]. destruct l as [rid tx now|rid env].
{ destruct (sys_tasks s !! rid) as [|] eqn:E; [done|]. intros [= <-]. left. by exists rid, tx, now. }
destruct (sys_tasks s !! rid) as [t|] eqn:E; [|done]. destruct (is_finished (tk_phase t)); [done|]. intros [= <-].
pose proof (step_progress env rid t (sys_relay s)) as Hp. pose proof (inv_processor s HI rid t E) as Hproc.
right. exists rid, t. destruct (task_step env rid t (sys_relay s)) as [[t'|e|] r'] eqn:Es; unfold settle.
- specialize (Hp t' eq_refl). pose proof (so_processor _ _ (pg_task _ _ _ _ _ Hp)) as Hproc'. rewrite Hproc in Hproc'.
  destruct (tk_phase t') as [| | | | | | | | | |[|]] eqn:Ep; try (by exists t', r', false).
  eexists t', _, false. split_and!; [done| |done]. by apply (progress_quiet _ _ _ _ r'), cleanup_quiet.
- eexists _, _, false. split_and!; [done| |done].
  apply (progress_quiet _ _ _ _ r'); [apply Hp|by apply cleanup_quiet]. split; [by apply step_ok_failed|done].
- exists t, r', true. split_and!; [done|apply Hp; split; [apply step_ok_refl|done]|].
  unfold update. by rewrite insert_id.
Qed.

Lemma submit_inv rid tx now s :
  Inv s → sys_tasks s !! rid = None → Inv (update rid (new_task tx now) (sys_relay s) false s).
Proof.
intros HI E. assert (∀ rid0 t0, sys_tasks s !! rid0 = Some t0 →
  <[rid := new_task tx now]> (sys_tasks s) !! rid0 = Some t0) as Hkeep.
{ intros rid0 t0 H0. rewrite lookup_insert_ne; [done|congruence]. }
assert (∀ rid0 t0, <[rid := new_task tx now]> (sys_tasks s) !! rid0 = Some t0 →
  t0 = new_task tx now ∨ sys_tasks s !! rid0 = Some t0) as Hcase.
{ intros rid0 t0. rewrite lookup_insert_Some. naive_solver. }
split; simpl.
- intros rid0 t0 [->|H]%Hcase; [done|by eapply inv_processor].
- intros u pool c Hu Hc. destruct (inv_pool s HI u pool c Hu Hc) as (t0 & H0 & ?). exists t0. auto.
- intros u pool i j ci cj Hu Hi Hj Hij.
  destruct (inv_pair s HI u pool i j ci cj Hu Hi Hj Hij) as [(tj & Hj' & ?) (ti & Hi' & ?)].
  split; [exists tj|exists ti]; simpl; auto.
- intros rid0 t0 [->|H]%Hcase; [done|by eapply inv_won].
Qed.

Lemma reachable_inv store s : reachable store s → Inv s.
Proof.
apply (rtc_ind_r Inv).
- split; simpl.
  + intros rid t H. by rewrite lookup_empty in H.
  + intros u pool c H. by rewrite lookup_empty in H.
  + intros u pool i j ci cj H. by rewrite lookup_empty in H.
  + intros rid t H. by rewrite lookup_empty in H.
- intros s1 s2 _ [l s2' Hl] HI. apply sys_do_cases in Hl as [(rid & tx & now & ? & ->)|(rid & t & t' & r' & b & ? & ? & ->)];
    [by apply submit_inv|eapply (progress_inv s1 rid t t' r' b); done|done].
Qed.

Lemma reachable_rtc store s s' : reachable store s → rtc sys_step s s' → reachable store s'.
Proof. intros H1 H2. unfold reachable in *. by etransitivity. Qed.

Lemma claims_stay store s s' u pool :
  reachable store s → rtc sys_step s s' → pools s !! u = Some pool → ∃ later, pools s' !! u = Some (pool ++ later).
Proof.
intros Hr H Hu. induction H as [s|s s1 s' Hs _ IH] in Hr, pool, Hu |- *; [exists []; by rewrite app_nil_r|].
assert (∃ later, pools s1 !! u = Some (pool ++ later)) as [l1 H1].
{ destruct Hs as [l s1 Hl]. apply sys_do_cases in Hl as [(rid & tx & now & ? & ->)|(rid & t & t' & r' & b & ? & Hp & ->)];
    [exists []; by rewrite app_nil_r| |by eapply reachable_inv].
  simpl. destruct (pg_pools _ _ _ _ _ Hp) as [->|(u0 & _ & -> & _)]; [exists []; by rewrite app_nil_r|].
  destruct (decide (u = u0)) as [->|Hne]; [rewrite lookup_insert_eq, Hu; eauto|].
  rewrite lookup_insert_ne by done. exists []. by rewrite app_nil_r. }
destruct (IH (pool ++ l1)) as [l2 H2]; [|done|exists (l1 ++ l2); by rewrite H2, app_assoc].
eapply reachable_rtc; [done|by eapply rtc_once].
Qed.

(** C2: of two requests that claimed one UTXO, at most one wins, if the notice is
    read in time.  In every reachable state, whatever the interleaving, the
    clock and the peers, when two requests in the pool of a UTXO have both passed
    conflict resolution and their hashes differ, the notice of the later one is
    still in the queue of the earlier one, which decided without it. *)
Theorem winners_exclusive store s u pool i j ci cj ti tj :
  reachable store s → pools s !! u = Some pool → pool !! i = Some ci → pool !! j = Some cj → (i < j)%nat →
  sys_tasks s !! cf_request_id ci = Some ti → sys_tasks s !! cf_request_id cj = Some tj →
  won (tk_phase ti) = true → won (tk_phase tj) = true → Hash_vec (tk_hash ti) ≠ Hash_vec (tk_hash tj) →
  cj ∈ queue (sys_relay s) (cf_request_id ci) ∧ cj ∉ tk_conflicts ti.
Proof.
intros Hr Hu Hi Hj Hij Hti Htj Hwi Hwj Hne. apply reachable_inv in Hr as HI.
destruct (inv_pair s HI u pool i j ci cj Hu Hi Hj Hij) as [(tj' & Htj' & Hcj) (ti' & Hti' & Hci)].
assert (ti' = ti) as -> by congruence. assert (tj' = tj) as -> by congruence.
pose proof (inv_won s HI _ _ Hti Hwi) as Hli. pose proof (inv_won s HI _ _ Htj Hwj) as Hlj.
destruct (inv_pool s HI u pool ci Hu (list_elem_of_lookup_2 _ _ _ Hi)) as (t0 & H0 & Hc0 & _).
destruct (inv_pool s HI u pool cj Hu (list_elem_of_lookup_2 _ _ _ Hj)) as (t1 & H1 & Hc1 & _).
assert (cj ∉ tk_conflicts ti) as Hno; [|by destruct Hci].
intros Hin. rewrite Forall_forall in Hli. rewrite Forall_forall in Hlj.
destruct (Hli _ Hin) as (v & w & Hv & Hw & Hle). destruct (Hlj _ Hcj) as (v' & w' & Hv' & Hw' & Hle').
assert (t0 = ti) as -> by congruence. assert (t1 = tj) as -> by congruence.
rewrite Hc1 in Hw. rewrite Hc0 in Hw'. simpl in Hw, Hw'.
assert (w = v') as -> by congruence. assert (w' = v) as -> by congruence.
apply Hne. rewrite Hv, Hv'. f_equal. by apply bytes_leb_antisym.
Qed.

(** A claim is never released.  Whatever became of the request behind an
    entry of a pool, for instance that it ended with an error, the entry stays
    in every later state, and a request that claims the UTXO afterwards wins only
    if its hash is not above that of the entry: the UTXO stays locked for all
    transactions with a larger hash. *)
Theorem stale_claim_blocks store s s' u pool pool' c j c' t' :
  reachable store s → rtc sys_step s s' → pools s !! u = Some pool → c ∈ pool →
  pools s' !! u = Some pool' → pool' !! j = Some c' → (length pool ≤ j)%nat →
  sys_tasks s' !! cf_request_id c' = Some t' → won (tk_phase t') = true →
  c ∈ pool' ∧ not_above (tk_hash t') c.
Proof.
intros Hr Hss Hu Hc Hu' Hj Hlen Ht' Hw. destruct (claims_stay store s s' u pool Hr Hss Hu) as [later Hl].
assert (pool' = pool ++ later) as -> by congruence. split; [set_solver|].
pose proof (reachable_inv store s' (reachable_rtc _ _ _ Hr Hss)) as HI.
apply list_elem_of_lookup in Hc as (i & Hi). pose proof (lookup_lt_Some _ _ _ Hi).
destruct (inv_pair s' HI u _ i j c c' Hu') as [(t0 & H0 & Hin) _]; [by apply lookup_app_l_Some|done|lia|].
assert (t0 = t') as -> by congruence. pose proof (inv_won s' HI _ _ Ht' Hw) as Hall.
rewrite Forall_forall in Hall. by apply Hall.
Qed.

(** A transaction submitted again while it is being processed is refused, and
    the refusal removes the registration of the pending one: the next copy is
    admitted next to it. *)
Theorem duplicate_unregisters store s rid t env rp :
  reachable store s → sys_crashed s = false → sys_tasks s !! rid = Some t → tk_phase t = Validated →
  rl_transaction_channels (sys_relay s) !! tk_hash t = Some rp →
  ∃ s' e t', sys_do (Run rid env) s = Some s' ∧ sys_tasks s' !! rid = Some t' ∧
    tk_phase t' = Finished (Responded (Err e)) ∧ ei_code e = TransactionAlreadyProcessing ∧
    rl_transaction_channels (sys_relay s') !! tk_hash t = None ∧
    ∀ rid' tx, tk_hash t = hash_or tx → is_Some (ok_opt (create_receiver_or_err (hash_or tx) rid' tx (sys_relay s')).1).
Proof.
intros Hr Hc Ht Hp Hch. apply reachable_inv in Hr as HI. pose proof (inv_processor s HI _ _ Ht) as Hnone.
unfold sys_do. rewrite Hc, Ht, Hp. cbn [is_finished].
assert (task_step env rid t (sys_relay s) = (Err (error_message TransactionAlreadyProcessing
  "Duplicate TX hash found in processing queue"), sys_relay s)) as ->.
{ unfold task_step. rewrite Hp. apply M_bind_fail. unfold create_receiver_or_err.
  erewrite M_bind_step by reflexivity. by rewrite Hch. }
unfold settle, cleanup. cbn [tk_context tk_at tk_with_context set_transaction_hash cx_transaction_hash cx_request_processor].
rewrite Hnone. eexists _, _, _. split_and!; [reflexivity|apply lookup_insert_eq|reflexivity|reflexivity| |].
- simpl. apply lookup_delete_eq.
- intros rid' tx Htx. unfold create_receiver_or_err, mbind, M_bind, gets. simpl. rewrite Htx, lookup_delete_eq. by eexists.
Qed.

Lemma sys_run_rtc ls s s' : sys_run ls s = Some s' → rtc sys_step s s'.
Proof.
revert s. induction ls as [|l ls IH]; intros s H; [by injection H as <-|].
simpl in H. destruct (sys_do l s) as [s1|] eqn:E; [|done]. eapply rtc_l; [by econstructor|by apply IH].
Qed.

End process.

(** * Concrete runs *)

Module Runs.
Import Ledger.Demo.
#[local] Existing Instance toy_host.
#[local] Existing Instance toy_crypto.
#[local] Existing Instance toy_secp.
#[local] Existing Instance demo_sql.
#[local] Existing Instance demo_pt.
#[local] Existing Instance demo_pu.
#[local] Existing Instance demo_po.
#[local] Existing Instance demo_pp.
#[local] Existing Instance demo_pe.
#[local] Existing Instance demo_je.
#[local] Existing Instance demo_ji.

(** A node on the development network that waits 10 ms, without peers. *)
Definition own_proof : ObservationProof :=
  {| op_observation_hash := None; op_merkle_proof := None; op_metadata := Some (demo_om Byte.x01);
     op_proof := Some {| pf_signature := None; pf_public_key := Some demo_key |} |}.
Definition env_at (now : Z) : Env :=
  {| env_now := now; env_resolve := no_peers; env_active_nodes := Ok []; env_trust := λ _, Ok None;
     env_observe := λ _ _, Ok own_proof; env_gossip := Ok tt; env_recv := true;
     env_peer_proofs := Ok []; env_contract := λ _, Ok tt |}.
Definition gossip_fails (now : Z) : Env :=
  {| env_now := now; env_resolve := no_peers; env_active_nodes := Ok []; env_trust := λ _, Ok None;
     env_observe := λ _ _, Ok own_proof; env_gossip := Err (error_info "no peers"); env_recv := true;
     env_peer_proofs := Ok []; env_contract := λ _, Ok tt |}.
Notation run_node := (sys_run Dev 10).

(** Two transactions that spend the same UTXO of 10. *)
Definition spent : UtxoId := UtxoId_new (hash_or parent) 0.
Definition spend_low : Transaction := spend_of [parent_input 0 demo_kp_address] [Output_new demo_address 7; Output_new demo_kp_address 3].
Definition spend_high : Transaction := spend_of [parent_input 0 demo_kp_address] [Output_new demo_address 10].

(** From submission to [Listening], through the first claim. *)
Definition until_listening (rid : string) (now : Z) : list Label := replicate 6 (Run rid (env_at now)).

(** "high" decides at time 10 and waits to be observed; "low" claims the UTXO,
    resolves it again, and its notice is never read; then "high" commits, and
    "low", which knows "high" and has the smaller hash, commits as well. *)
Definition race : list Label :=
  Submit "high" spend_high 0 :: until_listening "high" 1 ++
  [Run "high" (env_at 10); Run "high" (env_at 10); Submit "low" spend_low 10] ++ until_listening "low" 11 ++
  replicate 2 (Run "high" (env_at 12)) ++ replicate 4 (Run "low" (env_at 20)).
Definition after_race : Sys := default (initial ledger0) (run_node race (initial ledger0)).

Lemma race_runs : is_Some (run_node race (initial ledger0)).
Proof. by_decision. Qed.

Lemma run_rtc ls s : is_Some (run_node ls s) → rtc (sys_step Dev 10) s (default s (run_node ls s)).
Proof. intros [s' Hs]. rewrite Hs. by eapply sys_run_rtc. Qed.

Lemma race_reachable : reachable Dev 10 ledger0 after_race.
Proof. apply run_rtc, race_runs. Qed.

(** The request has committed the transaction, which spends [spent]. *)
Definition committed_as (s : Sys) (rid : string) (tx : Transaction) : bool :=
  match sys_tasks s !! rid with
  | Some t => match tk_phase t with Committed => true | _ => false end &&
              bool_decide (tk_transaction t = tx) && bool_decide (fixed_utxo_ids_of_inputs tx = [spent])
  | None => false
  end.

(** The notice can come too late.  A request that claims a UTXO after another
    one has left its waiting loop, but before that one has committed, resolves
    the UTXO as unspent; if its hash is smaller it wins its own conflict
    resolution, and both transactions are committed: the ledger of 14 becomes
    one of 24. *)
Example late_claim_double_spend :
  reachable Dev 10 ledger0 after_race ∧
  committed_as after_race "high" spend_high = true ∧ committed_as after_race "low" spend_low = true ∧
  spend_high ≠ spend_low ∧ utxo_total ledger0 = 14 ∧ utxo_total (rl_store (sys_relay after_race)) = 24.
Proof. split_and!; [exact race_reachable|by_decision..]. Qed.

(** A request that claims the UTXO and then ends with an error, here from the
    gossip, and what a later one does. *)
Definition fails_after_claim (rid : string) (tx : Transaction) : list Label :=
  Submit rid tx 0 :: replicate 5 (Run rid (env_at 1)) ++ [Run rid (gossip_fails 1)].
Definition comes_later (rid : string) (tx : Transaction) : list Label :=
  Submit rid tx 100 :: until_listening rid 101 ++ replicate 2 (Run rid (env_at 110)).
Definition after_failure (rid : string) (tx : Transaction) : Sys :=
  default (initial ledger0) (run_node (fails_after_claim rid tx) (initial ledger0)).
Definition after_retry (rid : string) (tx : Transaction) (s : Sys) : Sys :=
  default s (run_node (comes_later rid tx) s).

(** How a request ended. *)
Definition response_code (s : Sys) (rid : string) : option (option ErrorCode) :=
  match tk_phase <$> sys_tasks s !! rid with
  | Some (Finished (Responded (Ok _))) => Some None
  | Some (Finished (Responded (Err e))) => Some (Some (ei_code e))
  | _ => None
  end.

(** A dead request keeps a UTXO.  A request that failed while gossiping, and
    whose transaction was never stored, still wins against a later valid
    transaction with a larger hash: the later one is rejected as a double spend
    although the UTXO is unspent. *)
Theorem dead_claim_wins :
  let s := after_failure "low" spend_low in
  let s' := after_retry "high" spend_high s in
  reachable Dev 10 ledger0 s' ∧
  response_code s "low" = Some (Some UnknownError) ∧
  query_transaction (rl_store (sys_relay s')) (match Hash_vec (hash_or spend_low) with Ok b => b | _ => [] end) = Ok None ∧
  response_code s' "high" = Some (Some TransactionRejectedDoubleSpend) ∧
  query_utxo_id_valid (rl_store (sys_relay s')) (hash_or parent) 0 = Ok true.
Proof.
cbv zeta. split_and!; [|by_decision..].
apply (reachable_rtc Dev 10 ledger0 (after_failure "low" spend_low));
  [apply (run_rtc (fails_after_claim "low" spend_low)); by_decision|].
apply (run_rtc (comes_later "high" spend_high)). by_decision.
Qed.

(** ** Witnesses *)

Lemma some_default {A} (d : A) o : is_Some o → o = Some (default d o).
Proof. by intros [a ->]. Qed.
Definition task_of (s : Sys) (rid : string) : Task := default (new_task parent 0) (sys_tasks s !! rid).
Definition pool_of (s : Sys) : list Conflict := default [] (rl_utxo_channels (sys_relay s) !! spent).

Lemma winners_exclusive_witness :
  conflict_of "low" (task_of after_race "low") false ∈ queue (sys_relay after_race) "high".
Proof.
destruct (winners_exclusive Dev 10 ledger0 after_race spent (pool_of after_race) 0 1
  (conflict_of "high" (task_of after_race "high") false) (conflict_of "low" (task_of after_race "low") false)
  (task_of after_race "high") (task_of after_race "low")) as [H _]; [..|exact H].
- exact race_reachable.
- apply some_default. by_decision.
- by_decision.
- by_decision.
- by_decision.
- apply some_default. by_decision.
- apply some_default. by_decision.
- by_decision.
- by_decision.
- by_decision.
Defined.

Definition failed : Sys := after_failure "high" spend_high.
Definition retried : Sys := after_retry "low" spend_low failed.

Lemma stale_claim_blocks_witness :
  not_above (tk_hash (task_of retried "low")) (conflict_of "high" (task_of failed "high") false).
Proof.
destruct (stale_claim_blocks Dev 10 ledger0 failed retried spent (pool_of failed) (pool_of retried)
  (conflict_of "high" (task_of failed "high") false) 1 (conflict_of "low" (task_of retried "low") false)
  (task_of retried "low")) as [_ H]; [..|exact H].
- apply (run_rtc (fails_after_claim "high" spend_high)). by_decision.
- apply (run_rtc (comes_later "low" spend_low)). by_decision.
- apply some_default. by_decision.
- by_decision.
- apply some_default. by_decision.
- by_decision.
- by_decision.
- apply some_default. by_decision.
- by_decision.
Defined.

Definition twice : list Label :=
  [Submit "first" spend_low 0; Run "first" (env_at 1); Run "first" (env_at 1);
   Submit "second" spend_low 2; Run "second" (env_at 3)].
Definition after_twice : Sys := default (initial ledger0) (run_node twice (initial ledger0)).

Lemma duplicate_unregisters_witness :
  ∃ s', sys_do Dev 10 (Run "second" (env_at 4)) after_twice = Some s' ∧
    rl_transaction_channels (sys_relay s') !! tk_hash (task_of after_twice "second") = None.
Proof.
destruct (rl_transaction_channels (sys_relay after_twice) !! tk_hash (task_of after_twice "second")) as [rp|] eqn:E.
- destruct (duplicate_unregisters Dev 10 ledger0 after_twice "second" (task_of after_twice "second") (env_at 4) rp)
    as (s' & e & t' & H1 & _ & _ & _ & H2 & _).
  + apply run_rtc. by_decision.
  + vm_compute. reflexivity.
  + apply some_default. by_decision.
  + vm_compute. reflexivity.
  + exact E.
  + exists s'. split; [exact H1|exact H2].
- exfalso. revert E. apply not_eq_None_Some. by_decision.
Defined.
End Runs.
