(* ===== verification/Download.v ===== *)
(** * Downloading parents that were resolved remotely

    src/core/recent_download.rs: when an input was resolved through peers, the
    node may store the parent transaction and its unspent outputs and resolve
    the parent's own inputs in turn; with the two helpers of src/core/relay.rs it
    uses, [tx_hash_distance] and [utxo_id_valid_peers].

    Peers' answers and trust ratings are parameters.  The order in which a
    [HashMap] is iterated is the order of the finite map. *)

From stdpp Require Import base list gmap strings.
From S2P Require Import Prelude Structs Interfaces F64 Schema Merkle Transaction Keys Store Resolver Wire Ledger.
#[local] Open Scope Z_scope.
#[local] Open Scope redgold_scope.

Record UtxoValidResponse := {
  uvr_valid : option bool; uvr_child_transaction : option Transaction; uvr_child_transaction_input : option Z }.
Notation UtxoReply := (Response (option UtxoValidResponse)).

(** The store and the messages on [unknown_resolved_inputs]. *)
Record Download := { dl_store : Store; dl_unknown_resolved_inputs : list ResolvedInput }.

Section download.
Context {host : Host} {crypto : Crypto} {secp : Secp} {sql : Sql}.
Context {ptx : Proto Transaction} {pue : Proto UtxoEntry} {po : Proto Output} {pei : Proto ErrorInfo}.
Context {pop : Proto ObservationProof} {jei : Json ErrorInfo}.

(** The node's public key, its [partition_info], the ids in [utxo_channels], and
    the answers from outside. *)
Context (node_public_key : PublicKey) (transaction_hash_partition : option Z) (utxo_channels : gset UtxoId).
Context (get_trust_of_node : PublicKey → RgResult (option f64)).
Context (utxo_answers : UtxoId → RgResult (list (RgResult UtxoReply))).
Context (peer_answers : Hash → option Z → RgResult (list (RgResult ResolveReply))).

Notation D := (M Download ErrorInfo).

Definition on_download_store {A} (m : M Store ErrorInfo A) : D A := λ d,
  let '(a, s) := m (dl_store d) in
  (a, {| dl_store := s; dl_unknown_resolved_inputs := dl_unknown_resolved_inputs d |}).

Definition tx_hash_distance (hash : Hash) : RgResult bool :=
  d ← xorfc_hash hash node_public_key;
  Ok (match transaction_hash_partition with Some d_max => d <? d_max | None => true end).

(** The weight of a valid or invalid answer, and of the child it names. *)
Definition tally_validity (acc : f64 * gmap Transaction f64) (r : RgResult UtxoReply) :
    RgResult (f64 * gmap Transaction f64) :=
  let '(sum, hm) := acc in
  let answer : option (PublicKey * UtxoValidResponse * bool) :=
    r ← ok_opt r; p ← rs_proof r; pk ← pf_public_key p; u ← rs_body r; v ← uvr_valid u; Some (pk, u, v) in
  match answer with
  | Some (pk, u, v) =>
      t ← get_trust_of_node pk;
      Ok (match t with
          | Some t =>
              (if v then f64_add sum t else f64_sub sum t,
               match uvr_child_transaction u, uvr_child_transaction_input u with
               | Some h, Some _ => <[h := match hm !! h with Some w => f64_add w t | None => t end]> hm
               | _, _ => hm
               end)
          | None => (sum, hm)
          end)
  | None => Ok (sum, hm)
  end.
(** [max_by]: the last of the greatest entries. *)
Definition heaviest (l : list (Transaction * f64)) : option Transaction :=
  fst <$> foldl (λ best x, match best with
                           | Some b => if f64_ltb x.2 b.2 then Some b else Some x
                           | None => Some x
                           end) None l.
Definition utxo_id_valid_peers (utxo_id : UtxoId) : RgResult (option Transaction) :=
  res ← utxo_answers utxo_id;
  t ← foldR tally_validity (f64_zero, (∅ : gmap Transaction f64)) res;
  Ok (if f64_ltb f64_zero t.1 then None else heaviest (map_to_list t.2)).

(** One output of the parent. *)
Definition store_output (u : UtxoEntry) : M Store ErrorInfo unit :=
  match ue_utxo_id u with
  | Some id =>
      used ← gets (λ s, utxo_used s id);
      used ← lift used;
      match used with
      | None =>
          valid ← lift (utxo_id_valid_peers id);
          match valid with
          | None =>
              _ ← insert_utxo u;
              if bool_decide (id ∈ utxo_channels) then mret tt else insert_utxo u
          | Some _ => mret tt
          end
      | Some _ => mret tt
      end
  | None => mret tt
  end.

(** One input of the parent: an unknown one is resolved without the liveness
    checks and queued; an error is only counted. *)
Definition queue_input (parent : Transaction) (input : Input) : D unit :=
  match i_utxo_id input ≫= u_transaction_hash with
  | Some h =>
      known ← (gets (λ d, transaction_known (dl_store d) h) : D (RgResult bool));
      known ← (lift known : D bool);
      if (known : bool) then mret tt else
      resolved ← (gets (λ d, resolve_input peer_answers (dl_store d) input (signable_hash parent) false) : D (RgResult ResolvedInput));
      match (resolved : RgResult ResolvedInput) with
      | Ok r => modify (λ d, {| dl_store := dl_store d;
                                dl_unknown_resolved_inputs := dl_unknown_resolved_inputs d ++ [r] |})
      | Err _ => mret tt
      | Panic => lift Panic
      end
  | None => mret tt
  end.

(** A proof by a node with trust above one half. *)
Definition trusted_proofs (ps : list ObservationProof) : RgResult bool :=
  foldR (λ store pk,
    t ← get_trust_of_node pk;
    Ok (match t with Some t => store || f64_ltb (f64_div (f64_of_Z 1) (f64_of_Z 2)) t | None => store end))
    false (omap (λ o, p ← op_proof o; pf_public_key p) ps).

Definition store_parent (parent : Transaction) : M Store ErrorInfo unit :=
  time ← lift (metadata_time parent);
  _ ← insert_transaction parent time true None false;
  iterM store_output (match utxo_outputs parent with Ok us => us | _ => [] end).
Definition process_resolved_input (update : ResolvedInput) : D unit :=
  let parent := ri_parent_transaction update in
  within_distance ← lift (tx_hash_distance (hash_or parent));
  if negb within_distance then mret tt else
  store ← lift (trusted_proofs (elements (ri_observation_proofs update)));
  if negb store then mret tt else
  _ ← on_download_store (store_parent parent);
  iterM (queue_input parent) (tx_inputs parent).

(** * Properties *)

(** An output that is stored is stored twice, and the second time fails. *)
Lemma store_output_twice u id k r s :
  ue_utxo_id u = Some id → utxo_used s id = Ok None → utxo_id_valid_peers id = Ok None → id ∉ utxo_channels →
  utxo_row u = Ok (k, r) → st_utxo s !! k = None →
  store_output u s =
    (Err (error_message InternalDatabaseError unique_violation), with_utxo_table (insert k r) s).
Proof.
intros Hid Hused Hv Hb Hrow Hk. unfold store_output. rewrite Hid.
erewrite M_bind_step by reflexivity. rewrite Hused. erewrite M_bind_step by reflexivity.
rewrite Hv. erewrite M_bind_step by reflexivity. rewrite bool_decide_eq_false_2 by done.
assert (insert_utxo u s = (Ok tt, with_utxo_table (insert k r) s)) as H1.
{ unfold insert_utxo. rewrite Hrow. erewrite M_bind_step by reflexivity. erewrite M_bind_step by reflexivity.
  simpl. by rewrite Hk. }
rewrite (M_bind_step _ _ _ _ _ H1). unfold insert_utxo. rewrite Hrow. erewrite M_bind_step by reflexivity.
erewrite M_bind_step by reflexivity. simpl. by rewrite lookup_insert_eq.
Qed.

(** When no answer names a spending transaction, the UTXO counts as valid, even if
    every peer holds it invalid or none answers. *)
Lemma invalid_without_child_is_valid id res :
  utxo_answers id = Ok res →
  (∀ pk, ∃ t, get_trust_of_node pk = Ok t) →
  Forall (λ r, ∀ u, (r ← ok_opt r; rs_body r) = Some u → uvr_child_transaction u = None) res →
  utxo_id_valid_peers id = Ok None.
Proof.
intros Hres Htrust Hall. unfold utxo_id_valid_peers. rewrite Hres. rg_step.
assert (∀ sum r, (∀ u, (r ← ok_opt r; rs_body r) = Some u → uvr_child_transaction u = None) →
  ∃ sum', tally_validity (sum, ∅) r = Ok (sum', ∅)) as H1.
{ intros sum r Hr. unfold tally_validity. destruct (ok_opt r) as [r'|]; simpl in *; [|by exists sum].
  destruct (rs_proof r') as [p|]; simpl; [|by exists sum].
  destruct (pf_public_key p) as [pk|]; simpl; [|by exists sum].
  destruct (rs_body r') as [u|] eqn:Eu; simpl; [|by exists sum].
  destruct (uvr_valid u) as [v|]; simpl; [|by exists sum]. destruct (Htrust pk) as [t ->]. rg_step.
  rewrite Hr by done. destruct t; eauto. }
assert (∀ sum, ∃ sum', foldR tally_validity (sum, (∅ : gmap Transaction f64)) res = Ok (sum', ∅)) as H.
{ clear Hres. induction Hall as [|r res Hr _ IH]; intros sum; [by exists sum|]. cbn [foldR].
  destruct (H1 sum r Hr) as [sum1 ->]. rg_step. apply IH. }
destruct (H f64_zero) as [sum' ->]. rg_step. simpl. rewrite map_to_list_empty. by destruct (f64_ltb f64_zero sum').
Qed.

(** A download fails on the first unspent output.  For a parent within
    distance and with a trusted proof, that the store accepts, whose first output
    is not known to be spent, held valid by the peers, not under contention and
    not yet a UTXO, the function answers a database error: the output has just
    been inserted and is inserted again.  The transaction and this one UTXO stay
    in the store; no other output is stored and no input is queued. *)
Theorem download_fails_on_first_output update time s1 u us id k r d :
  let parent := ri_parent_transaction update in
  tx_hash_distance (hash_or parent) = Ok true →
  trusted_proofs (elements (ri_observation_proofs update)) = Ok true →
  metadata_time parent = Ok time → insert_transaction parent time true None false (dl_store d) = (Ok tt, s1) →
  utxo_outputs parent = Ok (u :: us) → ue_utxo_id u = Some id → utxo_used s1 id = Ok None →
  utxo_id_valid_peers id = Ok None → id ∉ utxo_channels → utxo_row u = Ok (k, r) → st_utxo s1 !! k = None →
  process_resolved_input update d =
    (Err (error_message InternalDatabaseError unique_violation),
     {| dl_store := with_utxo_table (insert k r) s1; dl_unknown_resolved_inputs := dl_unknown_resolved_inputs d |}).
Proof.
intros parent Hd Ht Htime Hins Hus Hid Hused Hv Hb Hrow Hk. unfold process_resolved_input. fold parent.
rewrite Hd. erewrite M_bind_step by reflexivity. cbn [negb].
rewrite Ht. erewrite M_bind_step by reflexivity. cbn [negb]. apply M_bind_fail. unfold on_download_store, store_parent.
rewrite Htime. erewrite M_bind_step by reflexivity. rewrite (M_bind_step _ _ _ _ _ Hins), Hus. cbn [iterM].
by rewrite (M_bind_fail _ _ _ _ _ (store_output_twice u id k r s1 Hid Hused Hv Hb Hrow Hk)).
Qed.
End download.

(** * Witness *)

Module DownloadDemo.
Import Ledger.Demo.
#[local] Existing Instance toy_host.
#[local] Existing Instance toy_crypto.
#[local] Existing Instance toy_secp.
#[local] Existing Instance demo_sql.
#[local] Existing Instance demo_pt.
#[local] Existing Instance demo_pu.
#[local] Existing Instance demo_po.
#[local] Existing Instance demo_pp.
#[local] Existing Instance demo_pe.
#[local] Existing Instance demo_je.

(** The parent, observed by a peer with full trust that holds its outputs valid. *)
Definition trusted : PublicKey → RgResult (option f64) := λ _, Ok (Some (f64_of_Z 1)).
Definition peer_proof : Proof_ := {| pf_signature := None; pf_public_key := Some demo_key |}.
Definition peer_says_valid : UtxoId → RgResult (list (RgResult UtxoReply)) := λ _,
  Ok [Ok {| rs_response_metadata := None; rs_proof := Some peer_proof; rs_node_metadata := None;
            rs_body := Some {| uvr_valid := Some true; uvr_child_transaction := None;
                               uvr_child_transaction_input := None |} |}].
Definition remote_parent : ResolvedInput :=
  {| ri_input := parent_input 0 demo_kp_address; ri_parent_transaction := parent; ri_internal_accepted := false;
     ri_internal_valid_index := false;
     ri_observation_proofs := {[ {| op_observation_hash := None; op_merkle_proof := None; op_metadata := None;
                                    op_proof := Some peer_proof |} ]};
     ri_peer_valid_index := ∅; ri_peer_invalid_index := ∅; ri_signable_hash := hash_or parent |}.
Definition parent_row : RgResult ((bytes * Z) * UtxoRow) :=
  utxo_row (from_output_new (Output_new demo_kp_address 10) (hash_or parent) 0 1).

Lemma download_fails_on_first_output_witness :
  (process_resolved_input demo_key None ∅ trusted peer_says_valid no_peers remote_parent
    {| dl_store := empty_store; dl_unknown_resolved_inputs := [] |}).1 =
  Err (error_message InternalDatabaseError demo_sql).
Proof.
destruct parent_row as [[k r]| |] eqn:E; [|vm_compute in E; discriminate E..].
rewrite (download_fails_on_first_output demo_key None ∅ trusted peer_says_valid no_peers remote_parent 1
  (insert_transaction parent 1 true None false empty_store).2
  (from_output_new (Output_new demo_kp_address 10) (hash_or parent) 0 1)
  [from_output_new (Output_new demo_address 4) (hash_or parent) 1 1] (UtxoId_new (hash_or parent) 0) k r).
- reflexivity.
- vm_compute. reflexivity.
- vm_compute. reflexivity.
- vm_compute. reflexivity.
- refine (run_fst (insert_transaction parent 1 true None false empty_store) (Ok tt) _). vm_compute. reflexivity.
- by_decision.
- reflexivity.
- vm_compute. reflexivity.
- vm_compute. reflexivity.
- by_decision.
- exact E.
- vm_compute in E. injection E as <- _. vm_compute. reflexivity.
Defined.
End DownloadDemo.
