(* ===== verification/Peers.v ===== *)
(** * The peer store

    data/src/peer.rs and the tables [peers] and [nodes] of data/migrations: the
    transactions in which a peer describes itself and the transactions in which
    its nodes do, keyed by the peer's and the node's public key.  [PeerNodeInfo] is
    of schema/src/peers.rs.

    A table is a finite map from its primary key; rows come in the order of the
    map.  The clock is an argument; row ids and failures of the connection pool are
    left out. *)

From stdpp Require Import base list gmap strings.
From S2P Require Import Prelude Structs Interfaces Schema Merkle Transaction Keys Wire.
#[local] Open Scope Z_scope.
#[local] Open Scope redgold_scope.

(** The key is the column [public_key]; the column [status] is always empty. *)
Record NodeRow := { nr_peer_id : bytes; nr_status : string; nr_last_seen : Z; nr_tx : bytes }.
(** [peers] keeps the column [tx] under [id]. *)
Record PeerDb := { pd_peers : gmap bytes bytes; pd_nodes : gmap bytes NodeRow }.

Definition empty_peers : PeerDb := {| pd_peers := ∅; pd_nodes := ∅ |}.
Definition with_peers (f : gmap bytes bytes → gmap bytes bytes) (d : PeerDb) : PeerDb :=
  {| pd_peers := f (pd_peers d); pd_nodes := pd_nodes d |}.
Definition with_nodes (f : gmap bytes NodeRow → gmap bytes NodeRow) (d : PeerDb) : PeerDb :=
  {| pd_peers := pd_peers d; pd_nodes := f (pd_nodes d) |}.
Definition seen_at (time : Z) (r : NodeRow) : NodeRow :=
  {| nr_peer_id := nr_peer_id r; nr_status := nr_status r; nr_last_seen := time; nr_tx := nr_tx r |}.

Record PeerNodeInfo := {
  pni_latest_peer_transaction : option Transaction; pni_latest_node_transaction : option Transaction;
  pni_dynamic_node_metadata : option DynamicNodeMetadata }.
Record PeerIdInfo := { pii_latest_peer_transaction : option Transaction; pii_peer_node_info : list PeerNodeInfo }.
Record PeerIdNode := { pin_peer_id : PeerId; pin_public_key : PublicKey }.

Definition PeerId_from_bytes (b : bytes) : PeerId :=
  {| pi_peer_id := Some (PublicKey_from_bytes b); pi_known_proof := [] |}.

Section peers.
Context {host : Host} {crypto : Crypto} {secp : Secp} {ptx : Proto Transaction} {jpi : Json PeerNodeInfo}.

Notation PS := (M PeerDb ErrorInfo).

Definition nmd_pk (p : PeerNodeInfo) : option PublicKey :=
  t ← pni_latest_node_transaction p; n ← ok_opt (Transaction_node_metadata t); nm_public_key n.
Definition public_keys (p : PeerNodeInfo) : list PublicKey :=
  match (t ← pni_latest_node_transaction p; ok_opt (Transaction_peer_data t)) with
  | Some pd => omap nm_public_key (pm_node_metadata pd)
  | None => []
  end ++ option_list (nmd_pk p).

(** ** Peers *)

Definition remove_peer_id (p : PeerId) : PS unit :=
  vec ← lift (opt_PublicKey_safe_bytes (pi_peer_id p));
  modify (with_peers (delete vec)).
Definition query_peer_id_tx (d : PeerDb) (peer_id : PeerId) : RgResult (option Transaction) :=
  x ← safe_get (pi_peer_id peer_id);
  vec ← safe_bytes (pk_bytes x);
  match pd_peers d !! vec with
  | Some tx => Some <$> proto_deserialize tx
  | None => Ok None
  end.
(** The hash is computed and not used, but [vec] panics on a hash without bytes. *)
Definition insert_peer (tx : Transaction) : PS unit :=
  pd ← lift (Transaction_peer_data tx);
  _ ← lift (Hash_vec (hash_or tx));
  p ← lift (safe_get (pm_peer_id pd));
  k ← lift (safe_get (pi_peer_id p));
  pid ← lift (PublicKey_bytes k);
  modify (with_peers <[pid := encode_to_vec tx]>).
Definition all_peers_tx (d : PeerDb) : RgResult (list Transaction) :=
  mapR proto_deserialize (snd <$> map_to_list (pd_peers d)).
Definition all_peers (d : PeerDb) : RgResult (list PeerMetadata) :=
  txs ← all_peers_tx d; mapR Transaction_peer_data txs.

(** ** Nodes *)

Definition nodes_tx (d : PeerDb) : RgResult (list Transaction) :=
  mapR (λ kr : bytes * NodeRow, proto_deserialize (nr_tx kr.2)) (map_to_list (pd_nodes d)).
(** [SELECT ... WHERE last_seen > cutoff]; a day without a delay. *)
Definition active_rows (d : PeerDb) (now : Z) (delay : option Z) : list (bytes * NodeRow) :=
  let cutoff := i64_sub now (as_i64 (default (60 * 60 * 24 * 1000) delay)) in
  List.filter (λ kr, cutoff <? nr_last_seen kr.2) (map_to_list (pd_nodes d)).
Definition active_nodes (d : PeerDb) (now : Z) (delay : option Z) : RgResult (list PublicKey) :=
  mapR (λ kr, PublicKey_validate (PublicKey_from_bytes kr.1)) (active_rows d now delay).
Definition active_nodes_ids (d : PeerDb) (now : Z) (delay : option Z) : list PeerIdNode :=
  (λ kr, {| pin_peer_id := PeerId_from_bytes (nr_peer_id kr.2); pin_public_key := PublicKey_from_bytes kr.1 |})
    <$> active_rows d now delay.
Definition active_node_info (d : PeerDb) (now : Z) (delay : option Z) : RgResult (list Transaction) :=
  mapR (λ kr, proto_deserialize (nr_tx kr.2)) (active_rows d now delay).
Definition active_node_metadata (d : PeerDb) (now : Z) (delay : option Z) : RgResult (list NodeMetadata) :=
  res ← active_node_info d now delay; Ok (omap (λ t, ok_opt (Transaction_node_metadata t)) (res : list Transaction)).
Definition select_gossip_peers (d : PeerDb) (now : Z) (_tx : Transaction) : RgResult (list PublicKey) :=
  active_nodes d now None.
(** The filter and [flat_map] of [peers_near], one node at a time. *)
Definition near_key (hash : Hash) (partition : PartitionInfo → option Z) (p : Transaction) : RgResult (list PublicKey) :=
  match Transaction_node_metadata p with
  | Ok n => near ← hash_in_range n hash partition; Ok (if (near : bool) then option_list (nm_public_key n) else [])
  | Err _ => Ok []
  | Panic => Panic
  end.
Definition peers_near (d : PeerDb) (now : Z) (hash : Hash) (partition : PartitionInfo → option Z) : RgResult (list PublicKey) :=
  infos ← active_node_info d now None;
  keys ← mapR (near_key hash partition) infos; Ok (concat keys).

Definition node_key (pk : PublicKey) : RgResult bytes := pk ← PublicKey_validate pk; PublicKey_bytes pk.
Definition peer_id_for_node_pk (d : PeerDb) (public_key : PublicKey) : RgResult (option PeerId) :=
  vec ← node_key public_key;
  Ok ((λ r, PeerId_from_bytes (nr_peer_id r)) <$> pd_nodes d !! vec).
Definition peer_id_count_node_pk (d : PeerDb) (public_key : PublicKey) : RgResult Z :=
  vec ← node_key public_key;
  Ok (match pd_nodes d !! vec with Some _ => 1 | None => 0 end).
Definition query_public_key_node (d : PeerDb) (public : PublicKey) : RgResult (option Transaction) :=
  vec ← node_key public;
  match pd_nodes d !! vec with
  | Some r => Some <$> proto_deserialize (nr_tx r)
  | None => Ok None
  end.
Definition query_public_key_metadata (d : PeerDb) (public : PublicKey) : RgResult (option NodeMetadata) :=
  r ← query_public_key_node d public; Ok (r ≫= λ v, ok_opt (Transaction_node_metadata v)).
Definition update_last_seen (node : PublicKey) (now : Z) : PS unit :=
  res ← gets (λ d, query_public_key_node d node);
  res ← lift res;
  match (res : option Transaction) with
  | None => lift (Err (error_info "Missing node in database"))
  | Some _ =>
      bytes ← lift (safe_bytes (pk_bytes node));
      modify (with_nodes (alter (seen_at now) bytes))
  end.
Definition insert_node (tx : Transaction) (now : Z) : PS unit :=
  nmd ← lift (Transaction_node_metadata tx);
  public_key ← lift (safe_get (nm_public_key nmd));
  _ ← lift (PublicKey_validate public_key);
  pk_bytes ← lift (PublicKey_bytes public_key);
  p ← lift (safe_get (nm_peer_id nmd));
  k ← lift (safe_get (pi_peer_id p));
  pid ← lift (safe_bytes (Structs.pk_bytes k));
  modify (with_nodes <[pk_bytes := {| nr_peer_id := pid; nr_status := ""; nr_last_seen := now;
                                      nr_tx := encode_to_vec tx |}]>).
Definition remove_node (p0 : PublicKey) : PS unit :=
  pid ← gets (λ d, peer_id_for_node_pk d p0);
  pid ← lift pid;
  match (pid : option PeerId) with
  | Some p =>
      vec ← lift (node_key p0);
      _ ← modify (with_nodes (delete vec));
      c ← gets (λ d, peer_id_count_node_pk d p0);
      c ← lift c;
      if 0 <? (c : Z) then remove_peer_id p else mret tt
  | None => mret tt
  end.

(** ** Both *)

Definition add_peer_new (peer_info : PeerNodeInfo) (self_key : PublicKey) (now : Z) : PS unit :=
  if bool_decide (self_key ∈ public_keys peer_info) then
    lift (Err (error_info ("Self key found in peer info " +:+ json_or peer_info)))
  else
  p ← lift (safe_get_msg (pni_latest_peer_transaction peer_info) "Add peer failed due to missing latest peer transaction");
  _ ← insert_peer p;
  n ← lift (safe_get_msg (pni_latest_node_transaction peer_info) "Missing peer info latest node tx");
  insert_node n now.

Definition peer_node_info (p n : Transaction) : PeerNodeInfo :=
  {| pni_latest_peer_transaction := Some p; pni_latest_node_transaction := Some n; pni_dynamic_node_metadata := None |}.
(** One turn of the loop of [all_peers_info]. *)
Definition node_info (d : PeerDb) (n : Transaction) : RgResult (list PeerNodeInfo) :=
  nmd ← Transaction_node_metadata n;
  match nm_peer_id nmd with
  | Some pid => tx ← query_peer_id_tx d pid; Ok (match tx with Some t => [peer_node_info t n] | None => [] end)
  | None => Ok []
  end.
Definition all_peers_info (d : PeerDb) : RgResult (list PeerNodeInfo) :=
  nodes ← nodes_tx d; res ← mapR (node_info d) nodes; Ok (concat res).
Definition query_peer_id_info (d : PeerDb) (peer_id : PeerId) : RgResult (option PeerIdInfo) :=
  tx ← query_peer_id_tx d peer_id;
  match tx with
  | Some t =>
      pd ← Transaction_peer_data t;
      res ← mapR (query_public_key_node d) (omap nm_public_key (pm_node_metadata pd));
      Ok (Some {| pii_latest_peer_transaction := Some t;
                  pii_peer_node_info := peer_node_info t <$> omap id res |})
  | None => Ok None
  end.
Definition query_nodes_peer_node_info (d : PeerDb) (public : PublicKey) : RgResult (option PeerNodeInfo) :=
  tx ← query_public_key_node d public;
  match (tx ← (tx : option Transaction); n ← ok_opt (Transaction_node_metadata tx); pid ← nm_peer_id n; Some (tx, pid)) with
  | Some (n, pid) =>
      p ← query_peer_id_tx d pid;
      Ok ((λ p, peer_node_info p n) <$> (p : option Transaction))
  | None => Ok None
  end.

(** * Properties *)

(** ** The tables in use *)

(** What the two insertions write. *)
Definition node_written (k : bytes) (r : NodeRow) : Prop :=
  ∃ tx nmd pk p pid, proto_decode (nr_tx r) = inr tx ∧ Transaction_node_metadata tx = Ok nmd ∧
    nm_public_key nmd = Some pk ∧ node_key pk = Ok k ∧ nm_peer_id nmd = Some p ∧ pi_peer_id p = Some pid ∧
    safe_bytes (pk_bytes pid) = Ok (nr_peer_id r).
Definition peer_written (k raw : bytes) : Prop :=
  ∃ tx pd p pid, proto_decode raw = inr tx ∧ Transaction_peer_data tx = Ok pd ∧ pm_peer_id pd = Some p ∧
    pi_peer_id p = Some pid ∧ safe_bytes (pk_bytes pid) = Ok k.
Record peers_wf (d : PeerDb) : Prop := {
  pwf_nodes : map_Forall node_written (pd_nodes d);
  pwf_peers : map_Forall peer_written (pd_peers d) }.

(** Every operation that changes a table, whatever it answers. *)
Inductive peer_op :=
| OpAdd (info : PeerNodeInfo) (self_key : PublicKey) (now : Z)
| OpInsertPeer (tx : Transaction)
| OpInsertNode (tx : Transaction) (now : Z)
| OpSeen (pk : PublicKey) (now : Z)
| OpRemoveNode (pk : PublicKey)
| OpRemovePeer (p : PeerId).
Definition run_peer_op (o : peer_op) : PS unit :=
  match o with
  | OpAdd info self_key now => add_peer_new info self_key now
  | OpInsertPeer tx => insert_peer tx
  | OpInsertNode tx now => insert_node tx now
  | OpSeen pk now => update_last_seen pk now
  | OpRemoveNode pk => remove_node pk
  | OpRemovePeer p => remove_peer_id p
  end.
Inductive peers_reach : PeerDb → Prop :=
| pr_empty : peers_reach empty_peers
| pr_op o d : peers_reach d → peers_reach (run_peer_op o d).2.

Definition keeps_wf (d d' : PeerDb) : Prop := peers_wf d → peers_wf d'.
#[local] Instance keeps_wf_preorder : PreOrder keeps_wf.
Proof. split; [intros d H; exact H|intros d1 d2 d3 H1 H2 H; exact (H2 (H1 H))]. Qed.

Lemma keeps_wf_nodes f d : (map_Forall node_written (pd_nodes d) → map_Forall node_written (f (pd_nodes d))) →
  keeps_wf d (with_nodes f d).
Proof. intros Hf [Hn Hp]. split; [by apply Hf|done]. Qed.
Lemma keeps_wf_peers f d : (map_Forall peer_written (pd_peers d) → map_Forall peer_written (f (pd_peers d))) →
  keeps_wf d (with_peers f d).
Proof. intros Hf [Hn Hp]. split; [done|by apply Hf]. Qed.

Section lawful.
Context {laws : ProtoLaws Transaction}.

Lemma insert_peer_keeps tx : preserves keeps_wf (insert_peer tx).
Proof.
intros d. unfold insert_peer.
destruct (Transaction_peer_data tx) as [pd| |] eqn:E1; [|reflexivity..]. erewrite M_bind_step by reflexivity.
destruct (Hash_vec (hash_or tx)) as [h| |]; [|reflexivity..]. erewrite M_bind_step by reflexivity.
destruct (pm_peer_id pd) as [p|] eqn:E2; [|reflexivity]. erewrite M_bind_step by reflexivity.
destruct (pi_peer_id p) as [k|] eqn:E3; [|reflexivity]. erewrite M_bind_step by reflexivity.
destruct (PublicKey_bytes k) as [b| |] eqn:E4; [|reflexivity..]. erewrite M_bind_step by reflexivity.
apply keeps_wf_peers. intros H. apply map_Forall_insert_2; [|done].
exists tx, pd, p, k. by rewrite proto_decode_encode.
Qed.

Lemma insert_node_keeps tx now : preserves keeps_wf (insert_node tx now).
Proof.
intros d. unfold insert_node.
destruct (Transaction_node_metadata tx) as [nmd| |] eqn:E1; [|reflexivity..]. erewrite M_bind_step by reflexivity.
destruct (nm_public_key nmd) as [pk|] eqn:E2; [|reflexivity]. erewrite M_bind_step by reflexivity.
destruct (PublicKey_validate pk) as [pk'| |] eqn:E3; [|reflexivity..]. erewrite M_bind_step by reflexivity.
destruct (PublicKey_bytes pk) as [b| |] eqn:E4; [|reflexivity..]. erewrite M_bind_step by reflexivity.
destruct (nm_peer_id nmd) as [p|] eqn:E5; [|reflexivity]. erewrite M_bind_step by reflexivity.
destruct (pi_peer_id p) as [k|] eqn:E6; [|reflexivity]. erewrite M_bind_step by reflexivity.
destruct (safe_bytes (pk_bytes k)) as [pid| |] eqn:E7; [|reflexivity..]. erewrite M_bind_step by reflexivity.
apply keeps_wf_nodes. intros H. apply map_Forall_insert_2; [|done].
assert (pk' = pk) as -> by (unfold PublicKey_validate in E3; inv_Ok; done).
exists tx, nmd, pk, p, k. cbn [nr_tx nr_peer_id]. rewrite proto_decode_encode. unfold node_key. by rewrite E3.
Qed.

Lemma update_last_seen_keeps pk now : preserves keeps_wf (update_last_seen pk now).
Proof.
unfold update_last_seen. apply preserves_bind; [typeclasses eauto|apply preserves_gets, _|].
intros r. apply preserves_bind; [typeclasses eauto|apply preserves_lift, _|]. intros [tx|]; [|apply preserves_lift, _].
apply preserves_bind; [typeclasses eauto|apply preserves_lift, _|]. intros b. apply preserves_modify. intros d.
apply keeps_wf_nodes. intros H k r'. destruct (decide (k = b)) as [->|Hk].
- rewrite lookup_alter_eq. destruct (pd_nodes d !! b) as [r0|] eqn:E; [|done]. intros [= <-]. exact (H _ _ E).
- rewrite lookup_alter_ne by done. apply H.
Qed.

Lemma remove_peer_id_keeps p : preserves keeps_wf (remove_peer_id p).
Proof.
unfold remove_peer_id. apply preserves_bind; [typeclasses eauto|apply preserves_lift, _|]. intros b.
apply preserves_modify. intros d. apply keeps_wf_peers. intros H. by apply map_Forall_delete.
Qed.

Lemma remove_node_run pk k d : node_key pk = Ok k → remove_node pk d = (Ok tt, with_nodes (delete k) d).
Proof.
intros Hk. unfold remove_node. erewrite M_bind_step by reflexivity. unfold peer_id_for_node_pk. rewrite Hk. rg_step.
erewrite M_bind_step by reflexivity. destruct (pd_nodes d !! k) as [r|] eqn:E; cbn [fmap option_fmap option_map].
- rewrite M_bind_step with (a := k) (s1 := d) by done. erewrite M_bind_step by reflexivity.
  erewrite M_bind_step by reflexivity. unfold peer_id_count_node_pk. rewrite Hk. rg_step.
  erewrite M_bind_step by reflexivity. cbn [pd_nodes with_nodes]. by rewrite lookup_delete_eq.
- unfold mret, M_ret, with_nodes. rewrite delete_id by done. by destruct d.
Qed.

Lemma remove_node_keeps pk : preserves keeps_wf (remove_node pk).
Proof.
intros d. destruct (node_key pk) as [k|e|] eqn:E.
- rewrite (remove_node_run _ _ _ E). apply keeps_wf_nodes. intros H. by apply map_Forall_delete.
- unfold remove_node, peer_id_for_node_pk. rewrite E. reflexivity.
- unfold remove_node, peer_id_for_node_pk. rewrite E. reflexivity.
Qed.

Lemma run_peer_op_keeps o : preserves keeps_wf (run_peer_op o).
Proof.
destruct o; simpl; auto using insert_peer_keeps, insert_node_keeps, update_last_seen_keeps, remove_node_keeps, remove_peer_id_keeps.
unfold add_peer_new. case_bool_decide; [apply preserves_lift, _|].
apply preserves_bind; [typeclasses eauto|apply preserves_lift, _|]. intros p.
apply preserves_bind; [typeclasses eauto|apply insert_peer_keeps|]. intros _.
apply preserves_bind; [typeclasses eauto|apply preserves_lift, _|]. intros n. apply insert_node_keeps.
Qed.

Lemma peers_reach_wf d : peers_reach d → peers_wf d.
Proof.
induction 1 as [|o d _ IH]; [split; apply map_Forall_empty|]. by apply run_peer_op_keeps.
Qed.

(** ** Queries on a table in use *)

Lemma mapR_total {A B E} (f : A → result E B) (g : A → B) l : (∀ x, x ∈ l → f x = Ok (g x)) → mapR f l = Ok (g <$> l).
Proof.
intros H. apply mapR_Ok. induction l as [|x l IH]; constructor; [apply H; left|]. apply IH. intros y Hy. apply H. by right.
Qed.

Lemma decode_Ok (raw : bytes) (tx : Transaction) : proto_decode raw = inr tx → proto_deserialize raw = Ok tx.
Proof. unfold proto_deserialize. by intros ->. Qed.

Lemma node_key_Ok pk k : node_key pk = Ok k → safe_bytes (pk_bytes pk) = Ok k ∧ public_key_from_slice k = None.
Proof.
unfold node_key, PublicKey_validate, to_lib_public_key, PublicKey_bytes. intros H. apply bind_Ok in H as (pk' & H & Hk).
apply bind_Ok in H as (b & H & [= <-]). apply bind_Ok in H as (b' & Hb & H). rewrite Hb in Hk. injection Hk as ->.
destruct (public_key_from_slice k) eqn:E; [discriminate|]. done.
Qed.

(** The join of the two tables, in SQL terms [nodes JOIN peers ON peer_id = id]. *)
Definition decoded (raw : bytes) : option Transaction := match proto_decode raw with inr t => Some t | inl _ => None end.
Definition join_row (d : PeerDb) (kr : bytes * NodeRow) : option PeerNodeInfo :=
  raw ← pd_peers d !! nr_peer_id kr.2; p ← decoded raw; n ← decoded (nr_tx kr.2); Some (peer_node_info p n).

Lemma node_info_join d k r :
  peers_wf d → pd_nodes d !! k = Some r →
  ∃ n, proto_deserialize (nr_tx r) = Ok n ∧ node_info d n = Ok (option_list (join_row d (k, r))).
Proof.
intros [Hn Hp] Hk. destruct (Hn k r Hk) as (n & nmd & pk & p & pid & Hd & Hm & _ & _ & Hp1 & Hp2 & Hb). exists n.
split; [by apply decode_Ok|]. unfold node_info, query_peer_id_tx, join_row, decoded. cbn [snd]. rewrite Hm, Hd. rg_step.
rewrite Hp1, Hp2. unfold safe_get. rg_step. rewrite Hb. rg_step.
destruct (pd_peers d !! nr_peer_id r) as [raw|] eqn:E; [|done].
destruct (Hp _ _ E) as (t & ? & ? & ? & Ht & _). rewrite (decode_Ok _ _ Ht). rg_step. rewrite Ht. done.
Qed.

Lemma concat_option_list {A B} (f : A → option B) l : concat ((λ x, option_list (f x)) <$> l) = omap f l.
Proof.
induction l as [|x l IH]; [done|]. rewrite fmap_cons. cbn [concat omap list_omap]. rewrite IH. by destruct (f x).
Qed.

(** C25: In every state that the operations lead to, whatever they answered, the
    queries answer: [all_peers_info] is the join of the two tables, and
    [active_nodes] the keys of the nodes seen since the cutoff, all valid. *)
Theorem reachable_queries_answer d now delay :
  peers_reach d →
  all_peers_info d = Ok (omap (join_row d) (map_to_list (pd_nodes d))) ∧
  active_nodes d now delay = Ok (PublicKey_from_bytes ∘ fst <$> active_rows d now delay).
Proof.
intros Hr. apply peers_reach_wf in Hr as Hwf. split.
- unfold all_peers_info, nodes_tx.
  assert (∃ ns, mapR (λ kr : bytes * NodeRow, proto_deserialize (nr_tx kr.2)) (map_to_list (pd_nodes d)) = Ok ns ∧
    mapR (node_info d) ns = Ok ((λ kr, option_list (join_row d kr)) <$> map_to_list (pd_nodes d))) as (ns & -> & Hns).
  { assert (∀ kr, kr ∈ map_to_list (pd_nodes d) → pd_nodes d !! kr.1 = Some kr.2) as Hin
      by (intros [k r] H; by apply elem_of_map_to_list in H).
    revert Hin. induction (map_to_list (pd_nodes d)) as [|[k r] l IH]; intros Hin; [by exists []|].
    destruct IH as (ns & H1 & H2); [intros kr H; apply Hin; by right|].
    destruct (node_info_join d k r Hwf (Hin (k, r) (list_elem_of_here _ _))) as (n & Hd & Hi).
    exists (n :: ns). cbn [mapR snd]. rewrite Hd, Hi, H1, H2. done. }
  rg_step. rewrite Hns. rg_step. by rewrite <-concat_option_list.
- apply mapR_total. intros [k r] Hin. apply list_elem_of_In, filter_In in Hin as [Hin _].
  apply list_elem_of_In, elem_of_map_to_list in Hin.
  destruct (pwf_nodes d Hwf k r Hin) as (_ & _ & pk & _ & _ & _ & _ & _ & Hk & _).
  apply node_key_Ok in Hk as [_ Hk]. unfold PublicKey_validate, to_lib_public_key. cbn. by rewrite Hk.
Qed.

(** ** Adding and removing *)

(** Adding a peer: both transactions are found again under the node's key, and the
    node counts as active until the delay has passed. *)
Theorem add_peer_roundtrip info self_key now d d' p n pd nmd pk k :
  add_peer_new info self_key now d = (Ok tt, d') →
  pni_latest_peer_transaction info = Some p → pni_latest_node_transaction info = Some n →
  Transaction_peer_data p = Ok pd → Transaction_node_metadata n = Ok nmd →
  nm_public_key nmd = Some pk → node_key pk = Ok k → nm_peer_id nmd = pm_peer_id pd →
  pk ≠ self_key ∧ query_nodes_peer_node_info d' pk = Ok (Some (peer_node_info p n)) ∧
  (∀ later delay, in_i64 delay → in_i64 (later - delay) → later - delay < now → k ∈ (active_rows d' later (Some delay)).*1) ∧
  (∀ k', k' ≠ k → pd_nodes d' !! k' = pd_nodes d !! k').
Proof.
intros H Hp Hn Hpd Hnmd Hpk Hk Hid. unfold add_peer_new in H. case_bool_decide as Hself; [discriminate|].
rewrite Hp in H. erewrite M_bind_step in H by reflexivity. apply M_bind_Ok in H as ([] & d1 & H1 & H).
rewrite Hn in H. erewrite M_bind_step in H by reflexivity.
unfold insert_peer in H1. rewrite Hpd in H1. erewrite M_bind_step in H1 by reflexivity.
apply M_bind_Ok in H1 as (? & ? & [_ ->]%lift_Ok & H1).
unfold insert_node in H. rewrite Hnmd in H. erewrite M_bind_step in H by reflexivity.
rewrite Hpk in H. erewrite M_bind_step in H by reflexivity. rewrite Hid in H.
apply M_bind_Ok in H as (? & ? & [_ ->]%lift_Ok & H). destruct (node_key_Ok pk k Hk) as [Hkb _].
unfold PublicKey_bytes in H. rewrite Hkb in H. erewrite M_bind_step in H by reflexivity.
destruct (pm_peer_id pd) as [pid|] eqn:Epid; [|discriminate]. erewrite M_bind_step in H, H1 by reflexivity.
destruct (pi_peer_id pid) as [pidk|] eqn:Epidk; [|discriminate]. erewrite M_bind_step in H, H1 by reflexivity.
apply M_bind_Ok in H1 as (pidb & ? & [Hb ->]%lift_Ok & H1). injection H1 as <-.
unfold PublicKey_bytes in Hb. rewrite Hb in H. injection H as <-. split_and!.
- intros ->. apply Hself. unfold public_keys. apply elem_of_app. right. unfold nmd_pk. rewrite Hn. cbn.
  rewrite Hnmd. cbn. rewrite Hpk. left.
- unfold query_nodes_peer_node_info, query_public_key_node. rewrite Hk. rg_step. cbn [pd_nodes with_nodes].
  rewrite lookup_insert_eq. cbn [nr_tx]. rewrite (decode_Ok _ n) by apply proto_decode_encode. rg_step.
  rewrite Hnmd. rg_step. rewrite Hid. rg_step. unfold query_peer_id_tx. rewrite Epidk. unfold safe_get. rg_step.
  rewrite Hb. rg_step. cbn [pd_peers with_peers with_nodes]. rewrite lookup_insert_eq.
  rewrite (decode_Ok _ p) by apply proto_decode_encode. done.
- intros later delay H1 H2 H3. apply list_elem_of_fmap.
  exists (k, {| nr_peer_id := pidb; nr_status := ""; nr_last_seen := now; nr_tx := encode_to_vec n |}). split; [done|].
  unfold active_rows. cbn [default]. apply list_elem_of_In, filter_In. split.
  + apply list_elem_of_In, elem_of_map_to_list. cbn [pd_nodes with_nodes]. by rewrite lookup_insert_eq.
  + unfold i64_sub. cbv zeta. cbn [snd nr_last_seen].
    unfold id. rewrite (wrap_s_id 64 delay) by done. rewrite wrap_s_id by done. by apply Z.ltb_lt.
- intros k' Hne. cbn [pd_nodes with_nodes with_peers]. by rewrite lookup_insert_ne by done.
Qed.

(** Removing a node deletes its row and nothing else: the count after the deletion
    is of the removed key and always zero, so the peer's row is never deleted, even
    with the last of its nodes. *)
Theorem remove_node_keeps_peer pk k d :
  node_key pk = Ok k → remove_node pk d = (Ok tt, {| pd_peers := pd_peers d; pd_nodes := delete k (pd_nodes d) |}).
Proof. apply remove_node_run. Qed.
End lawful.
End peers.

(** * Witnesses *)

Module PeersDemo.
#[local] Existing Instance toy_host.
#[local] Existing Instance toy_crypto.
#[local] Existing Instance toy_secp.
#[local] Instance demo_pt : Proto Transaction := ser_proto Transaction.
#[local] Instance demo_pt_laws : ProtoLaws Transaction := ser_proto_laws Transaction.
#[local] Instance demo_ji : Json PeerNodeInfo := demo_json.

Definition key (b : Byte.byte) : PublicKey := PublicKey_from_bytes [b].
Definition peer : PeerId := {| pi_peer_id := Some (key Byte.x09); pi_known_proof := [] |}.
Definition node : NodeMetadata :=
  {| nm_transport_info := None; nm_public_key := Some (key Byte.x02); nm_node_type := None; nm_version_info := None;
     nm_partition_info := None; nm_node_name := None; nm_peer_id := Some peer; nm_parties := [] |}.
Definition peer_md : PeerMetadata :=
  {| pm_peer_id := Some peer; pm_node_metadata := [node]; pm_labels := []; pm_version_info := None;
     pm_reward_address := None; pm_sponsored_address := []; pm_identity_metadata := None;
     pm_network_environment := 0; pm_portfolio_info := None |}.
Definition carrying (pd : option PeerMetadata) (nmd : option NodeMetadata) : Transaction :=
  {| tx_inputs := [];
     tx_outputs := [{| o_address := None; o_product_id := None; o_counter_party_proofs := [];
       o_data := Some {| d_amount := None; d_generic_typed_value := None; d_peer_data := pd; d_node_metadata := nmd;
         d_dynamic_node_metadata := None; d_height := None; d_data_hash := None; d_hash := None; d_observation := None;
         d_address := None; d_state := None; d_request := None; d_standard_request := None; d_liquidity_request := None;
         d_portfolio_info := None; d_schema_def := None; d_data := None; d_aggregate_state_hash := None;
         d_external_transaction_id := None |};
       o_contract := None; o_output_type := None; o_utxo_id := None |}];
     tx_struct_metadata := None; tx_options := None |}.
Definition info : PeerNodeInfo := peer_node_info (carrying (Some peer_md) None) (carrying None (Some node)).
Definition added : PeerDb := (add_peer_new info (key Byte.x01) 1000 empty_peers).2.

Lemma reachable_queries_witness :
  all_peers_info added = Ok [info] ∧ active_nodes added 1500 None = Ok [key Byte.x02].
Proof.
destruct (reachable_queries_answer added 1500 None) as [H1 H2].
- exact (pr_op (OpAdd info (key Byte.x01) 1000) empty_peers pr_empty).
- split; [rewrite H1|rewrite H2]; vm_compute; reflexivity.
Defined.

Lemma add_peer_witness : query_nodes_peer_node_info added (key Byte.x02) = Ok (Some info).
Proof.
destruct (add_peer_roundtrip info (key Byte.x01) 1000 empty_peers added (carrying (Some peer_md) None) (carrying None (Some node))
  peer_md node (key Byte.x02) [Byte.x02]) as (_ & H & _); [vm_compute; reflexivity..|]. exact H.
Defined.

Lemma remove_node_witness :
  pd_peers (remove_node (key Byte.x02) added).2 ≠ ∅ ∧ pd_nodes (remove_node (key Byte.x02) added).2 = ∅.
Proof. rewrite (remove_node_keeps_peer (key Byte.x02) [Byte.x02] added); [by_decision|reflexivity]. Defined.

(** The self key in the peer's own transaction is not noticed: [public_keys] looks
    for the peer's data in the node's transaction. *)
Example self_key_accepted : (add_peer_new info (key Byte.x02) 1000 empty_peers).1 ≠ Ok tt ∧
  (add_peer_new (peer_node_info (carrying (Some peer_md) None)
    (carrying None (Some {| nm_transport_info := None; nm_public_key := Some (key Byte.x03); nm_node_type := None;
       nm_version_info := None; nm_partition_info := None; nm_node_name := None; nm_peer_id := Some peer; nm_parties := [] |})))
    (key Byte.x02) 1000 empty_peers).1 = Ok tt.
Proof. split; vm_compute; [discriminate|reflexivity]. Qed.
End PeersDemo.
