(* ===== verification/Config.v ===== *)
(** * The configuration store

    data/src/config.rs and the table [config]: values under a name, as text or as
    the encoding of a message.  [INSERT OR REPLACE] names one of the two columns,
    so that the other becomes NULL.  The text column has numeric affinity; the texts
    here are those that SQLite leaves alone; values kept as JSON go through [JsonCodec],
    and row ids are left out. *)

From stdpp Require Import base list gmap strings.
From S2P Require Import Prelude Structs Interfaces Schema Transaction.
#[local] Open Scope redgold_scope.

(** serde_json: [to_string] and [from_str] of a type, errors as their [Debug] strings. *)
Class JsonCodec (A : Type) := { json_to_string : A → string + string; json_from_str : string → string + A }.

Record ConfigRow := { cf_value_data : option string; cf_value_bytes : option bytes }.
Notation ConfigDb := (gmap string ConfigRow).

Section config.
Context {host : Host} {crypto : Crypto}.
(** The [Display] string of sqlx for a NULL where a text is expected. *)
Context (unexpected_null : string).

Notation CF := (M ConfigDb ErrorInfo).

Definition insert_update (key value : string) : CF unit :=
  modify <[key := {| cf_value_data := Some value; cf_value_bytes := None |}]>.
Definition insert_update_bytes (key : string) (value : bytes) : CF unit :=
  modify <[key := {| cf_value_data := None; cf_value_bytes := Some value |}]>.
Definition select_config (d : ConfigDb) (key : string) : RgResult (option string) :=
  match d !! key with
  | Some row =>
      match cf_value_data row with
      | Some str => Ok (Some str)
      | None => Err (error_msg UnknownError "value_data not found" unexpected_null)
      end
  | None => Ok None
  end.
Definition select_config_bytes (d : ConfigDb) (key : string) : option bytes :=
  row ← d !! key; cf_value_bytes row.

Section messages.
Context {A : Type} {proto : Proto A}.
Definition get_proto (d : ConfigDb) (key : string) : RgResult A :=
  vec ← safe_get (select_config_bytes d key); proto_deserialize vec.
Definition get_maybe_proto (d : ConfigDb) (key : string) : RgResult (option A) :=
  match select_config_bytes d key with
  | Some b => Some <$> proto_deserialize b
  | None => Ok None
  end.
Definition store_proto (key : string) (value : A) : CF unit := insert_update_bytes key (encode_to_vec value).

Lemma get_store_proto {laws : ProtoLaws A} key value d :
  get_maybe_proto (store_proto key value d).2 key = Ok (Some value).
Proof.
unfold get_maybe_proto, select_config_bytes, store_proto, insert_update_bytes, modify. cbn [snd].
rewrite lookup_insert_eq. rg_step. cbn [cf_value_bytes]. unfold proto_deserialize. by rewrite proto_decode_encode.
Qed.
Lemma get_store_proto_ne key key' value d :
  key ≠ key' → get_maybe_proto (store_proto key value d).2 key' = get_maybe_proto d key'.
Proof.
intros H. unfold get_maybe_proto, select_config_bytes, store_proto, insert_update_bytes, modify. cbn [snd].
by rewrite lookup_insert_ne by done.
Qed.
End messages.

Section json.
Context {A : Type} {codec : JsonCodec A}.
Definition json (a : A) : RgResult string :=
  match json_to_string a with inr t => Ok t | inl e => Err (error_info ("serde json ser error: " +:+ e)) end.
Definition insert_update_json (key : string) (value : A) : CF unit := val ← lift (json value); insert_update key val.
Definition get_json (d : ConfigDb) (key : string) : RgResult (option A) :=
  text ← select_config d key;
  match (text : option string) with Some str => Some <$> json_from json_from_str str | None => Ok None end.
End json.

Context {ptx : Proto Transaction} {pdm : Proto DynamicNodeMetadata}.
Definition get_peer_tx (d : ConfigDb) : RgResult (option Transaction) := get_maybe_proto d "peer_tx".
Definition set_peer_tx (tx : Transaction) : CF unit := store_proto "peer_tx" tx.
Definition get_node_tx (d : ConfigDb) : RgResult (option Transaction) := get_maybe_proto d "node_tx".
Definition set_node_tx (tx : Transaction) : CF unit := store_proto "node_tx" tx.
Definition get_dynamic_md (d : ConfigDb) : RgResult (option DynamicNodeMetadata) := get_maybe_proto d "dynamic_node_metadata".
Definition set_dynamic_md (md : DynamicNodeMetadata) : CF unit := store_proto "dynamic_node_metadata" md.
Definition get_genesis (d : ConfigDb) : RgResult (option Transaction) := get_maybe_proto d "genesis".
Definition store_genesis (gen : Transaction) : CF unit := store_proto "genesis" gen.

(** ** Properties *)

(** A message stored as bytes hides a text of the same name: reading the text is
    then an error rather than an absent value. *)
Lemma bytes_replace_text key text value d :
  select_config (insert_update key text d).2 key = Ok (Some text) ∧
  select_config (insert_update_bytes key value (insert_update key text d).2).2 key =
    Err (error_msg UnknownError "value_data not found" unexpected_null).
Proof.
split; unfold select_config, insert_update_bytes, insert_update, modify; cbn [snd]; by rewrite lookup_insert_eq.
Qed.
End config.
