(* ===== verification/Sync.v ===== *)
(** * Bulk download

    src/data/download.rs: at start-up a node copies the data of a bootstrap peer,
    day by day backwards in time, and asks all bootstrap peers for the genesis
    transaction; and the side of the peer, [process_download_request].

    What a peer answers is a parameter; an honest one answers with
    [process_download_request] on its own store.  The order in which a [HashMap] is
    iterated is a parameter too, with the promise that every entry comes once.  The
    clock is an argument; metrics, logging and timers are left out.  Inserting an
    observation can diverge, so computations may answer [None]; the loop over days
    has fuel, and [download_days_fuel] shows how much is enough. *)

From stdpp Require Import base list gmap strings.
From S2P Require Import Prelude Structs Interfaces Schema Merkle Transaction Keys Store Observation Mempool Config Wire.
#[local] Open Scope Z_scope.
#[local] Open Scope redgold_scope.

(** [DownloadDataType]. *)
Definition UtxoEntry_type : Z := 0.
Definition TransactionEntry_type : Z := 1.
Definition ObservationEntry_type : Z := 2.
Definition ObservationEdgeEntry_type : Z := 3.
Definition EARLIEST_TIME : Z := 1650866635183.

Record DownloadRequest := { dr_start_time : Z; dr_end_time : Z; dr_data_type : Z; dr_offset : option Z }.
Record TransactionEntry := { te_time : Z; te_transaction : option Transaction }.
Record ObservationEntry := { obe_time : Z; obe_observation : option Transaction }.
Record ObservationEdge := { oe_observation_proof : option ObservationProof; oe_time : Z }.
Record DownloadResponse := {
  dlr_utxo_entries : list UtxoEntry; dlr_transactions : list TransactionEntry;
  dlr_observations : list ObservationEntry; dlr_observation_edges : list ObservationEdge;
  dlr_complete_response : bool }.
Notation DownloadReply := (Response (option DownloadResponse)).

(** The store is that of the mempool's relay. *)
Record Sync := { sy_mempool : Mempool; sy_config : ConfigDb }.
Definition sy_store (y : Sync) : Store := mp_store (sy_mempool y).
Definition sy_with_store (s : Store) (y : Sync) : Sync :=
  {| sy_mempool := {| mp_heap := mp_heap (sy_mempool y); mp_entries := mp_entries (sy_mempool y);
                      mp_channels := mp_channels (sy_mempool y); mp_store := s; mp_sent := mp_sent (sy_mempool y);
                      mp_answers := mp_answers (sy_mempool y) |};
     sy_config := sy_config y |}.

(** [.ok()] on a result that nobody looks at. *)
Definition ignored {S E A} (r : option (result E A * S)) : option (result E unit * S) :=
  match r with
  | Some (Ok _, s) | Some (Err _, s) => Some (Ok tt, s)
  | Some (Panic, s) => Some (Panic, s)
  | None => None
  end.

(** A time survives the cast to [u64] and back. *)
Lemma as_i64_as_u64 z : in_i64 z → as_i64 (as_u64 z) = z.
Proof. intros Hz. unfold wrap_s, wrap_u. rewrite Zplus_mod_idemp_l. by apply (wrap_s_id 64). Qed.

Section sync.
Context {host : Host} {crypto : Crypto} {sql : Sql}.
Context {ptx : Proto Transaction} {pue : Proto UtxoEntry} {po : Proto Output} {pei : Proto ErrorInfo}.
Context {pom : Proto ObservationMetadata} {pop : Proto ObservationProof} {jei : Json ErrorInfo}.

(** ** The side of the peer *)

Definition process_download_request (s : Store) (r : DownloadRequest) : RgResult DownloadResponse :=
  let of_type {A} (ty : Z) (q : RgResult (list A)) : RgResult (list A) :=
    if dr_data_type r =? ty then q else Ok [] in
  let start := as_i64 (dr_start_time r) in
  let end_ := as_i64 (dr_end_time r) in
  utxo_entries ← of_type UtxoEntry_type (utxo_filter_time s start end_);
  transactions ← of_type TransactionEntry_type
    (l ← query_time_transaction s start end_; Ok ((λ x, {| te_time := x.1; te_transaction := Some x.2 |}) <$> (l : list _)));
  observations ← of_type ObservationEntry_type
    (l ← query_time_observation s start end_; Ok ((λ x, {| obe_time := x.2; obe_observation := Some x.1 |}) <$> (l : list _)));
  observation_edges ← of_type ObservationEdgeEntry_type
    (l ← query_time_observation_edge s start end_;
     Ok ((λ x, {| oe_observation_proof := Some x.1; oe_time := x.2 |}) <$> (l : list _)));
  Ok {| dlr_utxo_entries := utxo_entries; dlr_transactions := transactions; dlr_observations := observations;
        dlr_observation_edges := observation_edges; dlr_complete_response := true |}.

(** ** The side of the node *)

Context (ask : DownloadRequest → PublicKey → RgResult DownloadReply).
Context (genesis_answers : list PublicKey → RgResult (list (RgResult (Response (option Transaction))))).
Context (iter : gmap Hash (Transaction * Z) → list (Hash * (Transaction * Z))).
Context (utxo_channels : gset UtxoId) (now : Z).

Notation Y := (MD Sync ErrorInfo).

Definition on_sync_store {A} (m : M Store ErrorInfo A) : Y A := λ y,
  let '(r, s) := m (sy_store y) in Some (r, sy_with_store s y).
Definition on_sync_config {A} (m : M ConfigDb ErrorInfo A) : Y A := λ y,
  let '(r, c) := m (sy_config y) in Some (r, {| sy_mempool := sy_mempool y; sy_config := c |}).

Definition download_msg (start_time end_time data_type : Z) (key : PublicKey) : RgResult DownloadResponse :=
  response ← ask {| dr_start_time := as_u64 start_time; dr_end_time := as_u64 end_time; dr_data_type := data_type;
                    dr_offset := None |} key;
  _ ← as_error_info response;
  ok_msg (rs_body response) "Missing download response".

(** One kind of entries: an error is counted and skipped; the answer says whether
    there was data. *)
Definition fetched (start_time end_time data_type : Z) (key : PublicKey) (f : DownloadResponse → Y bool) : Y bool :=
  match download_msg start_time end_time data_type key with
  | Ok dr => f dr
  | Err _ => mret false
  | Panic => dlift Panic
  end.

Definition download_utxo (u : UtxoEntry) : Y unit :=
  match ue_utxo_id u with
  | Some id => if bool_decide (id ∈ utxo_channels) then mret tt else λ y, ignored (on_sync_store (insert_utxo u) y)
  | None => mret tt
  end.
Definition download_transaction (txe : TransactionEntry) : Y unit :=
  match te_transaction txe with
  | Some tx =>
      known ← dgets (λ y, relay_transaction_known (sy_mempool y) (calculate_hash tx));
      known ← dlift known;
      if (known : bool) then mret tt
      else on_sync_store (insert_transaction tx (as_i64 (te_time txe)) true None false)
  | None => mret tt
  end.
Definition download_observation (obe : ObservationEntry) : Y unit :=
  match obe_observation obe with
  | Some tx => λ y, ignored ('(r, s) ← insert_observation_and_edges now tx (sy_store y); Some (r, sy_with_store s y))
  | None => mret tt
  end.
Definition download_edge (oe : ObservationEdge) : Y unit := λ y,
  ignored (on_sync_store (insert_observation_edge now (oe_observation_proof oe)) y).

Definition download_all (start_time end_time : Z) (key : PublicKey) : Y bool :=
  g1 ← fetched start_time end_time UtxoEntry_type key (λ dr,
         _ ← diter download_utxo (dlr_utxo_entries dr);
         mret (existsb (λ u, bool_decide (is_Some (ue_utxo_id u))) (dlr_utxo_entries dr)));
  g2 ← fetched start_time end_time TransactionEntry_type key (λ dr,
         _ ← diter download_transaction (dlr_transactions dr);
         mret (existsb (λ t, bool_decide (is_Some (te_transaction t))) (dlr_transactions dr)));
  g3 ← fetched start_time end_time ObservationEntry_type key (λ dr,
         _ ← diter download_observation (dlr_observations dr);
         mret (negb (bool_decide (dlr_observations dr = []))));
  g4 ← fetched start_time end_time ObservationEdgeEntry_type key (λ dr,
         _ ← diter download_edge (dlr_observation_edges dr);
         mret (negb (bool_decide (dlr_observation_edges dr = []))));
  mret (g1 || g2 || g3 || g4).

(** ** The genesis transaction *)

(** The fold: an answer keeps the count that its hash had, one at first. *)
Definition count_genesis (acc : gmap Hash (Transaction * Z)) (g : Transaction) : gmap Hash (Transaction * Z) :=
  let h := calculate_hash g in
  let count := match acc !! h with Some (_, c) => c | None => 1 end in
  <[h := (g, count)]> acc.
(** [max_by] on the counts: the last of the greatest. *)
Definition max_count (l : list (Hash * (Transaction * Z))) : option (Hash * (Transaction * Z)) :=
  foldl (λ best x, match best with
                   | Some b => if x.2.2 <? b.2.2 then Some b else Some x
                   | None => Some x
                   end) None l.
Definition genesis_of (res : list (RgResult (Response (option Transaction)))) : list Transaction :=
  omap (λ g, r ← ok_opt g; rs_body r) res.
Definition choose_genesis (gs : list Transaction) : option Transaction :=
  (λ x, x.2.1) <$> max_count (iter (foldl count_genesis ∅ gs)).
Definition download_genesis (bootstrap_pks : list PublicKey) : Y (option Z) :=
  existing ← dgets (λ y, get_genesis (sy_config y));
  existing ← dlift existing;
  match (existing : option Transaction) with
  | Some _ => mret None
  | None =>
      genesis ← dlift (genesis_answers bootstrap_pks);
      gen_actual ← dlift (ok_msg (choose_genesis (genesis_of genesis)) "No genesis response");
      _ ← on_sync_config (store_genesis gen_actual);
      g_time ← dlift (metadata_time gen_actual);
      stored ← dgets (λ y, query_maybe_transaction (sy_store y) (calculate_hash gen_actual));
      stored ← dlift stored;
      _ ← (match (stored : option (Transaction * option ErrorInfo)) with
           | None => on_sync_store (insert_transaction gen_actual g_time true None false)
           | Some _ => mret tt
           end);
      mret (Some g_time)
  end.

(** ** The loop over days *)

Definition one_day : Z := 1000 * 60 * 60 * 24.
Fixpoint download_days (fuel : nat) (bootstrap : PublicKey) (min_time no_data_count cur_end : Z) : Y unit :=
  match fuel with
  | O => λ _, None
  | S fuel =>
      if (no_data_count <? 3) && (min_time <? cur_end) then
        let prev_day := i64_sub cur_end one_day in
        got_data ← download_all prev_day cur_end bootstrap;
        download_days fuel bootstrap min_time (if (got_data : bool) then 0 else no_data_count + 1) prev_day
      else mret tt
  end.
Definition days_fuel (min_time cur_end : Z) : nat := S (Z.to_nat ((cur_end - min_time) / one_day + 1)).
Definition download (start_time : Z) (bootstrap_pks : list PublicKey) : Y unit :=
  recent ← dgets (λ y, query_recent_transactions (sy_store y) (Some 1) None);
  recent ← dlift recent;
  let times := omap (λ t, ok_opt (metadata_time t)) (recent : list Transaction) in
  let min_time := match times with [] => EARLIEST_TIME | t :: ts => foldl Z.min t ts end in
  bootstrap ← dlift (expect_opt (head bootstrap_pks));
  g ← download_genesis bootstrap_pks;
  _ ← (match (g : option Z) with
       | Some g_time => _ ← download_all (i64_sub g_time 1) (i64_add g_time 1) bootstrap; mret tt
       | None => mret tt
       end);
  download_days (days_fuel min_time start_time) bootstrap min_time 0 start_time.

(** * Properties *)

(** ** What a computation changes, whatever it answers *)

Definition dpreserves {S E A} (R : S → S → Prop) (m : MD S E A) : Prop := ∀ s r s', m s = Some (r, s') → R s s'.

Section dpreserves.
Context {S E : Type} (R : S → S → Prop) `{!PreOrder R}.
Lemma dpreserves_ret {A} (a : A) : dpreserves R (mret a : MD S E A).
Proof. intros s r s' [= _ <-]. reflexivity. Qed.
Lemma dpreserves_lift {A} (r : result E A) : dpreserves R (dlift r).
Proof. intros s r' s' [= _ <-]. reflexivity. Qed.
Lemma dpreserves_gets {A} (f : S → A) : dpreserves R (dgets f : MD S E A).
Proof. intros s r' s' [= _ <-]. reflexivity. Qed.
Lemma dpreserves_bind {A B} (m : MD S E A) (f : A → MD S E B) :
  dpreserves R m → (∀ a, dpreserves R (f a)) → dpreserves R (m ≫= f).
Proof.
intros Hm Hf s r s'. unfold mbind, MD_bind. destruct (m s) as [[[a|e|] s1]|] eqn:E1; [|intros [= <- <-]; by eapply Hm..|done].
intros H. etrans; [by eapply Hm|by eapply Hf].
Qed.
Lemma dpreserves_iter {A} (f : A → MD S E unit) l : (∀ x, dpreserves R (f x)) → dpreserves R (diter f l).
Proof.
intros Hf. induction l as [|x l IH]; [apply dpreserves_ret|]. cbn [diter]. apply dpreserves_bind; [apply Hf|done].
Qed.
Lemma dpreserves_ignored {A} (m : MD S E A) : dpreserves R m → dpreserves R (λ s, ignored (m s)).
Proof.
intros Hm s r s'. unfold ignored. destruct (m s) as [[[a|e|] s1]|] eqn:E1; [intros [= <- <-]; by eapply Hm..|done].
Qed.
End dpreserves.

(** Termination of the parts. *)
Definition dtotal {S E A} (m : MD S E A) : Prop := ∀ s, is_Some (m s).
Lemma dtotal_bind {S E A B} (m : MD S E A) (f : A → MD S E B) : dtotal m → (∀ a, dtotal (f a)) → dtotal (m ≫= f).
Proof. intros Hm Hf s. unfold mbind, MD_bind. destruct (Hm s) as [[[a|e|] s1] ->]; [apply Hf|by eexists..]. Qed.
Lemma dtotal_iter {S E A} (f : A → MD S E unit) l : (∀ x, x ∈ l → dtotal (f x)) → dtotal (diter f l).
Proof.
induction l as [|x l IH]; intros Hf; [by eexists|]. cbn [diter]. apply dtotal_bind; [apply Hf; left|].
intros _. apply IH. intros y Hy. apply Hf. by right.
Qed.
Lemma on_sync_store_total {A} (m : M Store ErrorInfo A) : dtotal (on_sync_store m).
Proof. intros y. unfold on_sync_store. destruct (m (sy_store y)). by eexists. Qed.
Lemma ignored_total {S E A} (m : MD S E A) : dtotal m → dtotal (λ s, ignored (m s)).
Proof. intros Hm s. unfold ignored. destruct (Hm s) as [[[a|e|] s1] ->]; by eexists. Qed.

(** ** The loop ends *)

Lemma one_day_pos : 0 < one_day.
Proof. done. Qed.

(** Enough turns: the number of days back to the last known time, and one. *)
Lemma download_days_fuel fuel bootstrap min_time n cur_end y :
  - 2 ^ 63 + one_day ≤ min_time → cur_end < 2 ^ 63 →
  (∀ s e, dtotal (download_all s e bootstrap)) →
  (Z.to_nat ((cur_end - min_time) / one_day + 1) < fuel)%nat → is_Some (download_days fuel bootstrap min_time n cur_end y).
Proof.
intros Hmin Hcur Hall. revert n cur_end y Hcur. induction fuel as [|fuel IH]; intros n cur_end y Hcur Hf; [lia|].
cbn [download_days]. destruct ((n <? 3) && (min_time <? cur_end)) eqn:E; [|by eexists].
apply andb_true_iff in E as [_ E%Z.ltb_lt]. pose proof one_day_pos as Hd.
assert (i64_sub cur_end one_day = cur_end - one_day) as ->.
{ apply wrap_s_id; [done|]. unfold in_s. change (2 ^ (64 - 1)) with (2 ^ 63). lia. }
cbv zeta. unfold mbind, MD_bind. destruct (Hall (cur_end - one_day) cur_end y) as [[[g|e|] y1] ->]; [|by eexists..].
apply IH; [lia|]. replace (cur_end - one_day - min_time) with (cur_end - min_time + (-1) * one_day) by lia.
rewrite Z.div_add by lia. pose proof (Z.div_pos (cur_end - min_time) one_day). lia.
Qed.

(** ** Copying UTXOs *)

Context {tx_laws : ProtoLaws Transaction} {ue_laws : ProtoLaws UtxoEntry}.

Definition within (start end_ t : Z) : bool := (start <=? t) && (t <? end_).
(** A row whose UTXO no request is working on. *)
Definition free_row (r : UtxoRow) : bool :=
  match proto_decode (ur_raw r) with
  | inr u => match ue_utxo_id u with Some id => bool_decide (id ∉ utxo_channels) | None => false end
  | inl _ => false
  end.

Lemma list_to_map_filter_lookup {K A} `{Countable K} (f : K * A → bool) (m : gmap K A) k :
  (list_to_map (List.filter f (map_to_list m)) : gmap K A) !! k = (x ← m !! k; if f (k, x) then Some x else None).
Proof.
assert (NoDup (List.filter f (map_to_list m)).*1) as Hnd.
{ eapply sublist_NoDup; [exact (NoDup_fst_map_to_list m)|]. apply fmap_sublist.
  induction (map_to_list m) as [|x l IH]; [done|]. cbn [List.filter]. destruct (f x); auto using sublist. }
apply option_eq. intros x. rewrite <-elem_of_list_to_map by done.
rewrite list_elem_of_In, filter_In, <-list_elem_of_In, elem_of_map_to_list.
destruct (m !! k) as [x'|]; cbn; [|naive_solver]. split.
- intros [[= ->] Hf]. by rewrite Hf.
- destruct (f (k, x')) eqn:E; [|done]. intros [= ->]. done.
Qed.

Lemma utxo_row_decode u kr : utxo_row u = Ok kr → proto_decode (ur_raw kr.2) = inr u ∧ is_Some (ue_utxo_id u).
Proof.
destruct kr as [k r]. intros H. split.
- cbn [snd]. destruct (utxo_row_raw _ _ _ H) as [-> _]. apply proto_decode_encode.
- unfold utxo_row, safe_get_msg in H. destruct (ue_utxo_id u); [by eexists|done].
Qed.

Lemma same_utxo_table f y : f (st_utxo (sy_store y)) = st_utxo (sy_store y) → sy_with_store (with_utxo_table f (sy_store y)) y = y.
Proof. unfold with_utxo_table, sy_store. intros ->. by destruct y as [[h e c [] sn an] cf]. Qed.

Lemma download_utxo_row u k r y :
  utxo_row u = Ok (k, r) →
  download_utxo u y = Some (Ok tt, sy_with_store (with_utxo_table (λ m,
    m ∪ list_to_map (if free_row r then [(k, r)] else [])) (sy_store y)) y).
Proof.
intros H. destruct (utxo_row_decode _ _ H) as [Hd [id Hid]]. cbn [snd] in Hd.
unfold download_utxo, free_row. rewrite Hd, Hid.
assert (∀ m : gmap (bytes * Z) UtxoRow, m ∪ list_to_map [] = m) as Hempty by (intros m; apply map_union_empty).
case_bool_decide as Hin.
- rewrite bool_decide_eq_false_2 by (clear ask genesis_answers iter; naive_solver). unfold mret, MD_ret.
  by rewrite same_utxo_table by apply Hempty.
- rewrite bool_decide_eq_true_2 by done. unfold on_sync_store. destruct (st_utxo (sy_store y) !! k) as [r'|] eqn:Hk.
  + assert (insert_utxo u (sy_store y) = (Err (error_message InternalDatabaseError unique_violation), sy_store y)) as ->.
    { unfold insert_utxo. rewrite H. erewrite M_bind_step by reflexivity. erewrite M_bind_step by reflexivity.
      cbn [fst]. by rewrite Hk. }
    cbn [ignored list_to_map foldr fst snd]. rewrite same_utxo_table; [by destruct y as [[] ?]|].
    apply map_eq. intros k'. rewrite lookup_union. destruct (decide (k' = k)) as [->|Hne].
    * rewrite Hk. by rewrite union_Some_l.
    * rewrite lookup_insert_ne, lookup_empty by done. by destruct (_ !! k').
  + assert (insert_utxo u (sy_store y) = (Ok tt, with_utxo_table (insert k r) (sy_store y))) as ->
      by (apply insert_utxo_Ok; eauto). cbn [ignored]. do 3 f_equal. unfold with_utxo_table. f_equal.
    change (list_to_map [(k, r)]) with (<[k := r]> (∅ : gmap (bytes * Z) UtxoRow)).
    by rewrite <-insert_union_r, map_union_empty.
Qed.

Lemma utxo_loop us krs y :
  Forall2 (λ u kr, utxo_row u = Ok kr) us krs →
  diter download_utxo us y = Some (Ok tt, sy_with_store (with_utxo_table (λ m,
    m ∪ list_to_map (List.filter (free_row ∘ snd) krs)) (sy_store y)) y).
Proof.
intros H. revert y. induction H as [|u [k r] us krs Hu _ IH]; intros y; cbn [diter].
- rewrite same_utxo_table; [done|apply map_union_empty].
- rewrite (MD_bind_step _ _ _ _ _ (download_utxo_row u k r y Hu)), IH. do 2 f_equal. unfold sy_with_store. f_equal.
  f_equal. cbn [sy_store sy_mempool mp_store]. unfold with_utxo_table, sy_store. cbn [sy_mempool mp_store st_utxo]. f_equal.
  rewrite <-map_union_assoc, <-list_to_map_app. do 2 f_equal. cbn [List.filter compose snd]. by destruct (free_row r).
Qed.

Lemma served_utxos P start end_ :
  utxo_table_wf P →
  ∃ us, utxo_filter_time P start end_ = Ok us ∧
    Forall2 (λ u kr, utxo_row u = Ok kr) us (List.filter (λ kr, within start end_ (ur_time kr.2)) (map_to_list (st_utxo P))).
Proof.
intros Hwf. unfold utxo_filter_time, utxo_rows.
assert (∀ l : list ((bytes * Z) * UtxoRow), List.filter (λ r, (start <=? ur_time r) && (ur_time r <? end_)) l.*2 =
  (List.filter (λ kr, within start end_ (ur_time kr.2)) l).*2) as ->.
{ induction l as [|[k r] l IH]; [done|]. rewrite fmap_cons. cbn [List.filter snd]. unfold within at 1.
  rewrite IH. by destruct ((start <=? ur_time r) && (ur_time r <? end_)). }
set (L := List.filter _ _).
assert (Forall (λ kr, ∃ u, utxo_row u = Ok kr) L) as H.
{ apply Forall_forall. intros [k r] Hin. apply list_elem_of_In, filter_In in Hin as [Hin _].
  apply list_elem_of_In, elem_of_map_to_list in Hin. exact (Hwf _ _ Hin). }
apply Forall_choose in H as (us & Hus). exists us. split; [|by apply Forall2_flip].
apply mapR_Ok, Forall2_fmap_l. eapply Forall2_impl; [exact Hus|]. intros kr u Hu.
destruct (utxo_row_decode _ _ Hu) as [Hd _]. unfold proto_deserialize. cbn. by rewrite Hd.
Qed.

(** ** Copying transactions *)

(** What a table holds whose transactions carry their own hash. *)
Definition stored_tx (kr : bytes * TransactionRow) (tx : Transaction) : Prop :=
  tr_raw kr.2 = encode_to_vec tx ∧ hash_or tx = calculate_hash tx ∧ hash_bytes tx = Ok kr.1 ∧
  tr_is_test kr.2 = Transaction_is_test tx ∧ in_i64 (tr_time kr.2).
Definition transactions_wf (P : Store) : Prop :=
  ∀ k r, st_transactions P !! k = Some r → ∃ tx, stored_tx (k, r) tx.
Definition in_relay (m : Mempool) (h : Hash) : bool :=
  bool_decide (is_Some (mp_entries m !! h)) || bool_decide (h ∈ mp_channels m).
Definition wanted_row (m : Mempool) (r : TransactionRow) : bool :=
  match (proto_decode (tr_raw r) : string + Transaction) with inr tx => negb (in_relay m (calculate_hash tx)) | inl _ => false end.
(** The row as the node stores it: accepted, whatever the peer holds. *)
Definition accepted_row (r : TransactionRow) : TransactionRow :=
  {| tr_raw := tr_raw r; tr_time := tr_time r; tr_rejection_reason := None; tr_accepted := true; tr_is_test := tr_is_test r |}.

Lemma known_cases_sync m h k b :
  Hash_safe_bytes h = Ok k → relay_transaction_known m h = Ok b →
  b = in_relay m h || bool_decide (is_Some (st_transactions (mp_store m) !! k)).
Proof.
intros Hk. unfold relay_transaction_known, in_relay, query_maybe_transaction. rewrite Hk.
case_bool_decide; [by intros [= <-]|]. case_bool_decide; [by intros [= <-]|]. cbn [orb]. rg_step. intros H'.
apply bind_Ok in H' as (r & H' & [= <-]). destruct (st_transactions (mp_store m) !! k) as [row|].
- apply bind_Ok in H' as (d & _ & H'). apply bind_Ok in H' as (d' & _ & [= <-]).
  by rewrite !bool_decide_eq_true_2 by eauto.
- injection H' as <-. done.
Qed.

(** The parts of the relay that a download does not touch. *)
Definition same_relay (y y' : Sync) : Prop :=
  mp_entries (sy_mempool y') = mp_entries (sy_mempool y) ∧ mp_channels (sy_mempool y') = mp_channels (sy_mempool y).

Lemma download_transaction_row te tx k r y y' :
  stored_tx (k, r) tx → te_transaction te = Some tx → te_time te = as_u64 (tr_time r) →
  download_transaction te y = Some (Ok tt, y') →
  same_relay y y' ∧ st_utxo (sy_store y') = st_utxo (sy_store y) ∧
  st_transactions (sy_store y') = st_transactions (sy_store y) ∪
    list_to_map (if wanted_row (sy_mempool y) r then [(k, accepted_row r)] else []).
Proof.
intros (Hraw & Hh & Hk & Ht & Htime) Htx Hte H. cbn [fst snd] in *. unfold download_transaction in H. rewrite Htx in H.
unfold wanted_row. rewrite Hraw, proto_decode_encode.
unfold mbind, MD_bind, dgets, dlift, mret, MD_ret in H.
destruct (relay_transaction_known (sy_mempool y) (calculate_hash tx)) as [b| |] eqn:Hkn; [|done..].
assert (Hash_safe_bytes (calculate_hash tx) = Ok k) as Hck by (rewrite <-Hh; exact Hk).
pose proof (known_cases_sync _ _ _ _ Hck Hkn) as ->.
destruct (in_relay (sy_mempool y) (calculate_hash tx)); cbn [orb negb] in *.
{ injection H as <-. split_and!; [done|done|symmetry; apply map_union_empty]. }
destruct (bool_decide _) eqn:Hin in H; change (mp_store (sy_mempool y)) with (sy_store y) in Hin.
- injection H as <-. split_and!; [done|done|]. apply bool_decide_eq_true in Hin as [row Hrow].
  apply map_eq. intros k'. rewrite lookup_union. cbn [list_to_map foldr fst snd]. destruct (decide (k' = k)) as [->|Hne].
  + rewrite Hrow. by rewrite union_Some_l.
  + rewrite lookup_insert_ne, lookup_empty by done. by destruct (_ !! k').
- unfold on_sync_store in H. destruct (insert_transaction _ _ _ _ _ _) as [r' s1] eqn:Hins. injection H as -> <-.
  unfold insert_transaction, insert_transaction_raw in Hins. rewrite Hk in Hins.
  apply M_bind_Ok in Hins as ([] & s2 & H2 & Hins). injection H2 as <-.
  apply M_bind_Ok in Hins as ([] & s3 & H3 & Hins). injection H3 as <-.
  apply insert_transaction_indexes_frame in Hins as [Hu Htr].
  split_and!; [done|exact Hu|]. change (sy_store (sy_with_store s1 y)) with s1. rewrite Htr. cbn [st_transactions with_transactions].
  apply bool_decide_eq_false, eq_None_not_Some in Hin.
  cbn [list_to_map foldr fst snd]. rewrite <-insert_union_r, map_union_empty by done. f_equal. unfold accepted_row.
  rewrite Hraw, Ht, Hte. f_equal. by apply as_i64_as_u64.
Qed.

Lemma wanted_row_same y y' r : same_relay y y' → wanted_row (sy_mempool y') r = wanted_row (sy_mempool y) r.
Proof. intros [He Hc]. unfold wanted_row, in_relay. by rewrite He, Hc. Qed.

Definition entry_of (te : TransactionEntry) (kr : bytes * TransactionRow) : Prop :=
  ∃ tx, stored_tx kr tx ∧ te_transaction te = Some tx ∧ te_time te = as_u64 (tr_time kr.2).

Lemma transaction_loop tes L y y' :
  Forall2 entry_of tes L → diter download_transaction tes y = Some (Ok tt, y') →
  same_relay y y' ∧ st_utxo (sy_store y') = st_utxo (sy_store y) ∧
  st_transactions (sy_store y') = st_transactions (sy_store y) ∪
    list_to_map (prod_map id accepted_row <$> List.filter (wanted_row (sy_mempool y) ∘ snd) L).
Proof.
intros H. revert y. induction H as [|te [k r] tes L (tx & Hs & Htx & Ht) _ IH]; intros y; cbn [diter].
- intros [= <-]. split_and!; [done|done|symmetry; apply map_union_empty].
- intros H. apply MD_bind_Ok in H as ([] & y1 & H1 & H2).
  destruct (download_transaction_row te tx k r y y1 Hs Htx Ht H1) as (Hr1 & Hu1 & Ht1).
  destruct (IH y1 H2) as (Hr2 & Hu2 & Ht2). split_and!.
  + destruct Hr1, Hr2. split; congruence.
  + congruence.
  + rewrite Ht2, Ht1, <-map_union_assoc, <-list_to_map_app. do 2 f_equal.
    assert (List.filter (wanted_row (sy_mempool y1) ∘ snd) L = List.filter (wanted_row (sy_mempool y) ∘ snd) L) as ->.
    { apply List.filter_ext. intros [k' r']. exact (wanted_row_same y y1 r' Hr1). }
    cbn [List.filter compose snd]. by destruct (wanted_row (sy_mempool y) r).
Qed.

Lemma served_transactions P start end_ :
  transactions_wf P →
  ∃ l, query_time_transaction P start end_ = Ok l ∧
    Forall2 entry_of ((λ x, {| te_time := x.1; te_transaction := Some x.2 |}) <$> l)
      (List.filter (λ kr, within start end_ (tr_time kr.2)) (map_to_list (st_transactions P))).
Proof.
intros Hwf. unfold query_time_transaction.
assert (∀ l : list (bytes * TransactionRow), List.filter (λ r, (start <=? tr_time r) && (tr_time r <? end_)) l.*2 =
  (List.filter (λ kr, within start end_ (tr_time kr.2)) l).*2) as ->.
{ induction l as [|[k r] l IH]; [done|]. rewrite fmap_cons. cbn [List.filter snd]. unfold within at 1.
  rewrite IH. by destruct ((start <=? tr_time r) && (tr_time r <? end_)). }
set (L := List.filter _ _).
assert (Forall (λ kr, ∃ tx, stored_tx kr tx) L) as H.
{ apply Forall_forall. intros [k r] Hin. apply list_elem_of_In, filter_In in Hin as [Hin _].
  apply list_elem_of_In, elem_of_map_to_list in Hin. exact (Hwf _ _ Hin). }
apply Forall_choose in H as (txs & Htxs). exists (zip_with (λ kr tx, (as_u64 (tr_time kr.2), tx)) L txs). split.
- apply mapR_Ok, Forall2_fmap_l. induction Htxs as [|kr tx L' txs Hs _ IH]; [constructor|]. constructor; [|exact IH].
  destruct Hs as [Hraw _]. cbn. unfold proto_deserialize. rewrite Hraw, proto_decode_encode. done.
- apply Forall2_fmap_l. induction Htxs as [|kr tx L' txs Hs _ IH]; [constructor|]. constructor; [|exact IH].
  exists tx. done.
Qed.

(** ** What the other entries leave alone *)

#[local] Instance same_ledger_pre : PreOrder same_ledger.
Proof. split; [by intros s; split|]. intros s1 s2 s3 [] []. split; congruence. Qed.
Definition same_utxo (s s' : Store) : Prop := st_utxo s' = st_utxo s.
#[local] Instance same_utxo_pre : PreOrder same_utxo.
Proof. split; [by intros s|]. intros s1 s2 s3. unfold same_utxo. congruence. Qed.

Ltac frame := repeat first
  [ progress (auto with preserves nocore)
  | apply preserves_modify; intros ?; split; reflexivity
  | apply preserves_modify; intros ?; reflexivity
  | apply preserves_bind; [typeclasses eauto| |intros ?]
  | apply preserves_iterM; [typeclasses eauto|intros ? ?]
  | match goal with |- preserves _ (match ?x with _ => _ end) => destruct x end ].

Lemma insert_transaction_same_utxo tx time acc reason : preserves same_utxo (insert_transaction tx time acc reason false).
Proof.
unfold insert_transaction, insert_transaction_raw, insert_transaction_indexes, insert_address_transaction,
  insert_address_transaction_single, insert_input_edge, insert_transaction_edge.
frame.
Qed.

Lemma insert_observation_edge_same proof : preserves same_ledger (insert_observation_edge now proof).
Proof. unfold insert_observation_edge. frame. Qed.

Lemma insert_observation_same tx s r s' : insert_observation_and_edges now tx s = Some (r, s') → same_ledger s s'.
Proof.
unfold insert_observation_and_edges. cbv zeta.
match goal with |- match ?a with _ => _ end = _ → _ => destruct a as [[[[[time height] o] ip] pk]| |] end;
  [|intros [= <- <-]; done..].
assert (preserves same_ledger (insert_observation tx time (hash_or tx) height pk)) as H1
  by (unfold insert_observation; frame).
specialize (H1 s). destruct (insert_observation _ _ _ _ _ s) as [[u|e|] s1]; cbn [snd] in H1; [|intros [= <- <-]; done..].
destruct (Observation_build_observation_proofs _ _ _) as [ps|]; [|done]. cbn [mbind option_bind]. intros [= H].
etrans; [exact H1|].
assert (preserves same_ledger (ps ← lift ps; iterM (λ p, insert_observation_edge now (Some p)) ps)) as H2.
{ apply preserves_bind; [apply _|apply preserves_lift, _|]. intros l. apply preserves_iterM; [apply _|].
  intros x _. apply insert_observation_edge_same. }
specialize (H2 s1). by rewrite H in H2.
Qed.

Definition sync_same (y y' : Sync) : Prop := same_ledger (sy_store y) (sy_store y').
#[local] Instance sync_same_pre : PreOrder sync_same.
Proof. split; [by intros y|]. intros y1 y2 y3. unfold sync_same. intros H1 H2. by etrans. Qed.
Definition sync_same_utxo (y y' : Sync) : Prop := same_utxo (sy_store y) (sy_store y').
#[local] Instance sync_same_utxo_pre : PreOrder sync_same_utxo.
Proof. split; [by intros y|]. intros y1 y2 y3. unfold sync_same_utxo. intros H1 H2. by etrans. Qed.

Lemma fetched_preserves R `{!PreOrder R} start end_ ty key (f : DownloadResponse → Y bool) :
  (∀ dr, dpreserves R (f dr)) → dpreserves R (fetched start end_ ty key f).
Proof.
intros Hf. unfold fetched. destruct (download_msg _ _ _ _); [apply Hf|apply dpreserves_ret, _|apply dpreserves_lift, _].
Qed.

Lemma observations_same start end_ key :
  dpreserves sync_same
    (fetched start end_ ObservationEntry_type key (λ dr,
       _ ← diter download_observation (dlr_observations dr); mret (negb (bool_decide (dlr_observations dr = []))))).
Proof.
apply fetched_preserves; [apply _|]. intros dr. apply dpreserves_bind; [apply _| |intros _; apply dpreserves_ret, _].
apply dpreserves_iter; [apply _|]. intros obe. unfold download_observation.
destruct (obe_observation obe) as [tx|]; [|apply dpreserves_ret, _]. apply (dpreserves_ignored sync_same (A := unit)).
intros y r y' H. destruct (insert_observation_and_edges now tx (sy_store y)) as [[r' s']|] eqn:E; [|done].
cbn in H. injection H as <- <-. exact (insert_observation_same _ _ _ _ E).
Qed.

Lemma edges_same start end_ key :
  dpreserves sync_same
    (fetched start end_ ObservationEdgeEntry_type key (λ dr,
       _ ← diter download_edge (dlr_observation_edges dr); mret (negb (bool_decide (dlr_observation_edges dr = []))))).
Proof.
apply fetched_preserves; [apply _|]. intros dr. apply dpreserves_bind; [apply _| |intros _; apply dpreserves_ret, _].
apply dpreserves_iter; [apply _|]. intros oe. apply (dpreserves_ignored sync_same (A := unit)). intros y r y' H.
unfold on_sync_store in H. pose proof (insert_observation_edge_same (oe_observation_proof oe) (sy_store y)) as Hs.
destruct (insert_observation_edge _ _ _) as [r' s']. injection H as <- <-. exact Hs.
Qed.

Lemma transactions_same_utxo start end_ key :
  dpreserves sync_same_utxo
    (fetched start end_ TransactionEntry_type key (λ dr,
       _ ← diter download_transaction (dlr_transactions dr);
       mret (existsb (λ t, bool_decide (is_Some (te_transaction t))) (dlr_transactions dr)))).
Proof.
apply fetched_preserves; [apply _|]. intros dr. apply dpreserves_bind; [apply _| |intros _; apply dpreserves_ret, _].
apply dpreserves_iter; [apply _|]. intros te. unfold download_transaction.
destruct (te_transaction te) as [tx|]; [|apply dpreserves_ret, _].
apply dpreserves_bind; [apply _|apply dpreserves_gets, _|]. intros b.
apply dpreserves_bind; [apply _|apply dpreserves_lift, _|]. intros [|]; [apply dpreserves_ret, _|].
intros y r y' H. unfold on_sync_store in H.
pose proof (insert_transaction_same_utxo tx (as_i64 (te_time te)) true None (sy_store y)) as Hs.
destruct (insert_transaction _ _ _ _ _ _) as [r' s']. injection H as <- <-. exact Hs.
Qed.

Lemma sync_same_weaken {A} (m : Y A) : dpreserves sync_same m → dpreserves sync_same_utxo m.
Proof. intros Hm y r y' H. destruct (Hm y r y' H) as [Hu _]. exact Hu. Qed.
End sync.
#[local] Existing Instance sync_same_pre.
#[local] Existing Instance sync_same_utxo_pre.

(** ** An honest peer *)

Section honest_peer.
Context {host : Host} {crypto : Crypto} {sql : Sql}.
Context {ptx : Proto Transaction} {pue : Proto UtxoEntry} {po : Proto Output} {pei : Proto ErrorInfo}.
Context {pom : Proto ObservationMetadata} {pop : Proto ObservationProof} {jei : Json ErrorInfo}.
Context {tx_laws : ProtoLaws Transaction} {ue_laws : ProtoLaws UtxoEntry}.

Definition success_metadata : ResponseMetadata :=
  {| rm_success := true; rm_error_info := None; rm_task_local_details := []; rm_request_id := None; rm_trace_id := None |}.
(** The answer of a peer with the store [P], as its message handler forms it. *)
Definition honest (P : Store) (r : DownloadRequest) (_ : PublicKey) : RgResult DownloadReply :=
  match process_download_request P r with
  | Ok dr => Ok {| rs_response_metadata := Some success_metadata; rs_proof := None; rs_node_metadata := None;
                   rs_body := Some dr |}
  | Err e => Ok (from_error_info None e)
  | Panic => Panic
  end.

Context (P : Store) (utxo_channels : gset UtxoId) (now start end_ : Z) (key : PublicKey).
Context (Hstart : in_i64 start) (Hend : in_i64 end_).

Definition window_request (ty : Z) : DownloadRequest :=
  {| dr_start_time := as_u64 start; dr_end_time := as_u64 end_; dr_data_type := ty; dr_offset := None |}.

Lemma fetched_honest ty f dr :
  process_download_request P (window_request ty) = Ok dr → fetched (honest P) start end_ ty key f = f dr.
Proof. intros H. unfold fetched, download_msg, honest. fold (window_request ty). by rewrite H. Qed.

Lemma serve_utxos us : utxo_filter_time P start end_ = Ok us →
  process_download_request P (window_request UtxoEntry_type) =
    Ok {| dlr_utxo_entries := us; dlr_transactions := []; dlr_observations := []; dlr_observation_edges := [];
          dlr_complete_response := true |}.
Proof. intros H. unfold process_download_request. cbn [dr_start_time dr_end_time window_request]. rewrite !as_i64_as_u64 by done. cbn. by rewrite H. Qed.
Lemma serve_transactions l : query_time_transaction P start end_ = Ok l →
  process_download_request P (window_request TransactionEntry_type) =
    Ok {| dlr_utxo_entries := []; dlr_transactions := (λ x, {| te_time := x.1; te_transaction := Some x.2 |}) <$> l;
          dlr_observations := []; dlr_observation_edges := []; dlr_complete_response := true |}.
Proof. intros H. unfold process_download_request. cbn [dr_start_time dr_end_time window_request]. rewrite !as_i64_as_u64 by done. cbn. by rewrite H. Qed.
Lemma serve_no_observations :
  (∀ h r, st_observation P !! h = Some r → ¬ start ≤ obr_time r ≤ end_) →
  process_download_request P (window_request ObservationEntry_type) =
    Ok {| dlr_utxo_entries := []; dlr_transactions := []; dlr_observations := []; dlr_observation_edges := [];
          dlr_complete_response := true |}.
Proof.
intros H. unfold process_download_request. cbn [dr_start_time dr_end_time window_request].
rewrite !as_i64_as_u64 by done. cbn. unfold query_time_observation, observation_rows.
assert (List.filter (λ r, (start <=? obr_time r) && (obr_time r <=? end_)) (map_to_list (st_observation P)).*2 = []) as ->; [|done].
destruct (List.filter _ _) as [|r l] eqn:E; [done|]. exfalso.
assert (r ∈ r :: l) as Hin by left. rewrite <-E in Hin. apply list_elem_of_In, filter_In in Hin as [Hin Hb].
apply list_elem_of_In, list_elem_of_fmap in Hin as ([h r'] & -> & Hin). apply elem_of_map_to_list in Hin.
apply andb_true_iff in Hb as [?%Z.leb_le ?%Z.leb_le]. by apply (H _ _ Hin).
Qed.

(** The row a node ends up with: its own, or what the peer serves. *)
Definition merged {K A} `{Countable K} (own served : gmap K A) (keep : A → bool) (f : A → A) (k : K) : option A :=
  match own !! k with
  | Some r => Some r
  | None => r ← served !! k; if keep r then Some (f r) else None
  end.

Lemma merged_union {K A} `{Countable K} (own served : gmap K A) (p q : A → bool) (f : A → A) (k : K) :
  (own ∪ list_to_map (prod_map id f <$> List.filter (q ∘ snd) (List.filter (p ∘ snd) (map_to_list served)))) !! k =
  merged own served (λ r, p r && q r) f k.
Proof.
assert (List.filter (q ∘ snd) (List.filter (p ∘ snd) (map_to_list served)) =
  List.filter (λ kr : K * A, p kr.2 && q kr.2) (map_to_list served)) as ->.
{ induction (map_to_list served) as [|[k' r] l IH]; [done|]. cbn [List.filter compose snd].
  destruct (p r); cbn [List.filter compose snd andb]; [destruct (q r)|]; by rewrite IH. }
unfold merged. rewrite lookup_union.
rewrite list_to_map_fmap.
rewrite lookup_fmap, (list_to_map_filter_lookup (λ kr : K * A, p kr.2 && q kr.2)).
destruct (own !! k) as [r|]; [by rewrite union_Some_l|]. rewrite (left_id_L None _).
destruct (served !! k) as [r|]; [|done]. cbn. by destruct (p r && q r).
Qed.

Notation download_window := (download_all (honest P) utxo_channels now start end_ key).

Lemma utxo_phase y :
  utxo_table_wf P →
  ∃ g y1, fetched (honest P) start end_ UtxoEntry_type key (λ dr,
      _ ← diter (download_utxo utxo_channels) (dlr_utxo_entries dr);
      mret (existsb (λ u, bool_decide (is_Some (ue_utxo_id u))) (dlr_utxo_entries dr))) y = Some (Ok g, y1) ∧
    sy_mempool y1 = sy_mempool (sy_with_store (sy_store y1) y) ∧ st_transactions (sy_store y1) = st_transactions (sy_store y) ∧
    (∀ k, st_utxo (sy_store y1) !! k =
       merged (st_utxo (sy_store y)) (st_utxo P) (λ r, within start end_ (ur_time r) && free_row utxo_channels r) id k).
Proof.
intros Hwf. destruct (served_utxos P start end_ Hwf) as (us & Hus & Hrows). rewrite (fetched_honest _ _ _ (serve_utxos _ Hus)).
cbn [dlr_utxo_entries]. rewrite (MD_bind_step _ _ _ _ _ (utxo_loop utxo_channels us _ y Hrows)).
eexists _, _. split; [reflexivity|]. split_and!; [done|done|]. intros k.
rewrite <-(merged_union (st_utxo (sy_store y)) (st_utxo P) (λ r, within start end_ (ur_time r)) (free_row utxo_channels) id).
change (sy_store (sy_with_store ?s y)) with s. cbn [st_utxo with_utxo_table]. do 3 f_equal.
symmetry. etrans; [|apply list_fmap_id]. apply list_fmap_ext. by intros ? [].
Qed.

Lemma download_all_merges y :
  utxo_table_wf P → transactions_wf P →
  (∀ r y', download_window y = Some (r, y') →
     (∀ k, st_utxo (sy_store y') !! k =
        merged (st_utxo (sy_store y)) (st_utxo P) (λ r, within start end_ (ur_time r) && free_row utxo_channels r) id k) ∧
     (is_ok r = true → ∀ k, st_transactions (sy_store y') !! k =
        merged (st_transactions (sy_store y)) (st_transactions P)
          (λ r, within start end_ (tr_time r) && wanted_row (sy_mempool y) r) accepted_row k)) ∧
  ((∀ h r, st_observation P !! h = Some r → ¬ start ≤ obr_time r ≤ end_) → is_Some (download_window y)).
Proof.
intros Hu Ht. unfold download_all. destruct (utxo_phase y Hu) as (g1 & y1 & H1 & Hm1 & Ht1 & Hu1).
rewrite (MD_bind_step _ _ _ _ _ H1). clear H1. split.
- intros r y' H. split.
  + intros k. rewrite <-Hu1. f_equal.
    match type of H with ?m y1 = _ => enough (dpreserves sync_same_utxo m) as HR by exact (HR _ _ _ H) end.
    apply dpreserves_bind; [apply _|apply transactions_same_utxo|]. intros g2.
    apply dpreserves_bind; [apply _|apply sync_same_weaken, observations_same|]. intros g3.
    apply dpreserves_bind; [apply _|apply sync_same_weaken, edges_same|]. intros g4. apply dpreserves_ret, _.
  + destruct r as [b| |]; [|done..]. intros _ k. apply MD_bind_Ok in H as (g2 & y2 & H2 & H).
    assert (sync_same y2 y') as [_ ->].
    { match type of H with ?m y2 = _ => enough (dpreserves sync_same m) as HR by exact (HR _ _ _ H) end.
      apply dpreserves_bind; [apply _|apply observations_same|]. intros g3.
      apply dpreserves_bind; [apply _|apply edges_same|]. intros g4. apply dpreserves_ret, _. }
    destruct (served_transactions P start end_ Ht) as (l & Hl & Hrows).
    rewrite (fetched_honest _ _ _ (serve_transactions _ Hl)) in H2. cbn [dlr_transactions] in H2.
    apply MD_bind_Ok in H2 as ([] & y3 & H2 & H3). injection H3 as _ <-.
    destruct (transaction_loop _ _ _ _ Hrows H2) as (_ & _ & ->). rewrite Ht1.
    rewrite <-(merged_union (st_transactions (sy_store y)) (st_transactions P) (λ r, within start end_ (tr_time r))
      (wanted_row (sy_mempool y)) accepted_row).
    do 4 f_equal. apply List.filter_ext. intros [k' r']. cbn. rewrite Hm1. done.
- intros Ho. apply dtotal_bind.
  { destruct (served_transactions P start end_ Ht) as (l & Hl & _). rewrite (fetched_honest _ _ _ (serve_transactions _ Hl)).
    apply dtotal_bind; [|intros _ y2; by eexists]. apply dtotal_iter. intros te _ y2. unfold download_transaction.
    destruct (te_transaction te); [|by eexists]. unfold mbind, MD_bind, dgets, dlift.
    destruct (relay_transaction_known _ _) as [[]| |]; [by eexists|apply on_sync_store_total|by eexists..]. }
  intros g2. rewrite (fetched_honest _ _ _ (serve_no_observations Ho)). cbn [dlr_observations diter].
  intros y2. rewrite (MD_bind_step _ _ _ false y2) by reflexivity. revert y2. apply dtotal_bind; [|intros ? ?; by eexists].
  unfold fetched. destruct (download_msg _ _ _ _ _) as [dr| |]; [|intros ?; by eexists..].
  apply dtotal_bind; [|intros ? ?; by eexists]. apply dtotal_iter. intros oe _. apply (ignored_total (A := unit)), on_sync_store_total.
Qed.

(** C5: Copying a window from an honest peer.  Whatever the download answers, in the
    node's UTXO table afterwards a row of its own is as it was, and a row it did not have
    is the peer's if that lies in the window and no request is working on the UTXO, and
    is missing otherwise.  When the download answers [Ok], so is its table of
    transactions: a row it did not have is the peer's if that lies in the window and
    the transaction neither waits nor is in process, but with every such transaction
    marked as accepted, one that the peer had rejected too.  The download answers if the
    window holds no observation, whose proofs might not terminate. *)
Theorem download_all_copies y :
  utxo_table_wf P → transactions_wf P →
  (∀ r y', download_window y = Some (r, y') →
     (∀ k, st_utxo (sy_store y') !! k =
        merged (st_utxo (sy_store y)) (st_utxo P) (λ r, within start end_ (ur_time r) && free_row utxo_channels r) id k) ∧
     (is_ok r = true → ∀ k, st_transactions (sy_store y') !! k =
        merged (st_transactions (sy_store y)) (st_transactions P)
          (λ r, within start end_ (tr_time r) && wanted_row (sy_mempool y) r) accepted_row k)) ∧
  ((∀ h r, st_observation P !! h = Some r → ¬ start ≤ obr_time r ≤ end_) → is_Some (download_window y)).
Proof. apply download_all_merges. Qed.

(** A UTXO that the node has spent is valid again after a download from a peer that
    does not know of the spending transaction yet: rows are inserted without a look
    at [transaction_edge]. *)
Theorem download_revives_spent y k r e :
  utxo_table_wf P → transactions_wf P → (∀ h r, st_observation P !! h = Some r → ¬ start ≤ obr_time r ≤ end_) →
  st_utxo P !! k = Some r → within start end_ (ur_time r) = true → free_row utxo_channels r = true →
  st_utxo (sy_store y) !! k = None → st_edge (sy_store y) !! k = Some e →
  ∃ a y', download_window y = Some (a, y') ∧ st_utxo (sy_store y') !! k = Some r.
Proof.
intros Hu Ht Ho Hk Hw Hf Hn _. destruct (download_all_merges y Hu Ht) as [H [[a y'] Hd]%(λ f, f Ho)].
exists a, y'. split; [done|]. destruct (H a y' Hd) as [-> _]. unfold merged. rewrite Hn, Hk. cbn. by rewrite Hw, Hf.
Qed.

(** A transaction that the peer has rejected counts as accepted on the node that
    downloads it. *)
Theorem download_accepts_rejected y y' g k r reason tx :
  utxo_table_wf P → transactions_wf P → download_window y = Some (Ok g, y') →
  st_transactions P !! k = Some r → tr_rejection_reason r = Some reason → stored_tx (k, r) tx →
  within start end_ (tr_time r) = true → in_relay (sy_mempool y) (calculate_hash tx) = false →
  st_transactions (sy_store y) !! k = None →
  query_accepted_transaction P (hash_or tx) = Ok None ∧ query_accepted_transaction (sy_store y') (hash_or tx) = Ok (Some tx).
Proof.
intros Hu Ht Hd Hk Hr (Hraw & Hh & Hb & _) Hw Hp Hn. cbn [fst snd] in *.
destruct (download_all_merges y Hu Ht) as [H _]. destruct (H _ _ Hd) as [_ Htx].
specialize (Htx eq_refl k). unfold merged in Htx. rewrite Hn, Hk in Htx. cbn [mbind option_bind] in Htx.
unfold wanted_row in Htx. rewrite Hraw, proto_decode_encode, Hp, Hw in Htx. cbn [negb andb] in Htx.
change (Hash_safe_bytes (hash_or tx) = Ok k) in Hb. unfold query_accepted_transaction. rewrite Hb. rg_step. rewrite Hk, Htx, Hr. split; [done|].
cbn. unfold proto_deserialize. by rewrite Hraw, proto_decode_encode.
Qed.
End honest_peer.

(** ** The loop over days *)

Section days.
Context {host : Host} {crypto : Crypto} {sql : Sql}.
Context {ptx : Proto Transaction} {pue : Proto UtxoEntry} {po : Proto Output} {pei : Proto ErrorInfo}.
Context {pom : Proto ObservationMetadata} {pop : Proto ObservationProof} {jei : Json ErrorInfo}.
Context (ask : DownloadRequest → PublicKey → RgResult DownloadReply) (utxo_channels : gset UtxoId) (now : Z).

(** C38: The loop of [download] ends after at most one turn per day back to the last
    known time and one more, whatever the peer answers, if every turn ends. *)
Theorem download_days_terminates bootstrap min_time n cur_end y :
  - 2 ^ 63 + one_day ≤ min_time → cur_end < 2 ^ 63 →
  (∀ s e, dtotal (download_all ask utxo_channels now s e bootstrap)) →
  is_Some (download_days ask utxo_channels now (days_fuel min_time cur_end) bootstrap min_time n cur_end y).
Proof. intros. apply download_days_fuel; [done|done|done|]. unfold days_fuel. lia. Qed.

(** No row of the peer has a time in the closed interval. *)
Definition quiet (P : Store) (a b : Z) : Prop :=
  (∀ k r, st_utxo P !! k = Some r → ¬ a ≤ ur_time r ≤ b) ∧
  (∀ k r, st_transactions P !! k = Some r → ¬ a ≤ tr_time r ≤ b) ∧
  (∀ k r, st_observation P !! k = Some r → ¬ a ≤ obr_time r ≤ b) ∧
  (∀ k r, st_observation_edge P !! k = Some r → ¬ a ≤ oer_time r ≤ b).

Lemma filter_rows_nil {K A} `{Countable K} (m : gmap K A) (f : A → bool) :
  (∀ k r, m !! k = Some r → f r = false) → List.filter f (map_to_list m).*2 = [].
Proof.
intros Hf. destruct (List.filter _ _) as [|r l] eqn:E; [done|]. exfalso.
assert (r ∈ r :: l) as Hin by left. rewrite <-E in Hin. apply list_elem_of_In, filter_In in Hin as [Hin Hb].
apply list_elem_of_In, list_elem_of_fmap in Hin as ([k r'] & -> & Hin%elem_of_map_to_list). cbn in Hb.
by rewrite (Hf _ _ Hin) in Hb.
Qed.

Lemma quiet_window P start end_ key y :
  in_i64 start → in_i64 end_ → quiet P start end_ →
  download_all (honest P) utxo_channels now start end_ key y = Some (Ok false, y).
Proof.
intros Hs He (H1 & H2 & H3 & H4).
assert (∀ ty, process_download_request P (window_request start end_ ty) =
  Ok {| dlr_utxo_entries := []; dlr_transactions := []; dlr_observations := []; dlr_observation_edges := [];
        dlr_complete_response := true |}) as Hp.
{ intros ty. unfold process_download_request. cbn [dr_start_time dr_end_time dr_data_type window_request].
  rewrite !as_i64_as_u64 by done.
  unfold utxo_filter_time, query_time_transaction, query_time_observation, query_time_observation_edge, utxo_rows, observation_rows.
  rewrite !filter_rows_nil; [by repeat destruct (ty =? _)|..]; intros k r Hk;
    [specialize (H1 k r Hk)|specialize (H2 k r Hk)|specialize (H3 k r Hk)|specialize (H4 k r Hk)]; lia. }
unfold download_all. rewrite !(fetched_honest _ _ _ _ _ _ _ (Hp _)). done.
Qed.

Lemma quiet_loop P bootstrap min_time j n cur_end fuel y :
  - 2 ^ 63 + one_day ≤ min_time → cur_end < 2 ^ 63 → n + Z.of_nat j = 3 → quiet P (cur_end - Z.of_nat j * one_day) cur_end →
  (Z.to_nat ((cur_end - min_time) / one_day + 1) < fuel)%nat →
  download_days (honest P) utxo_channels now fuel bootstrap min_time n cur_end y = Some (Ok tt, y).
Proof.
intros Hmin. revert n cur_end fuel. induction j as [|j IH]; intros n cur_end fuel Hcur Hn Hq Hf; (destruct fuel as [|fuel]; [lia|]);
  cbn [download_days].
{ assert (n <? 3 = false) as -> by lia. done. }
destruct ((n <? 3) && (min_time <? cur_end)) eqn:E; [|done].
apply andb_true_iff in E as [_ E%Z.ltb_lt]. pose proof one_day_pos as Hd.
assert (in_i64 (cur_end - one_day) ∧ in_i64 cur_end) as [Hi1 Hi2]
  by (unfold in_s; change (2 ^ (64 - 1)) with (2 ^ 63); lia).
unfold i64_sub. rewrite (wrap_s_id 64) by done. cbv zeta.
assert (quiet P (cur_end - one_day) cur_end ∧ quiet P (cur_end - one_day - Z.of_nat j * one_day) (cur_end - one_day)) as [Hq1 Hq2].
{ assert (∀ t, cur_end - one_day ≤ t ≤ cur_end ∨ cur_end - one_day - Z.of_nat j * one_day ≤ t ≤ cur_end - one_day →
    cur_end - Z.of_nat (S j) * one_day ≤ t ≤ cur_end) as Hw by (intros t; nia).
  destruct Hq as (H1 & H2 & H3 & H4). clear -H1 H2 H3 H4 Hw.
  split; split_and!; intros k r Hk Ht; [eapply H1|eapply H2|eapply H3|eapply H4|eapply H1|eapply H2|eapply H3|eapply H4];
    try exact Hk; apply Hw; auto. }
rewrite (MD_bind_step _ _ _ _ _ (quiet_window P _ _ bootstrap y Hi1 Hi2 Hq1)). apply IH; [lia|lia|done|].
replace (cur_end - one_day - min_time) with (cur_end - min_time + (-1) * one_day) by lia.
rewrite Z.div_add by lia. pose proof (Z.div_pos (cur_end - min_time) one_day). lia.
Qed.

(** Three days without data at the peer end the download: whatever the peer holds
    from before them is not copied. *)
Theorem quiet_days_end_download P bootstrap min_time start_time y :
  - 2 ^ 63 + one_day ≤ min_time → start_time < 2 ^ 63 → quiet P (start_time - 3 * one_day) start_time →
  download_days (honest P) utxo_channels now (days_fuel min_time start_time) bootstrap min_time 0 start_time y = Some (Ok tt, y).
Proof. intros. apply (quiet_loop _ _ _ 3); [done|done|done|done|]. unfold days_fuel. lia. Qed.
End days.

(** ** The genesis transaction *)

Section genesis.
Context {host : Host} {crypto : Crypto} {ptx : Proto Transaction}.

(** Every answer counts once, however often it was given. *)
Lemma count_genesis_ones gs acc :
  map_Forall (λ h x, x.2 = 1 ∧ calculate_hash x.1 = h) acc →
  map_Forall (λ h x, x.2 = 1 ∧ calculate_hash x.1 = h) (foldl count_genesis acc gs) ∧
  (∀ h, is_Some (foldl count_genesis acc gs !! h) ↔ is_Some (acc !! h) ∨ h ∈ (calculate_hash <$> gs)).
Proof.
revert acc. induction gs as [|g gs IH]; intros acc Hacc; cbn [foldl].
- split; [done|]. intros h. split; [by left|]. intros [?|H]; [done|]. exfalso. exact (not_elem_of_nil _ H).
- destruct (IH (count_genesis acc g)) as [H1 H2].
  + unfold count_genesis. apply map_Forall_insert_2; [|done]. cbn. split; [|done].
    destruct (acc !! calculate_hash g) as [[t c]|] eqn:E; [|done]. by destruct (Hacc _ _ E).
  + split; [done|]. intros h. rewrite H2, fmap_cons, elem_of_cons. unfold count_genesis.
    destruct (decide (h = calculate_hash g)) as [->|Hne].
    * rewrite lookup_insert_eq. split; [by right; left|by left].
    * rewrite lookup_insert_ne by done. tauto.
Qed.

Lemma max_count_last (l : list (Hash * (Transaction * Z))) (best : option (Hash * (Transaction * Z))) :
  Forall (λ x, x.2.2 = 1) l → (∀ b, best = Some b → b.2.2 = 1) →
  foldl (λ best x, match best with Some b => if x.2.2 <? b.2.2 then Some b else Some x | None => Some x end) best l =
  match last l with Some x => Some x | None => best end.
Proof.
intros H. revert best. induction H as [|x l Hx _ IH]; intros best Hb; [done|]. cbn [foldl].
assert (match best with Some b => if x.2.2 <? b.2.2 then Some b else Some x | None => Some x end = Some x) as ->.
{ destruct best as [b|]; [|done]. by rewrite Hx, (Hb b eq_refl). }
rewrite IH by (intros b [= <-]; exact Hx). rewrite last_cons. by destruct (last l).
Qed.

(** The vote on the genesis transaction is no vote: for every answer there is an
    order of the [HashMap] in which it is chosen, however many peers gave another. *)
Theorem genesis_vote_ignored gs g :
  g ∈ gs →
  ∃ iter : gmap Hash (Transaction * Z) → list (Hash * (Transaction * Z)), (∀ m, iter m ≡ₚ map_to_list m) ∧
    ∃ t, choose_genesis iter gs = Some t ∧ calculate_hash t = calculate_hash g.
Proof.
intros Hg. destruct (count_genesis_ones gs ∅) as [H1 H2]; [apply map_Forall_empty|].
destruct (proj2 (H2 (calculate_hash g))) as [x Hx]; [right; by apply list_elem_of_fmap_2|].
destruct (H1 _ _ Hx) as [Hc Hh].
exists (λ m, match m !! calculate_hash g with
             | Some x => map_to_list (delete (calculate_hash g) m) ++ [(calculate_hash g, x)]
             | None => map_to_list m
             end). split.
- intros m. destruct (m !! calculate_hash g) as [x'|] eqn:E; [|done].
  rewrite <-(insert_delete_id m (calculate_hash g) x' E) at 2. rewrite map_to_list_insert by apply lookup_delete_eq.
  by rewrite Permutation_app_comm.
- exists x.1. split; [|done]. unfold choose_genesis. rewrite Hx. unfold max_count.
  rewrite max_count_last; [by rewrite last_snoc| |done]. apply Forall_app. split; [|by repeat constructor].
  apply Forall_forall. intros [h x'] Hin. apply elem_of_map_to_list, lookup_delete_Some in Hin as [_ Hin].
  by destruct (H1 _ _ Hin).
Qed.
End genesis.

(** * Witnesses *)

Module SyncDemo.
#[local] Existing Instance toy_host.
#[local] Existing Instance toy_crypto.
#[local] Instance demo_sql : Sql := "UNIQUE constraint failed".
#[local] Instance demo_pt : Proto Transaction := ser_proto Transaction.
#[local] Instance demo_pt_laws : ProtoLaws Transaction := ser_proto_laws Transaction.
#[local] Instance demo_pu : Proto UtxoEntry := ser_proto UtxoEntry.
#[local] Instance demo_pu_laws : ProtoLaws UtxoEntry := ser_proto_laws UtxoEntry.
#[local] Instance demo_po : Proto Output := const_proto Output (λ _, []).
#[local] Instance demo_pm : Proto ObservationMetadata := const_proto ObservationMetadata (λ _, []).
#[local] Instance demo_pp : Proto ObservationProof := const_proto ObservationProof (λ _, []).
#[local] Instance demo_pe : Proto ErrorInfo := const_proto ErrorInfo (λ _, []).
#[local] Instance demo_je : Json ErrorInfo := demo_json.

Definition paid (amount : Z) : Transaction := tm_transaction (MempoolDemo.paying amount).
(** The peer holds an accepted transaction with its output, and a rejected one. *)
Definition peer_accepted : Store := (insert_transaction (paid 10) 100 true None true empty_store).2.
Definition peer_store : Store :=
  (insert_transaction (paid 20) 200 false (Some (error_info "rejected")) false peer_accepted).2.
Definition fresh (s : Store) : Sync := {| sy_mempool := MempoolDemo.empty_mempool s; sy_config := ∅ |}.
Definition spent_key : bytes * Z := (match hash_bytes (paid 10) with Ok h => h | _ => [] end, 0).
(** The node has spent that output. *)
Definition spender : EdgeRow :=
  {| er_address := []; er_child_transaction_hash := [Byte.x07]; er_child_input_index := 0; er_time := 150 |}.
Definition spent_store : Store := with_edge_table (insert spent_key spender) empty_store.

Lemma peer_utxo_wf : utxo_table_wf peer_store.
Proof.
unfold utxo_table_wf, peer_store.
rewrite (insert_transaction_same_utxo (paid 20) 200 false (Some (error_info "rejected")) peer_accepted).
apply (insert_transaction_wf (paid 10) 100 true empty_store peer_accepted).
- intros k r Hk. cbn in Hk. by rewrite lookup_empty in Hk.
- refine (run_fst (insert_transaction (paid 10) 100 true None true empty_store) (Ok tt) _). vm_compute. reflexivity.
Qed.
Lemma peer_transactions_wf : transactions_wf peer_store.
Proof.
intros k r Hk. apply elem_of_map_to_list in Hk.
assert (∃ r1 r2 k1 k2, map_to_list (st_transactions peer_store) = [(k1, r1); (k2, r2)] ∧
  (∃ t, stored_tx (k1, r1) t) ∧ (∃ t, stored_tx (k2, r2) t)) as (r1 & r2 & k1 & k2 & E & H1 & H2).
{ eexists _, _, _, _. split; [vm_compute; reflexivity|]. split; unfold stored_tx;
  first [exists (paid 10); by_decision | exists (paid 20); by_decision]. }
rewrite E in Hk. apply elem_of_cons in Hk as [[= -> ->]|Hk]; [done|].
apply list_elem_of_singleton in Hk as [= -> ->]. done.
Qed.
Lemma peer_no_observations h r : st_observation peer_store !! h = Some r → ¬ 0 ≤ obr_time r ≤ 1000.
Proof. assert (st_observation peer_store = ∅) as -> by (vm_compute; reflexivity). by rewrite lookup_empty. Qed.

Definition copy (y : Sync) : option (RgResult bool * Sync) :=
  download_all (honest peer_store) ∅ 0 0 1000 (KeyPair_public_key demo_kp) y.

(** A fresh node ends up with the peer's UTXO. *)
Lemma download_all_copies_witness :
  is_Some (copy (fresh empty_store)) ∧
  (∀ r y', copy (fresh empty_store) = Some (r, y') → st_utxo (sy_store y') !! spent_key = st_utxo peer_store !! spent_key).
Proof.
destruct (download_all_copies peer_store ∅ 0 0 1000 (KeyPair_public_key demo_kp)) with (y := fresh empty_store) as [H1 H2].
- by_decision.
- by_decision.
- exact peer_utxo_wf.
- exact peer_transactions_wf.
- split; [exact (H2 peer_no_observations)|]. intros r y' H. destruct (H1 r y' H) as [-> _]. vm_compute. reflexivity.
Defined.

Lemma download_revives_spent_witness :
  ∃ a y', copy (fresh spent_store) = Some (a, y') ∧ is_Some (st_utxo (sy_store y') !! spent_key).
Proof.
destruct (st_utxo peer_store !! spent_key) as [r|] eqn:E; [|vm_compute in E; discriminate E].
destruct (download_revives_spent peer_store ∅ 0 0 1000 (KeyPair_public_key demo_kp)) with (y := fresh spent_store)
  (k := spent_key) (r := r) (e := spender) as (a & y' & H1 & H2).
- by_decision.
- by_decision.
- exact peer_utxo_wf.
- exact peer_transactions_wf.
- exact peer_no_observations.
- exact E.
- vm_compute in E. injection E as <-. vm_compute. reflexivity.
- vm_compute in E. injection E as <-. vm_compute. reflexivity.
- vm_compute. reflexivity.
- vm_compute. reflexivity.
- exists a, y'. split; [exact H1|]. rewrite H2. by eexists.
Defined.

Definition copied : Sync := match copy (fresh empty_store) with Some (_, y) => y | None => fresh empty_store end.
Lemma copied_ok : copy (fresh empty_store) = Some (Ok true, copied).
Proof.
assert (fst <$> copy (fresh empty_store) = Some (Ok true)) as H by (vm_compute; reflexivity). unfold copied.
destruct (copy (fresh empty_store)) as [[r y]|]; [|discriminate H]. injection H as ->. reflexivity.
Qed.
Lemma download_accepts_rejected_witness :
  query_accepted_transaction peer_store (hash_or (paid 20)) = Ok None ∧
  query_accepted_transaction (sy_store copied) (hash_or (paid 20)) = Ok (Some (paid 20)).
Proof.
destruct (st_transactions peer_store !! match hash_bytes (paid 20) with Ok h => h | _ => [] end) as [r|] eqn:E;
  [|vm_compute in E; discriminate E].
destruct (tr_rejection_reason r) as [reason|] eqn:Er; [|vm_compute in E; injection E as <-; discriminate Er].
apply (download_accepts_rejected peer_store ∅ 0 0 1000 (KeyPair_public_key demo_kp)) with (y := fresh empty_store) (g := true)
  (k := match hash_bytes (paid 20) with Ok h => h | _ => [] end) (r := r) (reason := reason).
- by_decision.
- by_decision.
- exact peer_utxo_wf.
- exact peer_transactions_wf.
- exact copied_ok.
- exact E.
- exact Er.
- vm_compute in E. injection E as <-. unfold stored_tx. by_decision.
- vm_compute in E. injection E as <-. vm_compute. reflexivity.
- vm_compute. reflexivity.
- vm_compute. reflexivity.
Defined.

Lemma download_days_terminates_witness :
  is_Some (download_days (λ _ _, Err (error_info "unreachable")) ∅ 0 (days_fuel 0 1000000000) (KeyPair_public_key demo_kp) 0 0
    1000000000 (fresh empty_store)).
Proof.
apply download_days_terminates; [by_decision|by_decision|]. intros s e y. by eexists.
Defined.

(** The peer's data is older than three days. *)
Lemma quiet_days_end_download_witness :
  download_days (honest peer_store) ∅ 0 (days_fuel 0 1000000000) (KeyPair_public_key demo_kp) 0 0 1000000000 (fresh empty_store) =
    Some (Ok tt, fresh empty_store).
Proof.
apply (quiet_days_end_download ∅ 0 peer_store (KeyPair_public_key demo_kp) 0 1000000000 (fresh empty_store));
  [by_decision|by_decision|].
assert (map_Forall (λ _ r, ¬ 740800000 ≤ ur_time r ≤ 1000000000) (st_utxo peer_store) ∧
  map_Forall (λ _ r, ¬ 740800000 ≤ tr_time r ≤ 1000000000) (st_transactions peer_store) ∧
  map_Forall (λ _ r, ¬ 740800000 ≤ obr_time r ≤ 1000000000) (st_observation peer_store) ∧
  map_Forall (λ _ r, ¬ 740800000 ≤ oer_time r ≤ 1000000000) (st_observation_edge peer_store)) as H by by_decision.
exact H.
Defined.

Lemma genesis_vote_ignored_witness :
  ∃ iter : gmap Hash (Transaction * Z) → list (Hash * (Transaction * Z)), (∀ m, iter m ≡ₚ map_to_list m) ∧
    ∃ t, choose_genesis iter [paid 10; paid 10; paid 10; paid 20] = Some t ∧ calculate_hash t = calculate_hash (paid 20).
Proof. apply (genesis_vote_ignored [paid 10; paid 10; paid 10; paid 20] (paid 20)). do 3 right. left. Defined.
End SyncDemo.
