(* ===== verification/Handler.v ===== *)
(** * The message handler of a node

    src/core/peer_rx_event_handler.rs: every request that reaches a node, from a peer
    or over HTTP, is answered here on top of the stores of the node; with what it
    uses of src/core/relay.rs.

    The requests for the faucet, the parties and a hash search are left out: a
    request here carries none of them.  The followers of multiparty key
    generation and signing are parameters that see the request and the verified
    key, and are recorded; so are the transactions that a configuration fixes and
    the answer that a synchronous submission waits for.  Messages are handled one
    after the other, where the source handles up to ten at a time; every channel of
    the node is open. *)

From stdpp Require Import base list gmap strings.
From S2P Require Import Prelude Structs Interfaces Schema Merkle Transaction Keys Store Contract Mempool Wire Download Peers Config Sync.
#[local] Open Scope Z_scope.
#[local] Open Scope redgold_scope.

Record SubmitTransactionRequest := { sbr_transaction : option Transaction; sbr_sync_query_response : bool }.
Record GetContractStateMarkerRequest := { gcr_address : option Address; gcr_selector : option StateSelector }.
Record RecentDiscoveryTransactionsRequest := { rdr_limit : option Z; rdr_min_time : option Z }.
Record GetPeersInfoResponse := { gpr_self_info : option PeerNodeInfo; gpr_peer_info : list PeerNodeInfo }.
Record AboutNodeResponse := {
  anr_latest_metadata : option Transaction; anr_latest_node_metadata : option Transaction; anr_num_known_peers : Z;
  anr_num_active_peers : Z; anr_recent_transactions : list Transaction; anr_pending_transactions : Z;
  anr_total_accepted_transactions : Z; anr_observation_height : Z; anr_peer_node_info : option PeerNodeInfo }.

(** The kinds of requests; the inner [option] is a message field of its own. *)
Record RequestBody := {
  b_lookup_transaction : option Hash; b_genesis : bool; b_recent_transactions : option RecentDiscoveryTransactionsRequest;
  b_utxo_valid : option UtxoId; b_resolve_code : option Address;
  b_get_contract_state_marker : option GetContractStateMarkerRequest;
  b_query_observation_proof : option (option Hash); b_submit_transaction : option SubmitTransactionRequest;
  b_get_peers_info : bool; b_gossip_transaction : option (option Transaction);
  b_gossip_observation : option (option Transaction); b_download : option DownloadRequest; b_about : bool }.
Record ResponseBody := {
  a_lookup_transaction : option Transaction; a_genesis : option Transaction; a_recent_transactions : option (list Hash);
  a_utxo_valid : option UtxoValidResponse; a_resolve_code : option ResolveCodeResponse;
  a_contract_state_marker : option ContractStateMarker; a_observation_proofs : option (list ObservationProof);
  a_submit_transaction : option SubmitTransactionResponse; a_peers_info : option GetPeersInfoResponse;
  a_download : option DownloadResponse; a_about : option AboutNodeResponse; a_keygen : option bytes;
  a_signing : option bytes }.
Definition empty_body : ResponseBody :=
  {| a_lookup_transaction := None; a_genesis := None; a_recent_transactions := None; a_utxo_valid := None;
     a_resolve_code := None; a_contract_state_marker := None; a_observation_proofs := None; a_submit_transaction := None;
     a_peers_info := None; a_download := None; a_about := None; a_keygen := None; a_signing := None |}.

(** [PeerMessage], with the number of the channel that waits for the response. *)
Record PeerMessage := { pm_request : Request RequestBody; pm_response : option nat }.

(** What the handler reads and writes: the relay with its store and configuration,
    the peers, the table of contract states, the transactions in process, and what
    was sent: to the mempool, to the observation handler, to discovery, to the
    followers and to those who asked. *)
Record NodeState := {
  ns_sync : Sync; ns_peers : PeerDb; ns_contract : list StateRow; ns_in_process : gmap Hash Transaction;
  ns_submitted : list TransactionMessage; ns_observations : list Transaction; ns_discovery : list NodeMetadata;
  ns_followers : list (bytes * PublicKey); ns_answers : list (nat * Response ResponseBody) }.

Definition ns_store (s : NodeState) : Store := sy_store (ns_sync s).
Definition ns_with_config (c : ConfigDb) (s : NodeState) : NodeState :=
  {| ns_sync := {| sy_mempool := sy_mempool (ns_sync s); sy_config := c |}; ns_peers := ns_peers s;
     ns_contract := ns_contract s; ns_in_process := ns_in_process s; ns_submitted := ns_submitted s;
     ns_observations := ns_observations s; ns_discovery := ns_discovery s; ns_followers := ns_followers s;
     ns_answers := ns_answers s |}.
Definition ns_with_peers (p : PeerDb) (s : NodeState) : NodeState :=
  {| ns_sync := ns_sync s; ns_peers := p; ns_contract := ns_contract s; ns_in_process := ns_in_process s;
     ns_submitted := ns_submitted s; ns_observations := ns_observations s; ns_discovery := ns_discovery s;
     ns_followers := ns_followers s; ns_answers := ns_answers s |}.
Definition ns_submit (t : TransactionMessage) (s : NodeState) : NodeState :=
  {| ns_sync := ns_sync s; ns_peers := ns_peers s; ns_contract := ns_contract s; ns_in_process := ns_in_process s;
     ns_submitted := ns_submitted s ++ [t]; ns_observations := ns_observations s; ns_discovery := ns_discovery s;
     ns_followers := ns_followers s; ns_answers := ns_answers s |}.
Definition ns_observe (t : Transaction) (s : NodeState) : NodeState :=
  {| ns_sync := ns_sync s; ns_peers := ns_peers s; ns_contract := ns_contract s; ns_in_process := ns_in_process s;
     ns_submitted := ns_submitted s; ns_observations := ns_observations s ++ [t]; ns_discovery := ns_discovery s;
     ns_followers := ns_followers s; ns_answers := ns_answers s |}.
Definition ns_discover (n : NodeMetadata) (s : NodeState) : NodeState :=
  {| ns_sync := ns_sync s; ns_peers := ns_peers s; ns_contract := ns_contract s; ns_in_process := ns_in_process s;
     ns_submitted := ns_submitted s; ns_observations := ns_observations s; ns_discovery := ns_discovery s ++ [n];
     ns_followers := ns_followers s; ns_answers := ns_answers s |}.
Definition ns_follow (r : bytes) (pk : PublicKey) (s : NodeState) : NodeState :=
  {| ns_sync := ns_sync s; ns_peers := ns_peers s; ns_contract := ns_contract s; ns_in_process := ns_in_process s;
     ns_submitted := ns_submitted s; ns_observations := ns_observations s; ns_discovery := ns_discovery s;
     ns_followers := ns_followers s ++ [(r, pk)]; ns_answers := ns_answers s |}.
Definition ns_answer (c : nat) (r : Response ResponseBody) (s : NodeState) : NodeState :=
  {| ns_sync := ns_sync s; ns_peers := ns_peers s; ns_contract := ns_contract s; ns_in_process := ns_in_process s;
     ns_submitted := ns_submitted s; ns_observations := ns_observations s; ns_discovery := ns_discovery s;
     ns_followers := ns_followers s; ns_answers := ns_answers s ++ [(c, r)] |}.

(** [PublicKey::short_id] (schema/src/public_key.rs): the last six characters of its
    hex form. *)
Definition short_string {host : Host} (s : string) : RgResult string :=
  let len := String.length s in
  if (len <? 6)%nat then Err (error_info "string too short to short_string")
  else Ok (String.substring (len - 6) 6 s).
Definition short_id {host : Host} {crypto : Crypto} (pk : PublicKey) : RgResult string :=
  h ← expect (PublicKey_hex pk); expect (short_string h).

Section handler.
Context {host : Host} {crypto : Crypto} {secp : Secp}.
Context {ptx : Proto Transaction} {pue : Proto UtxoEntry} {po : Proto Output} {pei : Proto ErrorInfo}.
Context {pom : Proto ObservationMetadata} {pop : Proto ObservationProof} {pdm : Proto DynamicNodeMetadata}.
Context {psel : Proto StateSelector} {pbd : Proto BytesData} {pcsm : Proto ContractStateMarker}.
Context {prq : Proto (Request RequestBody)} {prs : Proto (Response ResponseBody)}.
Context {jrq : Json (Request RequestBody)} {jrs : Json (Response ResponseBody)} {jpk : Json (option PublicKey)}.

(** The key pair of the node and what its configuration fixes. *)
Context (kp : KeyPair) (peer_tx_fixed : Transaction) (node_tx_fixed : option NodeMetadata → Transaction).
Context (dynamic_node_metadata_fixed : DynamicNodeMetadata).
(** The reply of transaction processing, and the multiparty followers. *)
Context (await_reply : Transaction → RgResult (Response (option SubmitTransactionResponse))).
Context (keygen_follower signing_follower : bytes → PublicKey → RgResult bytes).
Context (now : Z).

Notation H := (M NodeState ErrorInfo).

Definition on_config {A} (m : M ConfigDb ErrorInfo A) : H A := λ s,
  let '(r, c) := m (sy_config (ns_sync s)) in (r, ns_with_config c s).
Definition on_peers {A} (m : M PeerDb ErrorInfo A) : H A := λ s,
  let '(r, p) := m (ns_peers s) in (r, ns_with_peers p s).

(** ** The node's own description (src/core/relay.rs) *)

Definition peer_tx : H Transaction :=
  tx ← gets (λ s, get_peer_tx (sy_config (ns_sync s)));
  tx ← lift tx;
  match (tx : option Transaction) with
  | Some tx => mret tx
  | None => _ ← on_config (set_peer_tx peer_tx_fixed); mret peer_tx_fixed
  end.
Definition node_tx : H Transaction :=
  tx ← gets (λ s, get_node_tx (sy_config (ns_sync s)));
  tx ← lift tx;
  match (tx : option Transaction) with
  | Some tx => mret tx
  | None =>
      p ← peer_tx;
      pd ← lift (Transaction_peer_data p);
      let tx := node_tx_fixed (head (List.filter (λ n, bool_decide (nm_public_key n = Some (KeyPair_public_key kp)))
                                      (pm_node_metadata pd))) in
      _ ← on_config (set_node_tx tx); mret tx
  end.
Definition relay_node_metadata : H NodeMetadata := tx ← node_tx; lift (Transaction_node_metadata tx).
Definition dynamic_node_metadata : H DynamicNodeMetadata :=
  md ← gets (λ s, get_dynamic_md (sy_config (ns_sync s)));
  md ← lift md;
  match (md : option DynamicNodeMetadata) with
  | Some md => mret md
  | None => _ ← on_config (set_dynamic_md dynamic_node_metadata_fixed); mret dynamic_node_metadata_fixed
  end.
Definition relay_peer_node_info : H PeerNodeInfo :=
  p ← peer_tx; n ← node_tx; d ← dynamic_node_metadata;
  mret {| pni_latest_peer_transaction := Some p; pni_latest_node_transaction := Some n; pni_dynamic_node_metadata := Some d |}.

(** ** Answering *)

Definition lookup_transaction (s : NodeState) (hash : Hash) : RgResult (option Transaction) :=
  match mp_entries (sy_mempool (ns_sync s)) !! hash with
  | Some t => Ok (Some t)
  | None =>
      match ns_in_process s !! hash with
      | Some t => Ok (Some t)
      | None => r ← query_maybe_transaction (ns_store s) hash; Ok (fst <$> (r : option _))
      end
  end.
Definition recent_hashes (s : NodeState) (r : RecentDiscoveryTransactionsRequest) : list Hash :=
  (hash_or ∘ snd <$> map_to_list (mp_entries (sy_mempool (ns_sync s)))) ++ (fst <$> map_to_list (ns_in_process s)) ++
  recent_transaction_hashes (ns_store s) (rdr_limit r) (rdr_min_time r).
Definition utxo_valid_answer (s : Store) (r : UtxoId) : RgResult UtxoValidResponse :=
  let abstain := {| uvr_valid := None; uvr_child_transaction := None; uvr_child_transaction_input := None |} in
  h ← safe_get (u_transaction_hash r);
  res ← query_utxo_id_valid s h (u_output_index r);
  if (res : bool) then Ok {| uvr_valid := Some true; uvr_child_transaction := None; uvr_child_transaction_input := None |} else
  child ← utxo_used s r;
  match (child : option (Hash * Z)) with
  | Some (child_hash, child_idx) =>
      m ← query_maybe_transaction s child_hash;
      Ok (match m with
          | Some (tx, None) => {| uvr_valid := Some false; uvr_child_transaction := Some tx; uvr_child_transaction_input := Some child_idx |}
          | _ => abstain
          end)
  | None => Ok abstain
  end.
Definition submit_transaction (tx_req : SubmitTransactionRequest) : H SubmitTransactionResponse :=
  tx ← lift (safe_get_msg (sbr_transaction tx_req) "Missing transaction field on submit request");
  _ ← modify (ns_submit {| tm_transaction := tx;
                           tm_response_channel := if sbr_sync_query_response tx_req then Some 0%nat else None |});
  if sbr_sync_query_response tx_req then
    response1 ← lift (await_reply tx);
    _ ← lift (as_error_info response1);
    lift (safe_get (rs_body response1))
  else
    mret {| str_transaction_hash := Some (hash_or tx); str_query_transaction_response := None; str_transaction := Some tx |}.

(** The optional parts of [request_response]: a part that is not asked for leaves
    its field empty. *)
Definition part {A B} (o : option A) (f : A → H (option B)) : H (option B) :=
  match o with Some a => f a | None => mret None end.
Definition part_if {B} (b : bool) (m : H (option B)) : H (option B) := if b then m else mret None.

Definition contract_db (s : NodeState) : ContractDb := {| cd_store := ns_store s; cd_state := ns_contract s |}.
Definition contract_state_marker (r : GetContractStateMarkerRequest) : H (option ContractStateMarker) :=
  match gcr_address r with
  | Some a =>
      res ← gets (λ s, query_recent_state (contract_db s) a (gcr_selector r) (Some 1));
      res ← lift res; mret (head (res : list _))
  | None => lift (Err (error_info "Missing address or utxo id"))
  end.
(** src/api/about.rs. *)
Definition handle_about_node : H AboutNodeResponse :=
  active ← gets (λ s, active_nodes (ns_peers s) now None); active ← lift active;
  known ← gets (λ s, all_peers (ns_peers s)); known ← lift known;
  recent ← gets (λ s, query_recent_transactions (ns_store s) None None); recent ← lift recent;
  total ← gets (λ s, count_total_transactions (ns_store s));
  pending ← gets (λ s, Z.of_nat (size (ns_in_process s)));
  latest ← gets (λ s, select_latest_observation (ns_store s) (KeyPair_public_key kp)); latest ← lift latest;
  info ← relay_peer_node_info; p ← peer_tx; n ← node_tx;
  mret {| anr_latest_metadata := Some p; anr_latest_node_metadata := Some n; anr_num_known_peers := Z.of_nat (length known);
          anr_num_active_peers := Z.of_nat (length active); anr_recent_transactions := recent;
          anr_pending_transactions := pending; anr_total_accepted_transactions := total;
          anr_observation_height := default 0 ((latest : option Transaction) ≫= λ o, ok_opt (Transaction_height o));
          anr_peer_node_info := Some info |}.
(** The requests that need authorization. *)
Definition multiparty (request : Request RequestBody) (verified : RgResult PublicKey) : H (option bytes * option bytes) :=
  if negb (auth_required request) then mret (None, None) else
  match verified with
  | Ok pk =>
      k ← part (rq_initiate_keygen request) (λ r, _ ← modify (ns_follow r pk); a ← lift (keygen_follower r pk); mret (Some a));
      g ← part (rq_initiate_signing request) (λ r, _ ← modify (ns_follow r pk); a ← lift (signing_follower r pk); mret (Some a));
      mret (k, g)
  | Err e => lift (add_msg (Err e) "Unable to process request, authorization required and failed")
  | Panic => lift Panic
  end.
Definition request_response (request : Request RequestBody) (verified : RgResult PublicKey) : H (Response ResponseBody) :=
  let b := rq_body request in
  lookup ← part (b_lookup_transaction b) (λ r, o ← gets (λ s, lookup_transaction s r); lift o);
  genesis ← part_if (b_genesis b) (g ← gets (λ s, get_genesis (sy_config (ns_sync s))); lift g);
  recent ← part (b_recent_transactions b) (λ r, gets (λ s, Some (recent_hashes s r)));
  valid ← part (b_utxo_valid b) (λ r, u ← gets (λ s, utxo_valid_answer (ns_store s) r); u ← lift u; mret (Some u));
  code ← part (b_resolve_code b) (λ a, c ← gets (λ s, resolve_code (contract_db s) a); c ← lift c; mret (Some c));
  marker ← part (b_get_contract_state_marker b) contract_state_marker;
  proofs ← part (b_query_observation_proof b) (λ r,
    h ← lift (safe_get r); ps ← gets (λ s, select_observation_edge (ns_store s) h); ps ← lift ps; mret (Some ps));
  submitted ← part (b_submit_transaction b) (λ r, x ← submit_transaction r; mret (Some x));
  peers ← part_if (b_get_peers_info b)
    (vec ← gets (λ s, all_peers_info (ns_peers s)); vec ← lift vec;
     self_info ← relay_peer_node_info;
     mret (Some {| gpr_self_info := Some self_info; gpr_peer_info := vec |}));
  _ ← (match b_gossip_transaction b with
       | Some (Some t) => _ ← submit_transaction {| sbr_transaction := Some t; sbr_sync_query_response := false |}; mret tt
       | _ => mret tt
       end);
  _ ← (match b_gossip_observation b with
       | Some o => o ← lift (expect_opt o); modify (ns_observe o)
       | None => mret tt
       end);
  download ← part (b_download b) (λ r, d ← gets (λ s, process_download_request (ns_store s) r); d ← lift d; mret (Some d));
  about ← part_if (b_about b) (a ← handle_about_node; mret (Some a));
  mp ← multiparty request verified;
  mret {| rs_response_metadata := Some success_metadata; rs_proof := None; rs_node_metadata := None;
          rs_body := {| a_lookup_transaction := lookup; a_genesis := genesis; a_recent_transactions := recent;
                        a_utxo_valid := valid; a_resolve_code := code; a_contract_state_marker := marker;
                        a_observation_proofs := proofs; a_submit_transaction := submitted; a_peers_info := peers;
                        a_download := download; a_about := about; a_keygen := mp.1; a_signing := mp.2 |} |}.

(** An error becomes the answer; a panic does not. *)
Definition answered (m : H (Response ResponseBody)) : H (Response ResponseBody) := λ s,
  match m s with
  | (Err e, s') => (Ok (from_error_info empty_body e), s')
  | r => r
  end.
(** [.ok()] on the outcome of an update. *)
Definition tried (m : H unit) : H unit := λ s,
  match m s with (Err _, s') => (Ok tt, s') | r => r end.
Definition proof_key (r : Request RequestBody) : option PublicKey := p ← rq_proof r; pf_public_key p.
(** The sender, when the request names one, is marked as seen or discovered. *)
Definition note_sender (request : Request RequestBody) : H unit :=
  match proof_key request with
  | Some pk =>
      known ← gets (λ s, query_public_key_node (ns_peers s) pk);
      known ← lift known;
      match (known : option Transaction) with
      | Some _ => tried (on_peers (update_last_seen pk now))
      | None =>
          match rq_node_metadata request with
          | Some nmd => _ ← lift (short_id pk); modify (ns_discover nmd)
          | None => mret tt
          end
      end
  | None => mret tt
  end.
Definition handle_incoming_message (pm : PeerMessage) : H unit :=
  let request := pm_request pm in
  let verified := add_msg (Request_verify_auth request) "Incoming request authorization failure in peer rx event handler" in
  match verified with
  | Panic => lift Panic
  | _ =>
      _ ← note_sender request;
      response ← answered (request_response request verified);
      nmd ← relay_node_metadata;
      response ← lift (Response_with_auth kp (Response_with_metadata nmd response));
      response ← lift (expect (Response_verify_auth response (Some (KeyPair_public_key kp))));
      match pm_response pm with Some c => modify (ns_answer c response) | None => mret tt end
  end.
(** [try_for_each_concurrent]: the first error ends the task. *)
Definition handler_run (messages : list PeerMessage) : H unit := iterM handle_incoming_message messages.

(** * Properties *)

(** ** A message that stops the node *)

Lemma add_msg_no_panic {A} (r : RgResult A) msg : r ≠ Panic → add_msg r msg ≠ Panic.
Proof. unfold add_msg, map_err. by destruct r. Qed.

(** A request whose proof names a key that is no key ends the task that answers
    requests, whether or not it is signed: the check of the sender fails before
    anything else, the error leaves the loop, and no later message is handled. *)
Theorem malformed_key_stops_handler pm rest pk e s :
  Request_verify_auth (pm_request pm) ≠ Panic → proof_key (pm_request pm) = Some pk → PublicKey_validate pk = Err e →
  handler_run (pm :: rest) s = (Err e, s).
Proof.
intros Hv Hk He. unfold handler_run. cbn [iterM]. apply M_bind_fail. unfold handle_incoming_message. cbv zeta.
assert (note_sender (pm_request pm) s = (Err e, s)) as Hn.
{ unfold note_sender. rewrite Hk. erewrite M_bind_step by reflexivity. unfold query_public_key_node, node_key.
  rewrite He. reflexivity. }
pose proof (add_msg_no_panic _ "Incoming request authorization failure in peer rx event handler" Hv) as Hp.
destruct (add_msg _ _); [by apply M_bind_fail..|done].
Qed.

(** So does an empty gossiped observation: the handler unwraps it. *)
Lemma empty_gossip_panics request verified s :
  rq_body request = {| b_lookup_transaction := None; b_genesis := false; b_recent_transactions := None; b_utxo_valid := None;
    b_resolve_code := None; b_get_contract_state_marker := None; b_query_observation_proof := None;
    b_submit_transaction := None; b_get_peers_info := false; b_gossip_transaction := None;
    b_gossip_observation := Some None; b_download := None; b_about := false |} →
  request_response request verified s = (Panic, s).
Proof. intros Hb. unfold request_response. rewrite Hb. reflexivity. Qed.

(** ** Every answer is authenticated *)

(** The response that an outcome is turned into, before metadata and proof. *)
Definition response_of (r0 : RgResult (Response ResponseBody)) : option ResponseMetadata * ResponseBody :=
  match r0 with
  | Ok x => (rs_response_metadata x, rs_body x)
  | Err e => (Some (ResponseMetadata_from_error e), empty_body)
  | Panic => (None, empty_body)
  end.

(** The end of the handling: metadata, proof, check and sending. *)
Lemma answer_tail {laws : CryptoLaws} {slaws : SecpLaws} x c s1 : kp_matches kp →
  let tail : H unit := nmd ← relay_node_metadata;
    response ← lift (Response_with_auth kp (Response_with_metadata nmd x));
    response ← lift (expect (Response_verify_auth response (Some (KeyPair_public_key kp)))); modify (ns_answer c response) in
  match relay_node_metadata s1 with
  | (Err e, s2) => tail s1 = (Err e, s2)
  | (Panic, s2) => tail s1 = (Panic, s2)
  | (Ok nmd, s2) => nm_public_key nmd = Some (KeyPair_public_key kp) →
      ∃ r, tail s1 = (Ok tt, ns_answer c r s2) ∧ Response_verify_auth r (Some (KeyPair_public_key kp)) = Ok r ∧
        (rs_response_metadata r, rs_body r) = (rs_response_metadata x, rs_body x)
  end.
Proof.
intros Hkp tail. unfold tail. destruct (relay_node_metadata s1) as [[nmd|e|] s2] eqn:Hm; [|by apply M_bind_fail|by apply M_bind_panic].
intros Hpk. assert (∃ p, Response_with_auth kp (Response_with_metadata nmd x) = Ok (rs_with_proof (Some p) (Response_with_metadata nmd x)))
  as [p Hp].
{ unfold Response_with_auth. destruct (from_keypair_hash_verifies (calculate_hash (Response_with_metadata nmd x)) kp)
    as (p & -> & _); [apply digest_is_digest|done|]. by exists p. }
set (r := rs_with_proof (Some p) (Response_with_metadata nmd x)) in *.
assert (Response_verify_auth r (Some (KeyPair_public_key kp)) = Ok r) as Hver
  by (eapply (response_auth (Response_with_metadata nmd x) r kp nmd); eauto).
exists r. split_and!; [|done|done]. rewrite (M_bind_step _ _ _ _ _ Hm), Hp.
erewrite M_bind_step by reflexivity. rewrite Hver. by erewrite M_bind_step by reflexivity.
Qed.

(** C10: What becomes of a message that someone waits for and whose signature check does
    not panic, when the node's metadata names its own key.  A sender that cannot be
    looked up ends the handling with that error before anything is answered, as does
    the node's own metadata when it cannot be read; a panic while answering stays a
    panic.  In every other case, whatever was asked and whether answering gave a
    result or an error, exactly one response is sent: it is signed with the node's
    key, a peer who asked this node accepts it, so that the check that the code expects
    to pass does pass, and it carries the result, or the error as an error. *)
Theorem answers_authenticated {laws : CryptoLaws} {slaws : SecpLaws} pm c s :
  let verified := add_msg (Request_verify_auth (pm_request pm)) "Incoming request authorization failure in peer rx event handler" in
  kp_matches kp → pm_response pm = Some c → Request_verify_auth (pm_request pm) ≠ Panic →
  match note_sender (pm_request pm) s with
  | (Err e, s0) => handle_incoming_message pm s = (Err e, s0)
  | (Panic, s0) => handle_incoming_message pm s = (Panic, s0)
  | (Ok _, s0) =>
      match request_response (pm_request pm) verified s0 with
      | (Panic, s1) => handle_incoming_message pm s = (Panic, s1)
      | (r0, s1) =>
          match relay_node_metadata s1 with
          | (Err e, s2) => handle_incoming_message pm s = (Err e, s2)
          | (Panic, s2) => handle_incoming_message pm s = (Panic, s2)
          | (Ok nmd, s2) => nm_public_key nmd = Some (KeyPair_public_key kp) →
              ∃ r, handle_incoming_message pm s = (Ok tt, ns_answer c r s2) ∧
                Response_verify_auth r (Some (KeyPair_public_key kp)) = Ok r ∧
                (rs_response_metadata r, rs_body r) = response_of r0
          end
      end
  end.
Proof.
intros verified Hkp Hc Hv. assert (verified ≠ Panic) as Hvp by (by apply add_msg_no_panic).
unfold handle_incoming_message. cbv zeta. fold verified.
assert (∀ m : H unit, match verified with Panic => lift Panic | _ => m end s = m s) as ->
  by (intros m; by destruct verified). clearbody verified.
destruct (note_sender (pm_request pm) s) as [[[]|e|] s0] eqn:Hn; [|by apply M_bind_fail|by apply M_bind_panic].
rewrite (M_bind_step _ _ _ _ _ Hn), Hc.
destruct (request_response (pm_request pm) verified s0) as [[x|e|] s1] eqn:Hr.
- rewrite (M_bind_step (answered (request_response (pm_request pm) verified)) _ s0 x s1) by (unfold answered; by rewrite Hr).
  by apply answer_tail.
- rewrite (M_bind_step (answered (request_response (pm_request pm) verified)) _ s0 (from_error_info empty_body e) s1)
    by (unfold answered; by rewrite Hr).
  by apply (answer_tail (from_error_info empty_body e)).
- apply M_bind_panic. unfold answered. by rewrite Hr.
Qed.
(** ** Multiparty requests are authorized *)

(** The followers that a request may start. *)
Definition may_follow (request : Request RequestBody) (x : bytes * PublicKey) : Prop :=
  Request_verify_auth request = Ok x.2 ∧ (rq_initiate_keygen request = Some x.1 ∨ rq_initiate_signing request = Some x.1).
Definition follows (messages : list PeerMessage) (s s' : NodeState) : Prop :=
  ∃ l, ns_followers s' = ns_followers s ++ l ∧ Forall (λ x, ∃ pm, pm ∈ messages ∧ may_follow (pm_request pm) x) l.
#[local] Instance follows_pre messages : PreOrder (follows messages).
Proof.
split; [intros s; exists []; split; [symmetry; apply app_nil_r|constructor]|].
intros s1 s2 s3 (l1 & E1 & H1) (l2 & E2 & H2). exists (l1 ++ l2). rewrite E2, E1, <-app_assoc. split; [done|].
by apply Forall_app.
Qed.

Section follows.
Context (messages : list PeerMessage).

Lemma same_followers_follows (f : NodeState → NodeState) :
  (∀ s, ns_followers (f s) = ns_followers s) → preserves (follows messages) (modify f : H unit).
Proof. intros Hf. apply preserves_modify. intros s. exists []. rewrite app_nil_r. by split. Qed.
Lemma on_config_follows {A} (m : M ConfigDb ErrorInfo A) : preserves (follows messages) (on_config m).
Proof. intros s. unfold on_config. destruct (m _). exists []. rewrite app_nil_r. by split. Qed.
Lemma on_peers_follows {A} (m : M PeerDb ErrorInfo A) : preserves (follows messages) (on_peers m).
Proof. intros s. unfold on_peers. destruct (m _). exists []. rewrite app_nil_r. by split. Qed.
Lemma part_follows {A B} (o : option A) (f : A → H (option B)) :
  (∀ a, o = Some a → preserves (follows messages) (f a)) → preserves (follows messages) (part o f).
Proof. intros Hf. destruct o as [a|]; [by apply Hf|apply preserves_mret, _]. Qed.
Lemma part_if_follows {B} b (m : H (option B)) : preserves (follows messages) m → preserves (follows messages) (part_if b m).
Proof. intros Hm. by destruct b; [|apply preserves_mret, _]. Qed.

(** One step of a frame argument. *)
Ltac follow := repeat first
  [ apply preserves_lift, _ | apply preserves_gets, _ | apply preserves_mret, _
  | apply on_config_follows | apply on_peers_follows
  | apply same_followers_follows; intros ?; reflexivity
  | apply part_follows; intros ? ? | apply part_if_follows
  | apply preserves_bind; [apply _| |intros ?]
  | match goal with |- preserves _ (match ?x with _ => _ end) => destruct x end ].

Lemma node_tx_follows : preserves (follows messages) node_tx.
Proof. unfold node_tx, peer_tx. follow. Qed.
Lemma peer_info_follows : preserves (follows messages) relay_peer_node_info.
Proof. unfold relay_peer_node_info, peer_tx, dynamic_node_metadata. follow. Qed.
Lemma about_follows : preserves (follows messages) handle_about_node.
Proof. unfold handle_about_node, relay_peer_node_info, dynamic_node_metadata, node_tx, peer_tx. follow. Qed.
Lemma submit_follows r : preserves (follows messages) (submit_transaction r).
Proof. unfold submit_transaction. follow. Qed.
Lemma note_sender_follows request : preserves (follows messages) (note_sender request).
Proof.
unfold note_sender. follow. intros s. unfold tried.
match goal with |- context [on_peers ?m s] => pose proof (on_peers_follows m s) as Hs end.
destruct (on_peers _ s) as [[]]; exact Hs.
Qed.

Lemma multiparty_follows pm verified :
  pm ∈ messages → (∀ pk, verified = Ok pk → Request_verify_auth (pm_request pm) = Ok pk) →
  preserves (follows messages) (multiparty (pm_request pm) verified).
Proof.
intros Hin Hv. unfold multiparty. destruct (negb _); [apply preserves_mret, _|].
destruct verified as [pk|e|]; [|apply preserves_lift, _..]. specialize (Hv pk eq_refl).
assert (∀ r, rq_initiate_keygen (pm_request pm) = Some r ∨ rq_initiate_signing (pm_request pm) = Some r →
  preserves (follows messages) (modify (ns_follow r pk) : H unit)) as Hf.
{ intros r Hr. apply preserves_modify. intros s. exists [(r, pk)]. split; [done|]. constructor; [|constructor].
  exists pm. by split. }
follow; apply Hf; auto.
Qed.

Lemma request_response_follows pm verified :
  pm ∈ messages → (∀ pk, verified = Ok pk → Request_verify_auth (pm_request pm) = Ok pk) →
  preserves (follows messages) (request_response (pm_request pm) verified).
Proof.
intros Hin Hv. unfold request_response, contract_state_marker. cbv zeta.
follow; auto using submit_follows, peer_info_follows, about_follows, multiparty_follows.
Qed.

Lemma handle_follows pm : pm ∈ messages → preserves (follows messages) (handle_incoming_message pm).
Proof.
intros Hin. unfold handle_incoming_message, relay_node_metadata. cbv zeta.
destruct (add_msg _ _) eqn:E; [| |apply preserves_lift, _].
all: assert (∀ pk, add_msg (Request_verify_auth (pm_request pm)) "Incoming request authorization failure in peer rx event handler"
  = Ok pk → Request_verify_auth (pm_request pm) = Ok pk) as Hv by (intros pk; apply map_err_Ok); rewrite E in Hv.
all: apply preserves_bind; [apply _|apply note_sender_follows|intros _].
all: apply preserves_bind; [apply _| |intros ?; follow; apply node_tx_follows].
all: intros s; unfold answered; pose proof (request_response_follows pm _ Hin Hv s) as Hs;
  destruct (request_response _ _ s) as [[]]; exact Hs.
Qed.
End follows.

(** C8: In every run of the handler, a multiparty follower is started only for a request
    in the run that carries it, signed over its hash with the key that it names as
    its node's; the follower acts for that key. *)
Theorem followers_authenticated messages s r s' :
  handler_run messages s = (r, s') →
  ∃ l, ns_followers s' = ns_followers s ++ l ∧
    Forall (λ x : bytes * PublicKey, ∃ pm proof nmd, pm ∈ messages ∧
      (rq_initiate_keygen (pm_request pm) = Some x.1 ∨ rq_initiate_signing (pm_request pm) = Some x.1) ∧
      rq_proof (pm_request pm) = Some proof ∧ pf_public_key proof = Some x.2 ∧
      rq_node_metadata (pm_request pm) = Some nmd ∧ nm_public_key nmd = Some x.2 ∧
      Proof_verify proof (calculate_hash (pm_request pm)) = Ok tt) l.
Proof.
intros Hr. assert (preserves (follows messages) (handler_run messages)) as Hp
  by (apply preserves_iterM; [apply _|]; intros pm Hin; by apply handle_follows).
specialize (Hp s). rewrite Hr in Hp. destruct Hp as (l & E & Hl). exists l. split; [exact E|].
eapply Forall_impl; [exact Hl|]. intros x (pm & Hin & Hv & Hk).
apply verify_auth_Ok in Hv as (proof & nmd & ? & ? & ? & ? & ?). exists pm, proof, nmd. done.
Qed.
End handler.

(** * A small node *)

Module HandlerDemo.
#[local] Existing Instance toy_host.
#[local] Existing Instance toy_crypto.
#[local] Existing Instance toy_secp.
#[local] Instance demo_pt : Proto Transaction := ser_proto Transaction.
#[local] Instance demo_pu : Proto UtxoEntry := const_proto UtxoEntry (λ _, []).
#[local] Instance demo_po : Proto Output := const_proto Output (λ _, []).
#[local] Instance demo_pe : Proto ErrorInfo := const_proto ErrorInfo (λ _, []).
#[local] Instance demo_pm : Proto ObservationMetadata := const_proto ObservationMetadata (λ _, []).
#[local] Instance demo_pp : Proto ObservationProof := const_proto ObservationProof (λ _, []).
#[local] Instance demo_pd : Proto DynamicNodeMetadata := const_proto DynamicNodeMetadata (λ _, []).
#[local] Instance demo_psel : Proto StateSelector := const_proto StateSelector (λ _, []).
#[local] Instance demo_pbd : Proto BytesData := const_proto BytesData (λ _, []).
#[local] Instance demo_pcsm : Proto ContractStateMarker := const_proto ContractStateMarker (λ _, []).
#[local] Instance demo_prq : Proto (Request RequestBody) := const_proto (Request RequestBody) (λ _, [Byte.x01]).
#[local] Instance demo_prs : Proto (Response ResponseBody) := const_proto (Response ResponseBody) (λ _, [Byte.x02]).
#[local] Instance demo_jrq : Json (Request RequestBody) := demo_json.
#[local] Instance demo_jrs : Json (Response ResponseBody) := demo_json.
#[local] Instance demo_jpk : Json (option PublicKey) := demo_json.

Definition ask_genesis : RequestBody :=
  {| b_lookup_transaction := None; b_genesis := true; b_recent_transactions := None; b_utxo_valid := None;
     b_resolve_code := None; b_get_contract_state_marker := None; b_query_observation_proof := None;
     b_submit_transaction := None; b_get_peers_info := false; b_gossip_transaction := None; b_gossip_observation := None;
     b_download := None; b_about := false |}.
Definition asking (keygen : option bytes) (p : option Proof_) : Request RequestBody :=
  {| rq_proof := p; rq_node_metadata := Some demo_nmd; rq_origin := None; rq_initiate_keygen := keygen;
     rq_initiate_signing := None; rq_body := ask_genesis |}.
Definition fixed_peer : Transaction := PeersDemo.carrying (Some PeersDemo.peer_md) None.
Definition fixed_node (_ : option NodeMetadata) : Transaction := PeersDemo.carrying None (Some demo_nmd).
Definition fixed_dynamic : DynamicNodeMetadata := {| dnm_udp_port := None; dnm_proof := None; dnm_peer_id := None; dnm_sequence := 0 |}.
Definition no_reply (_ : Transaction) : RgResult (Response (option SubmitTransactionResponse)) := Err (error_info "closed").
Definition follower (r : bytes) (_ : PublicKey) : RgResult bytes := Ok r.
Definition node_state : NodeState :=
  {| ns_sync := SyncDemo.fresh empty_store; ns_peers := empty_peers; ns_contract := []; ns_in_process := ∅; ns_submitted := [];
     ns_observations := []; ns_discovery := []; ns_followers := []; ns_answers := [] |}.

Definition no_key : PublicKey := {| pk_bytes := None; pk_key_type := 0 |}.
Definition bad_message : PeerMessage :=
  {| pm_request := asking None (Some {| pf_signature := None; pf_public_key := Some no_key |}); pm_response := None |}.
Definition good_message : PeerMessage := {| pm_request := asking None None; pm_response := Some 7%nat |}.

Notation run := (handler_run demo_kp fixed_peer fixed_node fixed_dynamic no_reply follower follower 5).

(** The message that comes after the malformed one is not answered. *)
Lemma malformed_key_witness : ∃ e, run [bad_message; good_message] node_state = (Err e, node_state).
Proof.
destruct (PublicKey_validate no_key) as [?|e|] eqn:E; [vm_compute in E; discriminate E| |vm_compute in E; discriminate E].
exists e. apply (malformed_key_stops_handler demo_kp fixed_peer fixed_node fixed_dynamic no_reply follower follower 5
  bad_message [good_message] no_key e node_state).
- vm_compute. discriminate.
- reflexivity.
- exact E.
Defined.

Lemma answers_authenticated_witness :
  ∃ r s2, handle_incoming_message demo_kp fixed_peer fixed_node fixed_dynamic no_reply follower follower 5 good_message node_state =
    (Ok tt, ns_answer 7 r s2) ∧ Response_verify_auth r (Some (KeyPair_public_key demo_kp)) = Ok r.
Proof.
pose proof (answers_authenticated demo_kp fixed_peer fixed_node fixed_dynamic no_reply follower follower 5
  (laws := toy_crypto_laws) (slaws := toy_secp_laws) good_message 7 node_state) as H.
specialize (H ltac:(reflexivity) ltac:(reflexivity) ltac:(vm_compute; discriminate)).
assert (note_sender 5 (pm_request good_message) node_state = (Ok tt, node_state)) as E1 by (vm_compute; reflexivity). rewrite E1 in H.
destruct (request_response _ _ _ _ _ _ _ _ _ _ node_state) as [r0 s1] eqn:E2. vm_compute in E2. injection E2 as <- <-.
destruct (relay_node_metadata _ _ _ _) as [r s2] eqn:E3. vm_compute in E3. injection E3 as <- <-.
destruct H as (r & H1 & H2 & _); [vm_compute; reflexivity|]. eexists r, _. split; [exact H1|exact H2].
Defined.

(** A signed request to generate a key. *)
Definition signed_request : Request RequestBody :=
  match Request_with_auth demo_kp (asking (Some [Byte.x09]) None) with Ok r => r | _ => asking None None end.
Definition keygen_message : PeerMessage := {| pm_request := signed_request; pm_response := None |}.
Lemma followers_authenticated_witness :
  ns_followers (run [keygen_message] node_state).2 = [([Byte.x09], KeyPair_public_key demo_kp)] ∧
  ∃ l, ns_followers (run [keygen_message] node_state).2 = [] ++ l ∧
    Forall (λ x : bytes * PublicKey, ∃ pm proof, pm ∈ [keygen_message] ∧
      pf_public_key proof = Some x.2 ∧ Proof_verify proof (calculate_hash (pm_request pm)) = Ok tt) l.
Proof.
split; [vm_compute; reflexivity|].
destruct (followers_authenticated demo_kp fixed_peer fixed_node fixed_dynamic no_reply follower follower 5 [keygen_message] node_state
  (run [keygen_message] node_state).1 (run [keygen_message] node_state).2) as (l & E & Hl).
- apply surjective_pairing.
- exists l. split; [exact E|]. eapply Forall_impl; [exact Hl|]. intros x (pm & proof & nmd & H1 & _ & _ & H2 & _ & _ & H3).
  exists pm, proof. split; [exact H1|]. split; [exact H2|exact H3].
Defined.
End HandlerDemo.
