(* ===== verification/Udp.v ===== *)
(** * Messages over UDP

    src/api/udp_api.rs: a request is cut into datagrams of at most 1024 bytes, and
    the server on the other side puts them together again and hands the request to
    the message handler.

    The socket is a parameter that may refuse a datagram; the identifiers that
    [Uuid::new_v4] gives out are a parameter too, in the order in which they are
    drawn.  The clock is an argument of every operation.  The channel to the message
    handler is open. *)

From stdpp Require Import base list gmap strings sorting pretty.
From S2P Require Import Prelude Structs Interfaces Wire Schema Transaction Keys.
#[local] Open Scope Z_scope.
#[local] Open Scope redgold_scope.

Record UdpMessage := {
  um_bytes : option BytesData; um_part : Z; um_parts : Z; um_uuid : string; um_timestamp : Z }.
Definition um_with_timestamp (now : Z) (m : UdpMessage) : UdpMessage :=
  {| um_bytes := um_bytes m; um_part := um_part m; um_parts := um_parts m; um_uuid := um_uuid m; um_timestamp := now |}.

Definition UDP_CHUNK_SIZE : nat := 1024.

Section udp.
Context {host : Host} {crypto : Crypto} {secp : Secp}.
Context {B : Type} {prq : Proto (Request B)} {jrq : Json (Request B)} {pum : Proto UdpMessage}.
Context {SocketAddr : Type}.
Context (new_v4 : nat → string) (socket_send : bytes → SocketAddr → option string).

(** What of a [PeerMessage] the server reads and fills. *)
Record SocketMessage := { sk_request : Request B; sk_public_key : option PublicKey; sk_socket_addr : option SocketAddr }.

(** The codec of the socket. *)
Definition UdpMessageCodec_decode (buf : bytes) : option UdpMessage :=
  match buf with
  | [] => None
  | _ => ok_opt (proto_deserialize buf)
  end.
Definition UdpMessageCodec_encode (data_msg : UdpMessage) : bytes := encode_to_vec data_msg.

(** [UdpServer]: the incomplete messages, how many identifiers were drawn, what was
    sent, and what was handed to the message handler. *)
Record UdpServer := {
  us_messages : gmap string (list UdpMessage * SocketAddr); us_drawn : nat;
  us_sent : list (bytes * SocketAddr); us_incoming : list SocketMessage }.
Definition us_with_messages (f : gmap string (list UdpMessage * SocketAddr) → gmap string (list UdpMessage * SocketAddr))
    (s : UdpServer) : UdpServer :=
  {| us_messages := f (us_messages s); us_drawn := us_drawn s; us_sent := us_sent s; us_incoming := us_incoming s |}.
Definition us_draw (s : UdpServer) : UdpServer :=
  {| us_messages := us_messages s; us_drawn := S (us_drawn s); us_sent := us_sent s; us_incoming := us_incoming s |}.
Definition us_send (d : bytes * SocketAddr) (s : UdpServer) : UdpServer :=
  {| us_messages := us_messages s; us_drawn := us_drawn s; us_sent := us_sent s ++ [d]; us_incoming := us_incoming s |}.
Definition us_receive (m : SocketMessage) (s : UdpServer) : UdpServer :=
  {| us_messages := us_messages s; us_drawn := us_drawn s; us_sent := us_sent s; us_incoming := us_incoming s ++ [m] |}.

Notation U := (M UdpServer ErrorInfo).

Definition UdpMessage_new (now : Z) (data : bytes) (part parts : Z) : U UdpMessage :=
  n ← gets us_drawn; _ ← modify us_draw;
  mret {| um_bytes := bytes_data data; um_part := part; um_parts := parts; um_uuid := new_v4 n; um_timestamp := now |}.

Definition send_rx_incoming (data : bytes) (addr : SocketAddr) : U unit :=
  req ← lift (proto_deserialize data);
  node_pk ← lift (Request_verify_auth req);
  modify (us_receive {| sk_request := req; sk_public_key := Some node_pk; sk_socket_addr := Some addr |}).

(** [data.extend_from_slice(&b.value)] for a part that has bytes. *)
Definition payload (m : UdpMessage) : bytes := match um_bytes m with Some b => bd_value b | None => [] end.
Definition part_leb (a b : UdpMessage) : bool := um_part a <=? um_part b.

Definition process_typed (now : Z) (typed : RgResult (UdpMessage * SocketAddr)) : U unit :=
  match typed with
  | Err _ => mret tt
  | Panic => lift Panic
  | Ok (wrapper, addr) =>
      let message := um_with_timestamp now wrapper in
      let uuid := um_uuid message in
      if um_parts message =? 1 then
        match um_bytes message with
        | Some b => ok_unit (send_rx_incoming (bd_value b) addr)
        | None => mret tt
        end
      else
        stored ← gets (λ s, us_messages s !! uuid);
        match (stored : option (list UdpMessage * SocketAddr)) with
        | Some (parts, stored_addr) =>
            let parts := parts ++ [message] in
            if Z.of_nat (length parts) =? as_u64 (um_parts message) then
              let parts := sort_by part_leb parts in
              _ ← modify (us_with_messages <[uuid := (parts, stored_addr)]>);
              _ ← ok_unit (send_rx_incoming (concat (payload <$> parts)) addr);
              modify (us_with_messages (delete uuid))
            else modify (us_with_messages <[uuid := (parts, stored_addr)]>)
        | None => modify (us_with_messages <[uuid := ([message], addr)]>)
        end
  end.

Inductive UdpOperation :=
| Outgoing (pm : SocketMessage)
| Incoming (typed : RgResult (UdpMessage * SocketAddr))
| Interval.

Definition sink_send (m : UdpMessage) (addr : SocketAddr) : U unit :=
  let buf := UdpMessageCodec_encode m in
  match socket_send buf addr with
  | None => modify (us_send (buf, addr))
  | Some e => lift (Err (error_msg UnknownError "Failed to send UDP message" e))
  end.
Definition send_chunk (now : Z) (addr : SocketAddr) (parts : nat) (ic : nat * bytes) : U unit :=
  msg ← UdpMessage_new now ic.2 (as_i64 (Z.of_nat ic.1)) (as_i64 (Z.of_nat parts)); sink_send msg addr.
Definition stale (now : Z) (m : UdpMessage) : bool := as_u64 (i64_add (um_timestamp m) (1000 * 100)) <? now.
Definition stale_messages (now : Z) (messages : gmap string (list UdpMessage * SocketAddr)) : list string :=
  omap (λ e, if existsb (stale now) e.2.1 then Some e.1 else None) (map_to_list messages).
Definition handle_udp_operation (now : Z) (o : UdpOperation) : U unit :=
  match o with
  | Outgoing pm =>
      match sk_socket_addr pm with
      | Some b_addr =>
          let ser := encode_to_vec (sk_request pm) in
          let cs := chunks UDP_CHUNK_SIZE ser in
          iterM (send_chunk now b_addr (length cs)) (imap pair cs)
      | None => mret tt
      end
  | Incoming i => process_typed now i
  | Interval => modify (us_with_messages (λ ms, foldl (λ m i, delete i m) ms (stale_messages now ms)))
  end.
(** [try_fold] over the merged streams: the first error ends the server. *)
Definition udp_run (ops : list (Z * UdpOperation)) : U unit := iterM (λ '(now, o), handle_udp_operation now o) ops.

(** * Properties *)

(** Datagrams that arrive, one after the other, with the time and the sender. *)
Definition arrivals (ms : list (Z * (UdpMessage * SocketAddr))) : list (Z * UdpOperation) :=
  (λ a, (a.1, Incoming (Ok a.2))) <$> ms.

(** ** Reassembly *)

(** What reassembly looks at: the number of a part and its bytes. *)
Definition part_key (m : UdpMessage) : Z * bytes := (um_part m, payload m).
Definition of_uuid (u : string) (ms : list (Z * (UdpMessage * SocketAddr))) : list UdpMessage :=
  List.filter (λ m, bool_decide (um_uuid m = u)) (fst ∘ snd <$> ms).

Lemma part_leb_total x y : part_leb x y = true ∨ part_leb y x = true.
Proof. unfold part_leb. rewrite !Z.leb_le. lia. Qed.
Lemma part_leb_trans x y z : part_leb x y = true → part_leb y z = true → part_leb x z = true.
Proof. unfold part_leb. rewrite !Z.leb_le. lia. Qed.

(** Sorting parts with different numbers gives one list, whatever the order of
    arrival. *)
Lemma sort_parts ps qs :
  StronglySorted (λ a b, um_part a < um_part b) ps → part_key <$> qs ≡ₚ part_key <$> ps →
  payload <$> sort_by part_leb qs = payload <$> ps.
Proof.
intros Hs Hp.
assert (part_key <$> sort_by part_leb qs = part_key <$> ps) as E.
{ apply (StronglySorted_unique_strong (λ a b, a.1 ≤ b.1)).
  - intros x1 x2 H1 H2 ??. rewrite sort_by_perm, Hp in H1.
    apply list_elem_of_fmap in H1 as (m1 & -> & H1). apply list_elem_of_fmap in H2 as (m2 & -> & H2).
    assert (um_part m1 = um_part m2) as E by (unfold part_key in *; simpl in *; lia).
    enough (m1 = m2) as -> by done. clear -Hs H1 H2 E.
    induction Hs as [|m ps Hs IH Hm]; [by apply not_elem_of_nil in H1|].
    rewrite Forall_forall in Hm. apply elem_of_cons in H1 as [->|H1], H2 as [->|H2]; [done| | |by apply IH].
    + specialize (Hm _ H2). lia.
    + specialize (Hm _ H1). lia.
  - pose proof (sort_by_sorted part_leb part_leb_total part_leb_trans qs) as H. clear -H.
    induction H as [|m l Hl IH Hm]; [constructor|]. rewrite fmap_cons. constructor; [done|].
    apply Forall_fmap. eapply Forall_impl; [exact Hm|]. intros x. unfold part_leb. rewrite Z.leb_le. done.
  - clear -Hs. induction Hs as [|m l Hl IH Hm]; [constructor|]. rewrite fmap_cons. constructor; [done|].
    apply Forall_fmap. eapply Forall_impl; [exact Hm|]. intros x. simpl. lia.
  - by rewrite sort_by_perm. }
apply (f_equal (fmap snd)) in E. by rewrite <-!list_fmap_compose in E.
Qed.

(** A message with another identifier leaves the parts alone; nothing that was
    handed over is taken back. *)
Lemma ok_unit_Ok (m : U unit) s s' : ok_unit m s = (Ok tt, s') → m s = (Ok tt, s') ∨ ∃ e, m s = (Err e, s').
Proof. unfold ok_unit. destruct (m s) as [[[]| |] ?]; intros [= ->]; eauto. Qed.
Lemma send_rx_frame data addr s r s' :
  send_rx_incoming data addr s = (r, s') → us_messages s' = us_messages s ∧ ∃ l, us_incoming s' = us_incoming s ++ l.
Proof.
assert (us_incoming s = us_incoming s ++ []) as H0 by by rewrite app_nil_r. unfold send_rx_incoming, mbind, M_bind, lift, modify. intros H.
destruct (proto_deserialize data) as [req|e|]; simpl in H; [|simplify_eq; split; [done|by eexists]..].
destruct (Request_verify_auth req) as [pk|e|]; simpl in H; simplify_eq; split; try done; by eexists.
Qed.
Lemma ok_send_frame data addr s r s' :
  ok_unit (send_rx_incoming data addr) s = (r, s') → us_messages s' = us_messages s ∧ ∃ l, us_incoming s' = us_incoming s ++ l.
Proof.
unfold ok_unit. destruct (send_rx_incoming data addr s) as [r0 s0] eqn:E. apply send_rx_frame in E.
by destruct r0 as [[]| |]; intros [= <- <-].
Qed.
Lemma process_incoming_grows now i s r s' : process_typed now i s = (r, s') → ∃ l, us_incoming s' = us_incoming s ++ l.
Proof.
unfold process_typed. assert (us_incoming s = us_incoming s ++ []) as H0 by by rewrite app_nil_r.
destruct i as [[m addr]|e|]; [|intros [= <- <-]; by eexists..]. cbv zeta.
destruct (_ =? _).
{ destruct (um_bytes _); [by intros [_ ?]%ok_send_frame|intros [= <- <-]; by eexists]. }
unfold mbind, M_bind, gets, modify. cbn [fst snd]. cbn. destruct (us_messages s !! um_uuid m) as [[parts a]|]; [|intros [= <- <-]; by eexists].
destruct (_ =? _); [|intros [= <- <-]; by eexists]. 
match goal with |- context [ok_unit ?m ?x] => destruct (ok_unit m x) as [r0 s0] eqn:E end.
apply ok_send_frame in E as [_ [l E]]. cbn in E. destruct r0 as [[]| |]; intros [= <- <-]; by exists l.
Qed.

(** One arrival, seen from one identifier [u] of which [n] parts are expected. *)
Lemma process_other now m addr u s r s' :
  um_uuid m ≠ u → process_typed now (Ok (m, addr)) s = (r, s') → us_messages s' !! u = us_messages s !! u.
Proof.
intros Hu. unfold process_typed. cbv zeta. cbn [um_uuid um_with_timestamp um_parts um_bytes].
destruct (_ =? _).
{ destruct (um_bytes _); [by intros [-> _]%ok_send_frame|by intros [= <- <-]]. }
unfold mbind, M_bind, gets, modify. cbn [fst snd].
destruct (us_messages s !! um_uuid m) as [[parts a]|]; [|intros [= <- <-]; by apply lookup_insert_ne].
destruct (_ =? _); [|intros [= <- <-]; by apply lookup_insert_ne].
match goal with |- context [ok_unit ?m ?x] => destruct (ok_unit m x) as [r0 s0] eqn:E end.
apply ok_send_frame in E as [E _]. cbn in E.
destruct r0 as [[]| |]; intros [= <- <-]; simpl; rewrite E, ?lookup_delete_ne by done; by apply lookup_insert_ne.
Qed.

Lemma process_first now m addr s r s' :
  um_parts m ≠ 1 → us_messages s !! um_uuid m = None → process_typed now (Ok (m, addr)) s = (r, s') →
  r = Ok tt ∧ s' = us_with_messages <[um_uuid m := ([um_with_timestamp now m], addr)]> s.
Proof.
intros Hn Hu. unfold process_typed. cbv zeta. cbn [um_uuid um_with_timestamp um_parts um_bytes].
destruct (Z.eqb_spec (um_parts m) 1); [done|]. unfold mbind, M_bind, gets, modify. cbn [fst snd].
rewrite Hu. by intros [= <- <-].
Qed.

Lemma process_more now m addr s r s' ps a :
  um_parts m ≠ 1 → in_u64 (um_parts m) → us_messages s !! um_uuid m = Some (ps, a) → Z.of_nat (S (length ps)) < um_parts m →
  process_typed now (Ok (m, addr)) s = (r, s') →
  s' = us_with_messages <[um_uuid m := (ps ++ [um_with_timestamp now m], a)]> s.
Proof.
intros Hn Hr Hu Hl. unfold process_typed. cbv zeta. cbn [um_uuid um_with_timestamp um_parts um_bytes].
destruct (Z.eqb_spec (um_parts m) 1); [done|]. unfold mbind, M_bind, gets, modify. cbn [fst snd].
rewrite Hu, length_app, wrap_u_id by done. cbn [length]. destruct (Z.eqb_spec (Z.of_nat (length ps + 1)) (um_parts m)); [lia|].
by intros [= <- <-].
Qed.

Lemma process_last now m addr s s' ps a :
  um_parts m ≠ 1 → in_u64 (um_parts m) → us_messages s !! um_uuid m = Some (ps, a) → Z.of_nat (S (length ps)) = um_parts m →
  process_typed now (Ok (m, addr)) s = (Ok tt, s') →
  us_messages s' !! um_uuid m = None ∧
  ∀ req pk, proto_decode (concat (payload <$> sort_by part_leb (ps ++ [um_with_timestamp now m]))) = inr req →
    Request_verify_auth req = Ok pk →
    {| sk_request := req; sk_public_key := Some pk; sk_socket_addr := Some addr |} ∈ us_incoming s'.
Proof.
intros Hn Hr Hu Hl. unfold process_typed. cbv zeta. cbn [um_uuid um_with_timestamp um_parts um_bytes].
destruct (Z.eqb_spec (um_parts m) 1); [done|]. unfold mbind, M_bind, gets, modify. cbn [fst snd].
rewrite Hu, length_app, wrap_u_id by done. cbn [length].
destruct (Z.eqb_spec (Z.of_nat (length ps + 1)) (um_parts m)); [|lia].
fold (um_with_timestamp now m). set (data := concat _).
match goal with |- context [ok_unit ?m ?x] => destruct (ok_unit m x) as [r0 s0] eqn:E end.
destruct r0 as [[]| |]; intros [= <-]. split; [simpl; by rewrite lookup_delete_eq|]. intros req pk Hd Ha.
unfold ok_unit, send_rx_incoming, mbind, M_bind, lift, modify, proto_deserialize in E. rewrite Hd in E.
simpl in E. rewrite Ha in E. simplify_eq. simpl. apply elem_of_app. right. by left.
Qed.

Notation run_arrivals ms := (udp_run (arrivals ms)).

Lemma run_arrivals_cons now m addr ms s s' :
  run_arrivals ((now, (m, addr)) :: ms) s = (Ok tt, s') →
  ∃ s1, process_typed now (Ok (m, addr)) s = (Ok tt, s1) ∧ run_arrivals ms s1 = (Ok tt, s').
Proof. unfold udp_run, arrivals. rewrite fmap_cons. by intros H%iterM_cons_Ok. Qed.

Lemma of_uuid_cons u now m addr ms :
  of_uuid u ((now, (m, addr)) :: ms) = if bool_decide (um_uuid m = u) then m :: of_uuid u ms else of_uuid u ms.
Proof. done. Qed.

Lemma run_others u ms : ∀ s s',
  of_uuid u ms = [] → run_arrivals ms s = (Ok tt, s') →
  us_messages s' !! u = us_messages s !! u ∧ ∀ x, x ∈ us_incoming s → x ∈ us_incoming s'.
Proof.
induction ms as [|[now [m addr]] ms IH]; intros s s' Ho H; [by injection H as ->|].
apply run_arrivals_cons in H as (s1 & H1 & H). rewrite of_uuid_cons in Ho. case_bool_decide; [done|].
destruct (IH _ _ Ho H) as [-> Hin]. split; [by eapply process_other|].
intros x Hx. apply Hin. destruct (process_incoming_grows _ _ _ _ _ H1) as [l ->]. set_solver.
Qed.

Definition collected (u : string) (seen : list UdpMessage) (s : UdpServer) : Prop :=
  match seen with
  | [] => us_messages s !! u = None
  | _ => ∃ ps a, us_messages s !! u = Some (ps, a) ∧ part_key <$> ps = part_key <$> seen
  end.
Definition delivered (qs : list UdpMessage) (s : UdpServer) : Prop :=
  ∀ req pk, proto_decode (concat (payload <$> sort_by part_leb qs)) = inr req → Request_verify_auth req = Ok pk →
    ∃ addr, {| sk_request := req; sk_public_key := Some pk; sk_socket_addr := Some addr |} ∈ us_incoming s.

Lemma collected_snoc u seen m ps a now s :
  us_messages s !! u = Some (ps ++ [um_with_timestamp now m], a) → part_key <$> ps = part_key <$> seen →
  collected u (seen ++ [m]) s.
Proof.
intros Hs Hk. unfold collected. destruct (seen ++ [m]) eqn:E; [by destruct seen|]. rewrite <-E.
exists (ps ++ [um_with_timestamp now m]), a. split; [done|]. by rewrite !fmap_app, Hk.
Qed.

Lemma reassemble_go u n ms : ∀ seen s s',
  (2 ≤ n)%nat → in_u64 (Z.of_nat n) → collected u seen s → (length seen < n)%nat →
  Forall (λ m, um_parts m = Z.of_nat n) (of_uuid u ms) → (length seen + length (of_uuid u ms) = n)%nat →
  run_arrivals ms s = (Ok tt, s') →
  us_messages s' !! u = None ∧
  ∃ qs, part_key <$> qs = part_key <$> (seen ++ of_uuid u ms) ∧ delivered qs s'.
Proof.
induction ms as [|[now [m addr]] ms IH]; intros seen s s' Hn Hr Hc Hl Hp He H.
{ change (of_uuid u []) with (@nil UdpMessage) in He. simpl in He. lia. }
apply run_arrivals_cons in H as (s1 & H1 & H). rewrite of_uuid_cons in *. case_bool_decide as Hu; cycle 1.
{ apply (IH seen s1); try done. pose proof (process_other _ _ _ _ _ _ _ Hu H1) as E.
  unfold collected in *. by rewrite E. }
apply Forall_cons in Hp as [Hm Hp]. cbn [length] in He. subst u.
assert (um_parts m ≠ 1) as Hm1 by lia. change (seen ++ m :: of_uuid (um_uuid m) ms) with (seen ++ [m] ++ of_uuid (um_uuid m) ms). rewrite (assoc_L (++) seen).
destruct (decide (S (length seen) = n)) as [Hlast|Hmore].
- assert (of_uuid (um_uuid m) ms = []) as Ho by (apply nil_length_inv; lia).
  rewrite Ho, app_nil_r. destruct seen as [|m0 seen]; [simpl in *; lia|].
  destruct Hc as (ps & a & Hs & Hk). pose proof (f_equal length Hk) as Hlen. rewrite !length_fmap in Hlen.
  eapply process_last in H1 as [Hnone Hd]; [|done|by rewrite Hm|exact Hs|rewrite Hm, Hlen, Hlast; done].
  destruct (run_others _ _ _ _ Ho H) as [-> Hin]. split; [done|].
  exists (ps ++ [um_with_timestamp now m]). split; [by rewrite !fmap_app, Hk|].
  intros req pk Hq Ha. exists addr. apply Hin. by apply Hd.
- assert (collected (um_uuid m) (seen ++ [m]) s1) as Hc1.
  { destruct seen as [|m0 seen].
    - apply process_first in H1 as [_ ->]; [|done..]. apply (collected_snoc _ _ _ [] addr now); [|done].
      simpl. by rewrite lookup_insert_eq.
    - destruct Hc as (ps & a & Hs & Hk). pose proof (f_equal length Hk) as Hlen. rewrite !length_fmap in Hlen.
      eapply process_more in H1 as ->; [|done|by rewrite Hm|exact Hs|rewrite Hm, Hlen; simpl in *; lia].
      apply (collected_snoc _ _ _ ps a now); [|done]. simpl. by rewrite lookup_insert_eq. }
  apply (IH (seen ++ [m]) s1); try done; rewrite length_app; simpl; lia.
Qed.

(** The receiver puts parts that share one identifier together again: if each arrives
    once and no cleanup comes between, then whatever the order in which the parts arrive, and whatever arrives for
    other identifiers in between, once all are there the bytes of the parts in the
    order of their numbers are handed over as a request, if they are one and its
    signature is accepted, and nothing of it is kept. *)
Theorem parts_reassembled u parts ms s s' req pk :
  (2 ≤ length parts)%nat → in_u64 (Z.of_nat (length parts)) →
  Forall (λ m, um_parts m = Z.of_nat (length parts)) parts →
  StronglySorted (λ a b, um_part a < um_part b) parts →
  us_messages s !! u = None → of_uuid u ms ≡ₚ parts → run_arrivals ms s = (Ok tt, s') →
  proto_decode (concat (payload <$> parts)) = inr req → Request_verify_auth req = Ok pk →
  us_messages s' !! u = None ∧
  ∃ addr, {| sk_request := req; sk_public_key := Some pk; sk_socket_addr := Some addr |} ∈ us_incoming s'.
Proof.
intros Hn Hr Hp Hs Hu Hperm H Hd Ha.
destruct (reassemble_go u (length parts) ms [] s s') as (Hnone & qs & Hk & Hdel); try done.
- simpl. lia.
- by rewrite Hperm.
- simpl. by rewrite Hperm.
- split; [done|]. apply Hdel; [|done]. rewrite (sort_parts parts); [done|done|]. by rewrite Hk, app_nil_l, Hperm.
Qed.

(** ** Sending *)

(** The [i]th datagram of a request. *)
Definition sent_part (now : Z) (drawn parts : nat) (ic : nat * bytes) : UdpMessage :=
  {| um_bytes := bytes_data ic.2; um_part := as_i64 (Z.of_nat ic.1); um_parts := as_i64 (Z.of_nat parts);
     um_uuid := new_v4 drawn; um_timestamp := now |}.
Fixpoint sent_parts (now : Z) (drawn parts : nat) (ics : list (nat * bytes)) : list UdpMessage :=
  match ics with
  | [] => []
  | ic :: ics => sent_part now drawn parts ic :: sent_parts now (S drawn) parts ics
  end.

Lemma send_chunks_sent now addr parts ics : ∀ s s',
  iterM (send_chunk now addr parts) ics s = (Ok tt, s') →
  us_sent s' = us_sent s ++ ((λ m, (UdpMessageCodec_encode m, addr)) <$> sent_parts now (us_drawn s) parts ics).
Proof.
induction ics as [|ic ics IH]; intros s s' H; [injection H as ->; by rewrite app_nil_r|].
apply iterM_cons_Ok in H as (s1 & H1 & H). apply IH in H. rewrite H. clear H IH.
unfold send_chunk, UdpMessage_new in H1. inv_M. unfold sink_send in *. case_match; [by inv_M|].
inv_M. simpl. by rewrite <-(assoc_L (++)).
Qed.

Lemma outgoing_sent now pm addr s s' :
  sk_socket_addr pm = Some addr → handle_udp_operation now (Outgoing pm) s = (Ok tt, s') →
  let cs := chunks UDP_CHUNK_SIZE (encode_to_vec (sk_request pm)) in
  us_sent s' = us_sent s ++
    ((λ m, (UdpMessageCodec_encode m, addr)) <$> sent_parts now (us_drawn s) (length cs) (imap pair cs)).
Proof. intros Ha. unfold handle_udp_operation. rewrite Ha. apply send_chunks_sent. Qed.

Lemma sent_parts_uuid now drawn parts ics m :
  m ∈ sent_parts now drawn parts ics → um_parts m = as_i64 (Z.of_nat parts) ∧ ∃ k, (drawn ≤ k)%nat ∧ um_uuid m = new_v4 k.
Proof.
revert drawn. induction ics as [|ic ics IH]; intros drawn; [by intros ?%not_elem_of_nil|].
intros [->|(? & k & ? & ?)%IH]%elem_of_cons; (split; [done|]); [by exists drawn|]. exists k. split; [lia|done].
Qed.
Lemma sent_parts_NoDup `{!Inj (=) (=) new_v4} now drawn parts ics : NoDup (um_uuid <$> sent_parts now drawn parts ics).
Proof.
revert drawn. induction ics as [|ic ics IH]; intros drawn; [constructor|]. cbn [sent_parts]. rewrite fmap_cons.
constructor; [|apply IH]. intros (m & E & (_ & k & Hk & Hm)%sent_parts_uuid)%list_elem_of_fmap.
rewrite Hm in E. apply (inj new_v4) in E. lia.
Qed.

(** Parts with identifiers of their own are only ever stored. *)
Lemma distinct_parts_stored ms : ∀ s,
  NoDup (um_uuid ∘ fst ∘ snd <$> ms) → Forall (λ a, um_parts a.2.1 ≠ 1 ∧ us_messages s !! um_uuid a.2.1 = None) ms →
  ∃ s', run_arrivals ms s = (Ok tt, s') ∧ us_incoming s' = us_incoming s ∧
    Forall (λ a, is_Some (us_messages s' !! um_uuid a.2.1)) ms ∧
    ∀ u, is_Some (us_messages s !! u) → is_Some (us_messages s' !! u).
Proof.
induction ms as [|[now [m addr]] ms IH]; intros s Hnd Hf; [by exists s|].
rewrite fmap_cons in Hnd. apply NoDup_cons in Hnd as [Hm Hnd]. apply Forall_cons in Hf as [[Hp Hu] Hf]. simpl in Hp, Hu.
destruct (process_typed now (Ok (m, addr)) s) as [r s1] eqn:E.
destruct (process_first _ _ _ _ _ _ Hp Hu E) as [-> Hs1].
destruct (IH s1) as (s' & Hr & Hi & Hst & Hmono); [done|..].
- eapply Forall_impl; [apply Forall_and; split; [exact Hf|by apply Forall_forall; intros x Hx; exact Hx]|].
  intros a [[Ha1 Ha2] Hin]. split; [done|]. subst s1. simpl. rewrite lookup_insert_ne; [done|].
  intros Eu. apply Hm, list_elem_of_fmap. by exists a.
- exists s'. split; [|split; [by rewrite Hi; subst|split]].
  + unfold udp_run, arrivals. rewrite fmap_cons. cbn [iterM]. unfold mbind, M_bind. cbn [fst snd handle_udp_operation].
    by rewrite E.
  + constructor; [|done]. apply Hmono. subst s1. simpl. by rewrite lookup_insert_eq.
  + intros u Hs. apply Hmono. subst s1. simpl. destruct (decide (u = um_uuid m)) as [->|]; [by rewrite lookup_insert_eq|].
    by rewrite lookup_insert_ne.
Qed.

(** Datagrams as the socket hands them on: those that the codec cannot read are
    skipped. *)
Definition received (ds : list (Z * (bytes * SocketAddr))) : list (Z * (UdpMessage * SocketAddr)) :=
  omap (λ d, (λ m, (d.1, (m, d.2.2))) <$> UdpMessageCodec_decode d.2.1) ds.

Lemma codec_decode_encode {lum : ProtoLaws UdpMessage} m m' :
  UdpMessageCodec_decode (UdpMessageCodec_encode m) = Some m' → m' = m.
Proof.
unfold UdpMessageCodec_decode, UdpMessageCodec_encode, proto_deserialize. case_match eqn:E; [done|].
rewrite <-E, proto_decode_encode. simpl. congruence.
Qed.

Lemma NoDup_fmap_elem {A C} (f : A → C) l x y : NoDup (f <$> l) → x ∈ l → y ∈ l → f x = f y → x = y.
Proof.
intros Hnd [i Hi]%list_elem_of_lookup [j Hj]%list_elem_of_lookup E.
assert (i = j) as -> by (eapply NoDup_lookup; [exact Hnd|rewrite list_lookup_fmap, Hi; done|rewrite list_lookup_fmap, Hj; simpl; by rewrite E]).
congruence.
Qed.

Lemma received_distinct {lum : ProtoLaws UdpMessage} sent ds :
  NoDup (um_uuid <$> sent) → NoDup (fst ∘ snd <$> ds) → (∀ d, d ∈ ds → d.2.1 ∈ UdpMessageCodec_encode <$> sent) →
  NoDup (um_uuid ∘ fst ∘ snd <$> received ds) ∧
  ∀ a, a ∈ received ds → a.2.1 ∈ sent ∧ UdpMessageCodec_encode a.2.1 ∈ fst ∘ snd <$> ds.
Proof.
intros Hsent. induction ds as [|[now [b addr]] ds IH]; intros Hds Hin; [split; [constructor|by intros ? ?%not_elem_of_nil]|].
rewrite fmap_cons in Hds. apply NoDup_cons in Hds as [Hb Hds].
destruct IH as [IH1 IH2]; [done|by intros d Hd; apply Hin; right|].
destruct (proj1 (list_elem_of_fmap _ _ _) (Hin (now, (b, addr)) ltac:(by left))) as (m & E & Hm). simpl in E.
unfold received. cbn [omap list_omap]. fold (received ds). cbn [fst snd].
destruct (UdpMessageCodec_decode b) as [m'|] eqn:Ed; simpl; cycle 1.
{ split; [done|]. intros a Ha. destruct (IH2 a Ha). split; [done|by right]. }
rewrite E in Ed. apply codec_decode_encode in Ed as ->. split.
- constructor; [|done]. intros (a & Eu & Ha)%list_elem_of_fmap. destruct (IH2 a Ha) as [Ha1 Ha2].
  simpl in Eu. rewrite (NoDup_fmap_elem um_uuid sent m a.2.1) in E by done. rewrite <-E in Ha2. by apply Hb.
- intros a [->|Ha]%elem_of_cons; simpl; [split; [done|]; rewrite E; by left|].
  destruct (IH2 a Ha). split; [done|by right].
Qed.

(** A request of more than 1024 bytes never arrives: every datagram is given a new
    identifier, so that the receiver sees the beginning of as many messages as
    there are datagrams.  In whatever order they arrive, and whether some are lost,
    nothing is handed over; each one is kept until it is stale. *)
Theorem split_request_lost `{!Inj (=) (=) new_v4} {lum : ProtoLaws UdpMessage} now pm addr s s1 ds r :
  let ser := encode_to_vec (sk_request pm) in
  sk_socket_addr pm = Some addr → (UDP_CHUNK_SIZE < length ser)%nat → in_i64 (Z.of_nat (length (chunks UDP_CHUNK_SIZE ser))) →
  us_sent s = [] → handle_udp_operation now (Outgoing pm) s = (Ok tt, s1) →
  NoDup (fst ∘ snd <$> ds) → (∀ d, d ∈ ds → d.2.1 ∈ fst <$> us_sent s1) →
  (∀ k, (us_drawn s ≤ k)%nat → us_messages r !! new_v4 k = None) →
  ∃ r', run_arrivals (received ds) r = (Ok tt, r') ∧ us_incoming r' = us_incoming r ∧
    Forall (λ a, is_Some (us_messages r' !! um_uuid a.2.1)) (received ds).
Proof.
intros ser Ha Hser Hlen H0 H Hnd Hin Hr. apply (outgoing_sent _ _ addr) in H; [|done]. cbv zeta in H. fold ser in H.
rewrite H0, app_nil_l in H. rewrite H, <-list_fmap_compose in Hin.
destruct (received_distinct _ ds (sent_parts_NoDup now (us_drawn s) (length (chunks UDP_CHUNK_SIZE ser))
  (imap pair (chunks UDP_CHUNK_SIZE ser))) Hnd Hin) as [Hd Hsent].
destruct (distinct_parts_stored (received ds) r Hd) as (r' & ? & ? & ? & _); [|by exists r'].
apply Forall_forall. intros a [Hp _]%Hsent. apply sent_parts_uuid in Hp as [-> (k & Hk & ->)]. split; [|by apply Hr].
rewrite wrap_s_id by (done || lia). assert (2 ≤ length (chunks UDP_CHUNK_SIZE ser))%nat; [|lia].
apply chunks_many; [unfold UDP_CHUNK_SIZE; lia|done].
Qed.

(** A request that fits into one datagram arrives as it was sent, whatever the
    receiver has stored, when its signature is accepted. *)
Theorem datagram_roundtrip {lum : ProtoLaws UdpMessage} {lrq : ProtoLaws (Request B)} now pm addr from s s1 now' r pk :
  let ser := encode_to_vec (sk_request pm) in
  sk_socket_addr pm = Some addr → ser ≠ [] → (length ser ≤ UDP_CHUNK_SIZE)%nat →
  handle_udp_operation now (Outgoing pm) s = (Ok tt, s1) → Request_verify_auth (sk_request pm) = Ok pk →
  ∃ m, us_sent s1 = us_sent s ++ [(UdpMessageCodec_encode m, addr)] ∧
    handle_udp_operation now' (Incoming (Ok (m, from))) r =
      (Ok tt, us_receive {| sk_request := sk_request pm; sk_public_key := Some pk; sk_socket_addr := Some from |} r).
Proof.
intros ser Ha Hne Hlen H Hpk. apply (outgoing_sent _ _ addr) in H; [|done]. cbv zeta in H. fold ser in H.
rewrite chunks_small in H by (done || unfold UDP_CHUNK_SIZE; lia). eexists. split; [exact H|].
unfold handle_udp_operation, process_typed. cbv zeta. cbn [um_parts um_with_timestamp sent_part um_bytes length fst snd].
change (as_i64 (Z.of_nat 1) =? 1) with true. cbn [bytes_data bd_value BytesData_from].
unfold ok_unit, send_rx_incoming, proto_deserialize, mbind, M_bind, lift, modify.
unfold ser. rewrite proto_decode_encode. by rewrite Hpk.
Qed.

(** C27: A request that a node sends over UDP arrives exactly when it fits into one
    datagram.  If the socket takes its datagrams and the network delivers each of them
    once, in whatever order and from whatever address, to a receiver that holds nothing
    under the identifiers drawn since, then a request of at most 1024 bytes whose
    signature is accepted is handed to the message handler as it was sent, once, and a
    longer one is not handed over at all, as every part was given an identifier of its
    own. *)
Theorem request_arrives_iff `{!Inj (=) (=) new_v4} {lum : ProtoLaws UdpMessage} {lrq : ProtoLaws (Request B)} now pm addr s s1 ds r pk :
  let ser := encode_to_vec (sk_request pm) in
  sk_socket_addr pm = Some addr → ser ≠ [] → in_i64 (Z.of_nat (length (chunks UDP_CHUNK_SIZE ser))) →
  Request_verify_auth (sk_request pm) = Ok pk →
  us_sent s = [] → handle_udp_operation now (Outgoing pm) s = (Ok tt, s1) →
  fst ∘ snd <$> ds ≡ₚ fst <$> us_sent s1 → Forall (λ d, d.1 ≠ []) (us_sent s1) →
  (∀ k, (us_drawn s ≤ k)%nat → us_messages r !! new_v4 k = None) →
  ∃ r', run_arrivals (received ds) r = (Ok tt, r') ∧
    if bool_decide (length ser ≤ UDP_CHUNK_SIZE)%nat
    then ∃ from, us_incoming r' = us_incoming r ++ [{| sk_request := sk_request pm; sk_public_key := Some pk; sk_socket_addr := Some from |}]
    else us_incoming r' = us_incoming r.
Proof.
intros ser Ha Hne Hlen Hpk H0 H Hds Hfull Hr. case_bool_decide as Hc.
- destruct ds as [|[t [b from]] ds].
  { destruct (datagram_roundtrip now pm addr addr s s1 now r pk Ha Hne Hc H Hpk) as (m & Hs & _). rewrite Hs, fmap_app in Hds.
    symmetry in Hds. apply Permutation_nil_r, app_eq_nil in Hds as [_ ?]. done. }
  destruct (datagram_roundtrip now pm addr from s s1 t r pk Ha Hne Hc H Hpk) as (m & Hs & Hrun).
  rewrite H0, app_nil_l in Hs. rewrite Hs in Hds, Hfull. apply Permutation_singleton_r in Hds. cbn in Hds. injection Hds as -> Hnil.
  apply fmap_nil_inv in Hnil as ->. apply Forall_cons in Hfull as [Hm _]. cbn [fst] in Hm.
  assert (received [(t, (UdpMessageCodec_encode m, from))] = [(t, (m, from))]) as ->.
  { unfold received. cbn. unfold UdpMessageCodec_decode. destruct (UdpMessageCodec_encode m) eqn:E; [done|]. rewrite <-E.
    unfold proto_deserialize, UdpMessageCodec_encode. by rewrite proto_decode_encode. }
  exists (us_receive {| sk_request := sk_request pm; sk_public_key := Some pk; sk_socket_addr := Some from |} r).
  split; [|by exists from]. unfold udp_run, arrivals. cbn [fmap list_fmap iterM fst snd].
  rewrite (M_bind_step _ _ _ _ _ Hrun). done.
- destruct (split_request_lost now pm addr s s1 ds r) as (r' & Hrun & Hi & _); [done|by apply Nat.lt_nge|done|done|done| | |done|by exists r'].
  + rewrite Hds. apply (outgoing_sent _ _ addr) in H; [|done]. cbv zeta in H. rewrite H, H0, app_nil_l, <-list_fmap_compose.
    assert (Inj (=) (=) (fst ∘ λ m : UdpMessage, (UdpMessageCodec_encode m, addr))) as Hinj
      by (intros m m' E; by apply encode_to_vec_inj in E).
    apply (NoDup_fmap_2 _). eapply NoDup_fmap_1, sent_parts_NoDup.
  + intros d Hd. rewrite <-Hds. apply list_elem_of_fmap. by exists d.
Qed.

(** ** Cleaning up *)

Lemma lookup_foldl_delete {A} (m : gmap string A) l u : foldl (λ m i, delete i m) m l !! u = if bool_decide (u ∈ l) then None else m !! u.
Proof.
revert m. induction l as [|i l IH]; intros m; [done|]. cbn [foldl]. rewrite IH.
rewrite (bool_decide_ext (u ∈ i :: l) (u = i ∨ u ∈ l)) by apply elem_of_cons.
destruct (decide (u = i)) as [->|Hne].
- rewrite lookup_delete_eq, (bool_decide_eq_true_2 (i = i ∨ i ∈ l)) by auto. by case_bool_decide.
- rewrite lookup_delete_ne by done. repeat case_bool_decide; naive_solver.
Qed.

Lemma elem_of_stale now ms u : u ∈ stale_messages now ms ↔ ∃ ps a, ms !! u = Some (ps, a) ∧ existsb (stale now) ps = true.
Proof.
unfold stale_messages. rewrite list_elem_of_omap. split.
- intros ([k [ps a]] & Hk%elem_of_map_to_list & E). simpl in E. case_match; [|done]. simplify_eq. eauto.
- intros (ps & a & Hu & Hs). exists (u, (ps, a)). split; [by apply elem_of_map_to_list|]. simpl. by rewrite Hs.
Qed.

(** The cleanup drops exactly the messages of which some part is older than a
    hundred seconds. *)
Lemma interval_spec now s u :
  us_messages (handle_udp_operation now Interval s).2 !! u =
    match us_messages s !! u with
    | Some (ps, a) => if existsb (stale now) ps then None else Some (ps, a)
    | None => None
    end.
Proof.
unfold handle_udp_operation, modify. simpl. rewrite lookup_foldl_delete. case_bool_decide as H.
- apply elem_of_stale in H as (ps & a & -> & ->). done.
- destruct (us_messages s !! u) as [[ps a]|] eqn:E; [|done]. destruct (existsb _ ps) eqn:Es; [|done].
  destruct H. apply elem_of_stale. eauto.
Qed.
End udp.

(** * Two nodes *)

Module UdpDemo.
#[local] Existing Instance toy_host.
#[local] Existing Instance toy_crypto.
#[local] Existing Instance toy_secp.
#[local] Instance ser_UdpMessage : Ser UdpMessage :=
  ser_via (λ r, (um_bytes r, um_part r, um_parts r, um_uuid r, um_timestamp r))
    (λ '(x0, x1, x2, x3, x4), {| um_bytes := x0; um_part := x1; um_parts := x2; um_uuid := x3; um_timestamp := x4 |})
    (λ r, match r with Build_UdpMessage _ _ _ _ _ => eq_refl end).
#[local] Instance ser_Request : Ser (Request bytes) :=
  ser_via (λ r : Request bytes, (rq_proof r, rq_node_metadata r, rq_origin r, rq_initiate_keygen r, rq_initiate_signing r, rq_body r))
    (λ '(x0, x1, x2, x3, x4, x5), {| rq_proof := x0; rq_node_metadata := x1; rq_origin := x2; rq_initiate_keygen := x3;
      rq_initiate_signing := x4; rq_body := x5 |})
    (λ r, match r with Build_Request _ _ _ _ _ _ => eq_refl end).
#[local] Instance demo_pum : Proto UdpMessage := ser_proto UdpMessage.
#[local] Instance demo_prq : Proto (Request bytes) := ser_proto (Request bytes).
#[local] Instance demo_jrq : Json (Request bytes) := demo_json.
Lemma demo_lum : ProtoLaws UdpMessage. Proof. apply ser_proto_laws. Qed.
Lemma demo_lrq : ProtoLaws (Request bytes). Proof. apply ser_proto_laws. Qed.

(** Identifiers that are all different, and an open socket. *)
Definition demo_v4 (n : nat) : string := pretty (N.of_nat n).
Lemma demo_v4_inj : Inj (=) (=) demo_v4. Proof. intros a b E. unfold demo_v4 in E. apply (inj pretty) in E. lia. Qed.
Definition open_socket (_ : bytes) (_ : Z) : option string := None.

Definition plain (body : bytes) : Request bytes :=
  {| rq_proof := None; rq_node_metadata := Some demo_nmd; rq_origin := None; rq_initiate_keygen := None;
     rq_initiate_signing := None; rq_body := body |}.
Definition signed (body : bytes) : Request bytes := match Request_with_auth demo_kp (plain body) with Ok r => r | _ => plain body end.
Definition idle : UdpServer (B := bytes) (SocketAddr := Z) :=
  {| us_messages := ∅; us_drawn := 0; us_sent := []; us_incoming := [] |}.
Definition to (body : bytes) : SocketMessage (B := bytes) (SocketAddr := Z) :=
  {| sk_request := signed body; sk_public_key := None; sk_socket_addr := Some 9 |}.
Notation handle := (handle_udp_operation demo_v4 open_socket).
Notation run := (udp_run demo_v4 open_socket).
(** The serialized request is not evaluated twice. *)
Definition small_ser : bytes := Eval vm_compute in encode_to_vec (signed [Byte.x05]).

(** Two parts of a signed request that arrive in the wrong order. *)
Definition part_of (i : Z) (b : bytes) : UdpMessage :=
  {| um_bytes := bytes_data b; um_part := i; um_parts := 2; um_uuid := "u"; um_timestamp := 0 |}.
Definition two_parts : list UdpMessage := [part_of 0 (take 150 small_ser); part_of 1 (drop 150 small_ser)].
Definition swapped : list (Z * (UdpMessage * Z)) :=
  [(1, (part_of 1 (drop 150 small_ser), 4)); (2, (part_of 0 (take 150 small_ser), 4))].

Lemma parts_reassembled_witness :
  us_messages (run (arrivals swapped) idle).2 !! "u" = None ∧
  ∃ addr, {| sk_request := signed [Byte.x05]; sk_public_key := Some (KeyPair_public_key demo_kp); sk_socket_addr := Some addr |}
    ∈ us_incoming (run (arrivals swapped) idle).2.
Proof.
apply (parts_reassembled demo_v4 open_socket "u" two_parts swapped idle (run (arrivals swapped) idle).2
  (signed [Byte.x05]) (KeyPair_public_key demo_kp)).
- simpl. lia.
- by_decision.
- repeat constructor.
- unfold two_parts. repeat constructor.
- reflexivity.
- apply Permutation_swap.
- apply (run_fst (run (arrivals swapped) idle)). vm_compute. reflexivity.
- vm_compute. reflexivity.
- vm_compute. reflexivity.
Defined.

(** The network delivers the first part twice: the message is complete for the
    receiver, its bytes are no request, and the second part waits alone. *)
Lemma duplicate_datagram_loses :
  let s := (run (arrivals [(1, (part_of 0 (take 150 small_ser), 4)); (2, (part_of 0 (take 150 small_ser), 4));
                           (3, (part_of 1 (drop 150 small_ser), 4))]) idle).2 in
  us_incoming s = [] ∧ fmap length (fst <$> us_messages s !! "u") = Some 1%nat.
Proof. vm_compute. split; reflexivity. Qed.

Lemma datagram_roundtrip_witness :
  ∃ m, us_sent (handle 1 (Outgoing (to [Byte.x05])) idle).2 = [] ++ [(UdpMessageCodec_encode m, 9)] ∧
    handle 2 (Incoming (Ok (m, 4))) idle =
      (Ok tt, us_receive {| sk_request := signed [Byte.x05]; sk_public_key := Some (KeyPair_public_key demo_kp);
                            sk_socket_addr := Some 4 |} idle).
Proof.
apply (datagram_roundtrip demo_v4 open_socket (lum := demo_lum) (lrq := demo_lrq) 1 (to [Byte.x05]) 9 4 idle
  (handle 1 (Outgoing (to [Byte.x05])) idle).2 2 idle (KeyPair_public_key demo_kp)).
- reflexivity.
- vm_compute. discriminate.
- apply Nat.leb_le. vm_compute. reflexivity.
- apply (run_fst (handle 1 (Outgoing (to [Byte.x05])) idle)). vm_compute. reflexivity.
- vm_compute. reflexivity.
Defined.

(** The small request arrives. *)
Definition small_sender : UdpServer (B := bytes) (SocketAddr := Z) := Eval vm_compute in (handle 1 (Outgoing (to [Byte.x05])) idle).2.
Lemma request_arrives_witness :
  ∃ r', run (arrivals (received ((λ d, (5, d)) <$> us_sent small_sender))) idle = (Ok tt, r') ∧
    ∃ from, us_incoming r' = [{| sk_request := signed [Byte.x05]; sk_public_key := Some (KeyPair_public_key demo_kp); sk_socket_addr := Some from |}].
Proof.
pose proof demo_v4_inj as Hinj.
destruct (request_arrives_iff demo_v4 open_socket (lum := demo_lum) (lrq := demo_lrq) 1 (to [Byte.x05]) 9 idle small_sender
  ((λ d, (5, d)) <$> us_sent small_sender) idle (KeyPair_public_key demo_kp)) as (r' & Hrun & Hin).
- reflexivity.
- vm_compute. discriminate.
- by_decision.
- vm_compute. reflexivity.
- reflexivity.
- vm_compute. reflexivity.
- vm_compute. reflexivity.
- vm_compute. repeat constructor. discriminate.
- reflexivity.
- exists r'. split; [exact Hrun|]. rewrite bool_decide_eq_true_2 in Hin by (apply Nat.leb_le; vm_compute; reflexivity). exact Hin.
Defined.

(** A request of 1092 bytes leaves in two datagrams, both arrive, and nothing is
    handed over. *)
Definition big : bytes := replicate 400 Byte.x05.
Definition sender : UdpServer (B := bytes) (SocketAddr := Z) := Eval vm_compute in (handle 1 (Outgoing (to big)) idle).2.
Definition both : list (Z * (bytes * Z)) := (λ d, (5, d)) <$> us_sent sender.
Lemma split_request_lost_witness :
  length both = 2%nat ∧
  ∃ r', run (arrivals (received both)) idle = (Ok tt, r') ∧ us_incoming r' = [] ∧
    Forall (λ a : Z * (UdpMessage * Z), is_Some (us_messages r' !! um_uuid a.2.1)) (received both).
Proof.
split; [vm_compute; reflexivity|].
pose proof demo_v4_inj as Hinj.
apply (split_request_lost demo_v4 open_socket (lum := demo_lum) 1 (to big) 9 idle sender both idle).
- reflexivity.
- apply Nat.ltb_lt. vm_compute. reflexivity.
- by_decision.
- reflexivity.
- vm_compute. reflexivity.
- by_decision.
- intros d (x & -> & Hx)%list_elem_of_fmap. apply list_elem_of_fmap. exists x. split; [reflexivity|exact Hx].
- reflexivity.
Defined.
End UdpDemo.
