(* ===== verification/Base26.v ===== *)
(** * Base 26

    src/util/base26.rs: bytes as lower case letters and back.

    A [u8] inside the conversions is an integer with its wrap-around; the text is the
    list of its bytes, as [str::bytes] gives them. *)

From stdpp Require Import base list.
From S2P Require Import Prelude Structs Schema.
#[local] Open Scope Z_scope.

Definition BASE26_CHARS : list Z := seqZ 97 26.
Definition BASE26_DIGITS : list (option Z) := replicate 97 None ++ (Some <$> seqZ 0 26) ++ replicate 5 None.

(** [bitcoin::util::base58::Error], of which one case is used. *)
Inductive Base58Error := BadByte (b : Z).

(** A loop over digits that are overwritten while a carry is passed on. *)
Fixpoint map_carry (f : Z → Z → Z * Z) (carry : Z) (l : list Z) : list Z * Z :=
  match l with
  | [] => ([], carry)
  | d :: l => let '(d', c) := f carry d in let '(l', c') := map_carry f c l in (d' :: l', c')
  end.

Fixpoint take_while (p : Z → bool) (l : list Z) : list Z :=
  match l with x :: l => if p x then x :: take_while p l else [] | [] => [] end.
Fixpoint skip_while (p : Z → bool) (l : list Z) : list Z :=
  match l with x :: l' => if p x then skip_while p l' else l | [] => [] end.

(** ** Decoding *)

Definition scratch_step (carry d256 : Z) : Z * Z :=
  let carry := wrap_u 32 (carry + d256 * 26) in (wrap_u 8 carry, carry / 256).
Definition from_digit (scratch : list Z) (d58 : Z) : result Base58Error (list Z) :=
  if Z.of_nat (length BASE26_DIGITS) <? d58 then Err (BadByte d58) else
  match BASE26_DIGITS !! Z.to_nat d58 with
  | None => Panic
  | Some None => Err (BadByte d58)
  | Some (Some carry) =>
      let '(rev_scratch, carry) := map_carry scratch_step carry (reverse scratch) in
      if carry =? 0 then Ok (reverse rev_scratch) else Panic
  end.
Definition from (data : bytes) : result Base58Error bytes :=
  let data := u8_to_Z <$> data in
  scratch ← foldR from_digit (replicate (1 + length data * 9 / 15) 0) data;
  Ok (u8_of_Z <$> ((λ _, 0) <$> take_while (λ x, x =? 97) data) ++ skip_while (λ x, x =? 0) scratch).

(** ** Encoding *)

(** [SmallVec]: the first hundred elements are on the stack. *)
Record SmallVec := { sv_len : nat; sv_stack : list Z; sv_heap : list Z }.
Definition sv_new : SmallVec := {| sv_len := 0; sv_stack := replicate 100 0; sv_heap := [] |}.
Definition sv_push (val : Z) (v : SmallVec) : SmallVec :=
  if (sv_len v <? 100)%nat then {| sv_len := S (sv_len v); sv_stack := <[sv_len v := val]> (sv_stack v); sv_heap := sv_heap v |}
  else {| sv_len := sv_len v; sv_stack := sv_stack v; sv_heap := sv_heap v ++ [val] |}.
Definition sv_iter (v : SmallVec) : list Z := take (sv_len v) (sv_stack v) ++ sv_heap v.
(** A loop over [iter_mut]: the stack, then the heap. *)
Definition sv_map_carry (f : Z → Z → Z * Z) (carry : Z) (v : SmallVec) : SmallVec * Z :=
  let '(st, carry) := map_carry f carry (take (sv_len v) (sv_stack v)) in
  let '(hp, carry) := map_carry f carry (sv_heap v) in
  ({| sv_len := sv_len v; sv_stack := st ++ drop (sv_len v) (sv_stack v); sv_heap := hp |}, carry).

Definition ret_step (carry ch : Z) : Z * Z :=
  let new_ch := as_u64 (ch * 256 + carry) in (wrap_u 8 (new_ch mod 26), new_ch / 26).
(** [while carry > 0], with [carry] turns at most. *)
Fixpoint push_carry (fuel : nat) (carry : Z) (ret : SmallVec) : SmallVec :=
  match fuel with
  | O => ret
  | S fuel => if 0 <? carry then push_carry fuel (carry / 26) (sv_push (wrap_u 8 (carry mod 26)) ret) else ret
  end.
(** The count of leading zeros is an [i32], as nothing else fixes the type of the
    literal; the release build wraps it around. *)
Definition format_byte (st : SmallVec * Z * bool) (d256 : Z) : SmallVec * Z * bool :=
  let '(ret, leading_zero_count, leading_zeroes) := st in
  let '(leading_zero_count, leading_zeroes) :=
    if leading_zeroes && (d256 =? 0) then (as_i32 (leading_zero_count + 1), leading_zeroes) else (leading_zero_count, false) in
  let '(ret, carry) := sv_map_carry ret_step d256 ret in
  (push_carry (Z.to_nat carry) carry ret, leading_zero_count, leading_zeroes).
Definition format_iter (data : list Z) : result Base58Error (list Z) :=
  let '(ret, leading_zero_count, _) := foldl format_byte (sv_new, 0, true) data in
  let ret := Nat.iter (Z.to_nat leading_zero_count) (sv_push 0) ret in
  mapR (λ ch, expect_opt (BASE26_CHARS !! Z.to_nat ch)) (reverse (sv_iter ret)).
Definition encode_slice (data : bytes) : result Base58Error bytes :=
  let data := u8_to_Z <$> data in (λ s : list Z, u8_of_Z <$> s) <$> format_iter data.

(** * Properties *)

(** ** Positional notation, least digit first *)

Fixpoint le_val (b : Z) (l : list Z) : Z := match l with [] => 0 | d :: l => d + b * le_val b l end.
Notation digits b := (Forall (λ d : Z, 0 ≤ d < b)).
(** No leading zero: the last digit is not zero. *)
Definition canonical (b : Z) (l : list Z) : Prop := digits b l ∧ last l ≠ Some 0.

Section positional.
Context (b : Z) (Hb : 1 < b).

Lemma pow_S n : b ^ Z.of_nat (S n) = b * b ^ Z.of_nat n.
Proof. rewrite Nat2Z.inj_succ, Z.pow_succ_r; lia. Qed.
Lemma pow_pos_b n : 0 < b ^ Z.of_nat n.
Proof. apply Z.pow_pos_nonneg; lia. Qed.

Lemma le_val_bound l : digits b l → 0 ≤ le_val b l < b ^ Z.of_nat (length l).
Proof. induction 1 as [|d l Hd Hl IH]; [done|]. cbn [length le_val]. rewrite pow_S. nia. Qed.
Lemma le_val_app l k : le_val b (l ++ k) = le_val b l + b ^ Z.of_nat (length l) * le_val b k.
Proof.
induction l as [|d l IH]; [simpl; rewrite Z.pow_0_r; lia|]. cbn [app le_val length]. rewrite IH, pow_S. ring.
Qed.
Lemma le_val_zeros n : le_val b (replicate n 0) = 0.
Proof. induction n as [|n IH]; [done|]. simpl. rewrite IH. lia. Qed.

(** A number is canonical when it needs all its digits. *)
Lemma canonical_iff l : digits b l → l ≠ [] → last l ≠ Some 0 ↔ b ^ Z.of_nat (pred (length l)) ≤ le_val b l.
Proof.
destruct l as [|x l _] using rev_ind; [done|]. intros [Hl Hx]%Forall_app _. apply Forall_cons in Hx as [Hx _].
rewrite last_snoc, le_val_app, length_app. replace (pred (length l + length [x])) with (length l) by (simpl; lia).
pose proof (le_val_bound l Hl). pose proof (pow_pos_b (length l)). simpl. replace (x + b * 0) with x by lia. split.
- intros Hne. assert (x ≠ 0) by congruence. nia.
- intros Hle [= ->]. nia.
Qed.

Lemma canonical_unique l k : canonical b l → canonical b k → le_val b l = le_val b k → l = k.
Proof.
assert (∀ d l, canonical b (d :: l) → 0 < le_val b (d :: l)) as Hpos.
{ intros d l' [Hd Hl]. apply canonical_iff in Hl; [|done..]. pose proof (pow_pos_b (pred (length (d :: l')))). lia. }
assert (∀ d l, canonical b (d :: l) → canonical b l) as Htl.
{ intros d [|x l'] [[_ Hd]%Forall_cons Hl]; by split. }
revert k. induction l as [|d l IH]; intros [|e k] Hl Hk E; [done|apply Hpos in Hk; simpl in *; lia|apply Hpos in Hl; simpl in *; lia|].
assert (d = e ∧ le_val b l = le_val b k) as [-> Hv].
{ destruct Hl as [[Hd _]%Forall_cons _], Hk as [[He _]%Forall_cons _]. cbn [le_val] in E.
  assert (le_val b l - le_val b k = 0) by nia. split; lia. }
f_equal. apply IH; eauto.
Qed.
End positional.

(** ** Loops with a carry *)

Lemma map_carry_app f c l k :
  map_carry f c (l ++ k) = let '(l', c) := map_carry f c l in let '(k', c) := map_carry f c k in (l' ++ k', c).
Proof.
revert c. induction l as [|d l IH]; intros c; cbn [app map_carry]; [by destruct (map_carry f c k)|].
destruct (f c d) as [d' c1]. rewrite IH. destruct (map_carry f c1 l) as [l' c2]. by destruct (map_carry f c2 k).
Qed.
Lemma map_carry_length f c l : length (map_carry f c l).1 = length l.
Proof.
revert c. induction l as [|d l IH]; intros c; [done|]. cbn [map_carry]. destruct (f c d) as [d' c1]. specialize (IH c1).
destruct (map_carry f c1 l). simpl in *. by rewrite IH.
Qed.

(** Multiplying by [k] and adding a carry of at most [K]. *)
Definition carries (b k K : Z) (f : Z → Z → Z * Z) : Prop :=
  ∀ c d, 0 ≤ c ≤ K → 0 ≤ d < b → f c d = ((c + k * d) mod b, (c + k * d) / b) ∧ 0 ≤ (c + k * d) / b ≤ K.
Lemma map_carry_spec b k K f c l : 1 < b → carries b k K f → 0 ≤ c ≤ K → digits b l →
  ∃ l' c', map_carry f c l = (l', c') ∧ digits b l' ∧ length l' = length l ∧ 0 ≤ c' ≤ K ∧
    le_val b l' + b ^ Z.of_nat (length l) * c' = c + k * le_val b l.
Proof.
intros Hb Hf. revert c. induction l as [|d l IH]; intros c Hc Hl.
{ exists [], c. repeat split; try done; try lia. simpl. rewrite Z.pow_0_r. lia. }
apply Forall_cons in Hl as [Hd Hl]. destruct (Hf c d Hc Hd) as [E Hq].
destruct (IH _ Hq Hl) as (l' & c' & E' & Hl' & Hn & Hc' & Hv). exists ((c + k * d) mod b :: l'), c'.
cbn [map_carry]. rewrite E, E'. pose proof (Z.mod_pos_bound (c + k * d) b ltac:(lia)).
pose proof (Z.div_mod (c + k * d) b ltac:(lia)).
repeat split; try (simpl; lia); [by constructor; [lia|]|]. cbn [le_val length]. rewrite pow_S by lia. nia.
Qed.

Lemma scratch_carries : carries 256 26 25 scratch_step.
Proof.
intros c d Hc Hd. unfold scratch_step, wrap_u. cbv zeta. rewrite (Z.mod_small _ (2 ^ 32)) by lia.
replace (c + d * 26) with (c + 26 * d) by lia. change (2 ^ 8) with 256. split; [done|].
split; [apply Z.div_pos; lia|]. apply Z.lt_succ_r, Z.div_lt_upper_bound; lia.
Qed.
Lemma ret_carries : carries 26 256 255 ret_step.
Proof.
intros c d Hc Hd. unfold ret_step, wrap_u. cbv zeta. rewrite (Z.mod_small _ (2 ^ 64)) by lia.
replace (d * 256 + c) with (c + 256 * d) by lia. pose proof (Z.mod_pos_bound (c + 256 * d) 26 ltac:(lia)).
rewrite (Z.mod_small _ (2 ^ 8)) by lia. split; [done|].
split; [apply Z.div_pos; lia|]. apply Z.lt_succ_r, Z.div_lt_upper_bound; lia.
Qed.

(** ** Decoding *)

Definition letter (c : Z) : Prop := 97 ≤ c < 123.
(** The number that a text stands for. *)
Definition text_val (l : list Z) : Z := le_val 26 (reverse (Z.add (-97) <$> l)).

Lemma text_val_snoc l c : text_val (l ++ [c]) = (c - 97) + 26 * text_val l.
Proof. unfold text_val. rewrite fmap_app, reverse_app. simpl. lia. Qed.
Lemma text_val_bound l : Forall letter l → 0 ≤ text_val l < 26 ^ Z.of_nat (length l).
Proof.
intros Hl. unfold text_val. rewrite <-(length_fmap (Z.add (-97)) l), <-length_reverse. apply le_val_bound; [lia|].
apply Forall_reverse, Forall_fmap. eapply Forall_impl; [exact Hl|]. unfold letter. simpl. lia.
Qed.

Lemma digit_letter c : letter c → BASE26_DIGITS !! Z.to_nat c = Some (Some (c - 97)).
Proof.
intros Hc. assert (c ∈ seqZ 97 26) as Hin by (apply elem_of_seqZ; unfold letter in Hc; lia). clear Hc. revert c Hin.
apply Forall_forall. by_decision.
Qed.
Lemma digit_other c : 0 ≤ c < 128 → ¬ letter c → BASE26_DIGITS !! Z.to_nat c = Some None.
Proof.
intros Hc Hn. assert (c ∈ seqZ 0 97 ++ seqZ 123 5) as Hin by (rewrite elem_of_app, !elem_of_seqZ; unfold letter in Hn; lia).
clear Hc Hn. revert c Hin. apply Forall_forall. by_decision.
Qed.

Lemma from_digit_letter s c :
  digits 256 s → letter c → 26 * le_val 256 (reverse s) + (c - 97) < 256 ^ Z.of_nat (length s) →
  ∃ s', from_digit s c = Ok s' ∧ digits 256 s' ∧ length s' = length s ∧
    le_val 256 (reverse s') = (c - 97) + 26 * le_val 256 (reverse s).
Proof.
intros Hs Hc Hv. unfold from_digit. change (Z.of_nat (length BASE26_DIGITS)) with 128.
rewrite digit_letter by done. unfold letter in Hc. destruct (Z.ltb_spec 128 c); [lia|].
destruct (map_carry_spec 256 26 25 scratch_step (c - 97) (reverse s)) as (l' & c' & -> & Hl & Hn & Hc' & Hval);
  [lia|apply scratch_carries|lia|by apply Forall_reverse|].
rewrite length_reverse in *. pose proof (pow_pos_b 256 ltac:(lia) (length s)).
pose proof (le_val_bound 256 ltac:(lia) l' Hl).
assert (c' = 0) as -> by nia. simpl. exists (reverse l').
rewrite length_reverse, reverse_involutive. repeat split; [by apply Forall_reverse|done|lia].
Qed.

(** Three bytes for five letters, and one more, are always enough. *)
Lemma scratch_fits n : 26 ^ Z.of_nat n < 256 ^ Z.of_nat (1 + n * 9 / 15).
Proof.
assert (∀ q, 26 ^ Z.of_nat (5 * q) ≤ 256 ^ Z.of_nat (3 * q)) as Hq.
{ intros q. rewrite !Nat2Z.inj_mul, !Z.pow_mul_r by lia. apply Z.pow_le_mono_l. split; [lia|]. vm_compute. discriminate. }
rewrite (Nat.div_mod_eq n 5). set (q := (n / 5)%nat). pose proof (Nat.mod_upper_bound n 5 ltac:(lia)) as Hr.
set (r := (n mod 5)%nat) in *.
assert ((5 * q + r) * 9 / 15 = 3 * q + r * 9 / 15)%nat as ->.
{ replace ((5 * q + r) * 9)%nat with (r * 9 + (3 * q) * 15)%nat by lia. rewrite Nat.div_add by lia. lia. }
replace (1 + (3 * q + r * 9 / 15))%nat with (3 * q + (1 + r * 9 / 15))%nat by lia.
rewrite !(Nat2Z.inj_add _ (_ + _)%nat), (Nat2Z.inj_add (5 * q)), !Z.pow_add_r by lia. specialize (Hq q).
assert (26 ^ Z.of_nat r < 256 ^ Z.of_nat (1 + r * 9 / 15)) as Hlt.
{ clear -Hr. destruct r as [|[|[|[|[|r]]]]]; [vm_compute; done..|lia]. }
pose proof (pow_pos_b 26 ltac:(lia) (5 * q)). pose proof (pow_pos_b 26 ltac:(lia) r). nia.
Qed.

Lemma fold_letters n ls : ∀ done_ s,
  Forall letter (done_ ++ ls) → (length done_ + length ls ≤ n)%nat → digits 256 s → length s = (1 + n * 9 / 15)%nat →
  le_val 256 (reverse s) = text_val done_ →
  ∃ s', foldR from_digit s ls = Ok s' ∧ digits 256 s' ∧ length s' = length s ∧ le_val 256 (reverse s') = text_val (done_ ++ ls).
Proof.
induction ls as [|c ls IH]; intros dn s Hl Hn Hs Hlen Hv.
{ exists s. rewrite app_nil_r. done. }
assert (letter c) as Hc by (apply Forall_app in Hl as [_ Hl]; by apply Forall_cons in Hl as [? _]).
assert (26 * le_val 256 (reverse s) + (c - 97) < 256 ^ Z.of_nat (length s)) as Hfit.
{ rewrite Hv, Hlen. pose proof (scratch_fits n). replace (26 * text_val dn + (c - 97)) with (text_val (dn ++ [c])) by (rewrite text_val_snoc; lia).
  rewrite (cons_middle c dn ls), (assoc_L (++)) in Hl. apply Forall_app in Hl as [Hl _]. apply text_val_bound in Hl.
  rewrite length_app in Hl. assert (26 ^ Z.of_nat (length dn + length [c]) ≤ 26 ^ Z.of_nat n); [|lia].
  apply Z.pow_le_mono_r; simpl in *; lia. }
destruct (from_digit_letter s c Hs Hc Hfit) as (s1 & E & Hs1 & Hlen1 & Hv1).
destruct (IH (dn ++ [c]) s1) as (s' & E' & ? & ? & ?).
- by rewrite <-(assoc_L (++)).
- rewrite length_app. simpl in *. lia.
- done.
- by rewrite Hlen1.
- by rewrite text_val_snoc, Hv1, Hv.
- exists s'. cbn [foldR]. rewrite E. cbn. rewrite E'. rewrite <-(assoc_L (++)) in *. split_and!; try done. by rewrite <-Hlen1.
Qed.

(** ** The small vector is a list *)

Definition sv_wf (v : SmallVec) : Prop := length (sv_stack v) = 100%nat ∧ (sv_len v ≤ 100)%nat ∧ (sv_heap v ≠ [] → sv_len v = 100%nat).

Lemma sv_push_iter x v : sv_wf v → sv_wf (sv_push x v) ∧ sv_iter (sv_push x v) = sv_iter v ++ [x].
Proof.
intros (Hs & Hl & Hh). unfold sv_push, sv_iter, sv_wf. destruct (Nat.ltb_spec (sv_len v) 100); simpl.
- assert (sv_heap v = []) as -> by (destruct (sv_heap v); [done|rewrite Hh in *; done || lia]).
  rewrite length_insert, !app_nil_r. split; [split_and!; [done|lia|done]|].
  rewrite insert_take_drop by lia. rewrite cons_middle, (assoc_L (++)), take_app_length'; [done|].
  rewrite length_app, length_take. simpl. lia.
- split; [split_and!; [done|done|lia]|]. by rewrite (assoc_L (++)).
Qed.

Lemma sv_map_carry_iter f c v : sv_wf v →
  sv_wf (sv_map_carry f c v).1 ∧ (sv_iter (sv_map_carry f c v).1, (sv_map_carry f c v).2) = map_carry f c (sv_iter v).
Proof.
intros (Hs & Hl & Hh). unfold sv_map_carry, sv_iter, sv_wf. rewrite map_carry_app.
pose proof (map_carry_length f c (take (sv_len v) (sv_stack v))) as H1.
destruct (map_carry f c (take (sv_len v) (sv_stack v))) as [st c1]. simpl in H1. rewrite length_take in H1.
pose proof (map_carry_length f c1 (sv_heap v)) as H2. destruct (map_carry f c1 (sv_heap v)) as [hp c2]. simpl in *.
split.
- split_and!; [rewrite length_app, length_drop; lia|done|]. intros Hp. apply Hh. intros E. rewrite E in H2. by destruct hp.
- by rewrite take_app_length' by lia.
Qed.

(** The digits of a carry are appended. *)
Lemma push_carry_iter fuel : ∀ c v, sv_wf v → 0 ≤ c → (Z.to_nat c ≤ fuel)%nat →
  sv_wf (push_carry fuel c v) ∧ ∃ l, sv_iter (push_carry fuel c v) = sv_iter v ++ l ∧ canonical 26 l ∧ le_val 26 l = c.
Proof.
assert (canonical 26 []) as H0 by by split.
induction fuel as [|fuel IH]; intros c v Hv Hc Hf; cbn [push_carry].
{ split; [done|]. exists []. rewrite app_nil_r. split_and!; [done..|simpl; lia]. }
destruct (Z.ltb_spec 0 c); cycle 1.
{ split; [done|]. exists []. rewrite app_nil_r. split_and!; [done..|simpl; lia]. }
destruct (sv_push_iter (wrap_u 8 (c mod 26)) v Hv) as [Hw Hi].
pose proof (Z.mod_pos_bound c 26 ltac:(lia)). pose proof (Z.div_mod c 26 ltac:(lia)).
assert (0 ≤ c / 26 < c) as Hq by (split; [apply Z.div_pos; lia|apply Z.div_lt; lia]).
destruct (IH (c / 26) _ Hw) as (Hw' & l & Hi' & [Hd Hz] & Hval); [lia..|].
assert (wrap_u 8 (c mod 26) = c mod 26) as Em by (apply wrap_u_id; unfold in_u; lia). rewrite Em in *.
split; [done|]. exists (c mod 26 :: l). rewrite Hi', Hi, <-(assoc_L (++)).
split_and!; [done| |simpl; lia]. split; [by constructor|]. destruct l as [|x l]; [simpl in *|done]. intros [=]. lia.
Qed.

(** ** Encoding *)

Lemma canonical_mul_add c l l' c' pushed :
  canonical 26 l → digits 26 l' → length l' = length l → 0 ≤ c → 0 ≤ c' → canonical 26 pushed → le_val 26 pushed = c' →
  le_val 26 l' + 26 ^ Z.of_nat (length l) * c' = c + 256 * le_val 26 l →
  canonical 26 (l' ++ pushed) ∧ le_val 26 (l' ++ pushed) = c + 256 * le_val 26 l.
Proof.
intros [Hl Hz] Hl' Hn Hc Hc' [Hp Hpz] Hpv Hv.
assert (le_val 26 (l' ++ pushed) = c + 256 * le_val 26 l) as E by (rewrite le_val_app, Hn by lia; lia).
split; [|done]. split; [by apply Forall_app|].
destruct pushed as [|x q]; [|by rewrite last_app_cons].
rewrite app_nil_r in *. destruct (decide (l' = [])) as [->|Hne']; [done|].
assert (l ≠ []) as Hne by (intros ->; by destruct l').
rewrite (canonical_iff 26) by (done || lia). rewrite Hn, E.
rewrite (canonical_iff 26) in Hz by (done || lia). pose proof (le_val_bound 26 ltac:(lia) l Hl). lia.
Qed.

(** Leading zeros are counted until the first other byte. *)
Definition zeros_of (data : list Z) (n : nat) (leading : bool) : Prop :=
  if leading then data = replicate n 0 else ∃ x rest, data = replicate n 0 ++ x :: rest ∧ x ≠ 0.

Lemma format_bytes data : ∀ pre st n lz, Forall (λ d, 0 ≤ d < 256) data →
  sv_wf st → canonical 26 (sv_iter st) → le_val 26 (sv_iter st) = le_val 256 (reverse pre) → zeros_of pre n lz →
  ∃ st' n' lz', foldl format_byte (st, as_i32 (Z.of_nat n), lz) data = (st', as_i32 (Z.of_nat n'), lz') ∧ sv_wf st' ∧ canonical 26 (sv_iter st') ∧
    le_val 26 (sv_iter st') = le_val 256 (reverse (pre ++ data)) ∧ zeros_of (pre ++ data) n' lz'.
Proof.
induction data as [|d data IH]; intros pre st n lz Hd Hw Hcan Hv Hz.
{ exists st, n, lz. rewrite app_nil_r. done. }
apply Forall_cons in Hd as [Hd Hdata]. cbn [foldl]. rewrite (cons_middle d pre data), (assoc_L (++)).
destruct (format_byte (st, as_i32 (Z.of_nat n), lz) d) as [[st1 z1] lz1] eqn:E.
assert (∃ n1, z1 = as_i32 (Z.of_nat n1) ∧ zeros_of (pre ++ [d]) n1 lz1 ∧ sv_wf st1 ∧ canonical 26 (sv_iter st1) ∧
  le_val 26 (sv_iter st1) = d + 256 * le_val 26 (sv_iter st)) as (n1 & -> & Hz1 & Hw1 & Hc1 & Hv1).
{ unfold format_byte in E. destruct (sv_map_carry_iter ret_step d st Hw) as [Hw1 Hm].
  destruct (map_carry_spec 26 256 255 ret_step d (sv_iter st)) as (l' & c' & Em & Hl' & Hn & Hc' & Hval);
    [lia|apply ret_carries|lia|apply Hcan|]. rewrite Em in Hm.
  destruct (sv_map_carry ret_step d st) as [ret carry]. simpl in Hw1, Hm. injection Hm as Hit ->.
  destruct (push_carry_iter (Z.to_nat c') c' ret Hw1) as (Hw2 & pushed & Hp & Hpc & Hpv); [lia|done|].
  destruct (canonical_mul_add d (sv_iter st) l' c' pushed) as [Hcc Hcv]; try done; try lia.
  rewrite Hit in Hp. assert (∃ n1, z1 = as_i32 (Z.of_nat n1) ∧ zeros_of (pre ++ [d]) n1 lz1 ∧ st1 = push_carry (Z.to_nat c') c' ret) as (n1 & -> & Hz1 & ->).
  { destruct lz; cbn [andb] in E; [destruct (Z.eqb_spec d 0) as [->|Hd0]|]; injection E as <- <- <-;
      [exists (S n)|exists n..]; (split; [|split; [|done]]); cbn [zeros_of] in *; try done.
    - rewrite wrap_s_add_l. f_equal. lia.
    - rewrite Hz. by rewrite <-(replicate_cons_app n 0).
    - exists d, []. by rewrite Hz.
    - destruct Hz as (x & rest & -> & Hx). exists x, (rest ++ [d]). by rewrite <-(assoc_L (++)). }
  exists n1. rewrite Hp. done. }
destruct (IH (pre ++ [d]) st1 n1 lz1) as (st' & n' & lz' & Hfin); try done.
- rewrite reverse_app. simpl. lia.
- by exists st', n', lz'.
Qed.

Lemma sv_push_zeros n v : sv_wf v → sv_wf (Nat.iter n (sv_push 0) v) ∧ sv_iter (Nat.iter n (sv_push 0) v) = sv_iter v ++ replicate n 0.
Proof.
intros Hv. induction n as [|n [Hw Hi]]; [by rewrite app_nil_r|]. simpl. destruct (sv_push_iter 0 _ Hw) as [Hw' ->].
split; [done|]. by rewrite Hi, <-(assoc_L (++)), <-replicate_cons_app.
Qed.

Lemma chars_of ds : digits 26 ds →
  mapR (λ ch, expect_opt (E := Base58Error) (BASE26_CHARS !! Z.to_nat ch)) ds = Ok (Z.add 97 <$> ds).
Proof.
induction 1 as [|d l Hd Hl IH]; [done|]. cbn [mapR]. rewrite IH. unfold BASE26_CHARS.
rewrite lookup_seqZ_lt by lia. rewrite fmap_cons. cbn. do 2 f_equal. rewrite Z2Nat.id; lia.
Qed.

(** A list is a run of one element and a rest that does not start with it. *)
Lemma leading_run (x : Z) l : ∃ n rest, l = replicate n x ++ rest ∧ head rest ≠ Some x.
Proof.
induction l as [|y l (n & rest & -> & Hr)]; [by exists 0%nat, []|].
destruct (decide (y = x)) as [->|Hne]; [by exists (S n), rest|]. exists 0%nat, (y :: replicate n x ++ rest).
split; [done|]. simpl. congruence.
Qed.
Lemma run_unique (x : Z) n n' r r' :
  replicate n x ++ r = replicate n' x ++ r' → head r ≠ Some x → head r' ≠ Some x → n = n' ∧ r = r'.
Proof.
revert n'. induction n as [|n IH]; intros [|n'] E Hr Hr'; simpl in E; [done|by subst r|by subst r'|].
injection E as E. destruct (IH n') as [-> ->]; done.
Qed.
Lemma while_run (x : Z) n rest : head rest ≠ Some x →
  take_while (λ y, y =? x) (replicate n x ++ rest) = replicate n x ∧ skip_while (λ y, y =? x) (replicate n x ++ rest) = rest.
Proof.
intros Hr. induction n as [|n [IH1 IH2]]; simpl; [|by rewrite Z.eqb_refl, IH1, IH2].
destruct rest as [|y rest]; [done|]. simpl in *. destruct (Z.eqb_spec y x); [congruence|done].
Qed.
Lemma le_val_leading b n l : 1 < b → le_val b (reverse (replicate n 0 ++ l)) = le_val b (reverse l).
Proof. intros Hb. rewrite reverse_app, reverse_replicate, le_val_app, le_val_zeros by lia. lia. Qed.

Lemma canonical_reverse b l : digits b l → head l ≠ Some 0 → canonical b (reverse l).
Proof. intros Hl Hh. split; [by apply Forall_reverse|]. by rewrite last_reverse. Qed.

Lemma bytes_digits data : digits 256 (u8_to_Z <$> data).
Proof. apply Forall_fmap, Forall_forall. intros b _. apply u8_to_Z_range. Qed.
Lemma u8_fmap_of l : digits 256 l → u8_to_Z <$> (u8_of_Z <$> l) = l.
Proof.
intros Hl. rewrite <-list_fmap_compose. rewrite <-(list_fmap_id l) at 2. apply Forall_fmap_ext_1.
eapply Forall_impl; [exact Hl|]. intros x Hx. simpl. rewrite u8_to_of. by apply Z.mod_small.
Qed.
Lemma u8_fmap_to (data : bytes) : u8_of_Z <$> (u8_to_Z <$> data) = data.
Proof.
rewrite <-list_fmap_compose. rewrite <-(list_fmap_id data) at 2. apply list_fmap_ext. intros _ b _. apply u8_of_to.
Qed.

(** How many letters are written for [n] leading zeros. *)
Definition zeros_written (n : nat) : nat := Z.to_nat (as_i32 (Z.of_nat n)).
Lemma zeros_written_iff n : zeros_written n = n ↔ Z.of_nat n < 2 ^ 31.
Proof.
unfold zeros_written. split; intros H.
- pose proof (wrap_s_in 32 (Z.of_nat n) ltac:(lia)) as Hw. unfold in_s in Hw. change (2 ^ (32 - 1)) with (2 ^ 31) in Hw. lia.
- rewrite wrap_s_id; [lia|lia|]. unfold in_s. change (2 ^ (32 - 1)) with (2 ^ 31). lia.
Qed.

(** Encoding counts the leading zeros and writes the rest as a number. *)
Lemma encode_spec data n rest :
  u8_to_Z <$> data = replicate n 0 ++ rest → head rest ≠ Some 0 →
  ∃ ds, canonical 26 ds ∧ le_val 26 ds = le_val 256 (reverse rest) ∧
    encode_slice data = Ok (u8_of_Z <$> (replicate (zeros_written n) 97 ++ (Z.add 97 <$> reverse ds))).
Proof.
intros Hz Hr. destruct (format_bytes (u8_to_Z <$> data) [] sv_new 0 true) as (st & n' & lz & E & Hw & Hc & Hv & Hn).
{ apply bytes_digits. } { split; [done|split; [simpl; lia|done]]. } { by split. } { done. } { done. }
assert (n' = n) as ->.
{ simpl in Hn. rewrite Hz in Hn. destruct lz; simpl in Hn.
  - rewrite <-(app_nil_r (replicate n' 0)) in Hn. symmetry. by eapply run_unique.
  - destruct Hn as (x & rest' & Hn & Hx). symmetry. eapply run_unique; [exact Hn|done|]. simpl. congruence. }
exists (sv_iter st). simpl in Hv. rewrite Hz, le_val_leading in Hv by lia. split_and!; [done|done|].
unfold encode_slice, format_iter. change (as_i32 (Z.of_nat 0)) with 0 in E. rewrite E. fold (zeros_written n). destruct (sv_push_zeros (zeros_written n) st Hw) as [_ ->].
rewrite reverse_app, reverse_replicate, chars_of.
- rewrite fmap_app, fmap_replicate. done.
- apply Forall_app. split; [apply Forall_replicate; lia|]. by apply Forall_reverse, Hc.
Qed.

(** Decoding letters. *)
Lemma from_spec data n rest :
  Forall letter (u8_to_Z <$> data) → u8_to_Z <$> data = replicate n 97 ++ rest → head rest ≠ Some 97 →
  ∃ t, digits 256 t ∧ head t ≠ Some 0 ∧ le_val 256 (reverse t) = text_val rest ∧ from data = Ok (u8_of_Z <$> (replicate n 0 ++ t)).
Proof.
intros Hl Hz Hr. unfold from.
set (len := length (u8_to_Z <$> data)).
destruct (fold_letters len (u8_to_Z <$> data) [] (replicate (1 + len * 9 / 15) 0)) as (s & E & Hs & _ & Hv); try done.
{ apply Forall_replicate. lia. } { by rewrite length_replicate. } { by rewrite reverse_replicate, le_val_zeros. }
rewrite E. simpl in Hv. destruct (leading_run 0 s) as (m & t & -> & Ht). rewrite le_val_leading in Hv by lia.
exists t. apply Forall_app in Hs as [_ Hs]. split_and!; [done|done| |].
- rewrite Hv, Hz. unfold text_val. rewrite fmap_app, fmap_replicate. by apply le_val_leading.
- cbn [mbind result_bind]. rewrite Hz. destruct (while_run 97 n rest Hr) as [-> _]. destruct (while_run 0 m t Ht) as [_ ->].
  by rewrite fmap_replicate.
Qed.

(** The text of a number, with its leading letters for zero. *)
Lemma text_of_digits n ds : canonical 26 ds →
  Forall letter (replicate n 97 ++ (Z.add 97 <$> reverse ds)) ∧ head (Z.add 97 <$> reverse ds) ≠ Some 97 ∧
  text_val (Z.add 97 <$> reverse ds) = le_val 26 ds.
Proof.
intros [Hd Hz]. split_and!.
- apply Forall_app. split; [apply Forall_replicate; unfold letter; lia|]. apply Forall_fmap, Forall_reverse.
  eapply Forall_impl; [exact Hd|]. unfold letter. simpl. lia.
- rewrite fmap_reverse, head_reverse, fmap_last. destruct (last ds) as [x|]; [|done]. simpl. intros [= E]. assert (x = 0) as -> by lia. done.
- unfold text_val. rewrite <-list_fmap_compose. rewrite (list_fmap_ext _ id), list_fmap_id, reverse_involutive; [done|].
  intros _ x _. simpl. lia.
Qed.
Lemma letters_bytes l : Forall letter l → digits 256 l.
Proof. intros Hl. eapply Forall_impl; [exact Hl|]. unfold letter. lia. Qed.

(** C32: What is encoded is decoded: every sequence of bytes has a text in base 26, and
    decoding it never fails; it gives the bytes back exactly when they start with fewer
    than 2^31 zeros, and from there on, as the count of the zeros wraps around, it
    gives something else. *)
Theorem base26_roundtrip data :
  ∃ s b, encode_slice data = Ok s ∧ from s = Ok b ∧
    (b = data ↔ Z.of_nat (length (take_while (λ x, x =? 0) (u8_to_Z <$> data))) < 2 ^ 31).
Proof.
destruct (leading_run 0 (u8_to_Z <$> data)) as (n & rest & Hz & Hr).
destruct (encode_spec data n rest Hz Hr) as (ds & Hc & Hv & ->). eexists _, (u8_of_Z <$> (replicate (zeros_written n) 0 ++ rest)).
split; [done|]. destruct (text_of_digits (zeros_written n) ds Hc) as (Hl & Hh & Ht). pose proof (u8_fmap_of _ (letters_bytes _ Hl)) as Hs.
destruct (from_spec (u8_of_Z <$> (replicate (zeros_written n) 97 ++ (Z.add 97 <$> reverse ds))) (zeros_written n) (Z.add 97 <$> reverse ds))
  as (t & Hd & Hh' & Hv' & ->); [by rewrite Hs..|done|].
pose proof (bytes_digits data) as Hb. rewrite Hz in Hb. apply Forall_app in Hb as [_ Hb].
assert (t = rest) as ->.
{ apply (inj reverse), (canonical_unique 256); [lia|by apply canonical_reverse|by apply canonical_reverse|by rewrite Hv', Ht]. }
split; [done|]. rewrite Hz, (proj1 (while_run 0 n rest Hr)), length_replicate, <-zeros_written_iff. split.
- intros E. assert (digits 256 (replicate (zeros_written n) 0 ++ rest)) as Hd' by (apply Forall_app; split; [apply Forall_replicate; lia|done]).
  apply (f_equal (fmap (M := list) u8_to_Z)) in E. rewrite u8_fmap_of, Hz in E by done. by eapply run_unique.
- intros ->. by rewrite <-Hz, u8_fmap_to.
Qed.

Lemma decode_encode data b :
  Forall letter (u8_to_Z <$> data) → Z.of_nat (length data) < 2 ^ 31 → from data = Ok b → encode_slice b = Ok data.
Proof.
intros Hl Hlen Hf. destruct (leading_run 97 (u8_to_Z <$> data)) as (n & rest & Hz & Hr).
destruct (from_spec data n rest Hl Hz Hr) as (t & Hd & Hh & Hv & E). rewrite Hf in E. injection E as ->.
assert (digits 256 (replicate n 0 ++ t)) as Hb by (apply Forall_app; split; [apply Forall_replicate; lia|done]).
destruct (encode_spec (u8_of_Z <$> (replicate n 0 ++ t)) n t) as (ds & Hc & Hv' & ->); [by apply u8_fmap_of|done|].
rewrite (proj2 (zeros_written_iff n)) by (rewrite <-(length_fmap u8_to_Z data), Hz, length_app, length_replicate in Hlen; lia).
assert (Z.add 97 <$> reverse ds = rest) as ->; [|by rewrite <-Hz, u8_fmap_to].
rewrite Hz in Hl. apply Forall_app in Hl as [_ Hl].
assert (ds = reverse (Z.add (-97) <$> rest)) as ->.
{ apply (canonical_unique 26); [lia|done| |by rewrite Hv', Hv]. apply canonical_reverse.
  - apply Forall_fmap. eapply Forall_impl; [exact Hl|]. unfold letter. simpl. lia.
  - destruct rest as [|x rest']; [done|]. simpl in *. intros [= E]. assert (x = 97) as -> by lia. done. }
rewrite reverse_involutive, <-list_fmap_compose. rewrite <-(list_fmap_id rest) at 2. apply list_fmap_ext. intros _ x _. simpl. lia.
Qed.

(** The first byte that is no letter decides. *)
Lemma fold_bad n s ls c ls' :
  Forall letter ls → (length ls ≤ n)%nat → digits 256 s → length s = (1 + n * 9 / 15)%nat → le_val 256 (reverse s) = 0 →
  ¬ letter c → 0 ≤ c → c ≠ 128 → foldR from_digit s (ls ++ c :: ls') = Err (BadByte c).
Proof.
intros Hl Hn Hs Hlen Hv Hc H0 H128.
destruct (fold_letters n ls [] s) as (s' & E & _); try done.
rewrite foldR_app, E. cbn [mbind result_bind foldR]. unfold from_digit. change (Z.of_nat (length BASE26_DIGITS)) with 128.
destruct (Z.ltb_spec 128 c); [done|]. by rewrite digit_other by (done || lia).
Qed.

Lemma utf8_first_128 ls c ls' : utf8_valid (ls ++ c :: ls') = true → Forall letter (u8_to_Z <$> ls) → u8_to_Z c ≠ 128.
Proof.
induction ls as [|a ls IH]; intros Hu Hl E.
- cbn [app utf8_valid] in Hu. unfold in_range in Hu. rewrite E in Hu. simpl in Hu. repeat (case_match; try done).
- rewrite fmap_cons in Hl. apply Forall_cons in Hl as [Ha Hl]. unfold letter in Ha. cbn [app utf8_valid] in Hu.
  assert (in_range a 0 127 = true) as Hr by (unfold in_range; apply andb_true_intro; rewrite !Z.leb_le; lia).
  rewrite Hr in Hu. by apply IH.
Qed.

(** Decoding a string never panics, although the check of the table's bounds is
    one too late: it answers the bytes whose text the string is, if the string is
    shorter than 2^31, or names the first byte that is no letter. *)
Theorem from_total data : utf8_valid data = true → Z.of_nat (length data) < 2 ^ 31 →
  (Forall letter (u8_to_Z <$> data) ∧ ∃ b, from data = Ok b ∧ encode_slice b = Ok data) ∨
  (∃ ls c ls', u8_to_Z <$> data = ls ++ c :: ls' ∧ Forall letter ls ∧ ¬ letter c ∧ from data = Err (BadByte c)).
Proof.
intros Hu Hlen. destruct (decide (Forall letter (u8_to_Z <$> data))) as [Hl|Hn].
- left. split; [done|]. destruct (leading_run 97 (u8_to_Z <$> data)) as (n & rest & Hz & Hr).
  destruct (from_spec data n rest Hl Hz Hr) as (t & _ & _ & _ & E). eexists. split; [exact E|]. by apply decode_encode.
- right. apply not_Forall_Exists, Exists_exists in Hn; [|apply _].
  assert (∃ ls c ls', u8_to_Z <$> data = ls ++ c :: ls' ∧ Forall letter ls ∧ ¬ letter c) as (ls & c & ls' & Hz & Hl & Hc).
  { destruct Hn as (x & Hx & Hnx). clear Hu. induction (u8_to_Z <$> data) as [|y l IH]; [by apply not_elem_of_nil in Hx|].
    destruct (decide (letter y)) as [Hy|Hy]; [|by exists [], y, l]. apply elem_of_cons in Hx as [->|Hx]; [done|].
    destruct (IH Hx) as (ls & c & ls' & -> & ? & ?). exists (y :: ls), c, ls'. split_and!; [done|by constructor|done]. }
  exists ls, c, ls'. split_and!; try done. unfold from. rewrite Hz.
  assert (∃ ls0 c0 ls0', data = ls0 ++ c0 :: ls0' ∧ ls = u8_to_Z <$> ls0 ∧ c = u8_to_Z c0) as (ls0 & c0 & ls0' & -> & -> & ->).
  { apply fmap_app_inv in Hz as (l1 & l2 & -> & Hz2 & ->). symmetry in Hz2.
    apply fmap_cons_inv in Hz2 as (c0 & l3 & -> & -> & ->). by exists l1, c0, l3. }
  rewrite fold_bad with (n := length ((u8_to_Z <$> ls0) ++ u8_to_Z c0 :: ls')); try done.
  + rewrite length_app. lia.
  + apply Forall_replicate. lia.
  + by rewrite length_replicate.
  + by rewrite reverse_replicate, le_val_zeros.
  + apply u8_to_Z_range.
  + by eapply utf8_first_128.
Qed.

(** A string that starts with a two-byte character is refused. *)
Lemma from_total_witness :
  let data := u8_of_Z <$> [98; 195; 128] in
  utf8_valid data = true ∧ (¬ Forall letter (u8_to_Z <$> data)) ∧ ∃ c, from data = Err (BadByte c).
Proof.
intros data. assert (utf8_valid data = true) as Hu by (vm_compute; reflexivity). split; [exact Hu|].
destruct (from_total data Hu ltac:(vm_compute; reflexivity)) as [[_ (b & Hb & _)]|(ls & c & ls' & Hz & _ & Hc & E)]; [vm_compute in Hb; discriminate Hb|].
split; [|exists c; exact E]. rewrite Hz. intros H. apply Forall_app in H as [_ H]. apply Forall_cons in H as [H _]. exact (Hc H).
Defined.
