(* ===== verification/RgMerkle.v ===== *)
(** * The Merkle tree of blocks

    src/util/rg_merkle.rs, with the double SHA-256 of keys/src/util/mod.rs.  A hash is
    the list of its bytes; the code's [u8; 32] is kept by its type.  What the code
    prints is left out.  The two loops that follow parents have no bound in the
    source: they get fuel, and [None] is a loop that goes on. *)

From stdpp Require Import base list.
From S2P Require Import Prelude Structs Schema.
#[local] Open Scope Z_scope.

(** rust-crypto's SHA-256. *)
Class Sha2 := sha256 : bytes → bytes.

Section rg_merkle.
Context {sha2 : Sha2}.

Definition dhash (input : bytes) : bytes := sha256 (sha256 input).
Definition merge_hash (l r : bytes) : bytes := dhash (l ++ r).

Record TempMerkleNode := { tn_parent : bytes; tn_left : bytes; tn_right : bytes }.

(** [if let Some(m) = store { m.push(..) }], and for several. *)
Definition store {A} (l : list A) (o : option (list A)) : option (list A) := (λ m, m ++ l) <$> o.

(** One pass of [round] over the chunks: the parents, the remainder and the map. *)
Fixpoint round_go (cs : list (list bytes)) (remainder : option bytes) (parents : list bytes)
    (map : option (list TempMerkleNode)) : result unit (list bytes * option bytes * option (list TempMerkleNode)) :=
  match cs with
  | [] => Ok (parents, remainder, map)
  | chunk :: cs =>
      match chunk !! 0%nat, chunk !! 1%nat with
      | None, _ => Panic
      | Some l, None => round_go cs (Some l) parents map
      | Some l, Some r =>
          let parent_hash := dhash (l ++ r) in
          round_go cs remainder (parents ++ [parent_hash])
            (store [{| tn_parent := parent_hash; tn_left := l; tn_right := r |}] map)
      end
  end.
Definition round (leafs : list bytes) (map : option (list TempMerkleNode)) := round_go (chunks 2 leafs) None [] map.

(** The loop of [build_root]: as many turns as there are hashes. *)
Fixpoint build_rounds (fuel : nat) (active_round : list bytes) (inter : option (list bytes))
    (map : option (list TempMerkleNode)) : option (result unit (bytes * option (list bytes) * option (list TempMerkleNode))) :=
  if (length active_round <=? 1)%nat then
    Some (match active_round !! 0%nat with Some root => Ok (root, inter, map) | None => Panic end)
  else match fuel with
  | O => None
  | S fuel =>
      match round active_round map with
      | Ok (this_round, remainder, map) =>
          let active := match remainder with
                        | Some r => if Nat.odd (length this_round) then this_round ++ [r] else this_round
                        | None => this_round
                        end in
          let inter := if (1 <? length active)%nat then store this_round inter else inter in
          build_rounds fuel active inter map
      | _ => Some Panic
      end
  end.
Definition build_root (leafs : list bytes) (inter : option (list bytes)) (map : option (list TempMerkleNode)) :
    option (result unit (bytes * option (list bytes) * option (list TempMerkleNode))) :=
  match leafs with
  | [input] => let root := dhash input in
      Some (Ok (root, inter, store [{| tn_parent := root; tn_left := input; tn_right := input |}] map))
  | _ => build_rounds (length leafs) leafs inter map
  end.

Definition root_of (r : option (result unit (bytes * option (list bytes) * option (list TempMerkleNode)))) : result unit bytes :=
  match r with Some (Ok (root, _, _)) => Ok root | Some (Err e) => Err e | _ => Panic end.
(** [clone_from_slice] panics unless a leaf has 32 bytes. *)
Definition build_root_simple (leafs : list bytes) : result unit Hash :=
  res ← mapR (λ l, if (length l =? 32)%nat then Ok l else Panic) leafs;
  root ← root_of (build_root res None None);
  Ok {| h_bytes := bytes_data root; h_format_type := HashFormatType_Sha3256; h_type := HashType_ObservationMerkleRoot |}.

(** ** Proofs *)

Definition is_child (h : bytes) (n : TempMerkleNode) : bool := bool_decide (tn_left n = h) || bool_decide (tn_right n = h).

Fixpoint create_proof (fuel : nat) (nodes : list TempMerkleNode) (find_hash : bytes) (proof : list bytes) : option (list bytes) :=
  match find (is_child find_hash) nodes with
  | None => Some proof
  | Some n =>
      match fuel with
      | O => None
      | S fuel => create_proof fuel nodes (tn_parent n) (proof ++ [tn_left n; tn_right n])
      end
  end.
Definition verify_proof (proof : list bytes) (hash : bytes) : result unit bool :=
  first ← expect_opt (proof !! 0%nat);
  second ← expect_opt (proof !! 1%nat);
  if negb (bool_decide (first = hash) || bool_decide (second = hash)) then Ok false
  else if (length proof =? 2)%nat then Ok (bool_decide (dhash first = second))
  else Ok true.

Fixpoint build_merkle_proof (fuel : nat) (root : bytes) (child_map : list TempMerkleNode) (active_node : bytes)
    (proof : list bytes) : option (result unit (list bytes)) :=
  if bool_decide (active_node = root) then Some (Ok proof) else
  match find (is_child active_node) child_map with
  | None => Some Panic
  | Some n =>
      match fuel with
      | O => None
      | S fuel => build_merkle_proof fuel root child_map (tn_parent n) (proof ++ [tn_left n; tn_right n])
      end
  end.

(** [chunks_exact(2)] on a proof of even length. *)
Fixpoint check_pairs (prev : option bytes) (leaf : bytes) (proof : list bytes) : option (option bytes) :=
  match proof with
  | l :: r :: rest =>
      let next_parent := merge_hash l r in
      let expected := default leaf prev in
      if bool_decide (expected = l) || bool_decide (expected = r) then check_pairs (Some next_parent) leaf rest else None
  | _ => Some prev
  end.
Definition verify_merkle_proof (root leaf : bytes) (proof : list bytes) : bool :=
  if Nat.odd (length proof) then false else
  match check_pairs None leaf proof with
  | Some prev => bool_decide (prev = Some root)
  | None => false
  end.

(** * Properties *)

(** ** One round *)

Fixpoint parents (l : list bytes) : list bytes :=
  match l with a :: b :: l => merge_hash a b :: parents l | _ => [] end.
Fixpoint odd_one (l : list bytes) : option bytes :=
  match l with [] => None | [x] => Some x | _ :: _ :: l => odd_one l end.
Fixpoint nodes (l : list bytes) : list TempMerkleNode :=
  match l with a :: b :: l => {| tn_parent := merge_hash a b; tn_left := a; tn_right := b |} :: nodes l | _ => [] end.
(** What the next round works on. *)
Definition next (l : list bytes) : list bytes :=
  match odd_one l with Some r => if Nat.odd (length (parents l)) then parents l ++ [r] else parents l | None => parents l end.

Lemma store_app {A} (l k : list A) o : store k (store l o) = store (l ++ k) o.
Proof. destruct o; simpl; [|done]. by rewrite <-(assoc_L (++)). Qed.
Lemma store_nil {A} (o : option (list A)) : store [] o = o.
Proof. destruct o; simpl; [|done]. by rewrite app_nil_r. Qed.

Lemma round_go_spec l : ∀ rem ps map,
  round_go (chunks 2 l) rem ps map = Ok (ps ++ parents l, match odd_one l with Some r => Some r | None => rem end, store (nodes l) map).
Proof.
induction l as [|x|a b l IH] using pair_ind; intros rem ps map.
- cbn. by rewrite app_nil_r, store_nil.
- cbn. by rewrite app_nil_r, store_nil.
- change (a :: b :: l) with ([a; b] ++ l). rewrite chunks_app by (simpl; lia). cbn [round_go lookup list_lookup].
  rewrite IH. cbn [app parents odd_one nodes]. unfold merge_hash. rewrite <-(assoc_L (++)), store_app. done.
Qed.
Lemma round_spec l map : round l map = Ok (parents l, odd_one l, store (nodes l) map).
Proof. unfold round. rewrite round_go_spec. by destruct (odd_one l). Qed.

Lemma parents_length l : length (parents l) = Nat.div2 (length l).
Proof. induction l as [|x|a b l IH] using pair_ind; [done..|]. simpl. by rewrite IH. Qed.
Lemma odd_one_odd l : odd_one l = None ↔ Nat.odd (length l) = false.
Proof. induction l as [|x|a b l IH] using pair_ind; [done..|]. simpl. by rewrite IH. Qed.
Lemma next_length l : (2 ≤ length l)%nat → (1 ≤ length (next l) < length l)%nat.
Proof.
intros Hl. unfold next. pose proof (parents_length l) as Hp. pose proof (Nat.div2_odd (length l)) as Hd.
destruct (odd_one l) eqn:E; [destruct (Nat.odd (length (parents l))) eqn:Eo|].
- rewrite length_app. simpl. assert (odd_one l ≠ None) as Hn by congruence. rewrite odd_one_odd in Hn.
  destruct (Nat.odd (length l)); [|done]. simpl in Hd.
  assert (Nat.div2 (length l) ≠ 0)%nat by (intros E0; rewrite Hp, E0 in Eo; done). lia.
- destruct (Nat.odd (length l)); simpl in Hd; lia.
- destruct (Nat.odd (length l)); simpl in Hd; lia.
Qed.

(** ** Every list of leaves has a root *)

Fixpoint rounds (fuel : nat) (l : list bytes) : option bytes :=
  if (length l <=? 1)%nat then head l else match fuel with O => None | S fuel => rounds fuel (next l) end.

Lemma build_rounds_S fuel l inter map : (2 ≤ length l)%nat →
  ∃ inter', build_rounds (S fuel) l inter map = build_rounds fuel (next l) inter' (store (nodes l) map).
Proof.
intros Hl. cbn [build_rounds]. destruct (Nat.leb_spec (length l) 1); [lia|]. rewrite round_spec. unfold next. by eexists.
Qed.

Lemma build_rounds_root fuel : ∀ l inter map, l ≠ [] → (length l ≤ fuel)%nat →
  ∃ root inter' map', build_rounds fuel l inter map = Some (Ok (root, inter', map')) ∧ rounds fuel l = Some root.
Proof.
induction fuel as [|fuel IH]; intros l inter map Hne Hl; [by destruct l; simpl in *; [|lia]|].
destruct (decide (2 ≤ length l)%nat) as [H2|H2].
- destruct (build_rounds_S fuel l inter map H2) as [inter' ->]. pose proof (next_length l H2).
  destruct (IH (next l) inter' (store (nodes l) map)) as (root & i & m & -> & Hr); [by destruct (next l); simpl in *; [lia|]|lia|].
  exists root, i, m. split; [done|]. cbn [rounds]. by destruct (Nat.leb_spec (length l) 1); [lia|].
- destruct l as [|x [|y l]]; [done| |simpl in *; lia]. by exists x, inter, map.
Qed.

(** Building a root ends for every non-empty list of leaves; on the empty list it
    panics. *)
Lemma rg_root_total leafs inter map :
  match leafs with
  | [] => build_root leafs inter map = Some Panic
  | _ => ∃ root inter' map', build_root leafs inter map = Some (Ok (root, inter', map'))
  end.
Proof.
destruct leafs as [|x [|y l]]; [done|by eexists _, _, _|].
destruct (build_rounds_root (length (x :: y :: l)) (x :: y :: l) inter map) as (root & i & m & E & _); [done..|].
by exists root, i, m.
Qed.

Lemma rounds_fuel f g l : (length l ≤ f)%nat → (length l ≤ g)%nat → rounds f l = rounds g l.
Proof.
revert g l. induction f as [|f IH]; intros g l Hf Hg.
- destruct l; [|simpl in *; lia]. by destruct g.
- destruct (decide (2 ≤ length l)%nat) as [H2|H2].
  + destruct g as [|g]; [lia|]. pose proof (next_length l H2). cbn [rounds]. destruct (Nat.leb_spec (length l) 1); [lia|].
    apply IH; lia.
  + destruct g; cbn [rounds]; (destruct (Nat.leb_spec (length l) 1); [done|lia]).
Qed.
Lemma root_of_rounds l : (2 ≤ length l)%nat → root_of (build_root l None None) = expect_opt (rounds (length l) l).
Proof.
intros Hl. destruct l as [|x [|y l]]; [simpl in *; lia..|]. cbn [build_root].
destruct (build_rounds_root (length (x :: y :: l)) (x :: y :: l) None None) as (root & i & m & E & Hr); [done..|].
rewrite E, Hr. done.
Qed.

(** ** Leaves that do not count *)

Lemma parents_app l k : Nat.odd (length l) = false → parents (l ++ k) = parents l ++ parents k.
Proof. revert k. induction l as [|x|a b l IH] using pair_ind; intros k Ho; [done..|]. cbn [app parents]. by rewrite IH. Qed.
Lemma odd_one_app l k : Nat.odd (length l) = false → odd_one (l ++ k) = odd_one k.
Proof. revert k. induction l as [|x|a b l IH] using pair_ind; intros k Ho; [done..|]. cbn [app odd_one]. by rewrite IH. Qed.
Lemma odd_double n : Nat.odd (2 * n) = false.
Proof. by rewrite Nat.odd_mul. Qed.

Lemma rounds_next f l : (2 ≤ length l ≤ S f)%nat → rounds (S f) l = rounds f (next l).
Proof. intros Hl. cbn [rounds]. by destruct (Nat.leb_spec (length l) 1); [lia|]. Qed.

Lemma rounds_ignore m : ∀ k leafs extra f,
  (0 < k)%nat → length leafs = (2 ^ m * (4 * k))%nat → length extra = (2 ^ m)%nat → (length (leafs ++ extra) ≤ f)%nat →
  rounds f (leafs ++ extra) = rounds f leafs.
Proof.
induction m as [|m IH]; intros k leafs extra f Hk Hl He Hf; rewrite length_app in Hf.
all: assert (0 < length extra)%nat by (rewrite He; apply Nat.neq_0_lt_0, Nat.pow_nonzero; lia).
all: destruct f as [|f]; [lia|].
all: assert (Nat.odd (length leafs) = false) as Ho
  by (rewrite Hl, !Nat.odd_mul; apply andb_false_r).
all: pose proof Ho as Hn; apply odd_one_odd in Hn.
- destruct extra as [|x [|y extra]]; [done| |done].
  rewrite !rounds_next by (rewrite ?length_app; simpl in *; lia). f_equal. unfold next.
  rewrite odd_one_app, parents_app by done. rewrite Hn. cbn [odd_one parents]. rewrite app_nil_r.
  assert (Nat.odd (length (parents leafs)) = false) as ->; [|done].
  rewrite parents_length, Hl. replace (2 ^ 0 * (4 * k))%nat with (2 * (2 * k))%nat by (simpl; lia).
  rewrite Nat.div2_double. apply odd_double.
- assert (Nat.odd (length extra) = false) as Hoe by (rewrite He; apply (odd_double (2 ^ m))).
  pose proof (proj2 (odd_one_odd extra) Hoe) as Hne.
  assert (2 ^ m ≠ 0)%nat by (apply Nat.pow_nonzero; lia).
  rewrite !rounds_next by (rewrite ?length_app; simpl in *; nia). unfold next.
  rewrite odd_one_app, parents_app, Hn, Hne by done.
  assert (length (parents leafs) = (2 ^ m * (4 * k))%nat) as Hpl.
  { rewrite parents_length, Hl. replace (2 ^ S m * (4 * k))%nat with (2 * (2 ^ m * (4 * k)))%nat by (simpl; lia).
    apply Nat.div2_double. }
  assert (length (parents extra) = (2 ^ m)%nat) as Hpe.
  { rewrite parents_length, He. apply (Nat.div2_double (2 ^ m)). }
  apply (IH k); [done..|]. rewrite length_app, Hpl, Hpe. simpl in *. nia.
Qed.

(** The root does not depend on every leaf: behind a multiple of four subtrees of
    equal size, one more subtree of that size is ignored, whatever it holds.  So a
    block of five transactions has the root of its first four. *)
Lemma trailing_leaves_ignored m k leafs extra :
  (0 < k)%nat → length leafs = (2 ^ m * (4 * k))%nat → length extra = (2 ^ m)%nat →
  root_of (build_root (leafs ++ extra) None None) = root_of (build_root leafs None None).
Proof.
intros Hk Hl He. assert (2 ^ m ≠ 0)%nat by (apply Nat.pow_nonzero; lia).
rewrite !root_of_rounds by (rewrite ?length_app; nia).
rewrite (rounds_ignore m k) by (done || lia). f_equal. apply rounds_fuel; [|done]. rewrite length_app. lia.
Qed.

Lemma build_root_simple_Ok leafs h : build_root_simple leafs = Ok h →
  ∃ root, root_of (build_root leafs None None) = Ok root ∧
    h = {| h_bytes := bytes_data root; h_format_type := HashFormatType_Sha3256; h_type := HashType_ObservationMerkleRoot |}.
Proof.
unfold build_root_simple. rewrite bind_Ok. intros (res & Hm%mapR_Ok & H). rewrite bind_Ok in H.
destruct H as (root & Hr & [= <-]). exists root. split; [|done].
assert (res = leafs) as ->; [|done]. clear Hr. induction Hm as [|a b l res Hab _ IH]; [done|].
destruct (_ =? _)%nat; simplify_eq. by f_equal.
Qed.

(** ** Proofs *)

(** The proofs that lead from a hash to the root. *)
Inductive merkle_path (root : bytes) : bytes → list bytes → Prop :=
| path_top h l r : h = l ∨ h = r → merge_hash l r = root → merkle_path root h [l; r]
| path_up h l r rest : h = l ∨ h = r → merkle_path root (merge_hash l r) rest → merkle_path root h (l :: r :: rest).

Lemma check_pairs_path root leaf proof : ∀ prev, Nat.odd (length proof) = false →
  (∃ x, check_pairs prev leaf proof = Some x ∧ x = Some root) ↔
  merkle_path root (default leaf prev) proof ∨ (proof = [] ∧ prev = Some root).
Proof.
induction proof as [|x|l r proof IH] using pair_ind; intros prev Ho; [|done|].
- simpl. split; [|by intros [H|[_ ->]]; [inversion H|eauto]]. intros (x & [= <-] & ->). by right.
- cbn [check_pairs]. specialize (IH (Some (merge_hash l r)) Ho). simpl default in *. split.
  + destruct (_ || _) eqn:E; [|by intros (? & ? & _)]. intros H. apply IH in H. left.
    apply orb_true_iff in E. rewrite !bool_decide_eq_true in E.
    destruct H as [H|[-> [= H]]]; [by apply path_up|by apply path_top].
  + intros [H|[? _]]; [|done]. inversion H as [? ? ? Hh Hm|? ? ? ? Hh Hp]; subst.
    * destruct (_ || _) eqn:E; [by exists (Some (merge_hash l r))|]. apply orb_false_iff in E.
      rewrite !bool_decide_eq_false in E. naive_solver.
    * destruct (_ || _) eqn:E; [apply IH; by left|]. apply orb_false_iff in E.
      rewrite !bool_decide_eq_false in E. naive_solver.
Qed.

(** Exactly the paths are accepted. *)
Lemma verify_merkle_proof_iff root leaf proof : verify_merkle_proof root leaf proof = true ↔ merkle_path root leaf proof.
Proof.
unfold verify_merkle_proof. destruct (Nat.odd (length proof)) eqn:Ho.
- split; [done|]. intros H. exfalso. revert Ho. induction H; [done|]. simpl. done.
- pose proof (check_pairs_path root leaf proof None Ho) as Hp. simpl in Hp. split.
  + destruct (check_pairs _ _ _) as [x|]; [|done]. intros ->%bool_decide_eq_true.
    destruct (proj1 Hp) as [?|[_ ?]]; [by eexists|done..].
  + intros H. destruct (proj2 Hp (or_introl H)) as (x & -> & ->). by apply bool_decide_eq_true.
Qed.

Lemma merkle_path_snoc root h proof n :
  merkle_path (tn_left n) h proof ∨ merkle_path (tn_right n) h proof ∨ (proof = [] ∧ is_child h n = true) →
  merge_hash (tn_left n) (tn_right n) = root → merkle_path root h (proof ++ [tn_left n; tn_right n]).
Proof.
intros H Hm. assert (∀ x, x = tn_left n ∨ x = tn_right n → merkle_path x h proof → merkle_path root h (proof ++ [tn_left n; tn_right n])) as Hs.
{ clear H. intros x Hx Hp. induction Hp as [h l r Hh Hp|h l r rest Hh Hp IH]; simpl; apply path_up; try done. apply path_top; [|done]. by rewrite Hp. }
destruct H as [H|[H|[-> H]]]; [by apply (Hs (tn_left n)); [left|]|by apply (Hs (tn_right n)); [right|]|].
apply path_top; [|done]. unfold is_child in H. apply orb_true_iff in H. rewrite !bool_decide_eq_true in H. naive_solver.
Qed.

Definition well_formed (n : TempMerkleNode) : Prop := tn_parent n = merge_hash (tn_left n) (tn_right n).
Lemma nodes_well_formed l : Forall well_formed (nodes l).
Proof. induction l as [|x|a b l IH] using pair_ind; [constructor..|]. simpl. by constructor. Qed.
Lemma build_rounds_map fuel : ∀ l inter ms root inter' map',
  build_rounds fuel l inter (Some ms) = Some (Ok (root, inter', map')) → Forall well_formed ms →
  ∃ ms', map' = Some ms' ∧ Forall well_formed ms'.
Proof.
induction fuel as [|fuel IH]; intros l inter ms root inter' map' H Hm.
- cbn [build_rounds] in H. destruct (_ <=? _)%nat; [|done]. destruct l; simpl in H; simplify_eq. by eexists.
- destruct (decide (2 ≤ length l)%nat) as [H2|H2].
  + destruct (build_rounds_S fuel l inter (Some ms) H2) as [i E]. rewrite E in H. simpl in H.
    eapply IH; [exact H|]. apply Forall_app. split; [done|apply nodes_well_formed].
  + cbn [build_rounds] in H. destruct (Nat.leb_spec (length l) 1); [|lia]. destruct l; simpl in H; simplify_eq. by eexists.
Qed.

Lemma find_child h nodes n : find (is_child h) nodes = Some n → n ∈ nodes ∧ is_child h n = true.
Proof. intros [H1 H2]%find_some. split; [by apply list_elem_of_In|done]. Qed.

Lemma build_proof_path fuel root ms leaf : ∀ active proof res, Forall well_formed ms →
  (proof = [] ∧ active = leaf) ∨ merkle_path active leaf proof → build_merkle_proof fuel root ms active proof = Some (Ok res) →
  (res = [] ∧ leaf = root) ∨ merkle_path root leaf res.
Proof.
induction fuel as [|fuel IH]; intros active proof res Hm Hp; cbn [build_merkle_proof];
  (case_bool_decide as Hr; [intros [= <-]; subst active; naive_solver|]);
  (destruct (find (is_child active) ms) as [n|] eqn:Ef; [|done]); [done|].
intros H. apply find_child in Ef as [Hin Hc]. rewrite Forall_forall in Hm. pose proof (Hm n Hin) as Hw. unfold well_formed in Hw.
rewrite <-Forall_forall in Hm. eapply IH; [done| |exact H]. right. apply merkle_path_snoc; [|done].
destruct Hp as [[-> ->]|Hp]; [by right; right|].
unfold is_child in Hc. apply orb_true_iff in Hc. rewrite !bool_decide_eq_true in Hc. destruct Hc as [->| ->]; auto.
Qed.

(** A proof that is built from the map of at least two leaves is accepted. *)
Lemma built_proof_verifies fuel leafs inter root inter' ms leaf proof :
  (2 ≤ length leafs)%nat → build_root leafs inter (Some []) = Some (Ok (root, inter', Some ms)) →
  build_merkle_proof fuel root ms leaf [] = Some (Ok proof) → leaf ≠ root → verify_merkle_proof root leaf proof = true.
Proof.
intros Hl Hb Hp Hne. destruct leafs as [|x [|y l]]; [simpl in *; lia..|].
apply build_rounds_map in Hb as (? & [= <-] & Hm); [|constructor].
apply verify_merkle_proof_iff. destruct (build_proof_path fuel root ms leaf leaf [] proof Hm) as [[_ ->]|H]; [by left|done|done|done].
Qed.

(** The only leaf of a tree has no accepted proof: the root of one leaf is its hash,
    the proof is checked against the hash of the leaf next to itself. *)
Lemma single_leaf_unprovable leaf root map :
  dhash (leaf ++ leaf) ≠ dhash leaf → leaf ≠ dhash leaf →
  build_root [leaf] None (Some []) = Some (Ok (root, None, map)) →
  ∃ ms, map = Some ms ∧ build_merkle_proof 1 root ms leaf [] = Some (Ok [leaf; leaf]) ∧
    verify_merkle_proof root leaf [leaf; leaf] = false.
Proof.
intros Hd Hl [= <- <-]. eexists. split; [done|]. split.
- assert (is_child leaf {| tn_parent := dhash leaf; tn_left := leaf; tn_right := leaf |} = true) as Hc
    by (unfold is_child; simpl; by rewrite bool_decide_eq_true_2).
  simpl. rewrite Hc, bool_decide_eq_false_2 by done. simpl. by rewrite bool_decide_eq_true_2.
- apply not_true_iff_false. rewrite verify_merkle_proof_iff. inversion 1 as [? ? ? _ Hm|? ? ? ? _ Hp]; subst; [|by inversion Hp].
  by unfold merge_hash in Hm.
Qed.

(** The older check accepts whatever follows the first pair. *)
Lemma verify_proof_accepts h other x rest : verify_proof (h :: other :: x :: rest) h = Ok true.
Proof. unfold verify_proof. cbn. by rewrite bool_decide_eq_true_2. Qed.
End rg_merkle.

(** * An example *)

Module RgMerkleDemo.
#[local] Instance demo_sha2 : Sha2 := λ l, le_bytes 32 (foldl (λ acc b, Z.land (acc * 257 + u8_to_Z b + 1) (Z.ones 40)) 7 l).
Definition leaf (z : Z) : bytes := replicate 32 (u8_of_Z z).
Lemma five_leaves :
  root_of (build_root ([leaf 1; leaf 2; leaf 3; leaf 4] ++ [leaf 5]) None None) =
  root_of (build_root [leaf 1; leaf 2; leaf 3; leaf 4] None None) ∧
  root_of (build_root [leaf 1; leaf 2; leaf 3; leaf 4] None None) ≠ root_of (build_root [leaf 1; leaf 2; leaf 4; leaf 3] None None).
Proof. vm_compute. split; [reflexivity|discriminate]. Qed.
End RgMerkleDemo.
