(* ===== verification/Block.v ===== *)
(** * Blocks

    schema/src/block.rs, the tables [block] and [address_block] with
    data/src/address_block.rs, the block of src/genesis.rs, and src/core/block_formation.rs,
    which cuts the accepted transactions into a chain of blocks.

    A table is a finite map from its primary key; a violated UNIQUE constraint is the
    error that sqlx reports.  A turn of the process is a function of the time, the
    store and the last block; row ids and metrics are left out. *)

From stdpp Require Import base list gmap strings pretty.
From S2P Require Import Prelude Structs Interfaces Schema Merkle Transaction Store Wire Keys RgMerkle.
#[local] Open Scope Z_scope.
#[local] Open Scope redgold_scope.

(** [metadata] is a message without fields. *)
Record Block := {
  bl_merkle_root : option Hash; bl_transactions : list Transaction; bl_struct_metadata : option StructMetadata;
  bl_previous_block_hash : option Hash; bl_metadata : option unit; bl_height : Z }.
Record AddressBlock := {
  ab_address : option Address; ab_balance : option CurrencyAmount; ab_height : Z; ab_hash : option Hash }.

Definition bl_with_metadata (m : option StructMetadata) (b : Block) : Block :=
  {| bl_merkle_root := bl_merkle_root b; bl_transactions := bl_transactions b; bl_struct_metadata := m;
     bl_previous_block_hash := bl_previous_block_hash b; bl_metadata := bl_metadata b; bl_height := bl_height b |}.
Definition bl_with_previous (h : option Hash) (b : Block) : Block :=
  {| bl_merkle_root := bl_merkle_root b; bl_transactions := bl_transactions b; bl_struct_metadata := bl_struct_metadata b;
     bl_previous_block_hash := h; bl_metadata := bl_metadata b; bl_height := bl_height b |}.

#[global] Instance Block_fields : MetadataFields Block :=
  {| struct_metadata_opt := bl_struct_metadata; set_struct_metadata := bl_with_metadata |}.
#[global] Instance Block_hash_clear : HashClear Block := λ b,
  {| bl_merkle_root := bl_merkle_root b; bl_transactions := []; bl_struct_metadata := hash_clear <$> bl_struct_metadata b;
     bl_previous_block_hash := bl_previous_block_hash b; bl_metadata := bl_metadata b; bl_height := bl_height b |}.

(** ** Tables *)

Record BlockRow := { br_height : Z; br_raw : bytes; br_time : Z }.
Record AddressBlockRow := { abr_balance : option Z; abr_height : option Z; abr_hash : option bytes }.
Record BlockDb := { bd_block : gmap bytes BlockRow; bd_address_block : gmap bytes AddressBlockRow }.
Definition empty_blocks : BlockDb := {| bd_block := ∅; bd_address_block := ∅ |}.
Definition with_block (f : gmap bytes BlockRow → gmap bytes BlockRow) (d : BlockDb) : BlockDb :=
  {| bd_block := f (bd_block d); bd_address_block := bd_address_block d |}.
Definition with_address_block (f : gmap bytes AddressBlockRow → gmap bytes AddressBlockRow) (d : BlockDb) : BlockDb :=
  {| bd_block := bd_block d; bd_address_block := f (bd_address_block d) |}.

Record AddressHistoricalBalance := { ahb_address : Address; ahb_balance : Z; ahb_height : Z }.

Section blocks.
Context {host : Host} {crypto : Crypto} {sql : Sql} {sha2 : Sha2}.
Context {pbl : Proto Block} {ptx : Proto Transaction}.

Notation BS := (M BlockDb ErrorInfo).

Definition Block_time (b : Block) : RgResult Z := s ← safe_get (bl_struct_metadata b); safe_get (sm_time s).

Definition address_rows_where (d : BlockDb) (p : bytes → AddressBlockRow → bool) : list (bytes * AddressBlockRow) :=
  List.filter (λ kr, p kr.1 kr.2) (map_to_list (bd_address_block d)).
Definition all_address_balance_by_height (d : BlockDb) (height : Z) : RgResult (list AddressHistoricalBalance) :=
  mapR (λ kr : bytes * AddressBlockRow,
          address ← Address_from_bytes kr.1;
          balance ← safe_get_msg (abr_balance kr.2) "Row missing balance";
          Ok {| ahb_address := address; ahb_balance := balance; ahb_height := height |})
    (address_rows_where d (λ _ r, bool_decide (abr_height r = Some height))).
Definition query_last_block (d : BlockDb) : RgResult (option Block) :=
  match order_by_desc br_height (snd <$> map_to_list (bd_block d)) with
  | [] => Ok None
  | r :: _ => Some <$> proto_deserialize (br_raw r)
  end.
Definition query_last_balance_address (d : BlockDb) (address : bytes) : option Z :=
  match order_by_desc (λ kr, default 0 (abr_height kr.2)) (address_rows_where d (λ a _, bool_decide (a = address))) with
  | [] => None
  | r :: _ => abr_balance r.2
  end.
Definition insert_address_block (address_block : AddressBlock) : BS unit :=
  a ← lift (opt_Address_safe_bytes (ab_address address_block));
  b ← lift (safe_get_msg (ab_balance address_block) "balance");
  h ← lift (safe_get_msg (ab_hash address_block) "hash");
  hash ← lift (Hash_vec h);
  known ← gets (λ d, bd_address_block d !! a);
  match (known : option AddressBlockRow) with
  | Some _ => lift (Err (error_message InternalDatabaseError unique_violation))
  | None => modify (with_address_block <[a := {| abr_balance := Some (ca_amount b); abr_height := Some (ab_height address_block);
                                                 abr_hash := Some hash |}]>)
  end.
Definition query_address_balance_by_height (d : BlockDb) (address : Address) (height : Z) : RgResult (option Z) :=
  address_bytes ← safe_bytes (a_address address);
  Ok (match order_by_desc (λ kr, default 0 (abr_height kr.2))
        (address_rows_where d (λ a r, bool_decide (a = address_bytes) && match abr_height r with Some h => h <=? height | None => false end)) with
      | [] => None
      | r :: _ => abr_balance r.2
      end).
Definition query_block_hash_height (d : BlockDb) (hash : option bytes) (height : option Z) : RgResult (option Block) :=
  match hash, height with
  | None, None => Err (error_message MissingField "Block hash and height both empty")
  | _, _ =>
      let rows := take 2 (List.filter (λ kr : bytes * BlockRow,
        match hash with Some h => bool_decide (kr.1 = h) | None => true end &&
        match height with Some hh => br_height kr.2 =? hh | None => true end) (map_to_list (bd_block d))) in
      match rows with
      | [] => Ok None
      | [kr] => Some <$> proto_deserialize (br_raw kr.2)
      | _ => Err (error_message DataStoreInternalCorruption
               ("More than 1 block returned on query for hash " +:+ match hash with Some h => hex_encode h | None => "none" end +:+
                " height " +:+ match height with Some h => pretty h | None => "none" end))
      end
  end.
(** The primary key is the hash; the height has a unique index. *)
Definition insert_block (block : Block) : BS unit :=
  hash ← lift (hash_bytes block);
  time ← lift (Block_time block);
  clash ← gets (λ d, bool_decide (is_Some (bd_block d !! hash)) ||
                     existsb (λ kr, br_height kr.2 =? bl_height block) (map_to_list (bd_block d)));
  if (clash : bool) then lift (Err (error_message InternalDatabaseError unique_violation))
  else modify (with_block <[hash := {| br_height := bl_height block; br_raw := encode_to_vec block; br_time := time |}]>).

(** ** The process that forms blocks *)

(** [Iterator::max] on a non-empty list. *)
Definition max_time (l : list Z) : option Z := match l with [] => None | t :: l => Some (foldl Z.max t l) end.
(** [build_root_simple] has no error. *)
Definition merkle_root_of (leafs : list bytes) : RgResult Hash :=
  match build_root_simple leafs with Ok h => Ok h | _ => Panic end.
Definition form_block (last_block : Block) (txa : list (Z * Transaction)) : RgResult Block :=
  last_time ← expect_opt (max_time (fst <$> txa));
  let vec := snd <$> txa in
  leafs ← mapR (λ e, expect (hash_bytes e)) vec;
  root ← merkle_root_of leafs;
  with_hash {| bl_merkle_root := Some root; bl_transactions := vec; bl_struct_metadata := struct_metadata (as_i64 last_time);
               bl_previous_block_hash := Some (hash_or last_block); bl_metadata := None;
               bl_height := i64_add (bl_height last_block) 1 |}.
(** One turn of [BlockFormationProcess::run]; an error of the query is dropped. *)
Definition block_turn (s : Store) (now : Z) (last_block : Block) : RgResult Block :=
  i ← expect (Block_time last_block);
  match query_time_transaction s i now with
  | Ok txa => form_block last_block txa
  | Err _ => Ok last_block
  | Panic => Panic
  end.
(** The turns, with what the store holds and the time at each. *)
Fixpoint block_turns (last_block : Block) (ticks : list (Store * Z)) : RgResult (list Block) :=
  match ticks with
  | [] => Ok []
  | (s, now) :: ticks =>
      b ← block_turn s now last_block; bs ← block_turns b ticks; Ok (b :: bs)
  end.

(** [create_genesis_block]; the transaction is a parameter of the test constants. *)
Definition create_genesis_block (earliest_time : Z) (genesis : Transaction) : RgResult Block :=
  b ← with_hash {| bl_merkle_root := None; bl_transactions := [genesis]; bl_struct_metadata := struct_metadata earliest_time;
                   bl_previous_block_hash := None; bl_metadata := None; bl_height := 0 |};
  Ok (bl_with_previous (Some (hash_or b)) b).
(** [BlockFormationProcess::default]. *)
Definition first_block (d : BlockDb) (earliest_time : Z) (genesis : Transaction) : RgResult Block :=
  b ← query_last_block d;
  match (b : option Block) with Some b => Ok b | None => create_genesis_block earliest_time genesis end.

(** * Properties *)

(** ** The chain *)

Lemma hash_or_with_hash b b' : with_hash b = Ok b' → hash_or b' = calculate_hash b ∧ calculate_hash b' = calculate_hash b ∧
  bl_previous_block_hash b' = bl_previous_block_hash b ∧ bl_height b' = bl_height b ∧
  bl_transactions b' = bl_transactions b ∧ Block_time b' = Block_time b.
Proof.
unfold with_hash, set_hash, struct_metadata_err. destruct b as [mr txs [m|] prev meta h]; [|done].
cbn. intros [= <-]. unfold calculate_hash, hash_or. done.
Qed.

(** What a block says of the one before it. *)
Definition follows (b b' : Block) : Prop :=
  b' = b ∨ (bl_previous_block_hash b' = Some (hash_or b) ∧ bl_height b' = i64_add (bl_height b) 1 ∧
            hash_or b' = calculate_hash b').
Fixpoint chained (b : Block) (bs : list Block) : Prop :=
  match bs with [] => True | b' :: bs => follows b b' ∧ chained b' bs end.

Lemma form_block_Ok last txa b : form_block last txa = Ok b →
  ∃ last_time leafs root b0, max_time (fst <$> txa) = Some last_time ∧ mapR (λ e, expect (hash_bytes e)) (snd <$> txa) = Ok leafs ∧
    merkle_root_of leafs = Ok root ∧ with_hash b0 = Ok b ∧
    b0 = {| bl_merkle_root := Some root; bl_transactions := snd <$> txa; bl_struct_metadata := struct_metadata (as_i64 last_time);
            bl_previous_block_hash := Some (hash_or last); bl_metadata := None; bl_height := i64_add (bl_height last) 1 |}.
Proof.
unfold form_block. rewrite bind_Ok. intros (t & Ht%expect_opt_Ok & H). rewrite bind_Ok in H. destruct H as (leafs & Hl & H).
rewrite bind_Ok in H. destruct H as (root & Hr & H). by eexists _, _, _, _.
Qed.

(** Every block names the hash of the one before it and is one higher, and its own
    hash is that of its content; a turn whose query failed repeats the block. *)
Lemma turns_chain last ticks bs : block_turns last ticks = Ok bs → chained last bs.
Proof.
revert last bs. induction ticks as [|[s now] ticks IH]; intros last bs; [by intros [= <-]|].
cbn [block_turns]. rewrite bind_Ok. intros (b & Hb & H). rewrite bind_Ok in H. destruct H as (bs' & Hbs & [= <-]).
split; [|by apply IH]. unfold block_turn in Hb. rewrite bind_Ok in Hb. destruct Hb as (i & _ & Hb).
destruct (query_time_transaction s i now) as [txa|e|]; [|injection Hb as <-; by left|done].
right. apply form_block_Ok in Hb as (t & leafs & root & b0 & _ & _ & _ & Hw & E).
apply hash_or_with_hash in Hw as (H1 & H2 & H3 & H4 & _). rewrite H3, H4, E. split_and!; [done..|]. by rewrite H1, H2.
Qed.

(** ** What a block's hash binds *)

Lemma mapR_app {A C} (f : A → RgResult C) l k :
  mapR f (l ++ k) = (a ← mapR f l; b ← mapR f k; Ok (a ++ b)).
Proof.
induction l as [|x l IH]; [cbn; by destruct (mapR f k)|]. cbn [app mapR]. destruct (f x); [|done..]. cbn. rewrite IH.
destruct (mapR f l); [|done..]. cbn. by destruct (mapR f k).
Qed.

Lemma merkle_root_ignored m k leafs xs ys r r' :
  (0 < k)%nat → length leafs = (2 ^ m * (4 * k))%nat → length xs = (2 ^ m)%nat → length ys = (2 ^ m)%nat →
  merkle_root_of (leafs ++ xs) = Ok r → merkle_root_of (leafs ++ ys) = Ok r' → r = r'.
Proof.
intros Hk Hl Hx Hy. unfold merkle_root_of.
destruct (build_root_simple (leafs ++ xs)) as [h| |] eqn:E1; [|done..]. intros [= <-].
destruct (build_root_simple (leafs ++ ys)) as [h'| |] eqn:E2; [|done..]. intros [= <-].
apply build_root_simple_Ok in E1 as (x & E1 & ->), E2 as (y & E2 & ->).
rewrite (trailing_leaves_ignored m k) in E1, E2 by done. congruence.
Qed.

Lemma mapR_app_Ok {A C} (f : A → RgResult C) l k ys :
  mapR f (l ++ k) = Ok ys → ∃ y1 y2, ys = y1 ++ y2 ∧ mapR f l = Ok y1 ∧ mapR f k = Ok y2.
Proof. rewrite mapR_app, bind_Ok. intros (a & Ha & H). rewrite bind_Ok in H. destruct H as (b & Hb & [= <-]). eauto. Qed.

(** The hash of a block does not bind its transactions: two blocks that extend the
    same block at the same time and share a multiple of four of their transactions
    have the same hash, whatever the last one is.  The same holds for the last 2, 4
    or 8 transactions after as many times four.  The transactions themselves are
    left out of the hash, and the Merkle tree drops the last one. *)
Theorem block_hash_ignores_transactions m k last txa xs ys b b' :
  (0 < k)%nat → length txa = (2 ^ m * (4 * k))%nat → length xs = (2 ^ m)%nat → length ys = (2 ^ m)%nat →
  max_time (fst <$> txa ++ xs) = max_time (fst <$> txa ++ ys) →
  form_block last (txa ++ xs) = Ok b → form_block last (txa ++ ys) = Ok b' →
  hash_or b = hash_or b' ∧ bl_transactions b = snd <$> txa ++ xs ∧ bl_transactions b' = snd <$> txa ++ ys.
Proof.
intros Hk Hl Hx Hy Ht Hb Hb'.
apply form_block_Ok in Hb as (t & leafs & root & b0 & Ht1 & Hl1 & Hr1 & Hw1 & ->).
apply form_block_Ok in Hb' as (t' & leafs' & root' & b0' & Ht2 & Hl2 & Hr2 & Hw2 & ->).
apply hash_or_with_hash in Hw1 as (-> & _ & _ & _ & -> & _), Hw2 as (-> & _ & _ & _ & -> & _).
rewrite fmap_app in Hl1, Hl2. apply mapR_app_Ok in Hl1 as (a & x & -> & Ha & Hxs), Hl2 as (a' & y & -> & Ha' & Hys).
rewrite Ha in Ha'. injection Ha' as <-. apply mapR_length in Ha, Hxs, Hys. rewrite length_fmap in *.
assert (root = root') as -> by (eapply (merkle_root_ignored m k a x y); [done|congruence..|exact Hr1|exact Hr2]).
assert (t = t') as -> by congruence. done.
Qed.

(** ** Turns *)

(** When nothing was stored since the last block's time the process ends: it takes
    the maximum of no times. *)
Lemma quiet_turn_panics s now last i :
  Block_time last = Ok i → query_time_transaction s i now = Ok [] → block_turn s now last = Panic.
Proof. intros Hi Hq. unfold block_turn. rewrite Hi. cbn. by rewrite Hq. Qed.

Lemma max_time_elem l t : max_time l = Some t → t ∈ l.
Proof.
destruct l as [|x l]; [done|]. intros [= <-]. revert x. induction l as [|y l IH]; intros x; [by left|]. cbn [foldl].
specialize (IH (Z.max x y)). apply elem_of_cons in IH as [->|IH]; [|set_solver].
destruct (Z.max_spec x y) as [[_ ->]|[_ ->]]; set_solver.
Qed.

Lemma query_time_elem s start end_ l x : query_time_transaction s start end_ = Ok l →
  x ∈ l ↔ ∃ h r, st_transactions s !! h = Some r ∧ start ≤ tr_time r < end_ ∧ proto_deserialize (tr_raw r) = Ok x.2 ∧ x.1 = as_u64 (tr_time r).
Proof.
unfold query_time_transaction. intros H%mapR_Ok. split.
- intros [i Hi]%list_elem_of_lookup. eapply Forall2_lookup_r in H as (r & Hr & Hx); [|exact Hi].
  apply list_elem_of_lookup_2, list_elem_of_In, filter_In in Hr as [Hr%list_elem_of_In Ht].
  apply list_elem_of_fmap in Hr as ([h r'] & -> & Hr%elem_of_map_to_list). simpl in *.
  apply andb_true_iff in Ht as [Ht1%Z.leb_le Ht2%Z.ltb_lt]. apply bind_Ok in Hx as (t & Ht & [= <-]).
  exists h, r'. by split_and!.
- intros (h & r & Hr & [Ht1 Ht2] & Hd & Hx).
  assert (r ∈ List.filter (λ r, (start <=? tr_time r) && (tr_time r <? end_)) (snd <$> map_to_list (st_transactions s))) as Hin.
  { apply list_elem_of_In, filter_In. split.
    - apply list_elem_of_In, list_elem_of_fmap. exists (h, r). split; [done|]. by apply elem_of_map_to_list.
    - apply andb_true_iff. by rewrite Z.leb_le, Z.ltb_lt. }
  apply list_elem_of_lookup in Hin as [i Hi]. eapply Forall2_lookup_l in H as (y & Hy & E); [|exact Hi].
  simpl in E. rewrite Hd in E. cbn in E. injection E as <-. apply list_elem_of_lookup. exists i. rewrite Hy. by destruct x; simpl in *; subst.
Qed.

(** Blocks overlap: a turn takes the transactions from the time of the last block
    on, which is the time of its latest transaction.  When nothing is deleted, the
    next turn after that time puts a transaction of the last block into the next
    one as well. *)
Theorem blocks_overlap s now s' now' last b b' i txs txs' :
  Block_time last = Ok i → query_time_transaction s i now = Ok txs → form_block last txs = Ok b →
  (∀ h r, st_transactions s !! h = Some r → 0 ≤ tr_time r < 2 ^ 63) → st_transactions s ⊆ st_transactions s' → now ≤ now' →
  ∀ i', Block_time b = Ok i' → query_time_transaction s' i' now' = Ok txs' → form_block b txs' = Ok b' →
  ∃ t, t ∈ bl_transactions b ∧ t ∈ bl_transactions b'.
Proof.
intros _ Hq Hb Hr Hs Hn i' Hi' Hq' Hb'.
apply form_block_Ok in Hb as (t & leafs & root & b0 & Ht & _ & _ & Hw & ->).
apply form_block_Ok in Hb' as (t' & leafs' & root' & b0' & _ & _ & _ & Hw' & ->).
apply hash_or_with_hash in Hw as (_ & _ & _ & _ & -> & Htime), Hw' as (_ & _ & _ & _ & -> & _).
rewrite Hi' in Htime. injection Htime as ->. cbn [bl_transactions].
apply max_time_elem, list_elem_of_fmap in Ht as (x & -> & Hx). exists x.2. split; [by apply list_elem_of_fmap; eauto|].
pose proof Hx as Hx'. rewrite (query_time_elem _ _ _ _ _ Hq) in Hx'. destruct Hx' as (h & r & Hh & Hrt & Hd & Ht).
pose proof (Hr h r Hh) as Hrange. rewrite Ht in *. rewrite wrap_u_id in * by (unfold in_u; lia).
rewrite wrap_s_id in Hq' by (unfold in_s; lia). apply list_elem_of_fmap. exists x. split; [done|].
apply (query_time_elem _ _ _ _ _ Hq'). exists h, r. split_and!; [by eapply lookup_weaken|lia|lia|done|].
by rewrite wrap_u_id by (unfold in_u; lia).
Qed.

(** ** The tables *)

Definition heights_unique (d : BlockDb) : Prop :=
  ∀ h1 h2 r1 r2, bd_block d !! h1 = Some r1 → bd_block d !! h2 = Some r2 → br_height r1 = br_height r2 → h1 = h2.

Lemma filter_singleton {A} (p : A → bool) l x :
  NoDup l → x ∈ l → p x = true → (∀ y, y ∈ l → p y = true → y = x) → List.filter p l = [x].
Proof.
induction 1 as [|y l Hy Hl IH]; [by intros ?%not_elem_of_nil|]. intros Hx Hp Hu. cbn [List.filter].
apply elem_of_cons in Hx as [<-|Hx].
- rewrite Hp. f_equal. destruct (List.filter p l) as [|z k] eqn:E; [done|].
  assert (z ∈ List.filter p l) as Hz by (rewrite E; by left).
  apply list_elem_of_In, filter_In in Hz as [Hz%list_elem_of_In Hpz]. rewrite (Hu z) in Hz; [done|by right|done].
- destruct (p y) eqn:E; [|apply IH; [done..|]; intros z Hz; apply Hu; by right].
  rewrite (Hu y) in Hy; [done|by left|done].
Qed.

Lemma insert_block_Ok b d d' : insert_block b d = (Ok tt, d') →
  ∃ hash time, hash_bytes b = Ok hash ∧ bd_block d !! hash = None ∧
    (∀ h r, bd_block d !! h = Some r → br_height r ≠ bl_height b) ∧
    d' = with_block <[hash := {| br_height := bl_height b; br_raw := encode_to_vec b; br_time := time |}]> d.
Proof.
unfold insert_block. intros H. inv_M. destruct (_ || _) eqn:E; inv_M; [done|].
apply orb_false_iff in E as [E1%bool_decide_eq_false E2]. eexists _, _. split_and!; [done|by apply eq_None_not_Some| |done].
intros h r Hr Heq. apply not_true_iff_false in E2. apply E2, existsb_exists. exists (h, r).
split; [by apply list_elem_of_In, elem_of_map_to_list|]. by apply Z.eqb_eq.
Qed.

Lemma insert_block_unique b d d' : insert_block b d = (Ok tt, d') → heights_unique d → heights_unique d'.
Proof.
intros (hash & time & _ & Hnone & Hne & ->)%insert_block_Ok Hu h1 h2 r1 r2. simpl.
rewrite !lookup_insert_Some. intros [[<- <-]|[? H1]] [[<- <-]|[? H2]] E; simpl in *; [done| | |by eapply Hu].
- by edestruct (Hne h2 r2).
- by edestruct (Hne h1 r1).
Qed.

(** A stored block is found by its hash and by its height, and a second block of the
    same height is refused. *)
Lemma insert_block_found {lbl : ProtoLaws Block} b d d' hash b2 :
  insert_block b d = (Ok tt, d') → hash_bytes b = Ok hash →
  query_block_hash_height d' (Some hash) None = Ok (Some b) ∧ query_block_hash_height d' None (Some (bl_height b)) = Ok (Some b) ∧
  (bl_height b2 = bl_height b → insert_block b2 d' = (Ok tt, d') → False).
Proof.
intros (hash' & time & Hh & Hnone & Hne & ->)%insert_block_Ok Hh'. rewrite Hh in Hh'. injection Hh' as <-.
set (row := {| br_height := bl_height b; br_raw := encode_to_vec b; br_time := time |}).
assert ((hash', row) ∈ map_to_list (<[hash' := row]> (bd_block d))) as Hin by (apply elem_of_map_to_list, lookup_insert_eq).
split_and!.
- unfold query_block_hash_height. cbn [bd_block with_block].
  rewrite (filter_singleton _ _ (hash', row)); [simpl; unfold proto_deserialize; by rewrite proto_decode_encode|apply NoDup_map_to_list|done|simpl; by rewrite bool_decide_eq_true_2|].
  intros [h r] Hr%elem_of_map_to_list. simpl. rewrite andb_true_r. intros ->%bool_decide_eq_true.
  rewrite lookup_insert_eq in Hr. congruence.
- unfold query_block_hash_height. cbn [bd_block with_block].
  rewrite (filter_singleton _ _ (hash', row)); [simpl; unfold proto_deserialize; by rewrite proto_decode_encode|apply NoDup_map_to_list|done|simpl; apply Z.eqb_refl|].
  intros [h r] Hr%elem_of_map_to_list. simpl. intros E%Z.eqb_eq. apply lookup_insert_Some in Hr as [[-> <-]|[_ Hr]]; [done|].
  by edestruct (Hne h r).
- intros E2 (h2 & t2 & _ & _ & Hne2 & _)%insert_block_Ok. apply (Hne2 hash' row); [apply lookup_insert_eq|done].
Qed.

Lemma insert_address_block_Ok ab d d' : insert_address_block ab d = (Ok tt, d') →
  ∃ a row, opt_Address_safe_bytes (ab_address ab) = Ok a ∧ d' = with_address_block <[a := row]> d.
Proof.
unfold insert_address_block, mbind, M_bind, lift, gets, modify. intros H.
destruct (opt_Address_safe_bytes _) as [a| |]; [|done..]. destruct (safe_get_msg (ab_balance ab) _); [|done..].
destruct (safe_get_msg (ab_hash ab) _) as [h| |]; [|done..]. destruct (Hash_vec h); [|done..].
destruct (bd_address_block d !! a); [done|]. injection H as <-. by eexists _, _.
Qed.

(** The history of balances is one row per address: a second balance of an address,
    at whatever height, is refused. *)
Lemma second_balance_refused ab ab' d d' :
  insert_address_block ab d = (Ok tt, d') →
  opt_Address_safe_bytes (ab_address ab') = opt_Address_safe_bytes (ab_address ab) →
  (insert_address_block ab' d').1 ≠ Ok tt ∧ (insert_address_block ab' d').2 = d'.
Proof.
intros H Ha. apply insert_address_block_Ok in H as (a & row & E & ->). rewrite E in Ha.
unfold insert_address_block, mbind, M_bind, lift, gets, modify. rewrite Ha.
destruct (safe_get_msg (ab_balance ab') _); [|done..]. destruct (safe_get_msg (ab_hash ab') _) as [h| |]; [|done..].
destruct (Hash_vec h); [|done..]. cbn [bd_address_block with_address_block]. by rewrite lookup_insert_eq.
Qed.
End blocks.

(** * A short chain *)

Module BlockDemo.
#[local] Existing Instance toy_host.
#[local] Existing Instance toy_crypto.
#[local] Existing Instance RgMerkleDemo.demo_sha2.
#[local] Instance demo_pt : Proto Transaction := ser_proto Transaction.
#[local] Instance ser_unit : Ser unit.
Proof. refine {| ser _ := []; deser l := Some (tt, l) |}. by intros [] rest. Defined.
#[local] Instance ser_Block : Ser Block :=
  ser_via (λ r, (bl_merkle_root r, bl_transactions r, bl_struct_metadata r, bl_previous_block_hash r, bl_metadata r, bl_height r))
    (λ '(x0, x1, x2, x3, x4, x5), {| bl_merkle_root := x0; bl_transactions := x1; bl_struct_metadata := x2;
      bl_previous_block_hash := x3; bl_metadata := x4; bl_height := x5 |})
    (λ r, match r with Build_Block _ _ _ _ _ _ => eq_refl end).
#[local] Instance demo_pb : Proto Block := ser_proto Block.

Definition tx (time : Z) : Transaction :=
  {| tx_inputs := []; tx_outputs := []; tx_struct_metadata := struct_metadata time; tx_options := None |}.
Definition first : Block :=
  {| bl_merkle_root := None; bl_transactions := []; bl_struct_metadata := struct_metadata 0; bl_previous_block_hash := None;
     bl_metadata := None; bl_height := 0 |}.
Definition four : list (Z * Transaction) := (λ t, (t, tx t)) <$> [1; 2; 3; 9].

Lemma block_hash_ignores_witness :
  ∃ b b', form_block first (four ++ [(4, tx 4)]) = Ok b ∧ form_block first (four ++ [(5, tx 5)]) = Ok b' ∧
    hash_or b = hash_or b' ∧ bl_transactions b ≠ bl_transactions b'.
Proof.
destruct (form_block first (four ++ [(4, tx 4)])) as [b|e|] eqn:E1; [|vm_compute in E1; discriminate E1..].
destruct (form_block first (four ++ [(5, tx 5)])) as [b'|e|] eqn:E2; [|vm_compute in E2; discriminate E2..].
exists b, b'. split; [reflexivity|]. split; [reflexivity|].
destruct (block_hash_ignores_transactions 0 1 first four [(4, tx 4)] [(5, tx 5)] b b') as (H & -> & ->);
  [lia|reflexivity|reflexivity|reflexivity|reflexivity|exact E1|exact E2|].
split; [exact H|]. vm_compute. discriminate.
Defined.

Definition stored (ts : list Z) : Store :=
  with_transactions (λ _, list_to_map ((λ t, ([u8_of_Z t], {| tr_raw := encode_to_vec (tx t); tr_time := t;
    tr_rejection_reason := None; tr_accepted := true; tr_is_test := false |})) <$> ts)) empty_store.
Definition turned (s : Store) (now : Z) (b : Block) : Block := match block_turn s now b with Ok b => b | _ => b end.
Definition second : Block := turned (stored [1; 2]) 5 first.
Definition third : Block := turned (stored [1; 2; 7]) 8 second.
Definition between (s : Store) (start end_ : Z) : list (Z * Transaction) :=
  match query_time_transaction s start end_ with Ok l => l | _ => [] end.
Lemma blocks_overlap_witness :
  block_turn (stored [1; 2]) 5 first = Ok second ∧ block_turn (stored [1; 2; 7]) 8 second = Ok third ∧
  ∃ t, t ∈ bl_transactions second ∧ t ∈ bl_transactions third.
Proof.
split; [vm_compute; reflexivity|]. split; [vm_compute; reflexivity|].
apply (blocks_overlap (stored [1; 2]) 5 (stored [1; 2; 7]) 8 first second third 0 (between (stored [1; 2]) 0 5)
  (between (stored [1; 2; 7]) 2 8)) with (i' := 2).
- reflexivity.
- vm_compute. reflexivity.
- vm_compute. reflexivity.
- intros h r Hr. assert (map_Forall (λ _ r, 0 ≤ tr_time r < 2 ^ 63) (st_transactions (stored [1; 2]))) as Hf by by_decision.
  exact (Hf h r Hr).
- cbn [stored with_transactions st_transactions fmap list_fmap list_to_map]. do 2 apply insert_mono. apply map_empty_subseteq.
- lia.
- vm_compute. reflexivity.
- vm_compute. reflexivity.
- vm_compute. reflexivity.
Defined.
End BlockDemo.
