(* ===== verification/Genesis.v ===== *)
(** * The genesis transaction

    src/genesis.rs with the fractional amounts of schema/src/transaction.rs: how the
    coin supply is shared out by the first transaction of a network.

    The keys that the node's words derive are parameters, since deriving them is not
    part of this development; so is the salt, which the transaction drops. *)

From stdpp Require Import base list strings.
From S2P Require Import Prelude Structs Interfaces F64 Schema Merkle Transaction Keys Builder Sync Wire.
#[local] Open Scope Z_scope.
#[local] Open Scope redgold_scope.

(** ** Amounts *)

Definition from_fractional {host : Host} (a : f64) : RgResult CurrencyAmount :=
  if f64_leb a f64_zero then Err (error_info "Invalid negative or zero transaction amount")
  else if f64_ltb (f64_of_Z MAX_COIN_SUPPLY) a then Err (error_info "Invalid transaction amount")
  else Ok (CurrencyAmount_from (f64_to_i64 (f64_mul a (f64_of_Z DECIMAL_MULTIPLIER)))).
Definition to_fractional (a : CurrencyAmount) : f64 := f64_div (f64_of_Z (ca_amount a)) (f64_of_Z DECIMAL_MULTIPLIER).
Definition to_rounded_int (a : CurrencyAmount) : Z := f64_to_i64 (to_fractional a).

Record GenesisDistribution := { gd_address : Address; gd_amount : CurrencyAmount }.
(** What of a [Seed] is read here. *)
Record Seed := { sd_public_key : option PublicKey }.

Section genesis.
Context {host : Host} {crypto : Crypto} {ptx : Proto Transaction}.

Definition main_entry (address : string) (fraction_pct : f64) : RgResult GenesisDistribution :=
  a ← expect (Address_parse address);
  amount ← expect (from_fractional (f64_mul (f64_div fraction_pct (f64_of_Z 100)) (f64_of_Z MAX_COIN_SUPPLY)));
  Ok {| gd_address := a; gd_amount := amount |}.
(** The funds, in the order of the source. *)
Definition zero_entry : string * f64 := ("3a299a25abcc604983dcabbf8a20dfb1440d6c36766762c936030ee8de6a7465", f64_of_Z 1).
Definition main_entries : list (string * f64) :=
  [("e1234f3be30667f1b8860c1a2bbbd12846f8f4581857f883c825be40e43e9a03", f64_of_Z 10);
   ("04f25fb391f7c59bcc1370115787c49fd0762ca44ca54078dd48e67cd56abe55", f64_of_Z 10);
   ("2d064069d1a012698b6791e783f3b9e1c2c65146bb4408ba8b209e3d61e20924", f64_of_Z 10);
   ("282111c64b7da428f75ec3b8fcfda186e164e18c597c246f9ffb1e16cbc42729", f64_of_Z 2);
   ("0b3ab3c3ed000de6d39db543aff29c885bafe50010111c9f7713001a974e9961", f64_dec 5 1);
   ("7d220dea6f6854572d7d82d9923fb6e677bd1968f0df7fe4c70b743e9445984e", f64_dec 5 1);
   ("0bc3af2b862e75e69eb59bd5d4354544f76da9269c5354821afb9c450079d9a4", f64_dec 5 1);
   ("91f7158f3b6aee0697288ed8b4c7b3ba782d70dede85a7b9322aed42e16e814d", f64_dec 5 1);
   ("8965cf0387275d2ac5100b9a3d0e46d9d5cf6e6066db9d5779b1f1649f159068", f64_of_Z 65)].
Definition main_distribution (test_address : Address) : RgResult (list GenesisDistribution) :=
  zero ← main_entry zero_entry.1 zero_entry.2;
  let zero := {| gd_address := gd_address zero;
                 gd_amount := {| ca_amount := i64_sub (ca_amount (gd_amount zero)) (10 * DECIMAL_MULTIPLIER);
                                 ca_bytes := ca_bytes (gd_amount zero); ca_currency := ca_currency (gd_amount zero) |} |} in
  funds ← mapR (λ e, main_entry e.1 e.2) main_entries;
  test_amount ← expect (from_fractional (f64_of_Z 10));
  let entries := zero :: funds ++ [{| gd_address := test_address; gd_amount := test_amount |}] in
  if i64_sum (to_rounded_int ∘ gd_amount <$> entries) =? MAX_COIN_SUPPLY then Ok entries else Panic.

(** The fifty keys of the words, then the seeds' keys that are not among them. *)
Definition genesis_keys (keypair_at_change : Z → RgResult PublicKey) (seeds : list Seed) : RgResult (list PublicKey) :=
  pks ← mapR (λ i, expect (keypair_at_change i)) (seqZ 0 50);
  Ok (foldl (λ pks s, match sd_public_key s with
                      | Some pk => if bool_decide (pk ∈ pks) then pks else pks ++ [pk]
                      | None => pks
                      end) pks seeds).
Definition equal_share (n : nat) : RgResult CurrencyAmount :=
  expect (from_fractional (f64_mul (f64_div (f64_of_Z 1) (f64_of_Z (Z.of_nat n))) (f64_of_Z MAX_COIN_SUPPLY))).
Definition lower_distribution (keypair_at_change : Z → RgResult PublicKey) (seeds : list Seed) : RgResult (list GenesisDistribution) :=
  pks ← genesis_keys keypair_at_change seeds;
  mapR (λ o, a ← expect (Address_from_struct_public o); amount ← equal_share (length pks);
             Ok {| gd_address := a; gd_amount := amount |}) pks.

Definition genesis_tx_from (salt now : Z) (distribution : list GenesisDistribution) (network : NetworkEnvironment) : RgResult Transaction :=
  let txb := foldl (λ b d, with_output (gd_address d) (gd_amount d) b) (TransactionBuilder_new network salt now) distribution in
  with_hashes (tb_transaction (with_time (Some EARLIEST_TIME) (with_no_salt txb))).
Definition genesis_transaction (salt now : Z) (network : NetworkEnvironment) (default_public_key : RgResult PublicKey)
    (keypair_at_change : Z → RgResult PublicKey) (seeds : list Seed) : RgResult Transaction :=
  distribution ← (if bool_decide (network = Main) then
                    pk ← expect default_public_key; a ← expect (PublicKey_address pk); main_distribution a
                  else lower_distribution keypair_at_change seeds);
  genesis_tx_from salt now distribution network.

(** * Properties *)

Definition total (l : list GenesisDistribution) : Z := sum_Z (ca_amount ∘ gd_amount <$> l).
Definition supply : Z := MAX_COIN_SUPPLY * DECIMAL_MULTIPLIER.

(** ** The main network *)

Definition fund_amount (p : f64) : RgResult CurrencyAmount :=
  from_fractional (f64_mul (f64_div p (f64_of_Z 100)) (f64_of_Z MAX_COIN_SUPPLY)).

Lemma main_entry_parses a p x m : Address_parse a = Ok x → fund_amount p = Ok m →
  main_entry a p = Ok {| gd_address := x; gd_amount := m |}.
Proof. intros Ha Hm. unfold main_entry, fund_amount in *. rewrite Ha. cbn [expect mbind result_bind]. by rewrite Hm. Qed.

Lemma main_entries_parse es ms :
  (∀ e, e ∈ es → ∃ x, Address_parse e.1 = Ok x) → mapR (λ e, fund_amount e.2) es = Ok ms →
  ∃ l, mapR (λ e, main_entry e.1 e.2) es = Ok l ∧ gd_amount <$> l = ms.
Proof.
revert ms. induction es as [|e es IH]; intros ms Hp; [intros [= <-]; by exists []|]. cbn [mapR]. rewrite bind_Ok.
intros (m & Hm & H). rewrite bind_Ok in H. destruct H as (ms' & Hms & [= <-]).
destruct (Hp e) as [x Hx]; [by left|]. rewrite (main_entry_parses _ _ _ _ Hx Hm). cbn [mbind result_bind].
destruct (IH ms') as (l & -> & <-); [by intros e' ?; apply Hp; right|done|]. eexists. split; [done|]. by rewrite fmap_cons.
Qed.

Definition funds : list Z := [100000000000000; 100000000000000; 100000000000000; 20000000000000; 5000000000000; 5000000000000;
  5000000000000; 5000000000000; 650000000000000].

(** The assertion on the distribution of the main network holds, and the amounts,
    which are computed with floats, add up to the supply to the last unit. *)
Lemma main_distribution_total test_address :
  (∀ e, e ∈ zero_entry :: main_entries → ∃ x, Address_parse e.1 = Ok x) →
  ∃ l, main_distribution test_address = Ok l ∧ ca_amount ∘ gd_amount <$> l = 9999000000000 :: funds ++ [1000000000].
Proof.
intros Hp. destruct (Hp zero_entry) as [x Hx]; [by left|].
destruct (main_entries_parse main_entries (CurrencyAmount_from <$> funds)) as (l & Hl & Hg);
  [by intros e ?; apply Hp; right|vm_compute; reflexivity|].
unfold main_distribution. rewrite (main_entry_parses _ _ x (CurrencyAmount_from 10000000000000)) by (done || vm_compute; reflexivity).
cbn [mbind result_bind]. rewrite Hl. cbn [mbind result_bind].
change (expect (from_fractional (f64_of_Z 10))) with (Ok (E := ErrorInfo) (CurrencyAmount_from 1000000000)). cbn [mbind result_bind].
set (zero := {| gd_address := _; gd_amount := _ |}) at 1.
set (entries := zero :: l ++ _).
assert (gd_amount <$> entries = CurrencyAmount_from <$> (9999000000000 :: funds ++ [1000000000])) as He.
{ unfold entries. rewrite fmap_cons, fmap_app, Hg. reflexivity. }
rewrite (list_fmap_compose gd_amount to_rounded_int entries), He.
exists entries. split; [vm_compute; reflexivity|]. by rewrite (list_fmap_compose gd_amount ca_amount entries), He.
Qed.

(** ** The transaction *)

Lemma outputs_of_distribution l b :
  tx_outputs (tb_transaction (foldl (λ b d, with_output (gd_address d) (gd_amount d) b) b l)) =
    tx_outputs (tb_transaction b) ++ ((λ d, Output_new (gd_address d) (ca_amount (gd_amount d))) <$> l) ∧
  tx_inputs (tb_transaction (foldl (λ b d, with_output (gd_address d) (gd_amount d) b) b l)) = tx_inputs (tb_transaction b) ∧
  tx_struct_metadata (tb_transaction (foldl (λ b d, with_output (gd_address d) (gd_amount d) b) b l)) = tx_struct_metadata (tb_transaction b).
Proof.
revert b. induction l as [|d l IH]; intros b; [by rewrite app_nil_r|]. cbn [foldl]. destruct (IH (with_output (gd_address d) (gd_amount d) b)) as (-> & -> & ->).
split_and!; [|done..]. simpl. by rewrite <-(assoc_L (++)).
Qed.

Lemma genesis_tx_outputs salt now l network :
  ∃ t, genesis_tx_from salt now l network = Ok t ∧ tx_inputs t = [] ∧ metadata_time t = Ok EARLIEST_TIME ∧
    tx_outputs t = (λ d, Output_new (gd_address d) (ca_amount (gd_amount d))) <$> l.
Proof.
unfold genesis_tx_from. set (b := foldl _ _ l).
destruct (outputs_of_distribution l (TransactionBuilder_new network salt now)) as (Ho & Hi & Hm). fold b in Ho, Hi, Hm.
set (t0 := tb_transaction (with_time _ _)).
assert (tx_struct_metadata t0 = sm_with_time (Some EARLIEST_TIME) <$> tx_struct_metadata (tb_transaction b)) as Hmd by done.
rewrite Hm in Hmd. unfold with_hashes, with_hash, set_hash, struct_metadata_err. cbn [struct_metadata_opt Transaction_fields].
rewrite Hmd. eexists. split; [reflexivity|]. by split_and!.
Qed.

(** The genesis transaction of the main network, when the listed addresses are
    valid, exists and shares out exactly the coin supply: its outputs are eleven
    positive amounts that add up to ten million coins to the last unit, it spends
    nothing and carries the fixed time. *)
Theorem genesis_main_supply salt now default_public_key pk a keypair_at_change seeds :
  default_public_key = Ok pk → PublicKey_address pk = Ok a →
  (∀ e, e ∈ zero_entry :: main_entries → ∃ x, Address_parse e.1 = Ok x) →
  ∃ t, genesis_transaction salt now Main default_public_key keypair_at_change seeds = Ok t ∧
    tx_inputs t = [] ∧ metadata_time t = Ok EARLIEST_TIME ∧ length (tx_outputs t) = 11%nat ∧
    Forall (λ z, 0 < z) (omap opt_amount (tx_outputs t)) ∧ length (omap opt_amount (tx_outputs t)) = 11%nat ∧
    sum_Z (omap opt_amount (tx_outputs t)) = supply.
Proof.
intros -> Ha Hp. destruct (main_distribution_total a Hp) as (l & Hl & Hm).
destruct (genesis_tx_outputs salt now l Main) as (t & Ht & Hi & Htime & Ho).
exists t. unfold genesis_transaction. rewrite bool_decide_eq_true_2 by done. cbn [expect mbind result_bind]. rewrite Ha.
cbn [expect mbind result_bind]. rewrite Hl. cbn [mbind result_bind].
assert (omap opt_amount (tx_outputs t) = 9999000000000 :: funds ++ [1000000000]) as Hs.
{ rewrite Ho, <-Hm. assert (Forall (λ d, in_i64 (ca_amount (gd_amount d))) l) as Hr.
  { apply (Forall_fmap (ca_amount ∘ gd_amount) (λ z, in_i64 z)). rewrite Hm. by_decision. }
  clear -Hr. induction Hr as [|d l Hd Hl IH]; [done|]. rewrite !fmap_cons. cbn [omap list_omap]. rewrite Output_new_amount by done.
  f_equal. exact IH. }
rewrite Hs. split_and!; [done|done|done| | |done|vm_compute; done].
- apply (f_equal length) in Hm. rewrite length_fmap in Hm. by rewrite Ho, length_fmap, Hm.
- by_decision.
Qed.

(** ** The other networks *)

Lemma keys_grow seeds : ∀ ks, (length ks ≤ length (foldl (λ pks s, match sd_public_key s with
  | Some pk => if bool_decide (pk ∈ pks) then pks else pks ++ [pk] | None => pks end) ks seeds) ≤ length ks + length seeds)%nat.
Proof.
induction seeds as [|sd seeds IH]; intros ks; [simpl; lia|]. cbn [foldl length].
destruct (sd_public_key sd) as [pk|]; [case_bool_decide|].
- specialize (IH ks). lia.
- specialize (IH (ks ++ [pk])). rewrite length_app in IH. simpl in IH. lia.
- specialize (IH ks). lia.
Qed.

(** The shares of 50 to 150 keys, computed. *)
Definition share_fits (n : nat) : bool :=
  match equal_share n with
  | Ok m => (supply - Z.of_nat n <? Z.of_nat n * ca_amount m) && (Z.of_nat n * ca_amount m <=? supply)
  | _ => false
  end.
Lemma shares_fit : forallb share_fits (seq 50 101) = true.
Proof. vm_compute. reflexivity. Qed.

(** On every other network the supply is shared out equally.  With at most a
    hundred seeds the shares, which are computed with floats and rounded down,
    never add up to more than the supply, and they miss it by less than one unit
    for each key. *)
Theorem lower_distribution_supply keypair_at_change seeds l :
  (length seeds ≤ 100)%nat → lower_distribution keypair_at_change seeds = Ok l →
  ∃ share, Forall (λ d, ca_amount (gd_amount d) = share) l ∧ (50 ≤ length l ≤ 150)%nat ∧
    total l = Z.of_nat (length l) * share ∧ supply - Z.of_nat (length l) < total l ≤ supply.
Proof.
intros Hs. unfold lower_distribution. rewrite bind_Ok. intros (pks & Hk & H). apply mapR_Ok in H.
assert (50 ≤ length pks ≤ 150)%nat as Hn.
{ unfold genesis_keys in Hk. rewrite bind_Ok in Hk. destruct Hk as (ks & Hks%mapR_length & [= <-]).
  rewrite length_seqZ in Hks. pose proof (keys_grow seeds ks). lia. }
pose proof (Forall2_length _ _ _ H) as Hlen. rewrite <-Hlen.
pose proof shares_fit as Hf. rewrite forallb_forall in Hf. specialize (Hf (length pks)).
rewrite in_seq in Hf. specialize (Hf ltac:(lia)). unfold share_fits in Hf.
destruct (equal_share (length pks)) as [m| |] eqn:Em; [|done..].
apply andb_true_iff in Hf as [Hf1%Z.ltb_lt Hf2%Z.leb_le]. exists (ca_amount m).
assert (Forall (λ d, ca_amount (gd_amount d) = ca_amount m) l) as Hl.
{ clear -H. induction H as [|o d pks l Hd _ IH]; constructor; [|done]. rewrite bind_Ok in Hd. destruct Hd as (a & _ & Hd).
  rewrite bind_Ok in Hd. by destruct Hd as (m' & [= <-] & [= <-]). }
assert (total l = Z.of_nat (length l) * ca_amount m) as Ht.
{ clear -Hl. unfold total. induction Hl as [|d l Hd _ IH]; [done|]. rewrite fmap_cons, sum_Z_cons. cbn [length]. rewrite IH. simpl. lia. }
rewrite Ht, <-Hlen. split_and!; (done || lia).
Qed.
End genesis.

(** * Examples *)

Module GenesisDemo.
#[local] Existing Instance toy_host.
#[local] Existing Instance toy_crypto.
#[local] Existing Instance demo_ptx.
Definition key (i : Z) : RgResult PublicKey := Ok (PublicKey_from_bytes (replicate 33 (u8_of_Z (i + 1)))).
Definition five_seeds : list Seed := (λ i, {| sd_public_key := ok_opt (key i) |}) <$> [60; 61; 3; 60; 62].

Lemma lower_distribution_supply_witness :
  ∃ l, lower_distribution key five_seeds = Ok l ∧ length l = 53%nat ∧ supply - 53 < total l ≤ supply.
Proof.
destruct (lower_distribution key five_seeds) as [l|e|] eqn:E; [|vm_compute in E; discriminate E..].
exists l. split; [reflexivity|].
assert (length l = 53%nat) as Hn by (apply (f_equal (λ r, match r with Ok l => length l | _ => 0%nat end)) in E; rewrite <-E; vm_compute; reflexivity).
destruct (lower_distribution_supply key five_seeds l) as (share & _ & _ & _ & H); [simpl; lia|exact E|].
rewrite Hn in H. split; [exact Hn|exact H].
Defined.

(** Digests that give the ten listed addresses their checksums. *)
Definition listed : list bytes := omap (λ e : string * f64, toy_hex_decode e.1) (zero_entry :: main_entries).
Definition table_crypto : Crypto :=
  {| sha3_256 := λ b, match find (λ d, bool_decide (take 28 d = b)) listed with
                      | Some d => drop 28 d ++ replicate 28 Byte.x00
                      | None => toy_digest 32 b
                      end;
     sha3_224 := toy_digest 28; hex_encode := toy_hex_encode;
     hex_decode := λ s, match toy_hex_decode s with Some b => inr b | None => inl "Invalid hex" end |}.
Definition test_key : PublicKey := PublicKey_from_bytes (replicate 33 Byte.x09).
Definition test_address : Address :=
  match PublicKey_address (crypto := table_crypto) test_key with Ok a => a | _ => Address_new_raw [] end.

Lemma genesis_main_supply_witness :
  ∃ t, genesis_transaction (crypto := table_crypto) 1 2 Main (Ok test_key) key [] = Ok t ∧
    sum_Z (omap opt_amount (tx_outputs t)) = 1000000000000000.
Proof.
destruct (genesis_main_supply (crypto := table_crypto) 1 2 (Ok test_key) test_key test_address key []) as (t & Ht & _ & _ & _ & _ & _ & Hs).
- reflexivity.
- vm_compute. reflexivity.
- assert (Forall (λ e : string * f64, is_Some (ok_opt (Address_parse (crypto := table_crypto) e.1))) (zero_entry :: main_entries)) as Hf
    by (repeat (apply Forall_cons; split; [vm_compute; eexists; reflexivity|]); apply Forall_nil; exact I).
  intros e He. rewrite Forall_forall in Hf. destruct (Hf e He) as [x Hx]. exists x.
  destruct (Address_parse (crypto := table_crypto) e.1); simpl in Hx; [injection Hx as ->; reflexivity|discriminate Hx..].
- exists t. split; [exact Ht|exact Hs].
Defined.
End GenesisDemo.
