(* ===== verification/Rooms.v ===== *)
(** * The rooms of a multiparty computation

    src/multiparty/gg20_sm_manager.rs: the node that initiates a threshold key
    generation or signing serves rooms over HTTP; the parties post messages to a
    room and follow its log as a stream of events.  Who may post is decided by the
    authorisations of src/core/relay.rs.  gg20_sm_client.rs is the side of a party.

    A room is shared by handlers that hold an [Arc] of it: the rooms live in a heap
    and the map of the server names their place, so that a handler can hold a room
    that the map has replaced.  A handler runs in the steps between which another
    one can run: checking the sender, looking the room up, then publishing or
    subscribing.  [room_step] takes one of these steps, and a run is any list of
    them.  Waiting for a notification is not a step: a subscription moves when its
    next message is there. *)

From stdpp Require Import base list gmap strings.
From S2P Require Import Prelude Structs Interfaces Schema Transaction Keys Wire.
#[local] Open Scope Z_scope.
#[local] Open Scope redgold_scope.

Record InitiateMultipartyKeygenRequest := { ikr_identifier : option MultipartyIdentifier }.
Record InitiateMultipartySigningRequest := {
  isr_identifier : option MultipartyIdentifier; isr_signing_room_id : string;
  isr_signing_party_keys : list PublicKey; isr_data_to_sign : option BytesData }.
Record MultipartyAuthenticationRequest := { mar_message : option string; mar_room_id : string }.

(** [str::strip_suffix]. *)
Definition strip_suffix (suffix s : string) : option string :=
  let n := (String.length s - String.length suffix)%nat in
  if (String.length suffix <=? String.length s)%nat && bool_decide (String.substring n (String.length suffix) s = suffix)
  then Some (String.substring 0 n s) else None.

(** The parties of a computation are numbered from one. *)
Definition party_index (i : MultipartyIdentifier) (pk : PublicKey) : option nat :=
  (λ e : nat * PublicKey, S e.1) <$> list_find (λ k, k = pk) (mi_party_keys i).

(** ** Authorisations (src/core/relay.rs) *)

Record Authorizations := {
  mp_keygen_authorizations : gmap string InitiateMultipartyKeygenRequest;
  mp_signing_authorizations : gmap string InitiateMultipartySigningRequest }.
Definition with_keygen f (a : Authorizations) : Authorizations :=
  {| mp_keygen_authorizations := f (mp_keygen_authorizations a); mp_signing_authorizations := mp_signing_authorizations a |}.
Definition with_signing f (a : Authorizations) : Authorizations :=
  {| mp_keygen_authorizations := mp_keygen_authorizations a; mp_signing_authorizations := f (mp_signing_authorizations a) |}.

Section rooms.
Context {host : Host} {crypto : Crypto} {secp : Secp}.
Notation Req := (Request (option MultipartyAuthenticationRequest)).
Context {prq : Proto Req} {jrq : Json Req}.
(** [serde_json::from_str], with the [Debug] string of its error. *)
Context (from_str : string → string + Req).

Definition authorize_signing (p0 : InitiateMultipartySigningRequest) : M Authorizations ErrorInfo unit :=
  modify (with_signing <[isr_signing_room_id p0 := p0]>).
Definition remove_signing_authorization (room_id : string) : M Authorizations ErrorInfo unit :=
  modify (with_signing (delete room_id)).
Definition check_signing_authorized (a : Authorizations) (room_id : string) (public_key : PublicKey) : RgResult (option nat) :=
  Ok (match (x ← safe_get_msg (mp_signing_authorizations a !! room_id) "missing room_id";
             p ← safe_get_msg (isr_identifier x) "missing identifier"; Ok (party_index p public_key)) : RgResult _ with
      | Ok o => o | _ => None end).
Definition authorize_keygen (p0 : InitiateMultipartyKeygenRequest) : M Authorizations ErrorInfo unit :=
  i ← lift (safe_get_msg (ikr_identifier p0) "missing identifier");
  modify (with_keygen <[mi_uuid i := p0]>).
Definition remove_keygen_authorization (room_id : string) : M Authorizations ErrorInfo unit :=
  modify (with_keygen (delete room_id)).
Definition check_keygen_authorized (a : Authorizations) (room_id : string) (public_key : PublicKey) : RgResult (option nat) :=
  Ok (match (x ← safe_get_msg (mp_keygen_authorizations a !! room_id) "missing room_id";
             p ← safe_get_msg (ikr_identifier x) "missing identifier"; Ok (party_index p public_key)) : RgResult _ with
      | Ok o => o | _ => None end).
Definition check_mp_authorized (a : Authorizations) (room_id : string) (public_key : PublicKey) : RgResult (option nat) :=
  let stripped_one := default room_id (strip_suffix "-online" room_id) in
  let room_id := default stripped_one (strip_suffix "-offline" stripped_one) in
  k ← check_keygen_authorized a room_id public_key;
  g ← check_signing_authorized a room_id public_key;
  Ok (match k with Some i => Some i | None => g end).

(** ** The server *)

(** The party's index and the message, when the message is signed by a party of the
    room. *)
Definition verify_message (a : Authorizations) (room_id message : string) : RgResult (option (nat * option string)) :=
  match json_from from_str message with
  | Ok d =>
      match rq_body d with
      | Some m =>
          match Request_verify_auth d with
          | Ok pk =>
              match check_mp_authorized a room_id pk with
              | Ok (Some i) => Ok (Some (i, mar_message m))
              | Panic => Panic
              | _ => Ok None
              end
          | Err _ => Ok None
          | Panic => Panic
          end
      | None => Ok None
      end
  | Err _ => Ok None
  | Panic => Panic
  end.
Definition issue_idx (a : Authorizations) (room_id message : string) : RgResult Z :=
  v ← verify_message a room_id message;
  Ok (as_u16 (match v with Some (i, _) => Z.of_nat i | None => 5000 end)).

Record Room := { rm_messages : list string; rm_subscribers : Z }.
Definition Room_empty : Room := {| rm_messages := []; rm_subscribers := 0 |}.
Record Db := { db_rooms : gmap string nat; db_heap : list Room }.
Definition Db_empty : Db := {| db_rooms := ∅; db_heap := [] |}.
Definition with_room (r : nat) (f : Room → Room) (d : Db) : Db :=
  {| db_rooms := db_rooms d; db_heap := alter f r (db_heap d) |}.

Definition is_abandoned (d : Db) (r : nat) : bool :=
  match db_heap d !! r with Some room => rm_subscribers room =? 0 | None => true end.
Definition create_room (room_id : string) (d : Db) : nat * Db :=
  (length (db_heap d), {| db_rooms := <[room_id := length (db_heap d)]> (db_rooms d); db_heap := db_heap d ++ [Room_empty] |}).
Definition get_room_or_create_empty (room_id : string) (d : Db) : nat * Db :=
  match db_rooms d !! room_id with
  | Some r => if negb (is_abandoned d r) then (r, d) else create_room room_id d
  | None => create_room room_id d
  end.
Definition publish (r : nat) (message : string) : Db → Db :=
  with_room r (λ room, {| rm_messages := rm_messages room ++ [message]; rm_subscribers := rm_subscribers room |}).

Record Subscription := { sub_room : nat; sub_next_event : Z }.
Definition subscribe (r : nat) (last_seen_msg : option Z) (d : Db) : Subscription * Db :=
  ({| sub_room := r; sub_next_event := default 0 ((λ i, as_u16 (i + 1)) <$> last_seen_msg) |},
   with_room r (λ room, {| rm_messages := rm_messages room; rm_subscribers := as_u16 (rm_subscribers room + 1) |}) d).
Definition room_messages (d : Db) (r : nat) : list string := default [] (rm_messages <$> db_heap d !! r).
Definition next (sub : Subscription) (d : Db) : option (Z * string * Subscription) :=
  msg ← room_messages d (sub_room sub) !! Z.to_nat (sub_next_event sub);
  let event_id := sub_next_event sub in
  Some (event_id, msg, {| sub_room := sub_room sub; sub_next_event := as_u16 (event_id + 1) |}).
Definition drop_subscription (sub : Subscription) : Db → Db :=
  with_room (sub_room sub) (λ room, {| rm_messages := rm_messages room; rm_subscribers := as_u16 (rm_subscribers room - 1) |}).

(** ** Handlers and their steps *)

(** [broadcast] past its check, then with its room; [subscribe] before and after it
    has its room, then the stream with the events it has sent. *)
Inductive RoomTask :=
| Verified (room_id message : string)
| Publishing (room : nat) (message : string)
| Joining (room_id : string) (last_seen_msg : option Z)
| Subscribing (room : nat) (last_seen_msg : option Z)
| Subscribed (subscription : Subscription) (sent : list (Z * string))
| Finished.
Record RoomServer := { rv_auths : Authorizations; rv_db : Db; rv_tasks : gmap nat RoomTask }.
Definition rv_with_auths (a : Authorizations) (s : RoomServer) : RoomServer :=
  {| rv_auths := a; rv_db := rv_db s; rv_tasks := rv_tasks s |}.
Definition rv_set (t : nat) (k : RoomTask) (d : Db) (s : RoomServer) : RoomServer :=
  {| rv_auths := rv_auths s; rv_db := d; rv_tasks := <[t := k]> (rv_tasks s) |}.

Inductive RoomEvent :=
| Authorize_keygen (p0 : InitiateMultipartyKeygenRequest)
| Remove_keygen (room_id : string)
| Authorize_signing (p0 : InitiateMultipartySigningRequest)
| Remove_signing (room_id : string)
| Post_broadcast (t : nat) (room_id message : string)
| Get_subscribe (t : nat) (room_id : string) (last_seen_msg : option Z)
| Get_room (t : nat)
| Enter (t : nat)
| Next (t : nat)
| Disconnect (t : nat).

(** A step of the server; [None] when the handler is not at that point. *)
Definition room_step (e : RoomEvent) (s : RoomServer) : option RoomServer :=
  match e with
  | Authorize_keygen p0 => Some (rv_with_auths (authorize_keygen p0 (rv_auths s)).2 s)
  | Remove_keygen room_id => Some (rv_with_auths (remove_keygen_authorization room_id (rv_auths s)).2 s)
  | Authorize_signing p0 => Some (rv_with_auths (authorize_signing p0 (rv_auths s)).2 s)
  | Remove_signing room_id => Some (rv_with_auths (remove_signing_authorization room_id (rv_auths s)).2 s)
  | Post_broadcast t room_id message =>
      match rv_tasks s !! t with
      | Some _ => None
      | None =>
          Some (rv_set t (match verify_message (rv_auths s) room_id message with
                          | Ok (Some (_, Some msg)) => Verified room_id msg
                          | _ => Finished
                          end) (rv_db s) s)
      end
  | Get_subscribe t room_id last_seen_msg =>
      match rv_tasks s !! t with
      | Some _ => None
      | None => Some (rv_set t (Joining room_id last_seen_msg) (rv_db s) s)
      end
  | Get_room t =>
      match rv_tasks s !! t with
      | Some (Verified room_id msg) =>
          let '(r, d) := get_room_or_create_empty room_id (rv_db s) in Some (rv_set t (Publishing r msg) d s)
      | Some (Joining room_id last) =>
          let '(r, d) := get_room_or_create_empty room_id (rv_db s) in Some (rv_set t (Subscribing r last) d s)
      | _ => None
      end
  | Enter t =>
      match rv_tasks s !! t with
      | Some (Publishing r msg) => Some (rv_set t Finished (publish r msg (rv_db s)) s)
      | Some (Subscribing r last) =>
          let '(sub, d) := subscribe r last (rv_db s) in Some (rv_set t (Subscribed sub []) d s)
      | _ => None
      end
  | Next t =>
      match rv_tasks s !! t with
      | Some (Subscribed sub sent) =>
          '(event, sub') ← next sub (rv_db s); Some (rv_set t (Subscribed sub' (sent ++ [event])) (rv_db s) s)
      | _ => None
      end
  | Disconnect t =>
      match rv_tasks s !! t with
      | Some (Subscribed sub sent) => Some (rv_set t Finished (drop_subscription sub (rv_db s)) s)
      | _ => None
      end
  end.
Fixpoint room_run (es : list RoomEvent) (s : RoomServer) : option RoomServer :=
  match es with [] => Some s | e :: es => s' ← room_step e s; room_run es s' end.

Definition no_auths : Authorizations := {| mp_keygen_authorizations := ∅; mp_signing_authorizations := ∅ |}.
(** [Db::empty]. *)
Definition server_start : RoomServer := {| rv_auths := no_auths; rv_db := Db_empty; rv_tasks := ∅ |}.
Definition reachable (s : RoomServer) : Prop := ∃ es, room_run es server_start = Some s.

(** ** A party's side (gg20_sm_client.rs) *)

(** [SmClient::request]: signed with the node's key and checked. *)
Definition client_request (kp : KeyPair) (nmd : NodeMetadata) (room_id : string) (message : option string) : RgResult Req :=
  let req := {| rq_proof := None; rq_node_metadata := None; rq_origin := None; rq_initiate_keygen := None;
                rq_initiate_signing := None; rq_body := Some {| mar_message := message; mar_room_id := room_id |} |} in
  req ← expect (Request_with_auth kp (Request_with_metadata nmd req));
  _ ← expect (Request_verify_auth req);
  Ok req.
(** [round_based::Msg] and the filter of [join_computation]. *)
Record Msg (B : Type) := { msg_sender : Z; msg_receiver : option Z; msg_body : B }.
Definition for_party {B} (index : Z) (m : Msg B) : bool :=
  negb (msg_sender _ m =? index) &&
  match msg_receiver _ m with None => true | Some r => r =? index end.

(** * Properties *)

Lemma room_run_app es es' s : room_run (es ++ es') s = room_run es s ≫= room_run es'.
Proof. revert s. induction es as [|e es IH]; intros s; [done|]. cbn. destruct (room_step e s); cbn; [apply IH|done]. Qed.
(** Invariants by induction on the run. *)
Lemma room_run_ind (P : RoomServer → Prop) es s s' :
  (∀ e x x', e ∈ es → P x → room_step e x = Some x' → P x') → P s → room_run es s = Some s' → P s'.
Proof.
revert s. induction es as [|e es IH]; intros s Hstep Hs; cbn; [by intros [= <-]|].
rewrite bind_Some. intros (x & He & Hr). eapply IH; [|by eapply Hstep; [left|..]|done].
intros ??? Hin. apply Hstep. by right.
Qed.
Lemma reachable_ind (P : RoomServer → Prop) :
  P server_start → (∀ e s s', P s → room_step e s = Some s' → P s') → ∀ s, reachable s → P s.
Proof. intros H0 Hs s [es Hes]. eapply room_run_ind, Hes; [|done]. intros. by eapply Hs. Qed.
Lemma reachable_run es s s' : reachable s → room_run es s = Some s' → reachable s'.
Proof. intros [es0 H0] H1. exists (es0 ++ es). by rewrite room_run_app, H0. Qed.

(** The steps of a handler, taken apart: the task that moved, and what became of the
    rooms. *)
Variant moved (s : RoomServer) : RoomEvent → nat → RoomTask → Db → Prop :=
| moved_broadcast t room_id message k :
    rv_tasks s !! t = None →
    (k = Finished ∨ ∃ i msg, verify_message (rv_auths s) room_id message = Ok (Some (i, Some msg)) ∧ k = Verified room_id msg) →
    moved s (Post_broadcast t room_id message) t k (rv_db s)
| moved_join t room_id last : rv_tasks s !! t = None → moved s (Get_subscribe t room_id last) t (Joining room_id last) (rv_db s)
| moved_get_publish t room_id msg : rv_tasks s !! t = Some (Verified room_id msg) →
    moved s (Get_room t) t (Publishing (get_room_or_create_empty room_id (rv_db s)).1 msg) (get_room_or_create_empty room_id (rv_db s)).2
| moved_get_join t room_id last : rv_tasks s !! t = Some (Joining room_id last) →
    moved s (Get_room t) t (Subscribing (get_room_or_create_empty room_id (rv_db s)).1 last) (get_room_or_create_empty room_id (rv_db s)).2
| moved_publish t r msg : rv_tasks s !! t = Some (Publishing r msg) → moved s (Enter t) t Finished (publish r msg (rv_db s))
| moved_subscribe t r last : rv_tasks s !! t = Some (Subscribing r last) →
    moved s (Enter t) t (Subscribed (subscribe r last (rv_db s)).1 []) (subscribe r last (rv_db s)).2
| moved_next t sub sent event sub' : rv_tasks s !! t = Some (Subscribed sub sent) → next sub (rv_db s) = Some (event, sub') →
    moved s (Next t) t (Subscribed sub' (sent ++ [event])) (rv_db s)
| moved_disconnect t sub sent : rv_tasks s !! t = Some (Subscribed sub sent) →
    moved s (Disconnect t) t Finished (drop_subscription sub (rv_db s)).

Lemma room_step_cases e s s' : room_step e s = Some s' →
  (∃ a, s' = rv_with_auths a s) ∨ (∃ t k d, s' = rv_set t k d s ∧ moved s e t k d).
Proof.
destruct e as [| | | |t id m|t id l|t|t|t|t]; cbn [room_step]; try (intros [= <-]; left; by eexists).
all: destruct (rv_tasks s !! t) as [k|] eqn:E; try done.
- intros [= <-]. right. eexists t, _, _. split; [done|]. constructor; [done|].
  destruct (verify_message _ _ _) as [[[i [msg|]]|]| |] eqn:V; eauto 10.
- intros [= <-]. right. eexists t, _, _. split; [done|]. by constructor.
- destruct k; try done; destruct (get_room_or_create_empty _ _) as [r d] eqn:G; intros [= <-]; right; eexists t, _, _; (split; [done|]).
  + apply moved_get_publish in E. by rewrite G in E.
  + apply moved_get_join in E. by rewrite G in E.
- destruct k; try done; intros [= <-]; right; eexists t, _, _; (split; [done|]); by econstructor.
- destruct k as [| | | |sub sent|]; try done. destruct (next sub _) as [[ev sub']|] eqn:G; [|done]. cbn. intros [= <-].
  right. eexists t, _, _. split; [done|]. by econstructor.
- destruct k; try done; intros [= <-]; right; eexists t, _, _; (split; [done|]); by econstructor.
Qed.

(** ** The log of a room *)

Lemma room_messages_with r f d r' : room_messages (with_room r f d) r' =
  if decide (r = r') then default [] (rm_messages ∘ f <$> db_heap d !! r) else room_messages d r'.
Proof.
unfold room_messages, with_room. cbn. case_decide as E; subst.
- rewrite list_lookup_alter_eq. by destruct (db_heap d !! r').
- by rewrite list_lookup_alter_ne.
Qed.
Lemma room_messages_create id d r : room_messages (create_room id d).2 r = room_messages d r.
Proof.
unfold room_messages, create_room. cbn. destruct (decide (r < length (db_heap d))%nat).
- by rewrite lookup_app_l by done.
- rewrite lookup_app_r, (lookup_ge_None_2 (db_heap d)) by lia. by destruct (r - length (db_heap d))%nat.
Qed.
Lemma room_messages_get id d r : room_messages (get_room_or_create_empty id d).2 r = room_messages d r.
Proof.
unfold get_room_or_create_empty. repeat case_match; try done; apply room_messages_create.
Qed.
Lemma room_messages_publish r msg d r' : (r < length (db_heap d))%nat →
  room_messages (publish r msg d) r' = room_messages d r' ++ (if decide (r = r') then [msg] else []).
Proof.
intros [room E]%lookup_lt_is_Some_2. unfold publish. rewrite room_messages_with. case_decide; subst; [|by rewrite app_nil_r].
unfold room_messages. by rewrite E.
Qed.
Lemma room_messages_grow s e t k d r : moved s e t k d → room_messages (rv_db s) r `prefix_of` room_messages d r.
Proof.
destruct 1; rewrite ?room_messages_get; try done.
- destruct (decide (r0 < length (db_heap (rv_db s)))%nat).
  + rewrite room_messages_publish by done. by apply prefix_app_r.
  + unfold publish. rewrite room_messages_with. case_decide; subst; [|done].
    unfold room_messages. by rewrite (lookup_ge_None_2 (db_heap _)) by lia.
- cbn. rewrite room_messages_with. case_decide; subst; [|done]. unfold room_messages. by destruct (_ !! r).
- unfold drop_subscription. rewrite room_messages_with. case_decide; subst; [|done]. unfold room_messages. by destruct (_ !! _).
Qed.

(** What a subscription that started at event [start] of room [r] has sent. *)
Definition faithful (t r : nat) (start : Z) (s : RoomServer) : Prop :=
  match rv_tasks s !! t with
  | Some (Subscribed sub sent) =>
      sub_room sub = r ∧ sub_next_event sub = as_u16 (start + Z.of_nat (length sent)) ∧
      ∀ i ev, sent !! i = Some ev →
        ev.1 = as_u16 (start + Z.of_nat i) ∧ room_messages (rv_db s) r !! Z.to_nat ev.1 = Some ev.2
  | Some Finished => True
  | _ => False
  end.
Lemma faithful_step t r start e s s' : faithful t r start s → room_step e s = Some s' → faithful t r start s'.
Proof.
intros HP [(a & ->)|(t' & k & d & -> & Hm)]%room_step_cases; [done|].
pose proof (room_messages_grow _ _ _ _ _ r Hm) as Hg. unfold faithful in *. cbn.
destruct (decide (t' = t)) as [->|Ht].
- rewrite lookup_insert_eq. destruct Hm as [? ? ? ? Hn|? ? ? Hn|? ? ? Hn|? ? ? Hn|? ? ? Hn|? ? ? Hn|? sub sent ev sub' Hn Hx|? ? ? Hn];
    rewrite Hn in HP; try done.
  destruct HP as (Hr & Hnx & Hs). unfold next in Hx. apply bind_Some in Hx as (m & Hlk & [= <- <-]). cbn. split_and!; [done| |].
  + rewrite length_app. cbn. rewrite Hnx. unfold wrap_u. rewrite Zplus_mod_idemp_l. f_equal. lia.
  + intros i ev [Hi|[? Hi]]%lookup_app_Some; [by apply Hs|].
    destruct (i - length sent)%nat eqn:Ei; [|done]. injection Hi as <-. cbn. replace i with (length sent) by lia.
    split; [done|]. by rewrite <-Hr.
- rewrite lookup_insert_ne by done. destruct (rv_tasks s !! t) as [[]|]; try done.
  destruct HP as (? & ? & Hs). split_and!; [done..|]. intros i ev Hi. destruct (Hs i ev Hi) as [? Hl]. split; [done|].
  by eapply prefix_lookup_Some.
Qed.

(** C40: A subscriber receives the log of its room and nothing else: from the moment it
    enters, whatever the other handlers do, the events sent to it are numbered from
    the one after the last it had seen, without a gap, and carry the messages of
    the room in the order they were published, none skipped and none repeated, up
    to the sixteen bits of an event number. *)
Theorem subscription_in_order t r last s s1 es s2 sub sent :
  let start := default 0 ((λ i, as_u16 (i + 1)) <$> last) in
  let n := length sent in
  rv_tasks s !! t = Some (Subscribing r last) → room_step (Enter t) s = Some s1 → room_run es s1 = Some s2 →
  rv_tasks s2 !! t = Some (Subscribed sub sent) → start + Z.of_nat n ≤ 65536 →
  sub_room sub = r ∧ sent.*1 = seqZ start (Z.of_nat n) ∧
  sent.*2 = take n (drop (Z.to_nat start) (room_messages (rv_db s2) r)).
Proof.
intros start n Ht Hs1 Hes Ht2 Hn.
assert (faithful t r start s2) as HP.
{ eapply room_run_ind, Hes; [intros ????; apply faithful_step|].
  cbn in Hs1. rewrite Ht in Hs1. injection Hs1 as <-. unfold faithful. cbn. rewrite lookup_insert_eq. split_and!; [done| |done].
  cbn. unfold wrap_u. rewrite Z.add_0_r, Z.mod_small; [done|]. subst start. destruct last; cbn; [|lia].
  apply (wrap_u_in 16). lia. }
unfold faithful in HP. rewrite Ht2 in HP. destruct HP as (? & _ & Hs).
assert (0 ≤ start) by (subst start; destruct last; cbn; [apply (wrap_u_in 16); lia|lia]).
assert (∀ i ev, sent !! i = Some ev → ev.1 = start + Z.of_nat i ∧ room_messages (rv_db s2) r !! (Z.to_nat start + i)%nat = Some ev.2) as Hs'.
{ intros i ev Hi. destruct (Hs i ev Hi) as [E Hl]. pose proof (lookup_lt_Some _ _ _ Hi).
  rewrite wrap_u_id in E by (unfold in_u; subst n; lia). split; [done|]. rewrite <-Hl, E. f_equal. lia. }
split_and!; [done| |]; apply list_eq; intros i; rewrite list_lookup_fmap.
- destruct (sent !! i) as [ev|] eqn:Hi; cbn.
  + pose proof (lookup_lt_Some _ _ _ Hi). symmetry. rewrite lookup_seqZ. destruct (Hs' i ev Hi). split; [lia|subst n; lia].
  + apply lookup_ge_None in Hi. symmetry. apply lookup_seqZ_ge. subst n. lia.
- destruct (sent !! i) as [ev|] eqn:Hi; cbn.
  + pose proof (lookup_lt_Some _ _ _ Hi). rewrite lookup_take_lt, lookup_drop by (subst n; lia). symmetry. by apply Hs'.
  + apply lookup_ge_None in Hi. symmetry. apply lookup_take_ge. subst n. lia.
Qed.

(** ** Well-formed servers *)

Definition task_room (k : RoomTask) : option nat :=
  match k with
  | Publishing r _ | Subscribing r _ => Some r
  | Subscribed sub _ => Some (sub_room sub)
  | _ => None
  end.
Definition follows_room (r : nat) (k : RoomTask) : bool :=
  match k with Subscribed sub _ => bool_decide (sub_room sub = r) | _ => false end.
(** The subscriptions that are open on a room. *)
Definition subscriptions (r : nat) (s : RoomServer) : nat :=
  size (filter (λ e : nat * RoomTask, follows_room r e.2 = true) (rv_tasks s)).
Definition room_subscribers (d : Db) (r : nat) : Z := default 0 (rm_subscribers <$> db_heap d !! r).

(** Every room that a name or a handler holds exists, and the counter of a room is
    the number of its subscriptions, in sixteen bits. *)
Record server_wf (s : RoomServer) : Prop := {
  wf_rooms : ∀ id r, db_rooms (rv_db s) !! id = Some r → (r < length (db_heap (rv_db s)))%nat;
  wf_tasks : ∀ t k r, rv_tasks s !! t = Some k → task_room k = Some r → (r < length (db_heap (rv_db s)))%nat;
  wf_count : ∀ r, room_subscribers (rv_db s) r = as_u16 (Z.of_nat (subscriptions r s)) }.

Lemma is_abandoned_iff d r : is_abandoned d r = true ↔ room_subscribers d r = 0.
Proof. unfold is_abandoned, room_subscribers. destruct (db_heap d !! r); cbn; [apply Z.eqb_eq|done]. Qed.

Definition b2n (b : bool) : nat := if b then 1 else 0.
Lemma subscriptions_set r t k d s :
  (subscriptions r (rv_set t k d s) + b2n (from_option (follows_room r) false (rv_tasks s !! t)) =
   subscriptions r s + b2n (follows_room r k))%nat.
Proof.
unfold subscriptions. cbn. rewrite map_filter_insert. cbn.
assert (filter (λ e : nat * RoomTask, follows_room r e.2 = true) (rv_tasks s) !! t =
        if from_option (follows_room r) false (rv_tasks s !! t) then rv_tasks s !! t else None) as Hl.
{ rewrite map_lookup_filter. destruct (rv_tasks s !! t) as [k'|]; cbn; [|done]. by destruct (follows_room r k'). }
case_decide as Hk; [rewrite map_size_insert|rewrite map_filter_delete, map_size_delete]; rewrite Hl.
- rewrite Hk. destruct (rv_tasks s !! t) as [k'|]; cbn; [destruct (follows_room r k')|]; cbn; lia.
- apply not_true_is_false in Hk. rewrite Hk. destruct (rv_tasks s !! t) as [k'|] eqn:E; cbn in *; [|lia].
  destruct (follows_room r k') eqn:E'; cbn in *; [|lia].
  assert (size (filter (λ e : nat * RoomTask, follows_room r e.2 = true) (rv_tasks s)) ≠ 0%nat); [|lia].
  rewrite map_size_non_empty_iff. intros Hz. rewrite Hz in Hl. done.
Qed.

Lemma get_room_lt id d : (∀ r, db_rooms d !! id = Some r → (r < length (db_heap d))%nat) →
  ((get_room_or_create_empty id d).1 < length (db_heap (get_room_or_create_empty id d).2))%nat.
Proof.
intros H. unfold get_room_or_create_empty, create_room. repeat case_match; cbn; rewrite ?length_app; cbn; eauto with lia.
Qed.
Lemma get_room_named id d : db_rooms (get_room_or_create_empty id d).2 !! id = Some (get_room_or_create_empty id d).1.
Proof. unfold get_room_or_create_empty, create_room. repeat case_match; cbn; by rewrite ?lookup_insert_eq. Qed.
Lemma get_room_other id id' d : id ≠ id' → db_rooms (get_room_or_create_empty id d).2 !! id' = db_rooms d !! id'.
Proof. intros. unfold get_room_or_create_empty, create_room. repeat case_match; cbn; by rewrite ?lookup_insert_ne. Qed.
Lemma room_subscribers_get id d r : room_subscribers (get_room_or_create_empty id d).2 r = room_subscribers d r.
Proof.
unfold get_room_or_create_empty, create_room, room_subscribers. repeat case_match; cbn; [done|..].
all: destruct (decide (r < length (db_heap d))%nat); [by rewrite lookup_app_l by done|].
all: rewrite lookup_app_r, (lookup_ge_None_2 (db_heap d)) by lia; by destruct (r - length (db_heap d))%nat.
Qed.
Lemma room_subscribers_with r f d r' : room_subscribers (with_room r f d) r' =
  if decide (r = r') then default 0 (rm_subscribers ∘ f <$> db_heap d !! r) else room_subscribers d r'.
Proof.
unfold room_subscribers, with_room. cbn. case_decide as E; subst.
- rewrite list_lookup_alter_eq. by destruct (db_heap d !! r').
- by rewrite list_lookup_alter_ne.
Qed.
Lemma heap_grows s e t k d : moved s e t k d → (length (db_heap (rv_db s)) ≤ length (db_heap d))%nat.
Proof.
destruct 1; cbn; rewrite ?length_alter; try lia.
all: unfold get_room_or_create_empty, create_room; repeat case_match; cbn; rewrite ?length_app; lia.
Qed.
Lemma moved_rooms s e t k d id r : moved s e t k d → db_rooms d !! id = Some r →
  db_rooms (rv_db s) !! id = Some r ∨ (length (db_heap (rv_db s)) ≤ r < length (db_heap d))%nat.
Proof.
destruct 1; cbn; auto.
all: unfold get_room_or_create_empty, create_room; repeat case_match; cbn; auto.
all: intros [[_ <-]|[_ ?]]%lookup_insert_Some; auto; rewrite length_app; cbn; lia.
Qed.

Lemma moved_task_room s e t k d r : server_wf s → moved s e t k d → task_room k = Some r → (r < length (db_heap d))%nat.
Proof.
intros Hwf Hm. pose proof (heap_grows _ _ _ _ _ Hm) as Hg.
destruct Hm as [? id ? ? ? Hk| |t id m Ht|t id m Ht| |? ? ? Ht|t sub sent ev sub' Ht Hx|]; cbn.
- by destruct Hk as [->|(? & ? & _ & ->)].
- done.
- intros [= <-]. apply get_room_lt. intros r' ?. by eapply wf_rooms.
- intros [= <-]. apply get_room_lt. intros r' ?. by eapply wf_rooms.
- done.
- intros [= <-]. rewrite length_alter. by eapply (wf_tasks _ Hwf); [exact Ht|].
- intros [= <-]. unfold next in Hx. apply bind_Some in Hx as (? & _ & [= <- <-]). by eapply (wf_tasks _ Hwf); [exact Ht|].
- done.
Qed.
Lemma as_u16_shift a b c : as_u16 (as_u16 a + b) = as_u16 c ↔ as_u16 (a + b) = as_u16 c.
Proof. unfold wrap_u. by rewrite Zplus_mod_idemp_l. Qed.
Lemma moved_count s e t k d r : server_wf s → moved s e t k d →
  room_subscribers d r = as_u16 (Z.of_nat (subscriptions r (rv_set t k d s))).
Proof.
intros Hwf Hm. pose proof (subscriptions_set r t k d s) as Hs. pose proof (wf_count _ Hwf r) as Hc.
destruct Hm as [? id ? ? Ht Hk|? ? ? Ht|t id m Ht|t id m Ht|? r0 ? Ht|? r0 ? Ht|t sub sent ev sub' Ht Hx|? sub ? Ht];
  rewrite Ht in Hs; cbn [from_option follows_room b2n] in Hs.
- rewrite Hc. do 2 f_equal. destruct Hk as [->|(? & ? & _ & ->)]; cbn in Hs; lia.
- rewrite Hc. do 2 f_equal. cbn in Hs. lia.
- rewrite room_subscribers_get, Hc. do 2 f_equal. lia.
- rewrite room_subscribers_get, Hc. do 2 f_equal. lia.
- transitivity (room_subscribers (rv_db s) r); [|rewrite Hc; do 2 f_equal; lia].
  unfold publish. rewrite room_subscribers_with. case_decide; subst; [|done]. unfold room_subscribers. by destruct (_ !! r).
- cbn [subscribe fst snd sub_room] in *. destruct (lookup_lt_is_Some_2 (db_heap (rv_db s)) r0) as [room E]; [by eapply (wf_tasks _ Hwf); [exact Ht|]|].
  rewrite room_subscribers_with. unfold room_subscribers in Hc. case_decide; subst.
  + rewrite bool_decide_eq_true_2 in Hs by done. rewrite E in *. cbn in *. rewrite Hc. apply as_u16_shift. f_equal. lia.
  + rewrite bool_decide_eq_false_2 in Hs by done. cbn in Hs. unfold room_subscribers. rewrite Hc. do 2 f_equal. lia.
- rewrite Hc. do 2 f_equal. unfold next in Hx. apply bind_Some in Hx as (? & _ & [= <- <-]). cbn [follows_room sub_room] in Hs. lia.
- destruct (lookup_lt_is_Some_2 (db_heap (rv_db s)) (sub_room sub)) as [room E]; [by eapply (wf_tasks _ Hwf); [exact Ht|]|].
  unfold drop_subscription in *. rewrite room_subscribers_with. unfold room_subscribers in Hc. case_decide as Hr; subst.
  + rewrite bool_decide_eq_true_2 in Hs by done. rewrite E in *. cbn in *. rewrite Hc.
    rewrite <-Z.add_opp_r. apply as_u16_shift. f_equal. lia.
  + rewrite bool_decide_eq_false_2 in Hs by done. cbn in Hs. unfold room_subscribers. rewrite Hc. do 2 f_equal. lia.
Qed.
Lemma server_wf_step e s s' : server_wf s → room_step e s = Some s' → server_wf s'.
Proof.
intros Hwf [(a & ->)|(t & k & d & -> & Hm)]%room_step_cases; [by destruct Hwf|].
pose proof (heap_grows _ _ _ _ _ Hm) as Hg. split.
- intros id r Hid. cbn. destruct (moved_rooms _ _ _ _ _ _ _ Hm Hid) as [?%(wf_rooms _ Hwf)|?]; lia.
- intros t' k' r. cbn. destruct (decide (t' = t)) as [->|Ht].
  + rewrite lookup_insert_eq. intros [= <-]. by eapply moved_task_room.
  + rewrite lookup_insert_ne by done. intros Hk Hr. pose proof (wf_tasks _ Hwf _ _ _ Hk Hr). lia.
- intros r. by eapply moved_count.
Qed.
Lemma reachable_wf s : reachable s → server_wf s.
Proof. revert s. apply reachable_ind; [|intros; by eapply server_wf_step]. by split. Qed.

(** ** A subscriber is not left behind *)

(** Handler [t] follows the room that the server knows as [id]. *)
Definition attached (t : nat) (id : string) (r : nat) (s : RoomServer) : Prop :=
  (∃ sub sent, rv_tasks s !! t = Some (Subscribed sub sent) ∧ sub_room sub = r) ∧ db_rooms (rv_db s) !! id = Some r.

Lemma followed_not_abandoned t sub sent s : server_wf s → rv_tasks s !! t = Some (Subscribed sub sent) →
  Z.of_nat (subscriptions (sub_room sub) s) < 65536 → is_abandoned (rv_db s) (sub_room sub) = false.
Proof.
intros Hwf Ht Hn. apply not_true_is_false. rewrite is_abandoned_iff, (wf_count _ Hwf), wrap_u_id by (unfold in_u; lia).
intros Hz. assert (subscriptions (sub_room sub) s ≠ 0%nat); [|lia]. unfold subscriptions. rewrite map_size_non_empty_iff.
intros He. eapply (lookup_empty_Some (M := gmap nat) t (Subscribed sub sent)). rewrite <-He. apply map_lookup_filter_Some_2; [done|].
by apply bool_decide_eq_true_2.
Qed.
Lemma get_followed t id r s : server_wf s → attached t id r s → Z.of_nat (subscriptions r s) < 65536 →
  get_room_or_create_empty id (rv_db s) = (r, rv_db s).
Proof.
intros Hwf [(sub & sent & Ht & <-) Hid] Hn. unfold get_room_or_create_empty. rewrite Hid.
by erewrite followed_not_abandoned.
Qed.
Lemma attached_step t id r e s s' : server_wf s → attached t id r s → Z.of_nat (subscriptions r s) < 65536 → e ≠ Disconnect t →
  room_step e s = Some s' → attached t id r s'.
Proof.
intros Hwf Ha Hn He. pose proof (get_followed _ _ _ _ Hwf Ha Hn) as Hget. destruct Ha as [(sub & sent & Ht & Hr) Hid].
intros [(a & ->)|(t' & k & d & -> & Hm)]%room_step_cases; [split; eauto|].
assert (db_rooms d !! id = Some r) as Hd.
{ destruct Hm as [| |? id' ? ?|? id' ? ?| | | |]; try done; destruct (decide (id' = id)) as [->|]; by rewrite ?Hget, ?get_room_other. }
split; [|done]. cbn. destruct (decide (t' = t)) as [->|]; [|rewrite lookup_insert_ne by done; eauto].
rewrite lookup_insert_eq.
destruct Hm as [? ? ? ? Hx|? ? ? Hx|? ? ? Hx|? ? ? Hx|? ? ? Hx|? ? ? Hx|? ? ? ? ? Hx Hn'|? ? ? Hx]; rewrite Hx in Ht; try done.
injection Ht as -> ->. unfold next in Hn'. apply bind_Some in Hn' as (? & _ & [= <- <-]). eauto.
Qed.
Lemma attached_run t id r es : ∀ s s', server_wf s → attached t id r s → room_run es s = Some s' → Disconnect t ∉ es →
  (∀ pre x, pre `prefix_of` es → room_run pre s = Some x → Z.of_nat (subscriptions r x) < 65536) → server_wf s' ∧ attached t id r s'.
Proof.
induction es as [|e es IH]; intros s s' Hwf Ha; cbn; [by intros [= <-]|].
rewrite bind_Some, not_elem_of_cons. intros (s1 & Hs1 & Hes) [Hd Hds] Hc.
assert (Z.of_nat (subscriptions r s) < 65536) as Hn by (by eapply (Hc []), eq_refl; apply prefix_nil).
eapply (IH s1); eauto using server_wf_step, attached_step.
intros pre x Hp Hx. eapply (Hc (e :: pre)); [by apply prefix_cons|]. cbn. by rewrite Hs1.
Qed.

(** A subscription that is behind by [n] messages sends them all. *)
Lemma drain t n : ∀ s sub sent msg, rv_tasks s !! t = Some (Subscribed sub sent) → 0 ≤ sub_next_event sub →
  length (room_messages (rv_db s) (sub_room sub)) = (Z.to_nat (sub_next_event sub) + S n)%nat →
  Z.of_nat (length (room_messages (rv_db s) (sub_room sub))) ≤ 65536 → last (room_messages (rv_db s) (sub_room sub)) = Some msg →
  ∃ s' sub' sent', room_run (replicate (S n) (Next t)) s = Some s' ∧ rv_tasks s' !! t = Some (Subscribed sub' sent') ∧
    last sent' = Some (Z.of_nat (length (room_messages (rv_db s) (sub_room sub))) - 1, msg).
Proof.
induction n as [|n IH]; intros s sub sent msg Ht H0 Hlen Hb Hl.
all: destruct (lookup_lt_is_Some_2 (room_messages (rv_db s) (sub_room sub)) (Z.to_nat (sub_next_event sub))) as [m Hm]; [lia|].
all: assert (room_step (Next t) s = Some (rv_set t (Subscribed {| sub_room := sub_room sub; sub_next_event := as_u16 (sub_next_event sub + 1) |}
       (sent ++ [(sub_next_event sub, m)])) (rv_db s) s)) as Hst by (cbn; rewrite Ht; unfold next; by rewrite Hm).
- eexists _, _, _. cbn [replicate room_run]. rewrite Hst. split; [done|]. cbn. rewrite lookup_insert_eq. split; [done|].
  rewrite last_snoc. do 2 f_equal; [lia|]. rewrite last_lookup in Hl. rewrite Hlen in Hl. replace (pred _) with (Z.to_nat (sub_next_event sub)) in Hl by lia.
  congruence.
- destruct (IH (rv_set t (Subscribed {| sub_room := sub_room sub; sub_next_event := as_u16 (sub_next_event sub + 1) |}
       (sent ++ [(sub_next_event sub, m)])) (rv_db s) s) {| sub_room := sub_room sub; sub_next_event := as_u16 (sub_next_event sub + 1) |}
       (sent ++ [(sub_next_event sub, m)]) msg) as (s' & sub' & sent' & Hr & Hx); cbn; rewrite ?lookup_insert_eq; try done.
  + apply (wrap_u_in 16). lia.
  + rewrite wrap_u_id by (unfold in_u; lia). lia.
  + exists s', sub', sent'. split; [|done].
    change (room_step (Next t) s ≫= room_run (replicate (S n) (Next t)) = Some s'). by rewrite Hst.
Qed.

(** C7: A message that a party posts reaches every party that follows the room: as long
    as a subscription to the room that the server knows by that name stays open,
    and no more than sixteen bits count the subscriptions, the name keeps its room
    whatever happens in between; a broadcast that has passed its check is appended
    to the log of that room, and the subscription goes on to send it. *)
Theorem broadcast_reaches_subscriber t id r s es s' p msg sub sent :
  reachable s → attached t id r s → room_run es s = Some s' → Disconnect t ∉ es →
  (∀ pre x, pre `prefix_of` es → room_run pre s = Some x → Z.of_nat (subscriptions r x) < 65536) →
  rv_tasks s' !! p = Some (Verified id msg) → rv_tasks s' !! t = Some (Subscribed sub sent) →
  let log := room_messages (rv_db s') r in
  0 ≤ sub_next_event sub ≤ Z.of_nat (length log) → Z.of_nat (length log) < 65536 →
  ∃ s2 n s3 sub' sent', room_run [Get_room p; Enter p] s' = Some s2 ∧ room_messages (rv_db s2) r = log ++ [msg] ∧
    room_run (replicate n (Next t)) s2 = Some s3 ∧ rv_tasks s3 !! t = Some (Subscribed sub' sent') ∧
    last sent' = Some (Z.of_nat (length log), msg).
Proof.
intros Hreach Ha Hes Hd Hc Hp Ht log Hn Hn'.
destruct (attached_run _ _ _ _ _ _ (reachable_wf _ Hreach) Ha Hes Hd Hc) as [Hwf' Ha'].
assert (sub_room sub = r) as Hsub by (destruct Ha' as [(? & ? & E & <-) _]; congruence).
assert (p ≠ t) by congruence.
pose proof (get_followed _ _ _ _ Hwf' Ha' (Hc es s' ltac:(done) Hes)) as Hget.
assert (r < length (db_heap (rv_db s')))%nat as Hr by (eapply wf_rooms; [done|]; apply Ha').
set (s1 := rv_set p (Publishing r msg) (rv_db s') s'). set (s2 := rv_set p Finished (publish r msg (rv_db s')) s1).
assert (room_messages (rv_db s2) r = log ++ [msg]) as Hlog by (cbn; rewrite room_messages_publish by done; by rewrite decide_True).
destruct (drain t (length log - Z.to_nat (sub_next_event sub)) s2 sub sent msg) as (s3 & sub' & sent' & Hrun & Ht3 & Hlast).
- cbn. by rewrite !lookup_insert_ne by done.
- lia.
- rewrite Hsub, Hlog, length_app. cbn. lia.
- rewrite Hsub, Hlog, length_app. cbn. lia.
- by rewrite Hsub, Hlog, last_snoc.
- exists s2, (S (length log - Z.to_nat (sub_next_event sub))), s3, sub', sent'. split_and!; try done.
  + cbn [room_run room_step]. rewrite Hp, Hget. cbn [mbind option_bind room_step]. fold s1.
    assert (rv_tasks s1 !! p = Some (Publishing r msg)) as -> by apply lookup_insert_eq. done.
  + rewrite Hlast, Hsub, Hlog, length_app. cbn. do 2 f_equal. lia.
Qed.

(** ** Only parties speak *)

(** Authorisation for a room, read from the maps: some current computation has the
    key as its party number [i]. *)
Definition computation (a : Authorizations) (room : string) : list MultipartyIdentifier :=
  option_list (mp_keygen_authorizations a !! room ≫= ikr_identifier) ++
  option_list (mp_signing_authorizations a !! room ≫= isr_identifier).
Lemma party_index_lookup ident pk i : party_index ident pk = Some i → mi_party_keys ident !! pred i = Some pk ∧ (0 < i)%nat.
Proof.
unfold party_index. destruct (list_find _ _) as [[j k]|] eqn:E; cbn; [|done]. intros [= <-].
apply list_find_Some in E as (? & -> & _). split; [done|lia].
Qed.
Lemma check_keygen_authorized_eq a room pk :
  check_keygen_authorized a room pk = Ok ((mp_keygen_authorizations a !! room ≫= ikr_identifier) ≫= λ p, party_index p pk).
Proof. unfold check_keygen_authorized, safe_get_msg. destruct (_ !! room) as [x|]; cbn; [by destruct (ikr_identifier x)|done]. Qed.
Lemma check_signing_authorized_eq a room pk :
  check_signing_authorized a room pk = Ok ((mp_signing_authorizations a !! room ≫= isr_identifier) ≫= λ p, party_index p pk).
Proof. unfold check_signing_authorized, safe_get_msg. destruct (_ !! room) as [x|]; cbn; [by destruct (isr_identifier x)|done]. Qed.
Lemma check_mp_authorized_party a id pk i : check_mp_authorized a id pk = Ok (Some i) →
  ∃ room ident, ident ∈ computation a room ∧ mi_party_keys ident !! pred i = Some pk.
Proof.
unfold check_mp_authorized. cbv zeta. rewrite check_keygen_authorized_eq, check_signing_authorized_eq. rg_step.
set (room := default _ _). intros [= E]. exists room. unfold computation.
destruct (_ ≫= ikr_identifier) as [k|], (_ ≫= isr_identifier) as [g|]; cbn in *;
  repeat (destruct (party_index k pk) eqn:Ep; cbn in *); simplify_eq;
  try apply party_index_lookup in Ep as [Ep _]; try apply party_index_lookup in E as [E _]; eauto using list_elem_of.
Qed.
Lemma verify_message_Ok a id body i m : verify_message a id body = Ok (Some (i, m)) →
  ∃ d r pk, json_from from_str body = Ok d ∧ rq_body d = Some r ∧ mar_message r = m ∧ Request_verify_auth d = Ok pk ∧
    check_mp_authorized a id pk = Ok (Some i).
Proof. unfold verify_message. repeat case_match; naive_solver. Qed.

Lemma moved_verified s e t id msg d : moved s e t (Verified id msg) d →
  ∃ body i, e = Post_broadcast t id body ∧ verify_message (rv_auths s) id body = Ok (Some (i, Some msg)).
Proof. remember (Verified id msg) as k eqn:Ek. destruct 1; naive_solver. Qed.
Lemma moved_publishing s e t r msg d : moved s e t (Publishing r msg) d →
  ∃ id, rv_tasks s !! t = Some (Verified id msg) ∧ db_rooms d !! id = Some r.
Proof.
remember (Publishing r msg) as k eqn:Ek. destruct 1; try naive_solver.
injection Ek as <- ->. eexists. split; [done|]. apply get_room_named.
Qed.

(** The messages that are in a log or on the way to one. *)
Definition in_flight (msg : string) (s : RoomServer) : Prop :=
  (∃ t id, rv_tasks s !! t = Some (Verified id msg)) ∨ (∃ t r, rv_tasks s !! t = Some (Publishing r msg)) ∨
  (∃ r, msg ∈ room_messages (rv_db s) r).
Lemma in_flight_step e s s' msg : server_wf s → room_step e s = Some s' → in_flight msg s' →
  in_flight msg s ∨ ∃ t id body i, e = Post_broadcast t id body ∧ verify_message (rv_auths s) id body = Ok (Some (i, Some msg)).
Proof.
intros Hwf [(a & ->)|(t & k & d & -> & Hm)]%room_step_cases; [by left|].
intros [(t' & id' & Ht')|[(t' & r' & Ht')|(r' & Hr')]]; cbn in *.
- destruct (decide (t = t')) as [<-|]; [|rewrite lookup_insert_ne in Ht' by done; left; left; eauto].
  rewrite lookup_insert_eq in Ht'. injection Ht' as ->. apply moved_verified in Hm as (body & i & -> & ?). right. eauto 10.
- destruct (decide (t = t')) as [<-|]; [|rewrite lookup_insert_ne in Ht' by done; left; right; left; eauto].
  rewrite lookup_insert_eq in Ht'. injection Ht' as ->. apply moved_publishing in Hm as (id & ? & _). left. left. eauto.
- left. destruct Hm as [| | | |? r ? Ht| | |]; try (right; right; eexists; by rewrite ?room_messages_get in Hr').
  + rewrite room_messages_publish in Hr' by (eapply (wf_tasks _ Hwf); [exact Ht|done]).
    apply elem_of_app in Hr' as [?|Hr']; [right; right; eauto|]. case_decide; [|by apply elem_of_nil in Hr'].
    apply list_elem_of_singleton in Hr' as ->. right. left. eauto.
  + right. right. exists r'. cbn in Hr'. rewrite room_messages_with in Hr'. case_decide; subst; [|done].
    unfold room_messages. by destruct (_ !! r').
  + right. right. exists r'. cbn in Hr'. unfold drop_subscription in Hr'. rewrite room_messages_with in Hr'. case_decide; subst; [|done].
    unfold room_messages. by destruct (_ !! _).
Qed.

(** Nobody but a party can put a message into a room: every message in the log of
    any room was posted in a request whose signature the server checked, by a key
    that was, when it was posted, a party of a computation that the node had
    authorised; whatever else was posted left no trace. *)
Theorem room_members_only es s r msg : room_run es server_start = Some s → msg ∈ room_messages (rv_db s) r →
  ∃ pre t id body post x d m pk room ident i,
    es = pre ++ Post_broadcast t id body :: post ∧ room_run pre server_start = Some x ∧
    json_from from_str body = Ok d ∧ rq_body d = Some m ∧ mar_message m = Some msg ∧ Request_verify_auth d = Ok pk ∧
    ident ∈ computation (rv_auths x) room ∧ mi_party_keys ident !! i = Some pk.
Proof.
intros Hes Hr. assert (in_flight msg s) as Hf by (right; right; eauto). clear Hr. revert s Hes Hf.
induction es as [|e es IH] using rev_ind; intros s.
- intros [= <-] [(? & ? & H)|[(? & ? & H)|(? & H)]]; cbn in H; try by rewrite lookup_empty in H. by apply elem_of_nil in H.
- rewrite room_run_app, bind_Some. intros (x & Hx & Hs) Hf. cbn in Hs. apply bind_Some in Hs as (? & Hs & [= ->]).
  destruct (in_flight_step e x s msg) as [Hp|(t & id & body & i & -> & Hv)]; [apply reachable_wf; by exists es|done..| |].
  + destruct (IH x Hx Hp) as (pre & t & id & body & post & y & Hrest). exists pre, t, id, body, (post ++ [e]), y.
    destruct Hrest as (d & m & pk & room & ident & i & -> & ?). exists d, m, pk, room, ident, i. split; [by rewrite <-app_assoc|done].
  + apply verify_message_Ok in Hv as (d & m & pk & ? & ? & ? & ? & Hc).
    apply check_mp_authorized_party in Hc as (room & ident & ? & ?). by exists es, t, id, body, [], x, d, m, pk, room, ident, (pred i).
Qed.

(** What the check does not look at: the room that the signed request names, so that a
    message can be replayed, in its own room and in every other room with the same
    party; and the index, so that a party can write in the name of another. *)
Lemma message_not_bound a id id' body i m :
  verify_message a id body = Ok (Some (i, m)) → (∀ pk, check_mp_authorized a id' pk = check_mp_authorized a id pk) →
  verify_message a id' body = Ok (Some (i, m)).
Proof. intros H E. unfold verify_message in *. repeat case_match; naive_solver congruence. Qed.

(** ** Two parties that join at once *)

(** A room that no name and no writer holds keeps its log. *)
Definition deaf (t r : nat) (s : RoomServer) : Prop :=
  server_wf s ∧ (r < length (db_heap (rv_db s)))%nat ∧ (∀ id, db_rooms (rv_db s) !! id ≠ Some r) ∧
  (∀ p msg, rv_tasks s !! p ≠ Some (Publishing r msg)) ∧ room_messages (rv_db s) r = [] ∧
  (rv_tasks s !! t = Some Finished ∨ ∃ sub, rv_tasks s !! t = Some (Subscribed sub []) ∧ sub_room sub = r).
Lemma deaf_step t r e s s' : deaf t r s → room_step e s = Some s' → deaf t r s'.
Proof.
intros (Hwf & Hr & Hid & Hp & Hl & Ht) Hs. pose proof (server_wf_step _ _ _ Hwf Hs) as Hwf'.
apply room_step_cases in Hs as [(a & ->)|(t' & k & d & -> & Hm)]; [by repeat (split; [done|])|].
pose proof (heap_grows _ _ _ _ _ Hm) as Hg. split; [done|]. cbn. split_and!.
- lia.
- intros id Hx. destruct (moved_rooms _ _ _ _ _ _ _ Hm Hx) as [?|?]; [by eapply Hid|lia].
- intros p msg. destruct (decide (t' = p)) as [<-|]; [|by rewrite lookup_insert_ne]. rewrite lookup_insert_eq. intros [= ->].
  destruct (moved_publishing _ _ _ _ _ _ Hm) as (id & _ & Hx).
  destruct (moved_rooms _ _ _ _ _ _ _ Hm Hx) as [?|?]; [by eapply Hid|lia].
- destruct Hm as [| | | |? r0 ? Hx| | |]; rewrite ?room_messages_get; try done.
  + rewrite room_messages_publish by (eapply (wf_tasks _ Hwf); [exact Hx|done]). rewrite Hl. case_decide; subst; [|done].
    by apply Hp in Hx.
  + cbn. rewrite room_messages_with. case_decide; subst; [|done]. unfold room_messages in Hl. by destruct (_ !! r).
  + unfold drop_subscription. rewrite room_messages_with. case_decide; subst; [|done]. unfold room_messages in Hl. by destruct (_ !! _).
- destruct (decide (t' = t)) as [->|]; [|by rewrite lookup_insert_ne]. rewrite lookup_insert_eq.
  destruct Ht as [Ht|(sub & Ht & Hsub)];
  destruct Hm as [? ? ? ? Hx|? ? ? Hx|? ? ? Hx|? ? ? Hx|? ? ? Hx|? ? ? Hx|? ? ? ? ? Hx Hn|? ? ? Hx]; rewrite Hx in Ht; try done.
  + injection Ht as -> ->. unfold next in Hn. rewrite Hsub, Hl in Hn. done.
  + by left.
Qed.

Lemma get_room_fresh id d : (∀ r, db_rooms d !! id = Some r → is_abandoned d r = true) → get_room_or_create_empty id d = create_room id d.
Proof. intros H. unfold get_room_or_create_empty. destruct (db_rooms d !! id) as [r|]; [|done]. by rewrite H. Qed.
(** The server after two parties have looked up the same room before either
    subscribed. *)
Definition raced (t1 t2 : nat) (id : string) (l1 l2 : option Z) (s : RoomServer) : RoomServer :=
  let n := length (db_heap (rv_db s)) in
  {| rv_auths := rv_auths s;
     rv_db := (subscribe (S n) l2 (subscribe n l1 (create_room id (create_room id (rv_db s)).2).2).2).2;
     rv_tasks := <[t2 := Subscribed (subscribe (S n) l2 Db_empty).1 []]> (<[t1 := Subscribed (subscribe n l1 Db_empty).1 []]>
                   (<[t2 := Subscribing (S n) l2]> (<[t1 := Subscribing n l1]> (rv_tasks s)))) |}.
Lemma raced_run t1 t2 id l1 l2 s : t1 ≠ t2 → rv_tasks s !! t1 = Some (Joining id l1) → rv_tasks s !! t2 = Some (Joining id l2) →
  (∀ r, db_rooms (rv_db s) !! id = Some r → is_abandoned (rv_db s) r = true) →
  room_run [Get_room t1; Get_room t2; Enter t1; Enter t2] s = Some (raced t1 t2 id l1 l2 s).
Proof.
intros Hne H1 H2 Ha. cbn [room_run room_step]. rewrite H1, get_room_fresh by done.
cbn [create_room mbind option_bind room_run room_step rv_set rv_tasks rv_db]. rewrite lookup_insert_ne, H2 by done.
rewrite get_room_fresh.
- cbn [create_room mbind option_bind room_step rv_set rv_tasks rv_db]. rewrite lookup_insert_ne, lookup_insert_eq by done.
  cbn [subscribe mbind option_bind room_step rv_set rv_tasks rv_db]. rewrite lookup_insert_ne, lookup_insert_eq by done.
  cbn [subscribe mbind option_bind rv_set rv_tasks rv_db db_heap]. unfold raced. cbn. rewrite !length_app. cbn. by rewrite Nat.add_1_r.
- cbn. rewrite lookup_insert_eq. intros r [= <-]. unfold is_abandoned. cbn. by rewrite lookup_app_r, Nat.sub_diag.
Qed.

(** Two parties that join a room at the same time can be separated for good: when
    both look the room up before either has subscribed, the second finds it
    abandoned and puts a new one in its place; the first then subscribes to a room
    that has no name, and receives nothing, whatever happens afterwards. *)
Theorem racing_subscriber_deaf t1 t2 id l1 l2 s :
  reachable s → t1 ≠ t2 → rv_tasks s !! t1 = Some (Joining id l1) → rv_tasks s !! t2 = Some (Joining id l2) →
  (∀ r, db_rooms (rv_db s) !! id = Some r → is_abandoned (rv_db s) r = true) →
  ∃ s1, room_run [Get_room t1; Get_room t2; Enter t1; Enter t2] s = Some s1 ∧ (∃ r, attached t2 id r s1) ∧
    ∀ es s2 sub sent, room_run es s1 = Some s2 → rv_tasks s2 !! t1 = Some (Subscribed sub sent) → sent = [].
Proof.
intros Hreach Hne H1 H2 Ha. pose proof (raced_run _ _ _ _ _ _ Hne H1 H2 Ha) as Hrun. eexists. split; [exact Hrun|]. split.
{ exists (S (length (db_heap (rv_db s)))). split; cbn; [rewrite lookup_insert_eq; by eauto|].
  rewrite lookup_insert_eq, length_app, Nat.add_1_r. done. }
pose proof (reachable_wf _ Hreach) as Hwf.
intros es s2 sub sent Hes Ht. assert (deaf t1 (length (db_heap (rv_db s))) s2) as (_ & _ & _ & _ & _ & Hd).
{ eapply room_run_ind, Hes; [intros ????; apply deaf_step|]. split; [exact (reachable_wf _ (reachable_run _ _ _ Hreach Hrun))|]. split_and!.
  - cbn. rewrite !length_alter, !length_app. cbn. lia.
  - intros id'. cbn. destruct (decide (id' = id)) as [->|]; [rewrite lookup_insert_eq, length_app; cbn; intros [=]; lia|].
    rewrite !lookup_insert_ne by done. intros Hid%(wf_rooms _ Hwf). lia.
  - intros p msg. cbn. rewrite !lookup_insert_Some. intros Hp. destruct_and?. repeat (destruct Hp as [[_ ?]|[_ Hp]]; [done|]).
    pose proof (wf_tasks _ Hwf _ _ _ Hp eq_refl). lia.
  - cbn. rewrite room_messages_with, decide_False by lia. rewrite room_messages_with, decide_True by done. cbn.
    rewrite lookup_app_l by (rewrite length_app; cbn; lia). by rewrite lookup_app_r, Nat.sub_diag.
  - right. cbn. rewrite lookup_insert_ne, lookup_insert_eq by done. eauto. }
destruct Hd as [?|(? & ? & _)]; congruence.
Qed.

(** ** A party and the server *)

(** A party's requests are recognised: the request that a node signs for a room is
    accepted by its own check, and the server answers with the party's number in
    the computation that the room belongs to, and with its message; a node that is
    no party is given the number 5000 and its message is dropped. *)
Theorem client_recognised {laws : CryptoLaws} {slaws : SecpLaws} a kp nmd id m o :
  (∀ d, from_str (json_or d) = inr d) → kp_matches kp → nm_public_key nmd = Some (KeyPair_public_key kp) →
  check_mp_authorized a id (KeyPair_public_key kp) = Ok o →
  ∃ req, client_request kp nmd id m = Ok req ∧
    verify_message a id (json_or req) = Ok ((λ i, (i, m)) <$> o) ∧
    issue_idx a id (json_or req) = Ok (as_u16 (default 5000 (Z.of_nat <$> o))).
Proof.
intros Hj Hk Hn Ho.
set (req := Request_with_metadata nmd {| rq_proof := None; rq_node_metadata := None; rq_origin := None; rq_initiate_keygen := None;
  rq_initiate_signing := None; rq_body := Some {| mar_message := m; mar_room_id := id |} |}).
destruct (from_keypair_hash_verifies (calculate_hash req) kp) as (p & Hp & Hpp & Hv); [apply digest_is_digest|done|].
assert (Request_with_auth kp req = Ok (rq_with_proof (Some p) req)) as Hw by (unfold Request_with_auth; rewrite Hp; rg_step; by rewrite Hv).
assert (Request_verify_auth (rq_with_proof (Some p) req) = Ok (KeyPair_public_key kp)) as Hr.
{ apply verify_auth_Ok. by exists p, nmd. }
assert (verify_message a id (json_or (rq_with_proof (Some p) req)) = Ok ((λ i, (i, m)) <$> o)) as Hm.
{ unfold verify_message, json_from. rewrite Hj. cbn [rq_body rq_with_proof req Request_with_metadata]. rewrite Hr, Ho. by destruct o. }
exists (rq_with_proof (Some p) req). split_and!; [|done|].
- unfold client_request. fold req. rewrite Hw. rg_step. by rewrite Hr.
- unfold issue_idx. rewrite Hm. by destruct o.
Qed.
End rooms.

(** * A key generation of two parties *)

Module RoomsDemo.
#[local] Existing Instance toy_host.
#[local] Existing Instance toy_crypto.
#[local] Existing Instance toy_secp.
Notation Req := (Request (option MultipartyAuthenticationRequest)).
#[local] Instance ser_MultipartyAuthenticationRequest : Ser MultipartyAuthenticationRequest :=
  ser_via (λ r, (mar_message r, mar_room_id r)) (λ '(x, y), {| mar_message := x; mar_room_id := y |})
    (λ r, match r with Build_MultipartyAuthenticationRequest _ _ => eq_refl end).
#[local] Instance ser_Request : Ser Req :=
  ser_via (λ r : Req, (rq_proof r, rq_node_metadata r, rq_origin r, rq_initiate_keygen r, rq_initiate_signing r, rq_body r))
    (λ '(x0, x1, x2, x3, x4, x5), {| rq_proof := x0; rq_node_metadata := x1; rq_origin := x2; rq_initiate_keygen := x3;
      rq_initiate_signing := x4; rq_body := x5 |})
    (λ r, match r with Build_Request _ _ _ _ _ _ => eq_refl end).
#[local] Instance demo_prq : Proto Req := ser_proto Req.
#[local] Instance demo_jrq : Json Req := λ d, String.string_of_list_byte (encode_to_vec d).
Definition demo_from_str (s : string) : string + Req := proto_decode (String.list_byte_of_string s).
Lemma demo_json_law d : demo_from_str (json_or d) = inr d.
Proof.
unfold demo_from_str, json_or, demo_jrq. rewrite String.list_byte_of_string_of_list_byte.
apply (proto_decode_encode (ProtoLaws := ser_proto_laws Req)).
Qed.

Definition keygen : InitiateMultipartyKeygenRequest :=
  {| ikr_identifier := Some {| mi_party_keys := [PublicKey_from_bytes [Byte.x01]; KeyPair_public_key demo_kp]; mi_threshold := 1;
                               mi_uuid := "room" |} |}.
Definition hello : string :=
  match client_request demo_kp demo_nmd "room" (Some "hello") with Ok r => json_or r | _ => "" end.
Notation run es := (room_run demo_from_str es).
Definition at_end (es : list RoomEvent) : RoomServer := default server_start (run es server_start).

(** One party joins, the other posts. *)
Definition joined : list RoomEvent := [Authorize_keygen keygen; Get_subscribe 1 "room" None; Get_room 1; Enter 1].
Definition posted : list RoomEvent := [Post_broadcast 2 "room" hello].
Definition done_ : list RoomEvent := joined ++ posted ++ [Get_room 2; Enter 2; Next 1].

Lemma client_recognised_witness :
  ∃ req, client_request demo_kp demo_nmd "room-online" (Some "hello") = Ok req ∧
    verify_message demo_from_str (rv_auths (at_end joined)) "room-online" (json_or req) = Ok ((λ i, (i, Some "hello")) <$> Some 2%nat) ∧
    issue_idx demo_from_str (rv_auths (at_end joined)) "room-online" (json_or req) = Ok (as_u16 (default 5000 (Z.of_nat <$> Some 2%nat))).
Proof.
apply (client_recognised (laws := toy_crypto_laws) (slaws := toy_secp_laws) demo_from_str (rv_auths (at_end joined)) demo_kp demo_nmd
  "room-online" (Some "hello") (Some 2%nat) demo_json_law).
- reflexivity.
- reflexivity.
- vm_compute. reflexivity.
Defined.

Lemma subscription_in_order_witness :
  ∃ sub sent, rv_tasks (at_end done_) !! 1%nat = Some (Subscribed sub sent) ∧ sent = [(0, "hello")] ∧
    sent.*2 = take (length sent) (drop 0 (room_messages (rv_db (at_end done_)) 0)).
Proof.
eexists _, _. split; [vm_compute; reflexivity|]. split; [reflexivity|].
eapply (subscription_in_order demo_from_str 1 0 None (at_end (take 3 joined)) (at_end joined) (posted ++ [Get_room 2; Enter 2; Next 1])
  (at_end done_)).
- vm_compute. reflexivity.
- vm_compute. reflexivity.
- vm_compute. reflexivity.
- vm_compute. reflexivity.
- simpl. lia.
Defined.

Lemma broadcast_reaches_subscriber_witness :
  ∃ s2 n s3 sub' sent', run [Get_room 2; Enter 2] (at_end (joined ++ posted)) = Some s2 ∧ room_messages (rv_db s2) 0 = [] ++ ["hello"] ∧
    run (replicate n (Next 1)) s2 = Some s3 ∧ rv_tasks s3 !! 1%nat = Some (Subscribed sub' sent') ∧ last sent' = Some (0, "hello").
Proof.
apply (broadcast_reaches_subscriber demo_from_str 1 "room" 0 (at_end joined) posted (at_end (joined ++ posted)) 2 "hello"
  {| sub_room := 0; sub_next_event := 0 |} []).
- exists joined. vm_compute. reflexivity.
- split; [|vm_compute; reflexivity]. eexists _, _. split; [vm_compute; reflexivity|reflexivity].
- vm_compute. reflexivity.
- unfold posted. intros H%list_elem_of_singleton. discriminate.
- intros pre x Hp Hx. destruct pre as [|e pre].
  + injection Hx as <-. vm_compute. reflexivity.
  + apply prefix_cons_inv_1 in Hp as Hq. subst e. apply prefix_cons_inv_2, prefix_nil_inv in Hp. subst pre.
    revert Hx. vm_compute. intros [= <-]. reflexivity.
- vm_compute. reflexivity.
- vm_compute. reflexivity.
- vm_compute. split; discriminate.
- vm_compute. reflexivity.
Defined.

Lemma room_members_only_witness :
  ∃ pre t id body post x d m pk room ident i,
    done_ = pre ++ Post_broadcast t id body :: post ∧ run pre server_start = Some x ∧
    json_from demo_from_str body = Ok d ∧ rq_body d = Some m ∧ mar_message m = Some "hello" ∧ Request_verify_auth d = Ok pk ∧
    ident ∈ computation (rv_auths x) room ∧ mi_party_keys ident !! i = Some pk.
Proof.
apply (room_members_only demo_from_str done_ (at_end done_) 0 "hello").
- vm_compute. reflexivity.
- assert (room_messages (rv_db (at_end done_)) 0 = ["hello"]) as -> by (vm_compute; reflexivity). by apply list_elem_of_singleton.
Defined.

Definition both_joining : list RoomEvent := [Authorize_keygen keygen; Get_subscribe 1 "room" None; Get_subscribe 2 "room" None].
Lemma racing_subscriber_deaf_witness :
  ∃ s1, run [Get_room 1; Get_room 2; Enter 1; Enter 2] (at_end both_joining) = Some s1 ∧ (∃ r, attached 2 "room" r s1) ∧
    ∀ es s2 sub sent, run es s1 = Some s2 → rv_tasks s2 !! 1%nat = Some (Subscribed sub sent) → sent = [].
Proof.
apply (racing_subscriber_deaf demo_from_str 1 2 "room" None None (at_end both_joining)).
- exists both_joining. vm_compute. reflexivity.
- discriminate.
- vm_compute. reflexivity.
- vm_compute. reflexivity.
- intros r H. revert H. vm_compute. discriminate.
Defined.
End RoomsDemo.
