(* ===== verification/Outgoing.v ===== *)
(** * Messages to peers

    How a node asks its peers: a message is queued for a key or for a node that is
    described to it, src/core/peer_event_handler.rs looks the node up and posts the
    signed request to it with the client of src/api/mod.rs, and the answer comes
    back on a channel; src/core/relay.rs builds the broadcasts, the gossip and the
    serial lookup on top.

    The network is a parameter: what a post of some bytes to an address yields, or
    nothing in the time that the message allows.  The messages of a broadcast are
    handled one after the other, where the source handles up to 200 at a time; the
    trace id of a request is left out. *)

From stdpp Require Import base list gmap strings pretty.
From S2P Require Import Prelude Structs Interfaces Schema Merkle Transaction Keys Store Contract Mempool Wire Download Peers Config Sync Handler.
#[local] Open Scope Z_scope.
#[local] Open Scope redgold_scope.

(** What [reqwest] makes of a post: no response, no body, or the bytes of one. *)
Inductive HttpOutcome := NoResponse (e : string) | NoBody (e : string) | Body (b : bytes).

(** [PeerMessage] on its way out. *)
Record OutMessage := {
  om_request : Request RequestBody; om_public_key : option PublicKey; om_node_metadata : option NodeMetadata;
  om_send_timeout : Z }.
Definition from_metadata (request : Request RequestBody) (metadata : NodeMetadata) : OutMessage :=
  {| om_request := request; om_public_key := None; om_node_metadata := Some metadata; om_send_timeout := 60 |}.
Definition from_pk (request : Request RequestBody) (pk : PublicKey) : OutMessage :=
  {| om_request := request; om_public_key := Some pk; om_node_metadata := None; om_send_timeout := 60 |}.
Definition om_with_timeout (t : Z) (m : OutMessage) : OutMessage :=
  {| om_request := om_request m; om_public_key := om_public_key m; om_node_metadata := om_node_metadata m; om_send_timeout := t |}.

(** The requests this file sends; every other field is empty. *)
Definition request_body (lookup : option Hash) (peers_info about : bool) (gossip : option (option Transaction)) : RequestBody :=
  {| b_lookup_transaction := lookup; b_genesis := false; b_recent_transactions := None; b_utxo_valid := None;
     b_resolve_code := None; b_get_contract_state_marker := None; b_query_observation_proof := None;
     b_submit_transaction := None; b_get_peers_info := peers_info; b_gossip_transaction := gossip;
     b_gossip_observation := None; b_download := None; b_about := about |}.
Definition Request_of (b : RequestBody) : Request RequestBody :=
  {| rq_proof := None; rq_node_metadata := None; rq_origin := None; rq_initiate_keygen := None; rq_initiate_signing := None;
     rq_body := b |}.
Definition ask_peers_info : Request RequestBody := Request_of (request_body None true false None).
Definition ask_about : Request RequestBody := Request_of (request_body None false true None).
Definition ask_lookup (h : Hash) : Request RequestBody := Request_of (request_body (Some h) false false None).
Definition tell_transaction (tx : Transaction) : Request RequestBody := Request_of (request_body None false false (Some (Some tx))).

(** ** Where a node is (schema/src/peers.rs, schema/src/lib.rs) *)

Definition port_or (n : NodeMetadata) (network : NetworkEnvironment) : Z :=
  as_u16 (default (default_port_offset network) (nm_transport_info n ≫= ti_port_offset)).
Definition TransportInfo_external_address {host : Host} (t : TransportInfo) : RgResult string :=
  safe_get_msg (match ti_external_host t with Some h => Some h | None => ti_external_ipv4 t end) "No external address".
Definition external_address {host : Host} (n : NodeMetadata) : RgResult string :=
  t ← safe_get_msg (nm_transport_info n) "Missing transport info"; TransportInfo_external_address t.
(** [RgHttpClient::formatted_url]. *)
Definition formatted_url (url : string) (port : Z) : string := "http://" +:+ url +:+ ":" +:+ pretty port.

Section outgoing.
Context {host : Host} {crypto : Crypto} {secp : Secp}.
Context {ptx : Proto Transaction} {pdm : Proto DynamicNodeMetadata}.
Context {prq : Proto (Request RequestBody)} {prs : Proto (Response ResponseBody)}.
Context {jrq : Json (Request RequestBody)} {jrs : Json (Response ResponseBody)} {jpk : Json (option PublicKey)}.
Context {jnm : Json NodeMetadata}.
Context (kp : KeyPair) (peer_tx_fixed : Transaction) (node_tx_fixed : option NodeMetadata → Transaction).
Context (network : NetworkEnvironment) (now : Z).
(** The network: [None] when nothing has come back within the time allowed. *)
Context (http : string → bytes → option HttpOutcome).

Notation H := (M NodeState ErrorInfo).
Notation Req := (Request RequestBody).
Notation Resp := (Response ResponseBody).

(** ** The HTTP client (src/api/mod.rs) *)

Definition proto_post (url : string) (port : Z) (r : Req) (endpoint : string) : option (RgResult Resp) :=
  match http (formatted_url url port +:+ "/" +:+ endpoint) (encode_to_vec r) with
  | None => None
  | Some (NoResponse e) => Some (Err (error_info ("Proto request failure: " +:+ e)))
  | Some (NoBody e) => Some (Err (error_info ("Proto request bytes decode failure: " +:+ e)))
  | Some (Body b) =>
      Some (match proto_decode b with
            | inr resp => Ok resp
            | inl e => Err (error_info ("Proto request response decode failure: " +:+ e))
            end)
  end.
(** [Ok None]: the call has not returned in time. *)
Definition proto_post_request (url : string) (port : Z) (r : Req) (intended_pk : option PublicKey) : H (option Resp) :=
  nmd ← relay_node_metadata kp peer_tx_fixed node_tx_fixed;
  r ← lift (Request_with_auth kp (Request_with_metadata nmd r));
  _ ← lift (add_msg (Request_verify_auth r) "Self request signing immediate auth failure");
  match proto_post url port r "request_proto" with
  | None => mret None
  | Some result =>
      result ← lift result;
      _ ← lift (add_msg (as_error_info result) "Response metadata found as errorInfo");
      result ← lift (add_msg (add_msg (Response_verify_auth result intended_pk)
                                "Response authentication verification failure") (json_or result));
      mret (Some result)
  end.

(** ** The task that sends (src/core/peer_event_handler.rs) *)

Definition rest_peer (ip : string) (port : Z) (request : Req) (intended_pk : PublicKey) : H (option Resp) :=
  proto_post_request ip (as_u16 port) request (Some intended_pk).
Definition send_message_rest_ret_err (message : OutMessage) (nmd : NodeMetadata) : H (option Resp) :=
  let port := as_u16 (port_or nmd network + 1) in
  pk ← lift (safe_get_msg (nm_public_key nmd) "Missing public key on node metadata in outgoing request");
  ip ← lift (external_address nmd);
  rest_peer ip port (om_request message) pk.
(** The response that is put on the channel: an error is turned into one. *)
Definition send_message_rest (message : OutMessage) (nmd : NodeMetadata) : H Resp := λ s,
  let failed e := from_error_info empty_body
    (with_detail (with_detail e "node_metadata" (json_or nmd)) "message" (json_or (om_request message))) in
  match send_message_rest_ret_err message nmd s with
  | (Ok (Some r), s') => (Ok r, s')
  | (Ok None, s') => (Ok (failed (error_msg UnknownError
      ("Timeout sending message to peer with duration " +:+ pretty (om_send_timeout message) +:+ " secs") "deadline has elapsed")), s')
  | (Err e, s') => (Ok (failed e), s')
  | (Panic, s') => (Panic, s')
  end.
(** [None]: the message is dropped and its channel closed. *)
Definition send_peer_message (message : OutMessage) : H (option Resp) :=
  match om_public_key message with
  | Some pk =>
      res ← gets (λ s, query_public_key_metadata (ns_peers s) pk);
      res ← lift res;
      match (res : option NodeMetadata) with
      | Some nmd => r ← send_message_rest message nmd; mret (Some r)
      | None => mret None
      end
  | None =>
      match om_node_metadata message with
      | Some nmd => r ← send_message_rest message nmd; mret (Some r)
      | None => lift (Err (error_info "Missing public key or node metadata in peer messsage, unable to process contents "))
      end
  end.

(** What a message that waits on its channel gets: the response, the error of a closed
    channel, or nothing at all when the task that sends has ended. *)
Definition closed : ErrorInfo := error_message InternalChannelReceiveError "receiving on a closed channel".
Definition await (message : OutMessage) : H (option (RgResult Resp)) := λ s,
  match send_peer_message message s with
  | (Ok (Some r), s') => (Ok (Some (Ok r)), s')
  | (Ok None, s') => (Ok (Some (Err closed)), s')
  | (_, s') => (Ok None, s')
  end.

(** ** What the relay sends (src/core/relay.rs) *)

(** [send_message_sync_pm]: the message waits on its own timeout only. *)
Definition send_message_sync_pm (pm : OutMessage) (timeout : option Z) : H (option (RgResult Resp)) :=
  await (om_with_timeout (default 20 timeout) pm).
(** [broadcast_async]; [None] when it does not return. *)
Fixpoint broadcast_all (timeout : Z) (nodes : list PublicKey) (request : Req) : H (option (list (RgResult Resp))) :=
  match nodes with
  | [] => mret (Some [])
  | p :: nodes =>
      r ← await (om_with_timeout timeout (from_pk request p));
      match r with
      | Some r => rest ← broadcast_all timeout nodes request; mret ((cons r) <$> rest)
      | None => mret None
      end
  end.
Definition broadcast_async (nodes : list PublicKey) (request : Req) (timeout : option Z) : H (option (list (RgResult Resp))) :=
  broadcast_all (default 20 timeout) nodes request.
(** [lookup_transaction_serial]; a message that is not answered in ten seconds is an
    error there, and the next peer is asked. *)
Fixpoint lookup_serial (peers : list PublicKey) (h : Hash) : H (option Transaction) :=
  match peers with
  | [] => mret None
  | p :: peers =>
      res ← await (from_pk (ask_lookup h) p);
      match res with
      | None => mret None
      | Some res =>
          match ok_opt res ≫= λ r, a_lookup_transaction (rs_body r) with
          | Some t => if bool_decide (hash_or t = h) then mret (Some t) else lookup_serial peers h
          | None => lookup_serial peers h
          end
      end
  end.
Definition lookup_transaction_serial (h : Hash) : H (option Transaction) :=
  peers ← gets (λ s, peers_near (ns_peers s) now h pti_transaction_hash);
  peers ← lift peers; lookup_serial peers h.
(** [gossip]: queued for every active node, without an answer. *)
Definition gossip (tx : Transaction) (s : NodeState) : RgResult (list OutMessage) :=
  all ← select_gossip_peers (ns_peers s) now tx; Ok ((λ p, from_pk (tell_transaction tx) p) <$> (all : list PublicKey)).
Definition gossip_req (req : Req) (hash : Hash) (s : NodeState) : RgResult (list OutMessage) :=
  all ← peers_near (ns_peers s) now hash pti_transaction_hash; Ok ((λ p, from_pk req p) <$> (all : list PublicKey)).
(** [run]: the first error ends the task, and what is queued is never sent. *)
Fixpoint outgoing_run (messages : list OutMessage) : H unit :=
  match messages with [] => mret tt | m :: ms => _ ← send_peer_message m; outgoing_run ms end.

(** * Properties *)

(** ** Only the node that was asked can answer *)

Lemma proto_post_request_authentic url port r pk s resp s' :
  proto_post_request url port r (Some pk) s = (Ok (Some resp), s') →
  as_error_info resp = Ok tt ∧ Response_verify_auth resp (Some pk) = Ok resp.
Proof.
unfold proto_post_request. intros E. apply M_bind_Ok in E as (nmd & s1 & _ & E). apply M_bind_Ok in E as (r1 & s2 & _ & E).
apply M_bind_Ok in E as ([] & s3 & _ & E). destruct (proto_post _ _ _ _) as [result|]; [|by injection E].
apply M_bind_Ok in E as (resp1 & s4 & _ & E). apply M_bind_Ok in E as ([] & s5 & He & E).
apply M_bind_Ok in E as (resp2 & s6 & Hv & E). injection E as -> ->.
injection He as He _. injection Hv as Hv _. unfold add_msg in *. rewrite map_err_Ok in He. rewrite !map_err_Ok in Hv.
assert (resp = resp1) as ->.
{ unfold Response_verify_auth, add_msg in Hv. rewrite !map_err_Ok in Hv. unfold Response_verify_auth_inner in Hv.
  repeat (apply bind_Ok in Hv as (? & _ & Hv)). by repeat case_match; simplify_eq. }
done.
Qed.

Lemma Response_verify_auth_Ok resp pk resp' : Response_verify_auth resp (Some pk) = Ok resp' →
  ∃ proof, rs_proof resp = Some proof ∧ pf_public_key proof = Some pk ∧ Proof_verify proof (calculate_hash resp) = Ok tt.
Proof.
unfold Response_verify_auth, Response_verify_auth_inner, add_msg, safe_get_msg. rewrite !map_err_Ok.
intros (nmd & _ & E)%bind_Ok. apply bind_Ok in E as (npk & _ & E). apply bind_Ok in E as (proof & Hp%ok_or_Ok & E).
apply bind_Ok in E as (ppk & Hpk%ok_or_Ok & E). apply bind_Ok in E as ([] & Hv%map_err_Ok & E).
case_bool_decide; [done|]. case_bool_decide as Hne; [done|]. exists proof. split_and!; [done| |done].
by rewrite Hpk, Hne.
Qed.

(** What a node does to ask another respects every preorder that storing the own
    transactions respects. *)
Section frame.
Context (R : NodeState → NodeState → Prop) `{!PreOrder R}.
Context (Hpeer : ∀ tx, preserves R (on_config (set_peer_tx tx))) (Hnode : ∀ tx, preserves R (on_config (set_node_tx tx))).
Lemma relay_node_metadata_frame : preserves R (relay_node_metadata kp peer_tx_fixed node_tx_fixed).
Proof. unfold relay_node_metadata, node_tx, peer_tx. auto 20 with preserves typeclass_instances. Qed.
Lemma proto_post_request_frame url port r o : preserves R (proto_post_request url port r o).
Proof. unfold proto_post_request. auto 20 using relay_node_metadata_frame with preserves typeclass_instances. Qed.
Lemma send_message_rest_frame m nmd : preserves R (send_message_rest m nmd).
Proof.
intros s. unfold send_message_rest. assert (preserves R (send_message_rest_ret_err m nmd)) as Hp.
{ unfold send_message_rest_ret_err, rest_peer. auto using proto_post_request_frame with preserves. }
specialize (Hp s). by destruct (send_message_rest_ret_err m nmd s) as [[[]| |]].
Qed.
Lemma await_frame m : preserves R (await m).
Proof.
intros s. unfold await. assert (preserves R (send_peer_message m)) as Hp.
{ unfold send_peer_message. auto 10 using send_message_rest_frame with preserves. }
specialize (Hp s). by destruct (send_peer_message m s) as [[[]| |]].
Qed.
Lemma broadcast_frame t nodes req : preserves R (broadcast_all t nodes req).
Proof. induction nodes; cbn [broadcast_all]; auto 10 using await_frame with preserves. Qed.
End frame.

(** It leaves the table of peers alone. *)
Definition same_peers (s s' : NodeState) : Prop := ns_peers s' = ns_peers s.
#[local] Instance same_peers_pre : PreOrder same_peers.
Proof. split; [by intros s|]. unfold same_peers. intros ??? -> ->. done. Qed.
Lemma on_config_peers {A} (m : M ConfigDb ErrorInfo A) : preserves same_peers (on_config m).
Proof. intros s. unfold on_config. by destruct (m _). Qed.
Lemma await_peers m : preserves same_peers (await m).
Proof. apply await_frame; [apply _|intros; apply on_config_peers..]. Qed.
Lemma broadcast_peers t nodes req : preserves same_peers (broadcast_all t nodes req).
Proof. apply broadcast_frame; [apply _|intros; apply on_config_peers..]. Qed.

(** The response is signed by the node that the table has under this key. *)
Definition answered_by (d : PeerDb) (pk : PublicKey) (r : Resp) : Prop :=
  ∃ nmd pk' proof, query_public_key_metadata d pk = Ok (Some nmd) ∧ nm_public_key nmd = Some pk' ∧
    safe_bytes (pk_bytes pk') = safe_bytes (pk_bytes pk) ∧
    rs_proof r = Some proof ∧ pf_public_key proof = Some pk' ∧ Proof_verify proof (calculate_hash r) = Ok tt.

Lemma stored_metadata_key d pk nmd pk' : peers_wf d → query_public_key_metadata d pk = Ok (Some nmd) → nm_public_key nmd = Some pk' →
  safe_bytes (pk_bytes pk') = safe_bytes (pk_bytes pk).
Proof.
intros Hwf Hq Hpk. unfold query_public_key_metadata, query_public_key_node in Hq.
apply bind_Ok in Hq as (otx & Hq & [= Ho]). apply bind_Ok in Hq as (key & Hkey & Hq).
destruct (pd_nodes d !! key) as [row|] eqn:E; [|by injection Hq as <-].
destruct (pwf_nodes _ Hwf _ _ E) as (tx & nmd' & k & p & pid & Hd & Hn & Hk & Hkey' & _).
rewrite (decode_Ok _ _ Hd) in Hq. injection Hq as <-. cbn in Ho. rewrite Hn in Ho. injection Ho as ->.
rewrite Hk in Hpk. injection Hpk as ->. apply node_key_Ok in Hkey as [-> _]. by apply node_key_Ok in Hkey' as [-> _].
Qed.

Lemma await_authentic t req pk s r s' : peers_wf (ns_peers s) → await (om_with_timeout t (from_pk req pk)) s = (Ok (Some (Ok r)), s') →
  as_error_info r = Ok tt → answered_by (ns_peers s) pk r.
Proof.
intros Hwf Ha He. unfold await in Ha. destruct (send_peer_message _ s) as [[[r'|]| |] s1] eqn:Hs; simplify_eq.
unfold send_peer_message in Hs. cbn [om_public_key om_with_timeout from_pk] in Hs. inv_M.
destruct x1 as [nmd|]; [|by inv_M]. inv_M. simplify_eq.
unfold send_message_rest in *. destruct (send_message_rest_ret_err _ _ _) as [[[r2|]| |] s2] eqn:Hr; simplify_eq; try done.
unfold send_message_rest_ret_err, rest_peer in Hr. inv_M.
match goal with H : proto_post_request _ _ _ _ _ = _ |- _ => apply proto_post_request_authentic in H as [_ Hv] end.
match goal with H : safe_get_msg (nm_public_key nmd) _ = Ok _ |- _ => unfold safe_get_msg in H; apply ok_or_Ok in H as Hpk end.
apply Response_verify_auth_Ok in Hv as (proof & ? & ? & ?).
exists nmd, x1, proof. split_and!; try done. by eapply stored_metadata_key.
Qed.

Lemma broadcast_all_answered t nodes request : ∀ s answers s', peers_wf (ns_peers s) →
  broadcast_all t nodes request s = (Ok (Some answers), s') →
  Forall2 (λ pk a, ∀ r, a = Ok r → as_error_info r = Ok tt → answered_by (ns_peers s) pk r) nodes answers.
Proof.
induction nodes as [|p nodes IH]; intros s answers s' Hwf Hb; cbn [broadcast_all] in Hb.
- inv_M. simplify_eq. constructor.
- apply M_bind_Ok in Hb as ([a|] & s1 & Ha & Hb); [|by inv_M].
  pose proof (await_peers (om_with_timeout t (from_pk request p)) s) as Hp. rewrite Ha in Hp. cbn in Hp.
  apply M_bind_Ok in Hb as (rest & s2 & Hrest & Hb). apply mret_Ok in Hb as [Hb ->]. destruct rest as [rest|]; [|done].
  injection Hb as ->. constructor; [|rewrite <-Hp; eapply IH; [by rewrite Hp|done]]. intros r -> He. by eapply await_authentic.
Qed.

(** C17: In a broadcast, every answer that is not an error is signed by the node it was
    asked of: the table of peers has the node under the key that was asked, and the
    proof over the answer's hash is by the key of that node.  There is one answer
    for every node, in their order, and asking changes no peer. *)
Theorem broadcast_authentic nodes request timeout s answers s' :
  peers_wf (ns_peers s) → broadcast_async nodes request timeout s = (Ok (Some answers), s') →
  Forall2 (λ pk a, ∀ r, a = Ok r → as_error_info r = Ok tt → answered_by (ns_peers s) pk r) nodes answers ∧ ns_peers s' = ns_peers s.
Proof.
unfold broadcast_async. intros Hwf Hb. split; [by eapply broadcast_all_answered|].
pose proof (broadcast_peers (default 20 timeout) nodes request s) as Hp. by rewrite Hb in Hp.
Qed.

(** ** A key that is no key *)

(** A message to such a key ends the task that sends: nothing queued behind it leaves
    the node, and whoever waits for an answer waits for ever. *)
Lemma malformed_recipient_stops_sending request pk e rest s :
  PublicKey_validate pk = Err e →
  outgoing_run (from_pk request pk :: rest) s = (Err e, s) ∧
  ∀ nodes timeout, broadcast_async (pk :: nodes) request timeout s = (Ok None, s).
Proof.
intros He. assert (∀ t, send_peer_message (om_with_timeout t (from_pk request pk)) s = (Err e, s)) as Hs.
{ intros t. unfold send_peer_message. cbn [om_public_key om_with_timeout from_pk]. erewrite M_bind_step by reflexivity.
  unfold query_public_key_metadata, query_public_key_node, node_key. by rewrite He. }
split; [cbn [outgoing_run]; apply M_bind_fail, (Hs 60)|].
intros nodes timeout. unfold broadcast_async. cbn [broadcast_all].
erewrite (M_bind_step _ _ s None s); [done|]. unfold await. by rewrite Hs.
Qed.

(** ** A question to a node that runs the handler *)

Section two_nodes.
Context {pue : Proto UtxoEntry} {po : Proto Output} {pei : Proto ErrorInfo} {pom : Proto ObservationMetadata}.
Context {pop : Proto ObservationProof} {psel : Proto StateSelector} {pbd : Proto BytesData} {pcsm : Proto ContractStateMarker}.
Context (kpB : KeyPair) (peer_txB : Transaction) (node_txB : option NodeMetadata → Transaction) (dynamicB : DynamicNodeMetadata).
Context (await_replyB : Transaction → RgResult (Response (option SubmitTransactionResponse))).
Context (keygen_followerB signing_followerB : bytes → PublicKey → RgResult bytes) (nowB : Z).
Notation handleB := (handle_incoming_message kpB peer_txB node_txB dynamicB await_replyB keygen_followerB signing_followerB nowB).

Lemma handled_verified pm c s s' : handleB pm s = (Ok tt, s') → pm_response pm = Some c →
  ∃ r s0, s' = ns_answer c r s0 ∧ Response_verify_auth r (Some (KeyPair_public_key kpB)) = Ok r.
Proof.
unfold handle_incoming_message. cbv zeta. intros Hh Hc.
assert (∃ response s1 s2, (r ← lift (expect (Response_verify_auth response (Some (KeyPair_public_key kpB))));
  match pm_response pm with Some c => modify (ns_answer c r) | None => mret tt end) s1 = (Ok tt, s2) ∧ s2 = s') as (response & s1 & s2 & Hr & <-).
{ destruct (add_msg _ _); [| |done].
  all: apply M_bind_Ok in Hh as ([] & ? & _ & Hh); apply M_bind_Ok in Hh as (? & ? & _ & Hh); apply M_bind_Ok in Hh as (? & ? & _ & Hh);
    apply M_bind_Ok in Hh as (? & ? & _ & Hh); eauto. }
rewrite Hc in Hr. apply M_bind_Ok in Hr as (r & s3 & Hr & Hm). inv_M. exists r. eexists. split; [done|].
destruct (Response_verify_auth response _) as [r'| |] eqn:E; simplify_eq/=.
assert (r = response) as ->; [|done]. unfold Response_verify_auth, add_msg in E. rewrite !map_err_Ok in E.
unfold Response_verify_auth_inner in E. repeat (apply bind_Ok in E as (? & _ & E)). by repeat case_match; simplify_eq.
Qed.

(** C18: Two nodes understand each other: when the address of a node is served by its
    message handler, and the handler answers without an error, the node that asks
    gets that answer, whatever the question; its own request passes its own check
    on the way. *)
Theorem peer_query_answered {laws : CryptoLaws} {slaws : SecpLaws} url port r s nmd s1 sB sB' c resp :
  kp_matches kp → relay_node_metadata kp peer_tx_fixed node_tx_fixed s = (Ok nmd, s1) → nm_public_key nmd = Some (KeyPair_public_key kp) →
  (∀ signed, Request_with_auth kp (Request_with_metadata nmd r) = Ok signed →
     handleB {| pm_request := signed; pm_response := Some c |} sB = (Ok tt, ns_answer c resp sB') ∧
     http (formatted_url url port +:+ "/" +:+ "request_proto") (encode_to_vec signed) = Some (Body (encode_to_vec resp))) →
  proto_decode (encode_to_vec resp) = inr resp → as_error_info resp = Ok tt →
  proto_post_request url port r (Some (KeyPair_public_key kpB)) s = (Ok (Some resp), s1).
Proof.
intros Hk Hn Hpk Hnet Hdec He.
destruct (from_keypair_hash_verifies (calculate_hash (Request_with_metadata nmd r)) kp) as (p & Hp & Hpp & Hv); [apply digest_is_digest|done|].
set (signed := rq_with_proof (Some p) (Request_with_metadata nmd r)).
assert (Request_with_auth kp (Request_with_metadata nmd r) = Ok signed) as Hw by (unfold Request_with_auth; rewrite Hp; rg_step; by rewrite Hv).
assert (Request_verify_auth signed = Ok (KeyPair_public_key kp)) as Hr by (apply verify_auth_Ok; by exists p, nmd).
destruct (Hnet _ Hw) as [Hh Hpost].
destruct (handled_verified _ c _ _ Hh eq_refl) as (resp' & s0 & Hans & Hver).
assert (resp' = resp) as ->.
{ apply (f_equal ns_answers) in Hans. cbn in Hans. apply app_inj_2 in Hans as [_ [= ->]]; done. }
unfold proto_post_request. rewrite (M_bind_step _ _ _ _ _ Hn), Hw. erewrite M_bind_step by reflexivity.
unfold add_msg at 1. rewrite Hr. erewrite M_bind_step by reflexivity. unfold proto_post. rewrite Hpost, Hdec.
erewrite M_bind_step by reflexivity. unfold add_msg at 1. rewrite He. erewrite M_bind_step by reflexivity.
rewrite Hver. by erewrite M_bind_step by reflexivity.
Qed.
End two_nodes.
End outgoing.

(** * Two nodes *)

Module OutgoingDemo.
#[local] Existing Instance toy_host.
#[local] Existing Instance toy_crypto.
#[local] Existing Instance toy_secp.
#[local] Existing Instance HandlerDemo.demo_pt.
#[local] Existing Instance HandlerDemo.demo_pu.
#[local] Existing Instance HandlerDemo.demo_po.
#[local] Existing Instance HandlerDemo.demo_pe.
#[local] Existing Instance HandlerDemo.demo_pm.
#[local] Existing Instance HandlerDemo.demo_pp.
#[local] Existing Instance HandlerDemo.demo_pd.
#[local] Existing Instance HandlerDemo.demo_psel.
#[local] Existing Instance HandlerDemo.demo_pbd.
#[local] Existing Instance HandlerDemo.demo_pcsm.
#[local] Existing Instance HandlerDemo.demo_prq.
#[local] Existing Instance HandlerDemo.demo_jrq.
#[local] Existing Instance HandlerDemo.demo_jrs.
#[local] Existing Instance HandlerDemo.demo_jpk.
#[local] Instance demo_jnm : Json NodeMetadata := demo_json.
#[local] Instance demo_jpi : Json PeerNodeInfo := demo_json.
Notation Resp := (Response ResponseBody).

(** The other node: its key, its description, and what the first node has stored of it. *)
Definition kp_b : KeyPair (secp := toy_secp) :=
  Build_KeyPair (secp := toy_secp) (repeat Byte.x08 33 : secret_key (Secp := toy_secp)) (repeat Byte.x08 33).
Definition key_b : PublicKey := KeyPair_public_key kp_b.
Definition describe (key : PublicKey) (at_ : string) : NodeMetadata :=
  {| nm_transport_info := Some {| ti_external_ipv4 := None; ti_external_ipv6 := None; ti_external_host := Some at_; ti_port_offset := None;
       ti_nat_restricted := None |};
     nm_public_key := Some key; nm_node_type := None; nm_version_info := None; nm_partition_info := None; nm_node_name := None;
     nm_peer_id := Some PeersDemo.peer; nm_parties := [] |}.
Definition info_of (key : PublicKey) (at_ : string) : PeerNodeInfo :=
  peer_node_info (PeersDemo.carrying (Some PeersDemo.peer_md) None) (PeersDemo.carrying None (Some (describe key at_))).
Definition known (key : PublicKey) (at_ : string) (d : PeerDb) : PeerDb := (add_peer_new (info_of key at_) (KeyPair_public_key demo_kp) 1000 d).2.
Definition node_a (d : PeerDb) : NodeState := ns_with_peers d HandlerDemo.node_state.
Definition node_b (_ : option NodeMetadata) : Transaction := PeersDemo.carrying None (Some (describe key_b "b")).
Definition state_b : NodeState := HandlerDemo.node_state.

(** Every response is the one the network carries. *)
Definition carries (resp : Resp) : Proto Resp := {| encode_to_vec := λ _, [Byte.x02]; proto_decode := λ _, inr resp |}.
Definition unsigned (body : ResponseBody) : Resp :=
  {| rs_response_metadata := Some success_metadata; rs_proof := None; rs_node_metadata := None; rs_body := body |}.
(** An answer that the other node signs. *)
Definition answer_b (body : ResponseBody) : Resp :=
  match Response_with_auth (prs := HandlerDemo.demo_prs) kp_b (Response_with_metadata (describe key_b "b") (unsigned body)) with
  | Ok r => r | _ => unsigned body end.
Definition wire (url : string) (_ : bytes) : option HttpOutcome :=
  if bool_decide (url = "http://b:16481/request_proto") then Some (Body [Byte.x02]) else None.
Definition table : PeerDb := known key_b "b" empty_peers.
Lemma table_wf : peers_wf table.
Proof.
apply (peers_reach_wf (laws := ser_proto_laws Transaction)).
exact (pr_op (OpAdd (info_of key_b "b") (KeyPair_public_key demo_kp) 1000) empty_peers pr_empty).
Qed.
Definition genesis_b : Resp := answer_b empty_body.
Notation asked_a := (broadcast_async (prs := carries genesis_b) demo_kp HandlerDemo.fixed_peer HandlerDemo.fixed_node Dev wire
  [key_b] ask_peers_info None (node_a table)).

Lemma broadcast_authentic_witness :
  ∃ r, asked_a.1 = Ok (Some [Ok r]) ∧ answered_by (prs := carries genesis_b) table key_b r.
Proof.
destruct (broadcast_authentic (prs := carries genesis_b) demo_kp HandlerDemo.fixed_peer HandlerDemo.fixed_node Dev wire
  [key_b] ask_peers_info None (node_a table) [Ok genesis_b] asked_a.2) as [H _].
- exact table_wf.
- apply (run_fst asked_a). vm_compute. reflexivity.
- exists genesis_b. split; [vm_compute; reflexivity|]. apply Forall2_cons in H as [H _]. apply H; [reflexivity|vm_compute; reflexivity].
Defined.

Notation handle_b := (handle_incoming_message (prs := HandlerDemo.demo_prs) kp_b HandlerDemo.fixed_peer node_b HandlerDemo.fixed_dynamic
  HandlerDemo.no_reply HandlerDemo.follower HandlerDemo.follower 5).
Definition request_a : Request RequestBody :=
  match Request_with_auth demo_kp (Request_with_metadata demo_nmd (Request_of HandlerDemo.ask_genesis)) with Ok r => r | _ => ask_about end.
(** What the handler of the other node answers. *)
Definition handled_b : NodeState := (handle_b {| pm_request := request_a; pm_response := Some 3%nat |} state_b).2.
Definition genesis_answer : Resp := match ns_answers handled_b with [(_, r)] => r | _ => unsigned empty_body end.
Definition before_b : NodeState :=
  {| ns_sync := ns_sync handled_b; ns_peers := ns_peers handled_b; ns_contract := ns_contract handled_b;
     ns_in_process := ns_in_process handled_b; ns_submitted := ns_submitted handled_b; ns_observations := ns_observations handled_b;
     ns_discovery := ns_discovery handled_b; ns_followers := ns_followers handled_b; ns_answers := [] |}.
Notation ask_a := (proto_post_request (prs := carries genesis_answer) demo_kp HandlerDemo.fixed_peer HandlerDemo.fixed_node wire "b" 16481
  (Request_of HandlerDemo.ask_genesis) (Some key_b) (node_a table)).
Lemma peer_query_answered_witness : ask_a = (Ok (Some genesis_answer), (relay_node_metadata demo_kp HandlerDemo.fixed_peer HandlerDemo.fixed_node (node_a table)).2).
Proof.
apply (peer_query_answered (prs := carries genesis_answer) (laws := toy_crypto_laws) (slaws := toy_secp_laws) demo_kp HandlerDemo.fixed_peer
  HandlerDemo.fixed_node wire kp_b HandlerDemo.fixed_peer node_b HandlerDemo.fixed_dynamic HandlerDemo.no_reply HandlerDemo.follower
  HandlerDemo.follower 5 "b" 16481 (Request_of HandlerDemo.ask_genesis) (node_a table) demo_nmd _ state_b before_b 3).
- reflexivity.
- apply (run_fst (relay_node_metadata demo_kp HandlerDemo.fixed_peer HandlerDemo.fixed_node (node_a table))). vm_compute. reflexivity.
- reflexivity.
- intros signed Hs. assert (signed = request_a) as -> by (revert Hs; vm_compute; intros [= <-]; reflexivity).
  split; vm_compute; reflexivity.
- reflexivity.
- vm_compute. reflexivity.
Defined.
End OutgoingDemo.
