(* ===== verification/Discovery.v ===== *)
(** * Discovery of peers

    src/core/discovery.rs: at intervals a node asks every active node it knows for
    the peers that node knows and for its description of itself, and updates its
    table; and for every unknown sender that the message handler reports, it asks
    the sender about itself.  On top of the outgoing messages, the peer store and
    the message handler.

    The found peers are a [HashSet] in the source: the order in which they are
    stored is a parameter.  A call that waits for ever answers [Ok None]. *)

From stdpp Require Import base list gmap strings.
From S2P Require Import Prelude Structs Interfaces Schema Merkle Transaction Keys Store Contract Mempool Wire Download Peers Config Sync Handler Outgoing.
#[local] Open Scope Z_scope.
#[local] Open Scope redgold_scope.

Section discovery.
Context {host : Host} {crypto : Crypto} {secp : Secp}.
Context {ptx : Proto Transaction} {pdm : Proto DynamicNodeMetadata}.
Context {prq : Proto (Request RequestBody)} {prs : Proto (Response ResponseBody)}.
Context {jrq : Json (Request RequestBody)} {jrs : Json (Response ResponseBody)} {jpk : Json (option PublicKey)}.
Context {jnm : Json NodeMetadata} {jpi : Json PeerNodeInfo}.
Context (kp : KeyPair) (peer_tx_fixed : Transaction) (node_tx_fixed : option NodeMetadata → Transaction).
Context (network : NetworkEnvironment) (http : string → bytes → option HttpOutcome).
Context (set_order : list PeerNodeInfo → list PeerNodeInfo).

Notation H := (M NodeState ErrorInfo).
Notation Resp := (Response ResponseBody).
Notation self_key := (KeyPair_public_key kp).

Definition node_pk (t : Transaction) : option PublicKey := n ← ok_opt (Transaction_node_metadata t); nm_public_key n.
(** [node_tx_original.node_metadata().expect("nmd").public_key.expect("pk")], removed. *)
Definition remove_original (node_tx_original : Transaction) : H unit :=
  nmd ← lift (expect (Transaction_node_metadata node_tx_original));
  pk_o ← lift (expect_opt (nm_public_key nmd));
  on_peers (remove_node pk_o).
(** What a node says of itself. *)
Definition take_self_info (now : Z) (node_tx_original : Transaction) (info : PeerNodeInfo) : H unit :=
  _ ← (match pni_latest_node_transaction info with
       | Some latest_node_tx =>
           if bool_decide (latest_node_tx ≠ node_tx_original) then remove_original node_tx_original else mret tt
       | None => mret tt
       end);
  on_peers (add_peer_new info self_key now).
Definition discovery_answer (now : Z) (results : list PeerNodeInfo) (a : RgResult Resp * Transaction) : H (list PeerNodeInfo) :=
  match a.1 with
  | Ok o =>
      match a_peers_info (rs_body o) with
      | Some o =>
          _ ← (match gpr_self_info o with Some info => take_self_info now a.2 info | None => mret tt end);
          mret (results ++ gpr_peer_info o)
      | None => mret results
      end
  | Err _ => _ ← remove_original a.2; mret results
  | Panic => lift Panic
  end.
Fixpoint discovery_answers (now : Z) (results : list PeerNodeInfo) (l : list (RgResult Resp * Transaction)) : H (list PeerNodeInfo) :=
  match l with
  | [] => mret results
  | a :: l => results ← discovery_answer now results a; discovery_answers now results l
  end.
(** A peer that another one knows. *)
Definition add_found (now : Z) (r : PeerNodeInfo) : H unit :=
  match nmd_pk r with
  | Some pk =>
      if bool_decide (pk ≠ self_key) then
        known ← gets (λ s, query_public_key_node (ns_peers s) pk);
        known ← lift known;
        match (known : option Transaction) with
        | Some _ => mret tt
        | None => ok_unit (on_peers (add_peer_new r self_key now))
        end
      else mret tt
  | None => mret tt
  end.
Definition interval_fold (now : Z) : H (option unit) :=
  node_tx_all ← gets (λ s, active_node_info (ns_peers s) now None);
  node_tx_all ← lift (add_msg node_tx_all "Active nodes query in discovery failure");
  let peers := omap node_pk node_tx_all in
  if bool_decide (length node_tx_all ≠ length peers) then lift Panic else
  answers ← broadcast_async kp peer_tx_fixed node_tx_fixed network http peers ask_peers_info None;
  match (answers : option (list (RgResult Resp))) with
  | None => mret None
  | Some answers =>
      results ← discovery_answers now [] (zip answers node_tx_all);
      _ ← iterM (add_found now) (set_order results);
      mret (Some tt)
  end.
(** [run_interval_inner] of src/core/stream_handlers.rs: the first error ends it. *)
Fixpoint interval_run (ticks : list Z) : H (option unit) :=
  match ticks with
  | [] => mret (Some tt)
  | now :: ticks => r ← interval_fold now; match r with Some tt => interval_run ticks | None => mret None end
  end.

(** ** A sender that was not known *)

Definition process (now : Z) (result : Resp) : H unit :=
  a ← lift (safe_get_msg (a_about (rs_body result)) "Missing about node response during peer discovery");
  res ← lift (safe_get_msg (anr_peer_node_info a) "Missing about node response peer_node_info during peer discovery");
  tx ← lift (safe_get_msg (pni_latest_node_transaction res)
               "Missing about node response latest_node_transaction during peer discovery");
  nmd ← lift (Transaction_node_metadata tx);
  _ ← lift (safe_get_msg (nm_public_key nmd) "Missing about node response public_key during peer discovery");
  on_peers (add_peer_new res self_key now).
(** [recv_for_each]: an error is logged. *)
Definition recv_for_each (now : Z) (message : NodeMetadata) : H (option unit) :=
  result ← send_message_sync_pm kp peer_tx_fixed node_tx_fixed network http (from_metadata ask_about message) None;
  match (result : option (RgResult Resp)) with
  | None => mret None
  | Some (Ok r) => _ ← ok_unit (process now r); mret (Some tt)
  | Some (Err _) => mret (Some tt)
  | Some Panic => lift Panic
  end.

(** * Properties *)

(** ** The table *)

Section lawful.
Context {laws : ProtoLaws Transaction}.

Definition peers_kept (s s' : NodeState) : Prop := keeps_wf (ns_peers s) (ns_peers s').
#[local] Instance peers_kept_pre : PreOrder peers_kept.
Proof. split; [intros s Hs; exact Hs|intros s1 s2 s3 H1 H2 H; exact (H2 (H1 H))]. Qed.
Lemma on_peers_kept o : preserves peers_kept (on_peers (run_peer_op o)).
Proof.
intros s. unfold on_peers, peers_kept. pose proof (run_peer_op_keeps o (ns_peers s)) as Hk.
by destruct (run_peer_op o (ns_peers s)).
Qed.
Lemma ok_unit_kept (m : H unit) : preserves peers_kept m → preserves peers_kept (ok_unit m).
Proof. intros Hm s. specialize (Hm s). unfold ok_unit. by destruct (m s) as [[]]. Qed.
Lemma same_peers_kept {A} (m : H A) : preserves same_peers m → preserves peers_kept m.
Proof. intros Hm s Hs. specialize (Hm s). unfold same_peers in Hm. by rewrite Hm. Qed.
Lemma remove_original_kept t : preserves peers_kept (remove_original t).
Proof. unfold remove_original. apply preserves_bind; [apply _|auto with preserves|]. intros n.
apply preserves_bind; [apply _|auto with preserves|]. intros pk. apply (on_peers_kept (OpRemoveNode pk)). Qed.
Lemma take_self_info_kept now t info : preserves peers_kept (take_self_info now t info).
Proof.
unfold take_self_info. apply preserves_bind; [apply _| |intros _; apply (on_peers_kept (OpAdd info self_key now))].
auto using remove_original_kept with preserves.
Qed.
Lemma answers_kept now l : ∀ results, preserves peers_kept (discovery_answers now results l).
Proof.
induction l as [|a l IH]; intros results; cbn [discovery_answers]; [auto with preserves|].
apply preserves_bind; [apply _| |auto]. unfold discovery_answer.
auto 10 using remove_original_kept, take_self_info_kept with preserves.
Qed.
Lemma add_found_kept now r : preserves peers_kept (add_found now r).
Proof.
unfold add_found. destruct (nmd_pk r); [|auto with preserves]. case_bool_decide; [|auto with preserves].
apply preserves_bind; [apply _|auto with preserves|]. intros k. apply preserves_bind; [apply _|auto with preserves|]. intros [|]; [auto with preserves|].
apply ok_unit_kept. apply (on_peers_kept (OpAdd r self_key now)).
Qed.
Lemma broadcast_kept nodes : preserves peers_kept (broadcast_async kp peer_tx_fixed node_tx_fixed network http nodes ask_peers_info None).
Proof. apply same_peers_kept. apply broadcast_peers. Qed.
Lemma interval_fold_kept now : preserves peers_kept (interval_fold now).
Proof.
unfold interval_fold. cbv zeta. auto 15 using broadcast_kept, answers_kept, add_found_kept with preserves.
Qed.
Lemma interval_run_kept ticks : preserves peers_kept (interval_run ticks).
Proof.
induction ticks as [|now ticks IH]; cbn [interval_run]; [auto with preserves|].
apply preserves_bind; [apply _|apply interval_fold_kept|]. intros [[]|]; [done|auto with preserves].
Qed.

(** An active node of a table in use, as its row says. *)
Lemma active_written d now l t : peers_wf d → active_node_info d now None = Ok l → t ∈ l →
  ∃ k r nmd pk, pd_nodes d !! k = Some r ∧ proto_decode (nr_tx r) = inr t ∧ Transaction_node_metadata t = Ok nmd ∧
    nm_public_key nmd = Some pk ∧ node_key pk = Ok k.
Proof.
intros Hwf Hl Ht. apply mapR_Ok in Hl. apply list_elem_of_lookup in Ht as [i Hi].
destruct (Forall2_lookup_r _ _ _ _ _ Hl Hi) as ([k r] & Hk & Hd).
assert (pd_nodes d !! k = Some r) as E.
{ apply elem_of_map_to_list. apply list_elem_of_lookup_2 in Hk. apply list_elem_of_In in Hk.
  unfold active_rows in Hk. apply List.filter_In in Hk as [Hk _]. by apply list_elem_of_In. }
destruct (pwf_nodes _ Hwf _ _ E) as (tx & nmd & pk & p & pid & Htx & Hn & Hpk & Hkey & _).
rewrite (decode_Ok _ _ Htx) in Hd. injection Hd as ->. by exists k, r, nmd, pk.
Qed.
Lemma active_pk d now l t : peers_wf d → active_node_info d now None = Ok l → t ∈ l → is_Some (node_pk t).
Proof. intros Hwf Hl Ht. destruct (active_written _ _ _ _ Hwf Hl Ht) as (k & r & nmd & pk & _ & _ & Hn & Hpk & _). unfold node_pk. rewrite Hn. by exists pk. Qed.
Lemma omap_total_length {A B} (f : A → option B) l : (∀ x, x ∈ l → is_Some (f x)) → length (omap f l) = length l.
Proof.
induction l as [|x l IH]; intros Hf; [done|]. cbn. destruct (Hf x) as [y ->]; [left|]. cbn. f_equal. apply IH. intros z Hz. apply Hf. by right.
Qed.

(** On a table in use the assertion of discovery holds: every active node names its
    key, so that each is asked and each answer is compared with the right node.
    However many rounds of discovery run, and whatever the peers answer, the table
    stays one in which every row is under the key its transaction names. *)
Theorem discovery_table_wf s ticks now l :
  peers_wf (ns_peers s) → active_node_info (ns_peers (interval_run ticks s).2) now None = Ok l →
  peers_wf (ns_peers (interval_run ticks s).2) ∧ length (omap node_pk l) = length l.
Proof.
intros Hwf Hl. assert (peers_wf (ns_peers (interval_run ticks s).2)) as Hwf' by exact (interval_run_kept ticks s Hwf).
split; [done|]. apply omap_total_length. intros t Ht. by eapply active_pk.
Qed.

(** ** What a peer can do to the table *)

Lemma remove_active now s l t : peers_wf (ns_peers s) → active_node_info (ns_peers s) now None = Ok l → t ∈ l →
  ∀ s1, ∃ s2, remove_original t s1 = (Ok tt, s2).
Proof.
intros Hwf Hl Ht s1. destruct (active_written _ _ _ _ Hwf Hl Ht) as (k & r & nmd & pk & _ & _ & Hn & Hpk & Hkey).
unfold remove_original. rewrite Hn. erewrite M_bind_step by reflexivity. rewrite Hpk. erewrite M_bind_step by reflexivity. unfold on_peers. rewrite (remove_node_run _ _ _ Hkey). by eexists.
Qed.

(** One peer can end discovery: when the first node that is asked answers with a
    description of itself that names the key of the node that asks, the table
    refuses it, the error leaves the round, and no later round runs. *)
Theorem self_named_stops_discovery now ticks s t l o gp info answers s1 :
  peers_wf (ns_peers s) → active_node_info (ns_peers s) now None = Ok (t :: l) →
  broadcast_async kp peer_tx_fixed node_tx_fixed network http (omap node_pk (t :: l)) ask_peers_info None s =
    (Ok (Some (Ok o :: answers)), s1) →
  a_peers_info (rs_body o) = Some gp → gpr_self_info gp = Some info → self_key ∈ public_keys info →
  ∃ e s', interval_run (now :: ticks) s = (Err e, s').
Proof.
intros Hwf Hl Hb Ho Hi Hself.
assert (∃ e s', discovery_answer now [] (Ok o, t) s1 = (Err e, s')) as (e & s' & Ha).
{ unfold discovery_answer. cbn [fst snd]. rewrite Ho, Hi. assert (∃ e s', take_self_info now t info s1 = (Err e, s')) as (e & s' & He).
  - unfold take_self_info. assert (∃ s2, (match pni_latest_node_transaction info with
       | Some x => if bool_decide (x ≠ t) then remove_original t else mret tt | None => mret tt end) s1 = (Ok tt, s2)) as [s2 Hs2].
    { repeat case_match; [|by eexists..]. eapply remove_active; [done..|left]. }
    rewrite (M_bind_step _ _ _ _ _ Hs2). unfold add_peer_new. rewrite bool_decide_eq_true_2 by done. by eexists _, _.
  - exists e, s'. by apply M_bind_fail. }
exists e, s'. cbn [interval_run]. apply M_bind_fail. unfold interval_fold. erewrite M_bind_step by reflexivity. rewrite Hl.
erewrite M_bind_step by reflexivity. cbv zeta.
rewrite bool_decide_eq_false_2.
- rewrite (M_bind_step _ _ _ _ _ Hb). cbn [zip zip_with]. apply M_bind_fail. cbn [discovery_answers]. by apply M_bind_fail.
- intros Hx. apply Hx. symmetry. apply omap_total_length. intros x Hin. by eapply active_pk.
Qed.

(** A node can replace what is stored of any other: the description that it gives of
    itself is stored under the key that the description names, and nothing compares
    that key with the node that was asked or checks a signature. *)
Theorem self_info_replaces_any_node now results o gp info t s res s' :
  discovery_answer now results (Ok o, t) s = (Ok res, s') → a_peers_info (rs_body o) = Some gp → gpr_self_info gp = Some info →
  ∃ tx nmd pk k row, pni_latest_node_transaction info = Some tx ∧ Transaction_node_metadata tx = Ok nmd ∧
    nm_public_key nmd = Some pk ∧ safe_bytes (pk_bytes pk) = Ok k ∧ pd_nodes (ns_peers s') !! k = Some row ∧
    proto_decode (nr_tx row) = inr tx ∧ nr_last_seen row = now.
Proof.
intros Ha Ho Hi. unfold discovery_answer in Ha. cbn [fst snd] in Ha. rewrite Ho, Hi in Ha.
apply M_bind_Ok in Ha as ([] & s1 & Ht & Ha). apply mret_Ok in Ha as [-> ->]. unfold take_self_info in Ht.
apply M_bind_Ok in Ht as ([] & s2 & _ & Ht). unfold on_peers in Ht. destruct (add_peer_new _ _ _ _) as [r d] eqn:E. injection Ht as -> <-.
unfold add_peer_new in E. case_bool_decide; [done|]. apply M_bind_Ok in E as (p & d1 & _ & E). apply M_bind_Ok in E as ([] & d2 & _ & E).
apply M_bind_Ok in E as (n & d3 & [Hn%ok_or_Ok ->]%lift_Ok & E). unfold insert_node in E.
apply M_bind_Ok in E as (nmd & d4 & [Hnmd ->]%lift_Ok & E). apply M_bind_Ok in E as (pk & d5 & [Hpk%ok_or_Ok ->]%lift_Ok & E).
apply M_bind_Ok in E as (pk' & d6 & [_ ->]%lift_Ok & E). apply M_bind_Ok in E as (k & d7 & [Hk ->]%lift_Ok & E).
inv_M. exists n, nmd, pk, k. eexists. split_and!; try done.
- cbn. by rewrite lookup_insert_eq.
- cbn. apply proto_decode_encode.
- done.
Qed.

(** ** A node that cannot be reached *)

(** An answer that carries no table. *)
Definition barren (a : RgResult Resp) : Prop := ∃ r, a = Ok r ∧ a_peers_info (rs_body r) = None.
Context (unreachable : ∀ url body b, http url body ≠ Some (Body b)).

Lemma unreachable_await t pk nmd req s : query_public_key_metadata (ns_peers s) pk = Ok (Some nmd) →
  ∃ a s', await kp peer_tx_fixed node_tx_fixed network http (om_with_timeout t (from_pk req pk)) s = (Ok a, s') ∧
    ns_peers s' = ns_peers s ∧ match a with Some a => barren a | None => True end.
Proof.
intros Hq. pose proof (await_peers kp peer_tx_fixed node_tx_fixed network http (om_with_timeout t (from_pk req pk)) s) as Hp.
unfold await in *. unfold send_peer_message in *. cbn [om_public_key om_with_timeout from_pk] in *.
erewrite M_bind_step in * by reflexivity. rewrite Hq in *. erewrite M_bind_step in * by reflexivity.
unfold send_message_rest, mbind, M_bind in *.
destruct (send_message_rest_ret_err _ _ _ _ _ _ _ s) as [[[r|]|e|] s1] eqn:E; cbn in *; eexists _, _; (split; [done|split; [done|]]); try by eexists.
exfalso. clear Hp. unfold send_message_rest_ret_err, rest_peer, proto_post_request in E. inv_M. unfold proto_post in *.
destruct (http _ _) as [[e|e|b]|] eqn:Hh; inv_M; try done. by apply unreachable in Hh.
Qed.
Lemma unreachable_broadcast t nodes req : ∀ s, Forall (λ pk, ∃ nmd, query_public_key_metadata (ns_peers s) pk = Ok (Some nmd)) nodes →
  ∃ a s', broadcast_all kp peer_tx_fixed node_tx_fixed network http t nodes req s = (Ok a, s') ∧ ns_peers s' = ns_peers s ∧
    match a with Some a => Forall barren a | None => True end.
Proof.
induction nodes as [|pk nodes IH]; intros s Hq; cbn [broadcast_all]; [by eexists _, _|].
apply Forall_cons in Hq as [[nmd Hpk] Hq]. destruct (unreachable_await t pk nmd req s Hpk) as (a & s1 & Ha & Hp & Hb).
rewrite (M_bind_step _ _ _ _ _ Ha). destruct a as [a|]; [|by eexists _, _].
destruct (IH s1) as (rest & s2 & Hr & Hp2 & Hrest); [by rewrite Hp|]. rewrite (M_bind_step _ _ _ _ _ Hr).
eexists _, s2. split; [done|]. split; [congruence|]. destruct rest; cbn; [by constructor|done].
Qed.
Lemma barren_answers now l : ∀ results s, Forall (λ a : RgResult Resp * Transaction, barren a.1) l →
  discovery_answers now results l s = (Ok results, s).
Proof.
induction l as [|[a t] l IH]; intros results s; [done|]. intros [(r & Ha & Hr) Hl]%Forall_cons. cbn in Ha. subst a.
cbn [discovery_answers]. unfold discovery_answer at 1. cbn. rewrite Hr. erewrite M_bind_step by reflexivity. by apply IH.
Qed.

(** A node that does not answer is never removed: when no post to any node yields a
    response, a round of discovery leaves the table of peers as it was, for every
    failed call comes back as a response that carries an error, and only a closed
    channel is an error to discovery. *)
Theorem unreachable_nodes_kept now s :
  peers_wf (ns_peers s) → (∀ l x, x ∈ set_order l → x ∈ l) → ns_peers (interval_fold now s).2 = ns_peers s.
Proof.
intros Hwf Hset. unfold interval_fold. erewrite M_bind_step by reflexivity.
destruct (active_node_info (ns_peers s) now None) as [l|e|] eqn:Hl; [|done..]. erewrite M_bind_step by reflexivity. cbv zeta.
case_bool_decide; [done|].
destruct (unreachable_broadcast 20 (omap node_pk l) ask_peers_info s) as (a & s1 & Ha & Hp & Hb).
{ apply Forall_forall. intros pk (t & Ht & Hpk)%list_elem_of_omap.
  destruct (active_written _ _ _ _ Hwf Hl Ht) as (k & r & nmd & pk' & Hk & Hd & Hn & Hpk' & Hkey).
  unfold node_pk in Hpk. rewrite Hn in Hpk. cbn in Hpk. assert (pk' = pk) as -> by congruence.
  exists nmd. unfold query_public_key_metadata, query_public_key_node. rewrite Hkey. rg_step. rewrite Hk, (decode_Ok _ _ Hd). rg_step. cbn. by rewrite Hn. }
unfold broadcast_async. cbn [default]. rewrite (M_bind_step _ _ _ _ _ Ha). destruct a as [a|]; [|done].
rewrite (M_bind_step _ _ s1 [] s1).
- destruct (set_order []) as [|x xs] eqn:E; [done|]. specialize (Hset [] x). rewrite E in Hset. set_solver.
- apply barren_answers. apply Forall_lookup_2. intros i [x t] Hi. apply lookup_zip_Some in Hi as [Hi _]. by eapply Forall_lookup_1 in Hb.
Qed.
End lawful.
End discovery.

(** * A node and its peer *)

Module DiscoveryDemo.
#[local] Existing Instance toy_host.
#[local] Existing Instance toy_crypto.
#[local] Existing Instance toy_secp.
#[local] Existing Instance HandlerDemo.demo_pt.
#[local] Existing Instance HandlerDemo.demo_pd.
#[local] Existing Instance HandlerDemo.demo_prq.
#[local] Existing Instance HandlerDemo.demo_jrq.
#[local] Existing Instance HandlerDemo.demo_jrs.
#[local] Existing Instance HandlerDemo.demo_jpk.
#[local] Existing Instance OutgoingDemo.demo_jnm.
#[local] Existing Instance OutgoingDemo.demo_jpi.
Lemma demo_laws : ProtoLaws Transaction. Proof. apply ser_proto_laws. Qed.
Notation own_key := (KeyPair_public_key demo_kp).
Notation start := (OutgoingDemo.node_a OutgoingDemo.table).
Definition with_self_info (info : PeerNodeInfo) : ResponseBody :=
  {| a_lookup_transaction := None; a_genesis := None; a_recent_transactions := None; a_utxo_valid := None;
     a_resolve_code := None; a_contract_state_marker := None; a_observation_proofs := None; a_submit_transaction := None;
     a_peers_info := Some {| gpr_self_info := Some info; gpr_peer_info := [] |}; a_download := None; a_about := None;
     a_keygen := None; a_signing := None |}.
Definition says (info : PeerNodeInfo) : Response ResponseBody := OutgoingDemo.answer_b (with_self_info info).
Notation rounds info := (interval_run (prs := OutgoingDemo.carries (says info)) demo_kp HandlerDemo.fixed_peer HandlerDemo.fixed_node Dev
  OutgoingDemo.wire id).

(** The peer has moved to another address, and the table follows it. *)
Definition moved_to : PeerNodeInfo := OutgoingDemo.info_of OutgoingDemo.key_b "elsewhere".
Lemma discovery_table_wf_witness :
  peers_wf (ns_peers (rounds moved_to [1500] start).2) ∧
  length (omap node_pk [PeersDemo.carrying None (Some (OutgoingDemo.describe OutgoingDemo.key_b "elsewhere"))]) = 1%nat.
Proof.
apply (discovery_table_wf (prs := OutgoingDemo.carries (says moved_to)) demo_kp HandlerDemo.fixed_peer HandlerDemo.fixed_node Dev
  OutgoingDemo.wire id (laws := demo_laws) start [1500] 1600).
- exact OutgoingDemo.table_wf.
- vm_compute. reflexivity.
Defined.

Definition silent (url : string) (_ : bytes) : option HttpOutcome := Some (NoResponse "connection refused").
Lemma unreachable_nodes_kept_witness :
  active_nodes OutgoingDemo.table 1500 None = Ok [OutgoingDemo.key_b] ∧
  ns_peers (interval_fold (prs := HandlerDemo.demo_prs) demo_kp HandlerDemo.fixed_peer HandlerDemo.fixed_node Dev silent id 1500 start).2 =
    OutgoingDemo.table.
Proof.
split; [vm_compute; reflexivity|].
apply (unreachable_nodes_kept (prs := HandlerDemo.demo_prs) demo_kp HandlerDemo.fixed_peer HandlerDemo.fixed_node Dev silent id
  (laws := demo_laws)).
- discriminate.
- exact OutgoingDemo.table_wf.
- intros l x H. exact H.
Defined.

(** The peer claims the key of the node that asks. *)
Definition claims_own : PeerNodeInfo := OutgoingDemo.info_of own_key "b".
Lemma self_named_stops_discovery_witness : ∃ e s', rounds claims_own [1500; 1600; 1700] start = (Err e, s').
Proof.
apply (self_named_stops_discovery (prs := OutgoingDemo.carries (says claims_own)) demo_kp HandlerDemo.fixed_peer HandlerDemo.fixed_node Dev
  OutgoingDemo.wire id 1500 [1600; 1700] start
  (PeersDemo.carrying None (Some (OutgoingDemo.describe OutgoingDemo.key_b "b"))) [] (says claims_own)
  {| gpr_self_info := Some claims_own; gpr_peer_info := [] |} claims_own []
  (broadcast_async (prs := OutgoingDemo.carries (says claims_own)) demo_kp HandlerDemo.fixed_peer HandlerDemo.fixed_node Dev OutgoingDemo.wire
     [OutgoingDemo.key_b] ask_peers_info None start).2).
- exact OutgoingDemo.table_wf.
- vm_compute. reflexivity.
- apply (run_fst (broadcast_async (prs := OutgoingDemo.carries (says claims_own)) demo_kp HandlerDemo.fixed_peer HandlerDemo.fixed_node Dev
    OutgoingDemo.wire [OutgoingDemo.key_b] ask_peers_info None start)). vm_compute. reflexivity.
- reflexivity.
- reflexivity.
- by_decision.
Defined.

(** The peer gives its own address for the key of a third node. *)
Definition third : PublicKey := PublicKey_from_bytes (repeat Byte.x09 33).
Definition hijack : PeerNodeInfo := OutgoingDemo.info_of third "b".
Definition both : NodeState := OutgoingDemo.node_a (OutgoingDemo.known third "c" OutgoingDemo.table).
Notation answered_ := (discovery_answer demo_kp 1500 [] (Ok (says hijack), PeersDemo.carrying None (Some (OutgoingDemo.describe OutgoingDemo.key_b "b")))
  both).
Lemma self_info_replaces_witness :
  (∃ nmd, query_public_key_metadata (ns_peers both) third = Ok (Some nmd) ∧ external_address nmd = Ok "c") ∧
  ∃ tx nmd pk k row, pni_latest_node_transaction hijack = Some tx ∧ Transaction_node_metadata tx = Ok nmd ∧
    nm_public_key nmd = Some pk ∧ safe_bytes (pk_bytes pk) = Ok k ∧ pd_nodes (ns_peers answered_.2) !! k = Some row ∧
    proto_decode (nr_tx row) = inr tx ∧ nr_last_seen row = 1500.
Proof.
split; [eexists; split; [vm_compute; reflexivity|reflexivity]|].
apply (self_info_replaces_any_node demo_kp (laws := demo_laws) 1500 [] (says hijack) {| gpr_self_info := Some hijack; gpr_peer_info := [] |}
  hijack (PeersDemo.carrying None (Some (OutgoingDemo.describe OutgoingDemo.key_b "b"))) both []).
- apply (run_fst answered_). vm_compute. reflexivity.
- reflexivity.
- reflexivity.
Defined.
End DiscoveryDemo.
