(* ===== verification/Multiparty.v ===== *)
(** * Threshold keys: generation, signing and their store

    src/multiparty/initiate_mp.rs, gg20_keygen.rs and gg20_signing.rs: a node
    initiates a key generation or a signing, authorises its rooms, asks the other
    parties to follow, and keeps its share of the key; and the side of a party that
    follows.  data/src/mp_store.rs keeps shares, proofs and bridge transactions.

    The protocol of the parties is the library multi_party_ecdsa: what it yields in
    a room is a parameter, and so are the parser of an address and the recovery of
    a key from a signature.  Waits of fixed length are left out; a spawned protocol
    and the requests to the parties run beside each other in the source, and its
    outcome is looked at afterwards, as it is here. *)

From stdpp Require Import base list gmap strings pretty.
From S2P Require Import Prelude Structs Interfaces Schema Merkle Transaction Keys Store Contract Mempool Wire Download Peers Config Sync Handler Rooms Outgoing.
#[local] Open Scope Z_scope.
#[local] Open Scope redgold_scope.

Record InitiateMultipartyKeygenResponse := { ikp_initial_request : option InitiateMultipartyKeygenRequest }.
Record InitiateMultipartySigningResponse := {
  isp_proof : option Proof_; isp_initial_request : option InitiateMultipartySigningRequest }.

(** ** The store (data/src/mp_store.rs): three tables under their primary keys *)

Record MultipartyRow := {
  mr_local_share : string; mr_keygen_time : Z; mr_initiate_keygen : bytes; mr_self_initiated : bool;
  mr_host_public_key : bytes; mr_keygen_public_key : option bytes }.
Record SignatureRow := { sr_keygen_room_id : string; sr_proof : bytes; sr_proof_time : Z; sr_initiate_signing : bytes }.
Record BridgeRow := {
  bg_secondary_txid : bytes; bg_outgoing : bool; bg_network : Z; bg_source_address : bytes;
  bg_destination_address : bytes; bg_timestamp : Z; bg_amount : Z }.
Record MpDb := {
  md_multiparty : gmap string MultipartyRow; md_signatures : gmap string SignatureRow; md_bridge : gmap bytes BridgeRow }.
Definition empty_mp : MpDb := {| md_multiparty := ∅; md_signatures := ∅; md_bridge := ∅ |}.
Definition with_multiparty f (d : MpDb) : MpDb :=
  {| md_multiparty := f (md_multiparty d); md_signatures := md_signatures d; md_bridge := md_bridge d |}.
Definition with_signatures f (d : MpDb) : MpDb :=
  {| md_multiparty := md_multiparty d; md_signatures := f (md_signatures d); md_bridge := md_bridge d |}.
Definition with_bridge f (d : MpDb) : MpDb :=
  {| md_multiparty := md_multiparty d; md_signatures := md_signatures d; md_bridge := f (md_bridge d) |}.
Definition set_key (pkb : bytes) (r : MultipartyRow) : MultipartyRow :=
  {| mr_local_share := mr_local_share r; mr_keygen_time := mr_keygen_time r; mr_initiate_keygen := mr_initiate_keygen r;
     mr_self_initiated := mr_self_initiated r; mr_host_public_key := mr_host_public_key r; mr_keygen_public_key := Some pkb |}.

(** [secp256k1::recover] of a 32 byte message, a compact signature and a recovery id. *)
Class Recover := { recovery_id_check : Z → option string; recover : bytes → bytes → Z → string + bytes }.
(** A recovered key verifies the signature. *)
Class RecoverLaws `{Secp} `{Recover} : Prop :=
  recover_verifies : ∀ m s i k, recover m s i = inr k → ecdsa_verify m s k = None ∧ public_key_from_slice k = None.

(** What a protocol run yields: an error, or the share, or the signature. *)
Record SignatureRecid := { sg_r : bytes; sg_s : bytes; sg_recid : Z }.

(** The node that takes part: the handler's state, the authorisations, the store, and
    the number of identifiers drawn. *)
Record MpNode := { mn_node : NodeState; mn_auths : Authorizations; mn_db : MpDb; mn_drawn : nat }.

Section multiparty.
Context {host : Host} {crypto : Crypto} {secp : Secp} {rec : Recover} {sql : Sql}.
Context {ptx : Proto Transaction} {pdm : Proto DynamicNodeMetadata}.
Context {prq : Proto (Request RequestBody)} {prs : Proto (Response ResponseBody)}.
Context {pik : Proto InitiateMultipartyKeygenRequest} {pis : Proto InitiateMultipartySigningRequest} {ppf : Proto Proof_}.
Context {jrq : Json (Request RequestBody)} {jrs : Json (Response ResponseBody)} {jpk : Json (option PublicKey)}.
Context {jnm : Json NodeMetadata} {jik : Json InitiateMultipartyKeygenRequest} {jk : Json PublicKey}.
Context (kp : KeyPair) (peer_tx_fixed : Transaction) (node_tx_fixed : option NodeMetadata → Transaction).
Context (network : NetworkEnvironment) (port_offset : Z) (now : Z) (http : string → bytes → option HttpOutcome).
Context (new_v4 : nat → string) (url_parse : string → option string).
Context (run_keygen : string → string → Z → Z → Z → option (string + string)).
Context (run_signing : string → string → string → list Z → bytes → option (string + SignatureRecid)).

Notation self_key := (KeyPair_public_key kp).
Notation MS := (M MpDb ErrorInfo).

Definition local_share_and_initiate (d : MpDb) (room_id : string) : RgResult (option (string * InitiateMultipartyKeygenRequest)) :=
  match md_multiparty d !! room_id with
  | Some row => r ← proto_deserialize (mr_initiate_keygen row); Ok (Some (mr_local_share row, r))
  | None => Ok None
  end.
Definition add_keygen (local_share room_id : string) (initiate_keygen : InitiateMultipartyKeygenRequest) (self_initiated : bool) : MS unit :=
  id ← lift (safe_get_msg (ikr_identifier initiate_keygen) "ident missing in keygen sql add");
  pk ← lift (safe_get_msg (head (mi_party_keys id)) "Missing public key head in identifier multiparty keygen");
  pkb ← lift (safe_bytes (pk_bytes pk));
  modify (with_multiparty <[room_id := {| mr_local_share := local_share; mr_keygen_time := now;
    mr_initiate_keygen := encode_to_vec initiate_keygen; mr_self_initiated := self_initiated; mr_host_public_key := pkb;
    mr_keygen_public_key := None |}]>).
Definition update_room_id_key (room_id : string) (key : PublicKey) : MS unit :=
  pkb ← lift (safe_bytes (pk_bytes key)); modify (with_multiparty (alter (set_key pkb) room_id)).
Definition add_signing_proof_signatures (keygen_room_id room_id : string) (proof : Proof_) (initiate_signing : InitiateMultipartySigningRequest) : MS unit :=
  modify (with_signatures <[room_id := {| sr_keygen_room_id := keygen_room_id; sr_proof := encode_to_vec proof; sr_proof_time := now;
    sr_initiate_signing := encode_to_vec initiate_signing |}]>).
Definition add_signing_proof (keygen_room_id room_id : string) (proof : Proof_) (initiate_signing : InitiateMultipartySigningRequest) : MS unit :=
  pk ← lift (safe_get_msg (pf_public_key proof) "Missing pk");
  _ ← update_room_id_key keygen_room_id pk;
  add_signing_proof_signatures keygen_room_id room_id proof initiate_signing.
Definition check_bridge_txid_used (d : MpDb) (txid : bytes) : bool := bool_decide (is_Some (md_bridge d !! txid)).
Definition insert_bridge_tx (txid secondary_txid : bytes) (outgoing : bool) (currency : Z) (source_address destination_address : Address)
    (timestamp amount : Z) : MS unit :=
  source_address ← lift (safe_bytes (a_address source_address));
  destination_address ← lift (safe_bytes (a_address destination_address));
  used ← gets (λ d, check_bridge_txid_used d txid);
  if (used : bool) then lift (Err (error_message InternalDatabaseError unique_violation))
  else modify (with_bridge <[txid := {| bg_secondary_txid := secondary_txid; bg_outgoing := outgoing; bg_network := currency;
    bg_source_address := source_address; bg_destination_address := destination_address; bg_timestamp := timestamp; bg_amount := amount |}]>).

(** ** The protocol (gg20_keygen.rs, gg20_signing.rs) *)

Definition external_address_to_surf_url (external_address : string) (port : Z) : RgResult string :=
  let address := "http://" +:+ external_address +:+ ":" +:+ pretty port +:+ "/" in
  match url_parse address with None => Ok address | Some e => Err (error_info e) end.
(** [None]: no outcome within the time allowed. *)
Definition keygen (external_address : string) (port : Z) (room : string) (index threshold number_of_parties : Z) : option (RgResult string) :=
  match external_address_to_surf_url external_address port with
  | Ok url =>
      match run_keygen url room index threshold number_of_parties with
      | None => None
      | Some (inl e) => Some (Err (error_info e))
      | Some (inr share) => Some (Ok share)
      end
  | Err e => Some (Err e)
  | Panic => Some Panic
  end.
(** A library check whose error becomes [error_info(e.to_string())]. *)
Definition lib_ok (o : option string) : RgResult unit := match o with None => Ok tt | Some e => Err (error_info e) end.
Definition signing_proof (sig : SignatureRecid) (data_to_sign : bytes) : RgResult Proof_ :=
  let comp := sg_r sig ++ sg_s sig in
  _ ← lib_ok (signature_from_compact comp);
  let sig_struct := {| sig_bytes := sig_bytes (Signature_ecdsa comp); sig_type := sig_type (Signature_ecdsa comp);
    sig_rsv := Some {| rsv_r := bytes_data (sg_r sig); rsv_s := bytes_data (sg_s sig); rsv_v := Some (sg_recid sig) |} |} in
  _ ← lib_ok (recovery_id_check (sg_recid sig));
  _ ← lib_ok (message_from_slice data_to_sign);
  match recover data_to_sign comp (sg_recid sig) with
  | inl e => Err (error_info e)
  | inr recovered_pk => Ok (Proof_from (PublicKey_from_bytes recovered_pk) sig_struct)
  end.
Definition signing (external_address : string) (port : Z) (room local_share : string) (parties : list Z) (data_to_sign : bytes) : option (RgResult Proof_) :=
  match external_address_to_surf_url external_address port with
  | Ok url =>
      match run_signing url room local_share parties data_to_sign with
      | None => None
      | Some (inl e) => Some (Err (error_info e))
      | Some (inr sig) => Some (signing_proof sig data_to_sign)
      end
  | Err e => Some (Err e)
  | Panic => Some Panic
  end.
(** [tokio::time::timeout], flattened. *)
Definition timed {A} (e : ErrorInfo) (o : option (RgResult A)) : RgResult A := match o with Some r => r | None => Err e end.

(** ** The parties *)

Notation P := (M MpNode ErrorInfo).
Definition on_node {A} (m : M NodeState ErrorInfo A) : P A := λ s,
  let '(r, n) := m (mn_node s) in (r, {| mn_node := n; mn_auths := mn_auths s; mn_db := mn_db s; mn_drawn := mn_drawn s |}).
Definition on_auths {A} (m : M Authorizations ErrorInfo A) : P A := λ s,
  let '(r, a) := m (mn_auths s) in (r, {| mn_node := mn_node s; mn_auths := a; mn_db := mn_db s; mn_drawn := mn_drawn s |}).
Definition on_mp {A} (m : M MpDb ErrorInfo A) : P A := λ s,
  let '(r, d) := m (mn_db s) in (r, {| mn_node := mn_node s; mn_auths := mn_auths s; mn_db := d; mn_drawn := mn_drawn s |}).
Definition draw (s : MpNode) : MpNode := {| mn_node := mn_node s; mn_auths := mn_auths s; mn_db := mn_db s; mn_drawn := S (mn_drawn s) |}.

Definition default_room_id : P string := id ← gets (λ s, new_v4 (mn_drawn s)); _ ← modify draw; mret id.
Definition default_room_id_signing (keygen_room_id : string) : P string :=
  signing_id ← default_room_id; mret (keygen_room_id +:+ "_" +:+ signing_id).

(** [Relay::broadcast]: pairs of a key and its answer, an error in it already raised. *)
Fixpoint broadcast_pairs (timeout : Z) (nodes : list PublicKey) (request : Request RequestBody) :
    M NodeState ErrorInfo (option (list (PublicKey * RgResult (Response ResponseBody)))) :=
  match nodes with
  | [] => mret (Some [])
  | p :: nodes =>
      r ← await kp peer_tx_fixed node_tx_fixed network http (om_with_timeout timeout (from_pk request p));
      match r with
      | Some r =>
          rest ← broadcast_pairs timeout nodes request;
          mret (cons (p, res ← (r : RgResult (Response ResponseBody)); _ ← as_error_info res; Ok res) <$> rest)
      | None => mret None
      end
  end.
(** The key of the first node of a peer; both steps are unwrapped. *)
Definition first_node_key (p : PeerMetadata) : RgResult PublicKey :=
  n ← expect_opt (head (pm_node_metadata p)); expect_opt (nm_public_key n).
Definition valid_pks (results : list (PublicKey * RgResult (Response ResponseBody))) : list PublicKey :=
  fst <$> List.filter (λ r, match r.2 with Ok x => is_ok (as_error_info x) | _ => false end) results.
Definition find_multiparty_key_pairs : P (option (list PublicKey)) :=
  peers ← gets (λ s, all_peers (ns_peers (mn_node s)));
  peers ← lift peers;
  pk ← lift (mapR first_node_key peers);
  results ← on_node (broadcast_pairs 60 (List.filter (λ p, negb (bool_decide (p = self_key))) pk) ask_about);
  match (results : option (list (PublicKey * RgResult (Response ResponseBody)))) with
  | None => mret None
  | Some results =>
      match valid_pks results with
      | [] => lift (Err (error_info "No valid peers found"))
      | valid_pks => mret (Some (self_key :: valid_pks))
      end
  end.
Definition identifier (party_keys : list PublicKey) (threshold : Z) : P MultipartyIdentifier :=
  uuid ← default_room_id; mret {| mi_party_keys := party_keys; mi_threshold := threshold; mi_uuid := uuid |}.
Definition default_identifier : P (option MultipartyIdentifier) :=
  kps ← find_multiparty_key_pairs;
  match (kps : option (list PublicKey)) with
  | None => mret None
  | Some kps => i ← identifier kps (Z.of_nat (length kps) - 1); mret (Some i)
  end.
Definition default_half_identifier (kps : list PublicKey) : P MultipartyIdentifier := identifier kps (Z.of_nat (length kps) / 2).
Definition fill_identifier (keys : list PublicKey) (o : option MultipartyIdentifier) : P (option MultipartyIdentifier) :=
  let num_parties := Z.of_nat (length keys) in
  match o with
  | Some ident =>
      uuid ← default_room_id;
      mret (Some {| mi_party_keys := match mi_party_keys ident with [] => keys | ks => ks end; mi_threshold := mi_threshold ident;
                    mi_uuid := uuid |})
  | None =>
      let threshold := num_parties / 2 in
      let threshold := if threshold <? 1 then 1 else threshold in
      let threshold := if num_parties - 1 <? threshold then num_parties - 1 else threshold in
      i ← identifier keys threshold; mret (Some i)
  end.
(** How many of the parties that were asked agreed. *)
Definition successful (results : list (RgResult (Response ResponseBody))) : Z :=
  Z.of_nat (length (List.filter (λ r, is_ok (res ← (r : RgResult (Response ResponseBody)); as_error_info res)) results)).
Definition others (keys : list PublicKey) : list PublicKey := List.filter (λ p, negb (bool_decide (p = self_key))) keys.
Definition keygen_request (r : InitiateMultipartyKeygenRequest) : Request RequestBody :=
  {| rq_proof := None; rq_node_metadata := None; rq_origin := None; rq_initiate_keygen := Some (encode_to_vec r);
     rq_initiate_signing := None; rq_body := request_body None false false None |}.
Definition signing_request (r : InitiateMultipartySigningRequest) : Request RequestBody :=
  {| rq_proof := None; rq_node_metadata := None; rq_origin := None; rq_initiate_keygen := None;
     rq_initiate_signing := Some (encode_to_vec r); rq_body := request_body None false false None |}.
Definition mparty_port : Z := as_u16 (port_offset + 4).

(** ** Key generation *)

Record SelfInitiateKeygenResult := {
  skr_local_share : string; skr_identifier : MultipartyIdentifier; skr_request : InitiateMultipartyKeygenRequest }.
(** The share is stored and read back. *)
Definition store_share (local_share room_id : string) (r : InitiateMultipartyKeygenRequest) (self_initiated : bool) : P unit :=
  _ ← on_mp (add_keygen local_share room_id r self_initiated);
  query_check ← gets (λ s, local_share_and_initiate (mn_db s) room_id);
  query_check ← lift query_check;
  _ ← lift (safe_get_msg query_check "Unable to query local store for room_id on keygen");
  mret tt.
Definition initiate_mp_keygen_authed (base_request : InitiateMultipartyKeygenRequest) (store_local_share : bool) : P (option SelfInitiateKeygenResult) :=
  ident ← lift (safe_get_msg (ikr_identifier base_request) "No identifier");
  let room_id := mi_uuid ident in
  let res := keygen "127.0.0.1" mparty_port room_id 1 (as_u16 (mi_threshold ident)) (as_u16 (Z.of_nat (length (mi_party_keys ident)))) in
  results ← on_node (broadcast_async kp peer_tx_fixed node_tx_fixed network http (others (mi_party_keys ident)) (keygen_request base_request) (Some 100));
  match (results : option (list (RgResult (Response ResponseBody)))) with
  | None => mret None
  | Some results =>
      if successful results <? mi_threshold ident then lift (Err (error_info "Not enough successful peers")) else
      local_share ← lift (timed (error_info "Timeout") res);
      _ ← (if store_local_share then store_share local_share room_id base_request true else mret tt);
      mret (Some {| skr_local_share := local_share; skr_identifier := ident; skr_request := base_request |})
  end.
(** A result is kept while the authorisation is taken back; a call that does not return
    takes nothing back. *)
Definition then_release {A} (m : P (option A)) (release : P unit) : P (option A) := λ s,
  match m s with
  | (Ok None, s') => (Ok None, s')
  | (Panic, s') => (Panic, s')
  | (r, s') => (_ ← release; lift r) s'
  end.
Definition initiate_mp_keygen (ident : option MultipartyIdentifier) (store_local_share : bool) (node_ids : option (list PublicKey)) :
    P (option SelfInitiateKeygenResult) :=
  ident ← (match ident with
           | Some x => mret (Some x)
           | None => match node_ids with
                     | None => default_identifier
                     | Some pks => i ← default_half_identifier pks; mret (Some i)
                     end
           end);
  match (ident : option MultipartyIdentifier) with
  | None => mret None
  | Some ident =>
      let base_request := {| ikr_identifier := Some ident |} in
      _ ← on_auths (authorize_keygen base_request);
      then_release (initiate_mp_keygen_authed base_request store_local_share) (on_auths (remove_keygen_authorization (mi_uuid ident)))
  end.
(** Where the host of a computation serves its rooms. *)
Definition host_address (host_key : PublicKey) : P (string * Z) :=
  metadata ← gets (λ s, query_public_key_metadata (ns_peers (mn_node s)) host_key);
  metadata ← lift metadata;
  metadata ← lift (safe_get_msg metadata "No host key metadata");
  address ← lift (external_address metadata);
  mret (address, as_u16 (port_or metadata network + 4)).
Definition initiate_mp_keygen_follower (mp_req : InitiateMultipartyKeygenRequest) (_initiating_pk : PublicKey) : P InitiateMultipartyKeygenResponse :=
  ident ← lift (safe_get (ikr_identifier mp_req));
  index ← lift (ok_or (party_index ident self_key) (error_info "Not a participant"));
  host_key ← lift (safe_get_msg (head (mi_party_keys ident)) "No host key");
  ap ← host_address host_key;
  res ← lift (timed (error_info "Timeout") (keygen ap.1 ap.2 (mi_uuid ident) (as_u16 (Z.of_nat index)) (as_u16 (mi_threshold ident))
                                              (as_u16 (Z.of_nat (length (mi_party_keys ident))))));
  _ ← store_share res (mi_uuid ident) mp_req false;
  mret {| ikp_initial_request := Some mp_req |}.

(** ** Signing *)

Record SelfInitiateKeysignResult := {
  ssr_ident : MultipartyIdentifier; ssr_signing_room_id : string; ssr_parties : list PublicKey; ssr_proof : Proof_ }.
(** The numbers of the parties that sign. *)
Definition signing_index (ident : MultipartyIdentifier) (parties : list PublicKey) : list Z :=
  (λ e : nat * PublicKey, as_u16 (Z.of_nat (S e.1))) <$> List.filter (λ e, bool_decide (e.2 ∈ parties)) (imap pair (mi_party_keys ident)).
Definition local_share (keygen_room_id : string) : P (string * InitiateMultipartyKeygenRequest) :=
  l ← gets (λ s, local_share_and_initiate (mn_db s) keygen_room_id);
  l ← lift l; lift (ok_or l (error_info "Local share not found")).
Definition initiate_mp_keysign_authed (mp_req : InitiateMultipartySigningRequest) : P (option SelfInitiateKeysignResult) :=
  ident ← lift (safe_get_msg (isr_identifier mp_req) "Missing identifier");
  data ← lift (safe_get_msg (isr_data_to_sign mp_req) "Missing data");
  let parties := isr_signing_party_keys mp_req in
  let index := signing_index ident parties in
  share ← local_share (mi_uuid ident);
  let jh := signing "127.0.0.1" mparty_port (isr_signing_room_id mp_req) share.1 index (bd_value data) in
  results ← on_node (broadcast_async kp peer_tx_fixed node_tx_fixed network http (others parties) (signing_request mp_req) (Some 100));
  match (results : option (list (RgResult (Response ResponseBody)))) with
  | None => mret None
  | Some results =>
      if successful results <? mi_threshold ident then lift (Err (error_info "Not enough successful peers")) else
      proof ← lift (timed (error_msg UnknownError "Timeout" "deadline has elapsed") jh);
      _ ← on_mp (add_signing_proof (mi_uuid ident) (isr_signing_room_id mp_req) proof mp_req);
      mret (Some {| ssr_ident := ident; ssr_signing_room_id := isr_signing_room_id mp_req; ssr_parties := parties; ssr_proof := proof |})
  end.
Definition initiate_mp_keysign (ident : MultipartyIdentifier) (data_to_sign : BytesData) (parties : list PublicKey) (signing_room_id : option string) :
    P (option SelfInitiateKeysignResult) :=
  parties ← (match parties with [] => find_multiparty_key_pairs | _ => mret (Some parties) end);
  match (parties : option (list PublicKey)) with
  | None => mret None
  | Some parties =>
      drawn ← default_room_id_signing (mi_uuid ident);
      let signing_room_id := default drawn signing_room_id in
      let mp_req := {| isr_identifier := Some ident; isr_signing_room_id := signing_room_id; isr_signing_party_keys := parties;
                       isr_data_to_sign := Some data_to_sign |} in
      _ ← on_auths (authorize_signing mp_req);
      then_release (initiate_mp_keysign_authed mp_req) (on_auths (remove_signing_authorization signing_room_id))
  end.
Definition initiate_mp_keysign_follower (mp_req : InitiateMultipartySigningRequest) (initiating_pk : PublicKey) : P InitiateMultipartySigningResponse :=
  ident ← lift (safe_get_msg (isr_identifier mp_req) "Missing room id for keygen on signing follower");
  let keygen_room_id := mi_uuid ident in
  let index := signing_index ident (isr_signing_party_keys mp_req) in
  host_key ← lift (safe_get_msg (head (isr_signing_party_keys mp_req)) "No host key");
  ap ← host_address host_key;
  share ← local_share keygen_room_id;
  let ser := json_or share.2 in
  stored ← lift (add_msg (ok_msg (ikr_identifier share.2) "No identifier on stored initiate keygen") ser);
  _ ← (if bool_decide (initiating_pk ∈ mi_party_keys stored) then mret tt
       else lift (add_msg (add_msg (Err (error_info "Initiating public key not found in stored initiate keygen")) ser) (json_or initiating_pk)));
  data ← lift (safe_get (isr_data_to_sign mp_req));
  res ← lift (timed (error_msg UnknownError "Timeout" "deadline has elapsed")
                (signing ap.1 ap.2 (isr_signing_room_id mp_req) share.1 index (bd_value data)));
  _ ← on_mp (add_signing_proof keygen_room_id (isr_signing_room_id mp_req) res mp_req);
  mret {| isp_proof := Some res; isp_initial_request := Some mp_req |}.

(** * Properties *)

(** ** Signing *)

(** The proof made of a threshold signature passes the check of every other proof. *)
Lemma signing_proof_verifies {rlaws : RecoverLaws} sig data proof :
  length data = 32%nat → signing_proof sig data = Ok proof → Proof_verify proof (Hash_new data) = Ok tt.
Proof.
intros Hlen. unfold signing_proof. cbv zeta. intros H.
apply bind_Ok in H as ([] & Hc & H). apply bind_Ok in H as ([] & _ & H). apply bind_Ok in H as ([] & Hm & H).
destruct (recover data _ _) as [e|k] eqn:Hr; [done|]. injection H as <-. apply recover_verifies in Hr as [Hv Hk].
assert (slice data 0 32 = Ok data) as Hs
  by (unfold slice; rewrite Hlen, bool_decide_eq_true_2 by (split; lia); rewrite drop_0, take_ge; [done|rewrite Hlen; lia]).
unfold Proof_verify, Proof_from. cbn -[slice]. unfold verify_bytes. rewrite Hs. cbn.
unfold lib_ok in *. destruct (message_from_slice data); [done|]. destruct (signature_from_compact _); [done|]. cbn.
rewrite Hk. cbn. by rewrite Hv.
Qed.

Lemma on_mp_Ok {A} (m : MS A) s a s' : on_mp m s = (Ok a, s') →
  ∃ d, m (mn_db s) = (Ok a, d) ∧ s' = {| mn_node := mn_node s; mn_auths := mn_auths s; mn_db := d; mn_drawn := mn_drawn s |}.
Proof. unfold on_mp. destruct (m (mn_db s)) as [r d]. intros [= -> <-]. by exists d. Qed.
Lemma host_address_Ok k s a s' : host_address k s = (Ok a, s') → s' = s.
Proof. unfold host_address. intros H. by inv_M. Qed.
Lemma local_share_Ok room s l s' : local_share room s = (Ok l, s') → local_share_and_initiate (mn_db s) room = Ok (Some l) ∧ s' = s.
Proof. unfold local_share. intros H. inv_M. match goal with H : ok_or _ _ = Ok _ |- _ => apply ok_or_Ok in H end. by simplify_eq. Qed.
Lemma signing_Ok e a p room share index data proof :
  timed e (signing a p room share index data) = Ok proof →
  ∃ url sig, run_signing url room share index data = Some (inr sig) ∧ signing_proof sig data = Ok proof.
Proof. unfold timed, signing. repeat case_match; intros; simplify_eq; eauto. Qed.

(** C9: A party signs only for a party: when a follower answers a request to sign, the key
    that the request was authenticated with is among the parties of the key
    generation that its own store has for the request's room; the proof that it answers
    and stores is made of the signature that the protocol gave for that generation's
    stored share, the request's room and data and the indices of the signing parties;
    and it verifies, under the key recovered from the signature, when the data has the
    32 bytes of a digest. *)
Theorem signing_follower_spec {rlaws : RecoverLaws} mp_req initiating_pk s resp s' :
  initiate_mp_keysign_follower mp_req initiating_pk s = (Ok resp, s') →
  ∃ ident share stored parties data url sig proof row,
    isr_identifier mp_req = Some ident ∧ local_share_and_initiate (mn_db s) (mi_uuid ident) = Ok (Some (share, stored)) ∧
    ikr_identifier stored = Some parties ∧ initiating_pk ∈ mi_party_keys parties ∧
    isr_data_to_sign mp_req = Some data ∧ isp_proof resp = Some proof ∧ isp_initial_request resp = Some mp_req ∧
    run_signing url (isr_signing_room_id mp_req) share (signing_index ident (isr_signing_party_keys mp_req)) (bd_value data) = Some (inr sig) ∧
    signing_proof sig (bd_value data) = Ok proof ∧
    (length (bd_value data) = 32%nat → Proof_verify proof (Hash_new (bd_value data)) = Ok tt) ∧
    md_signatures (mn_db s') !! isr_signing_room_id mp_req = Some row ∧
    sr_proof row = encode_to_vec proof ∧ sr_keygen_room_id row = mi_uuid ident.
Proof.
unfold initiate_mp_keysign_follower. cbv zeta. intros H.
apply M_bind_Ok in H as (ident & ? & [Hi%ok_or_Ok ->]%lift_Ok & H). apply M_bind_Ok in H as (hk & ? & [_ ->]%lift_Ok & H).
apply M_bind_Ok in H as (ap & ? & ->%host_address_Ok & H). apply M_bind_Ok in H as ([share stored] & ? & [Hs ->]%local_share_Ok & H).
apply M_bind_Ok in H as (parties & ? & [Hp ->]%lift_Ok & H). apply M_bind_Ok in H as ([] & s1 & Hin & H).
case_bool_decide as Hmem; [|apply lift_Ok in Hin as [Hin _]; done]. apply mret_Ok in Hin as [_ ->].
apply M_bind_Ok in H as (data & ? & [Hd%ok_or_Ok ->]%lift_Ok & H). apply M_bind_Ok in H as (proof & ? & [Hsig ->]%lift_Ok & H).
apply M_bind_Ok in H as ([] & s2 & (d & Hadd & ->)%on_mp_Ok & H). apply mret_Ok in H as [-> ->].
unfold add_signing_proof, add_signing_proof_signatures in Hadd. inv_M.
apply signing_Ok in Hsig as (url & sig & Hrun & Hsig).
exists ident, share, stored, parties, data, url, sig, proof. eexists. split_and!; try done.
- unfold add_msg in Hp. apply map_err_Ok, ok_or_Ok in Hp. done.
- intros Hlen. by eapply signing_proof_verifies.
- cbn. by rewrite lookup_insert_eq.
- done.
- done.
Qed.

(** ** Key generation *)

Section lawful.
Context {lik : ProtoLaws InitiateMultipartyKeygenRequest}.

Lemma store_share_Ok share room r b s s' : store_share share room r b s = (Ok tt, s') →
  ∃ row, md_multiparty (mn_db s') = <[room := row]> (md_multiparty (mn_db s)) ∧ mr_local_share row = share ∧
    mr_keygen_public_key row = None ∧ mr_self_initiated row = b ∧ local_share_and_initiate (mn_db s') room = Ok (Some (share, r)) ∧
    md_signatures (mn_db s') = md_signatures (mn_db s).
Proof.
unfold store_share. intros H. apply M_bind_Ok in H as ([] & s1 & (d & Hadd & ->)%on_mp_Ok & H). inv_M.
unfold add_keygen in Hadd. inv_M. eexists. cbn. split_and!; try done.
unfold local_share_and_initiate. cbn. rewrite lookup_insert_eq. cbn. unfold proto_deserialize. by rewrite proto_decode_encode.
Qed.

(** A key generation can destroy a key: whoever asks, a party that follows stores the
    new share under the identifier of the request, and if it has a share there
    already, of a key in use, that share and its public key are gone. *)
Theorem keygen_follower_replaces_share mp_req initiating_pk s resp s' :
  initiate_mp_keygen_follower mp_req initiating_pk s = (Ok resp, s') →
  (∀ pk, initiate_mp_keygen_follower mp_req pk s = (Ok resp, s')) ∧
  ∃ ident share row, ikr_identifier mp_req = Some ident ∧ self_key ∈ mi_party_keys ident ∧
    md_multiparty (mn_db s') = <[mi_uuid ident := row]> (md_multiparty (mn_db s)) ∧
    mr_local_share row = share ∧ mr_keygen_public_key row = None ∧
    local_share_and_initiate (mn_db s') (mi_uuid ident) = Ok (Some (share, mp_req)).
Proof.
intros H. split; [intros pk; exact H|]. unfold initiate_mp_keygen_follower in H.
apply M_bind_Ok in H as (ident & ? & [Hi%ok_or_Ok ->]%lift_Ok & H). apply M_bind_Ok in H as (index & ? & [Hx%ok_or_Ok ->]%lift_Ok & H).
apply M_bind_Ok in H as (hk & ? & [_ ->]%lift_Ok & H). apply M_bind_Ok in H as (ap & ? & ->%host_address_Ok & H).
apply M_bind_Ok in H as (share & ? & [_ ->]%lift_Ok & H). apply M_bind_Ok in H as ([] & s1 & Hst & H). apply mret_Ok in H as [-> ->].
destruct (store_share_Ok _ _ _ _ _ _ Hst) as (row & ? & ? & ? & _ & ? & _). exists ident, share, row. split_and!; try done.
apply party_index_lookup in Hx as [Hx _]. by eapply list_elem_of_lookup_2.
Qed.

Lemma agreed_sublist nodes answers d :
  Forall2 (λ pk (a : RgResult (Response ResponseBody)), ∀ r, a = Ok r → as_error_info r = Ok tt → answered_by d pk r) nodes answers →
  ∃ l, l `sublist_of` nodes ∧ Z.of_nat (length l) = successful answers ∧
    Forall (λ pk, ∃ r, as_error_info r = Ok tt ∧ answered_by d pk r) l.
Proof.
induction 1 as [|pk a nodes answers Ha _ (l & Hl & Hn & Hall)]; [by exists []|].
destruct (is_ok (res ← a; as_error_info res)) eqn:E.
- exists (pk :: l). split_and!; [by apply sublist_skip| |].
  + unfold successful in *. cbn [List.filter]. rewrite E. cbn [length]. lia.
  + constructor; [|done]. destruct a as [r|e|]; [|done..]. cbn in E. exists r.
    assert (as_error_info r = Ok tt) as He by (destruct (as_error_info r) as [[]| |]; done). split; [done|by apply Ha].
- exists l. split_and!; [by apply sublist_cons| |done]. unfold successful in *. cbn [List.filter]. by rewrite E.
Qed.

(** What a successful key generation of the initiator says. *)
Lemma keygen_authed_Ok base_request store_local_share s r s' :
  peers_wf (ns_peers (mn_node s)) → initiate_mp_keygen_authed base_request store_local_share s = (Ok (Some r), s') →
  ∃ ident l, ikr_identifier base_request = Some ident ∧ l `sublist_of` others (mi_party_keys ident) ∧
    mi_threshold ident ≤ Z.of_nat (length l) ∧
    Forall (λ pk, ∃ a, as_error_info a = Ok tt ∧ answered_by (ns_peers (mn_node s)) pk a) l ∧
    (if store_local_share
     then local_share_and_initiate (mn_db s') (mi_uuid ident) = Ok (Some (skr_local_share r, base_request))
     else mn_db s' = mn_db s).
Proof.
intros Hwf H. unfold initiate_mp_keygen_authed in H. cbv zeta in H.
apply M_bind_Ok in H as (ident & ? & [Hi%ok_or_Ok ->]%lift_Ok & H). apply M_bind_Ok in H as ([results|] & s1 & Hb & H); [|by inv_M].
unfold on_node in Hb. destruct (broadcast_async _ _ _ _ _ _ _ _ (mn_node s)) as [b n] eqn:Hb'. injection Hb as -> <-.
destruct (agreed_sublist _ _ _ (broadcast_all_answered _ _ _ _ _ _ _ _ _ _ _ Hwf Hb')) as (l & Hl & Hn & Hall).
destruct (Z.ltb_spec (successful results) (mi_threshold ident)) as [|Ht]; [by apply lift_Ok in H as [H _]|].
apply M_bind_Ok in H as (share & ? & [_ ->]%lift_Ok & H). apply M_bind_Ok in H as ([] & s2 & Hst & H). apply mret_Ok in H as [[= ->] ->].
exists ident, l. split_and!; try done; [lia|]. destruct store_local_share.
- destruct (store_share_Ok _ _ _ _ _ _ Hst) as (row & _ & _ & _ & _ & ? & _). done.
- by apply mret_Ok in Hst as [_ ->].
Qed.
(** C33: No key without a quorum: when a key generation succeeds for the node that
    initiates it, at least as many other parties as the threshold have agreed, each
    with an answer signed by its own key; and the share that the node keeps can be
    read back with the request it belongs to. *)
Theorem keygen_quorum base_request store_local_share s r s' :
  peers_wf (ns_peers (mn_node s)) → initiate_mp_keygen_authed base_request store_local_share s = (Ok (Some r), s') →
  ∃ ident l, ikr_identifier base_request = Some ident ∧ l `sublist_of` others (mi_party_keys ident) ∧
    mi_threshold ident ≤ Z.of_nat (length l) ∧
    Forall (λ pk, ∃ a, as_error_info a = Ok tt ∧ answered_by (ns_peers (mn_node s)) pk a) l ∧
    (if store_local_share
     then local_share_and_initiate (mn_db s') (mi_uuid ident) = Ok (Some (skr_local_share r, base_request))
     else mn_db s' = mn_db s).
Proof. exact (keygen_authed_Ok base_request store_local_share s r s'). Qed.

(** ** What a computation leaves alone *)

(** A result is kept while the authorisation is taken back. *)
Lemma then_release_Ok {A} (m : P (option A)) f s a s' : then_release m (on_auths (modify f)) s = (Ok (Some a), s') →
  ∃ s1, m s = (Ok (Some a), s1) ∧ mn_node s' = mn_node s1 ∧ mn_db s' = mn_db s1.
Proof.
unfold then_release. destruct (m s) as [[[x|]|e|] s1]; cbn; intros [= <- <-]; by exists s1.
Qed.
Lemma then_release_frame {A} (R : MpNode → MpNode → Prop) `{!PreOrder R} (m : P (option A)) release :
  preserves R m → preserves R release → preserves R (then_release m release).
Proof.
intros Hm Hr s. specialize (Hm s). unfold then_release. destruct (m s) as [[[x|]|e|] s1]; cbn in *; try done.
all: transitivity s1; [done|]; refine (preserves_bind R release _ Hr _ s1); intros; apply preserves_lift, _.
Qed.
(** The shares, for signing; everything that storing the own transactions respects, on
    the side of the node. *)
Definition same_shares (s s' : MpNode) : Prop :=
  ∀ room, local_share_and_initiate (mn_db s') room = local_share_and_initiate (mn_db s) room.
#[global] Instance same_shares_pre : PreOrder same_shares.
Proof. split; [by intros s room|]. unfold same_shares. intros s1 s2 s3 H1 H2 room. by rewrite H2. Qed.
Definition on_nodes (R : NodeState → NodeState → Prop) (s s' : MpNode) : Prop := R (mn_node s) (mn_node s').
#[global] Instance on_nodes_pre R `{!PreOrder R} : PreOrder (on_nodes R).
Proof. split; [by intros s; unfold on_nodes|]. unfold on_nodes. intros s1 s2 s3 H1 H2. by transitivity (mn_node s2). Qed.
Lemma on_node_shares {A} (m : M NodeState ErrorInfo A) : preserves same_shares (on_node m).
Proof. intros s room. unfold on_node. by destruct (m _). Qed.
Lemma on_auths_shares {A} (m : M Authorizations ErrorInfo A) : preserves same_shares (on_auths m).
Proof. intros s room. unfold on_auths. by destruct (m _). Qed.
Lemma draw_shares : preserves same_shares (modify draw : P unit).
Proof. by intros s room. Qed.
Definition same_rows (d d' : MpDb) : Prop := ∀ room, local_share_and_initiate d' room = local_share_and_initiate d room.
#[local] Instance same_rows_pre : PreOrder same_rows.
Proof. split; [by intros s room|]. unfold same_rows. intros s1 s2 s3 H1 H2 room. by rewrite H2. Qed.
Lemma set_key_rows pkb k : preserves same_rows (modify (with_multiparty (alter (set_key pkb) k)) : MS unit).
Proof.
intros d room. unfold local_share_and_initiate. cbn.
destruct (decide (room = k)) as [->|Hne]; [rewrite lookup_alter_eq|by rewrite lookup_alter_ne].
by destruct (md_multiparty d !! k).
Qed.
Lemma signatures_rows f : preserves same_rows (modify (with_signatures f) : MS unit).
Proof. by intros d room. Qed.
Lemma add_signing_proof_shares k r p i : preserves same_shares (on_mp (add_signing_proof k r p i)).
Proof.
assert (preserves same_rows (add_signing_proof k r p i)) as H.
{ unfold add_signing_proof, update_room_id_key, add_signing_proof_signatures. auto 10 using set_key_rows, signatures_rows with preserves typeclass_instances. }
intros s room. specialize (H (mn_db s) room). unfold on_mp. by destruct (add_signing_proof k r p i (mn_db s)).
Qed.
Lemma keysign_shares ident data parties room : preserves same_shares (initiate_mp_keysign ident data parties room).
Proof.
unfold initiate_mp_keysign, find_multiparty_key_pairs, default_room_id_signing, default_room_id. cbv zeta.
assert (∀ r, preserves same_shares (initiate_mp_keysign_authed r)).
{ intros r. unfold initiate_mp_keysign_authed, local_share. cbv zeta.
  auto 20 using @on_node_shares, add_signing_proof_shares with preserves typeclass_instances. }
auto 20 using @on_node_shares, @on_auths_shares, draw_shares, @then_release_frame, same_shares_pre with preserves typeclass_instances.
Qed.
Section frame.
Context (R : NodeState → NodeState → Prop) `{!PreOrder R}.
Context (Hpeer : ∀ tx, preserves R (on_config (set_peer_tx tx))) (Hnode : ∀ tx, preserves R (on_config (set_node_tx tx))).
Lemma on_node_frame {A} (m : M NodeState ErrorInfo A) : preserves R m → preserves (on_nodes R) (on_node m).
Proof. intros Hm s. specialize (Hm (mn_node s)). unfold on_nodes, on_node. by destruct (m _). Qed.
Lemma on_auths_frame {A} (m : M Authorizations ErrorInfo A) : preserves (on_nodes R) (on_auths m).
Proof. intros s. unfold on_nodes, on_auths. destruct (m _). cbn. reflexivity. Qed.
Lemma on_mp_frame {A} (m : MS A) : preserves (on_nodes R) (on_mp m).
Proof. intros s. unfold on_nodes, on_mp. destruct (m _). cbn. reflexivity. Qed.
Lemma draw_frame : preserves (on_nodes R) (modify draw : P unit).
Proof. intros s. unfold on_nodes. cbn. reflexivity. Qed.
Lemma broadcast_async_frame nodes r t : preserves R (broadcast_async kp peer_tx_fixed node_tx_fixed network http nodes r t).
Proof. unfold broadcast_async. by apply broadcast_frame. Qed.
Lemma broadcast_pairs_frame t nodes r : preserves R (broadcast_pairs t nodes r).
Proof. induction nodes; cbn [broadcast_pairs]; auto 10 using await_frame with preserves. Qed.
Lemma find_key_pairs_frame : preserves (on_nodes R) find_multiparty_key_pairs.
Proof. unfold find_multiparty_key_pairs. auto 20 using @on_node_frame, broadcast_pairs_frame with preserves typeclass_instances. Qed.
Lemma default_room_id_frame : preserves (on_nodes R) default_room_id.
Proof. unfold default_room_id. auto 20 using draw_frame with preserves typeclass_instances. Qed.
Lemma keysign_frame ident data parties room : preserves (on_nodes R) (initiate_mp_keysign ident data parties room).
Proof.
unfold initiate_mp_keysign, default_room_id_signing. cbv zeta.
assert (∀ r, preserves (on_nodes R) (initiate_mp_keysign_authed r)).
{ intros r. unfold initiate_mp_keysign_authed, local_share. cbv zeta.
  auto 20 using @on_node_frame, @on_mp_frame, broadcast_async_frame with preserves typeclass_instances. }
auto 20 using find_key_pairs_frame, default_room_id_frame, @on_auths_frame, @then_release_frame with preserves typeclass_instances.
Qed.
Lemma keygen_frame ident b ids : preserves (on_nodes R) (initiate_mp_keygen ident b ids).
Proof.
unfold initiate_mp_keygen, default_identifier, default_half_identifier, identifier. cbv zeta.
assert (∀ r b, preserves (on_nodes R) (initiate_mp_keygen_authed r b)).
{ intros r b'. unfold initiate_mp_keygen_authed, store_share. cbv zeta.
  auto 20 using @on_node_frame, @on_mp_frame, broadcast_async_frame with preserves typeclass_instances. }
auto 20 using find_key_pairs_frame, default_room_id_frame, @on_auths_frame, @then_release_frame with preserves typeclass_instances.
Qed.
End frame.

(** A signing that its initiator reports verifies for the data, and names the key. *)
Lemma keysign_Ok {rlaws : RecoverLaws} ident data parties room s r s' :
  initiate_mp_keysign ident data parties room s = (Ok (Some r), s') →
  (length (bd_value data) = 32%nat → Proof_verify (ssr_proof r) (Hash_new (bd_value data)) = Ok tt) ∧ is_Some (pf_public_key (ssr_proof r)).
Proof.
unfold initiate_mp_keysign. intros H. apply M_bind_Ok in H as ([ps|] & s1 & _ & H); [|by inv_M]. apply M_bind_Ok in H as (drawn & s2 & _ & H).
cbv zeta in H. apply M_bind_Ok in H as ([] & s3 & _ & H). apply then_release_Ok in H as (s4 & H & _).
unfold initiate_mp_keysign_authed in H. cbv zeta in H. cbn [isr_identifier isr_data_to_sign isr_signing_party_keys isr_signing_room_id] in H.
apply M_bind_Ok in H as (i & ? & [[= <-] ->]%lift_Ok & H). apply M_bind_Ok in H as (d & ? & [[= <-] ->]%lift_Ok & H).
apply M_bind_Ok in H as (share & ? & _ & H). apply M_bind_Ok in H as ([results|] & ? & _ & H); [|by inv_M].
destruct (successful results <? mi_threshold ident); [by apply lift_Ok in H as [H _]|].
apply M_bind_Ok in H as (proof & ? & [Hp ->]%lift_Ok & H). apply M_bind_Ok in H as ([] & s5 & (db & Ha & ->)%on_mp_Ok & H).
apply mret_Ok in H as [[= ->] ->]. cbn. split; [intros Hl; match goal with X : timed _ _ = Ok _ |- _ => apply signing_Ok in X as (? & ? & _ & X) end; by eapply signing_proof_verifies|].
unfold add_signing_proof in Ha. apply M_bind_Ok in Ha as (pk & ? & [Hpk%ok_or_Ok _]%lift_Ok & _). by exists pk.
Qed.

(** ** Authorisations are taken back *)

Definition same_auths (s s' : MpNode) : Prop := mn_auths s' = mn_auths s.
#[local] Instance same_auths_pre : PreOrder same_auths.
Proof. split; [by intros s|]. unfold same_auths. intros ??? -> ->. done. Qed.
Lemma on_node_auths {A} (m : M NodeState ErrorInfo A) : preserves same_auths (on_node m).
Proof. intros s. unfold on_node. by destruct (m _). Qed.
Lemma on_mp_auths {A} (m : MS A) : preserves same_auths (on_mp m).
Proof. intros s. unfold on_mp. by destruct (m _). Qed.
Lemma keygen_authed_auths r b : preserves same_auths (initiate_mp_keygen_authed r b).
Proof.
unfold initiate_mp_keygen_authed, store_share. cbv zeta. auto 20 using @on_node_auths, @on_mp_auths with preserves.
Qed.
Lemma keysign_authed_auths r : preserves same_auths (initiate_mp_keysign_authed r).
Proof.
unfold initiate_mp_keysign_authed, local_share. cbv zeta. auto 20 using @on_node_auths, @on_mp_auths with preserves.
Qed.
Lemma released {A} (m : P (option A)) f s r s' : preserves same_auths m → then_release m (on_auths (modify f)) s = (r, s') →
  r ≠ Panic → r ≠ Ok None → mn_auths s' = f (mn_auths s).
Proof.
intros Hm. specialize (Hm s). unfold then_release, same_auths in *.
destruct (m s) as [[[a|]|e|] s1]; cbn in *; intros [= <- <-]; try done; intros; cbn; by rewrite Hm.
Qed.

(** An authorisation does not outlive its computation: when a key generation with a
    given identifier, or a signing in a given room, returns, with a result or with
    an error, the parties may no longer post to its room, and no other room is
    affected. *)
Theorem authorisations_released ident store_local_share node_ids data parties room s :
  parties ≠ [] →
  (∀ r s', initiate_mp_keygen (Some ident) store_local_share node_ids s = (r, s') → r ≠ Panic → r ≠ Ok None →
     mn_auths s' = with_keygen (delete (mi_uuid ident)) (mn_auths s)) ∧
  (∀ r s', initiate_mp_keysign ident data parties (Some room) s = (r, s') → r ≠ Panic → r ≠ Ok None →
     mn_auths s' = with_signing (delete room) (mn_auths s)).
Proof.
intros Hparties. split; intros r s' H Hp Hn.
- unfold initiate_mp_keygen in H. erewrite M_bind_step in H by reflexivity. cbv beta iota zeta in H. erewrite M_bind_step in H by reflexivity.
  apply released in H; [|apply keygen_authed_auths|done..]. rewrite H. unfold with_keygen. cbn. by rewrite delete_insert_eq.
- unfold initiate_mp_keysign in H. destruct parties as [|p ps]; [done|].
  erewrite M_bind_step in H by reflexivity. cbv beta iota in H. erewrite M_bind_step in H by reflexivity. cbv zeta in H.
  erewrite M_bind_step in H by reflexivity.
  apply released in H; [|apply keysign_authed_auths|done..]. rewrite H. unfold with_signing. cbn. by rewrite delete_insert_eq.
Qed.

(** ** Thresholds *)

Lemma fill_identifier_threshold keys s i s' : (2 ≤ length keys)%nat → fill_identifier keys None s = (Ok (Some i), s') →
  mi_party_keys i = keys ∧ 1 ≤ mi_threshold i ≤ Z.of_nat (length keys) - 1.
Proof.
intros Hn H. unfold fill_identifier, identifier, default_room_id in H. cbv zeta in H. inv_M. simplify_eq. split; [done|]. cbn [mi_threshold].
repeat case_match; lia.
Qed.

(** ** A peer that lists no node *)

(** Such a peer can be stored, and then no computation finds its parties: the first node
    of every stored peer is unwrapped. *)
Lemma peer_without_nodes_panics s peers : all_peers (ns_peers (mn_node s)) = Ok peers → (∃ p, p ∈ peers ∧ pm_node_metadata p = []) →
  find_multiparty_key_pairs s = (Panic, s).
Proof.
intros Hp (p & Hin & Hnone). unfold find_multiparty_key_pairs. erewrite M_bind_step by reflexivity. rewrite Hp. erewrite M_bind_step by reflexivity.
assert (mapR first_node_key peers = Panic) as ->; [|done].
clear Hp. induction peers as [|q peers IH]; [by apply elem_of_nil in Hin|]. cbn [mapR].
destruct (first_node_key q) as [k|e|] eqn:E; [|exfalso; revert E; unfold first_node_key; by destruct (head _) as [n|]; cbn; [destruct (nm_public_key n)|]|done].
apply elem_of_cons in Hin as [->|Hin]; [unfold first_node_key in E; by rewrite Hnone in E|]. cbn. by rewrite IH.
Qed.

(** ** Bridge transactions *)

Lemma bridge_once txid sec out cur src dst t a d d' : insert_bridge_tx txid sec out cur src dst t a d = (Ok tt, d') →
  check_bridge_txid_used d txid = false ∧ check_bridge_txid_used d' txid = true ∧
  ∀ sec' out' cur' t' a', (insert_bridge_tx txid sec' out' cur' src dst t' a' d').1 = Err (error_message InternalDatabaseError unique_violation).
Proof.
unfold insert_bridge_tx. intros H. apply M_bind_Ok in H as (x & ? & [Hx ->]%lift_Ok & H). apply M_bind_Ok in H as (y & ? & [Hy ->]%lift_Ok & H).
apply M_bind_Ok in H as (u & ? & [-> ->]%gets_Ok & H). destruct (check_bridge_txid_used d txid) eqn:E; [by apply lift_Ok in H as [H _]|].
apply modify_Ok in H as ->. assert (check_bridge_txid_used (with_bridge <[txid := {| bg_secondary_txid := sec; bg_outgoing := out; bg_network := cur;
  bg_source_address := x; bg_destination_address := y; bg_timestamp := t; bg_amount := a |}]> d) txid = true) as Hu.
{ unfold check_bridge_txid_used. cbn. rewrite lookup_insert_eq. by apply bool_decide_eq_true_2. }
split_and!; [done..|]. intros. rewrite Hx, Hy. do 3 erewrite M_bind_step by reflexivity. by rewrite Hu.
Qed.
End lawful.
End multiparty.

(** * Two parties *)

Module MultipartyDemo.
#[local] Existing Instance toy_host.
#[local] Existing Instance toy_crypto.
#[local] Existing Instance toy_secp.
#[local] Existing Instance HandlerDemo.demo_pt.
#[local] Existing Instance HandlerDemo.demo_pd.
#[local] Existing Instance HandlerDemo.demo_prq.
#[local] Existing Instance HandlerDemo.demo_jrq.
#[local] Existing Instance HandlerDemo.demo_jrs.
#[local] Existing Instance HandlerDemo.demo_jpk.
#[local] Existing Instance OutgoingDemo.demo_jnm.
#[local] Instance ser_MultipartyIdentifier : Ser MultipartyIdentifier :=
  ser_via (λ r, (mi_party_keys r, mi_threshold r, mi_uuid r)) (λ '(x, y, z), {| mi_party_keys := x; mi_threshold := y; mi_uuid := z |})
    (λ r, match r with Build_MultipartyIdentifier _ _ _ => eq_refl end).
#[local] Instance ser_keygen : Ser InitiateMultipartyKeygenRequest :=
  ser_via ikr_identifier Build_InitiateMultipartyKeygenRequest (λ r, match r with Build_InitiateMultipartyKeygenRequest _ => eq_refl end).
#[local] Instance ser_signing : Ser InitiateMultipartySigningRequest :=
  ser_via (λ r, (isr_identifier r, isr_signing_room_id r, isr_signing_party_keys r, isr_data_to_sign r))
    (λ '(x, y, z, w), {| isr_identifier := x; isr_signing_room_id := y; isr_signing_party_keys := z; isr_data_to_sign := w |})
    (λ r, match r with Build_InitiateMultipartySigningRequest _ _ _ _ => eq_refl end).
#[local] Instance demo_pik : Proto InitiateMultipartyKeygenRequest := ser_proto InitiateMultipartyKeygenRequest.
#[local] Instance demo_pis : Proto InitiateMultipartySigningRequest := ser_proto InitiateMultipartySigningRequest.
#[local] Instance demo_ppf : Proto Proof_ := ser_proto Proof_.
#[local] Instance demo_jik : Json InitiateMultipartyKeygenRequest := demo_json.
#[local] Instance demo_jk : Json PublicKey := demo_json.
Lemma demo_lik : ProtoLaws InitiateMultipartyKeygenRequest. Proof. apply ser_proto_laws. Qed.

(** The threshold key, and the recovery of the key that verifies. *)
Definition joint : bytes := repeat Byte.x05 33.
#[local] Instance demo_recover : Recover := {|
  recovery_id_check := λ _, None;
  recover := λ m s _, match ecdsa_verify m s joint, public_key_from_slice joint with None, None => inr joint | _, _ => inl "no key" end |}.
Lemma demo_rlaws : RecoverLaws.
Proof.
intros m s i k. cbn [recover demo_recover]. destruct (ecdsa_verify m s joint) eqn:E1; [discriminate|].
destruct (public_key_from_slice joint) eqn:E2; [discriminate|]. intros [= <-]. split; [exact E1|exact E2].
Qed.
Definition signed (data : bytes) : bytes := ecdsa_sign (Secp := toy_secp) data (joint : secret_key (Secp := toy_secp)).
Definition no_error (_ : string) : option string := None.
Definition yields_share (_ _ : string) (_ _ _ : Z) : option (string + string) := Some (inr "new share").
Definition yields_signature (_ _ _ : string) (_ : list Z) (data : bytes) : option (string + SignatureRecid) :=
  Some (inr {| sg_r := take 32 (signed data); sg_s := drop 32 (signed data); sg_recid := 0 |}).

Definition ident : MultipartyIdentifier :=
  {| mi_party_keys := [OutgoingDemo.key_b; KeyPair_public_key demo_kp]; mi_threshold := 1; mi_uuid := "room" |}.
Definition keygen_req : InitiateMultipartyKeygenRequest := {| ikr_identifier := Some ident |}.
Definition signing_req : InitiateMultipartySigningRequest :=
  {| isr_identifier := Some ident; isr_signing_room_id := "room_sign"; isr_signing_party_keys := mi_party_keys ident;
     isr_data_to_sign := bytes_data (repeat Byte.x03 32) |}.
Definition with_share : MpDb := with_multiparty <["room" := {| mr_local_share := "old share"; mr_keygen_time := 1;
  mr_initiate_keygen := encode_to_vec keygen_req; mr_self_initiated := false; mr_host_public_key := repeat Byte.x08 33;
  mr_keygen_public_key := Some joint |}]> empty_mp.
Definition party : MpNode :=
  {| mn_node := OutgoingDemo.node_a OutgoingDemo.table; mn_auths := no_auths; mn_db := with_share; mn_drawn := 0 |}.

Notation follow_signing := (initiate_mp_keysign_follower Dev 7 no_error yields_signature signing_req OutgoingDemo.key_b party).
Notation follow_keygen pk := (initiate_mp_keygen_follower demo_kp Dev 7 no_error yields_share keygen_req pk party).
Definition signed_proof : Proof_ := match follow_signing with (Ok r, _) => default {| pf_signature := None; pf_public_key := None |} (isp_proof r) | _ => {| pf_signature := None; pf_public_key := None |} end.

Lemma signing_follower_witness :
  pf_public_key signed_proof = Some (PublicKey_from_bytes joint) ∧
  ∃ ident share stored parties data url sig proof row,
    isr_identifier signing_req = Some ident ∧ local_share_and_initiate (mn_db party) (mi_uuid ident) = Ok (Some (share, stored)) ∧
    ikr_identifier stored = Some parties ∧ OutgoingDemo.key_b ∈ mi_party_keys parties ∧
    isr_data_to_sign signing_req = Some data ∧ Some signed_proof = Some proof ∧ Some signing_req = Some signing_req ∧
    yields_signature url (isr_signing_room_id signing_req) share (signing_index ident (isr_signing_party_keys signing_req)) (bd_value data) = Some (inr sig) ∧
    signing_proof sig (bd_value data) = Ok proof ∧
    (length (bd_value data) = 32%nat → Proof_verify proof (Hash_new (bd_value data)) = Ok tt) ∧
    md_signatures (mn_db follow_signing.2) !! isr_signing_room_id signing_req = Some row ∧
    sr_proof row = encode_to_vec proof ∧ sr_keygen_room_id row = mi_uuid ident.
Proof.
split; [vm_compute; reflexivity|].
apply (signing_follower_spec (rlaws := demo_rlaws) Dev 7 no_error yields_signature signing_req OutgoingDemo.key_b party
  {| isp_proof := Some signed_proof; isp_initial_request := Some signing_req |} follow_signing.2).
apply (run_fst follow_signing). vm_compute. reflexivity.
Defined.

(** A third node asks the party to generate a key under the identifier of one in use. *)
Lemma keygen_follower_witness :
  local_share_and_initiate (mn_db party) "room" = Ok (Some ("old share", keygen_req)) ∧
  (∀ pk, follow_keygen pk = (Ok {| ikp_initial_request := Some keygen_req |}, (follow_keygen (PublicKey_from_bytes [])).2)) ∧
  ∃ ident share row, ikr_identifier keygen_req = Some ident ∧ KeyPair_public_key demo_kp ∈ mi_party_keys ident ∧
    md_multiparty (mn_db (follow_keygen (PublicKey_from_bytes [])).2) = <[mi_uuid ident := row]> (md_multiparty (mn_db party)) ∧
    mr_local_share row = share ∧ mr_keygen_public_key row = None ∧
    local_share_and_initiate (mn_db (follow_keygen (PublicKey_from_bytes [])).2) (mi_uuid ident) = Ok (Some (share, keygen_req)).
Proof.
split; [vm_compute; reflexivity|].
apply (keygen_follower_replaces_share (lik := demo_lik) demo_kp Dev 7 no_error yields_share keygen_req (PublicKey_from_bytes []) party
  {| ikp_initial_request := Some keygen_req |} (follow_keygen (PublicKey_from_bytes [])).2).
apply (run_fst (follow_keygen (PublicKey_from_bytes []))). vm_compute. reflexivity.
Defined.

(** The node initiates, and the other party agrees. *)
Definition agreed : Response ResponseBody := OutgoingDemo.answer_b empty_body.
Notation initiated := (initiate_mp_keygen_authed (prs := OutgoingDemo.carries agreed) demo_kp HandlerDemo.fixed_peer HandlerDemo.fixed_node Dev
  16480 7 OutgoingDemo.wire no_error yields_share keygen_req true party).
Lemma keygen_quorum_witness :
  ∃ ident l, ikr_identifier keygen_req = Some ident ∧ l `sublist_of` others demo_kp (mi_party_keys ident) ∧
    mi_threshold ident ≤ Z.of_nat (length l) ∧
    Forall (λ pk, ∃ a, as_error_info a = Ok tt ∧ answered_by (prs := OutgoingDemo.carries agreed) OutgoingDemo.table pk a) l ∧
    local_share_and_initiate (mn_db initiated.2) (mi_uuid ident) = Ok (Some ("new share", keygen_req)).
Proof.
apply (keygen_quorum (prs := OutgoingDemo.carries agreed) (lik := demo_lik) demo_kp HandlerDemo.fixed_peer HandlerDemo.fixed_node Dev 16480 7
  OutgoingDemo.wire no_error yields_share keygen_req true party
  {| skr_local_share := "new share"; skr_identifier := ident; skr_request := keygen_req |} initiated.2).
- exact OutgoingDemo.table_wf.
- apply (run_fst initiated). vm_compute. reflexivity.
Defined.

(** Another key generation, authorised before, keeps its authorisation. *)
Definition busy : MpNode :=
  {| mn_node := mn_node party; mn_auths := (authorize_keygen {| ikr_identifier := Some {| mi_party_keys := []; mi_threshold := 1; mi_uuid := "other" |} |} no_auths).2;
     mn_db := mn_db party; mn_drawn := 0 |}.
Notation whole := (initiate_mp_keygen (prs := OutgoingDemo.carries agreed) demo_kp HandlerDemo.fixed_peer HandlerDemo.fixed_node Dev
  16480 7 OutgoingDemo.wire pretty no_error yields_share (Some ident) true None busy).
Lemma authorisations_released_witness : mn_auths whole.2 = with_keygen (delete "room") (mn_auths busy).
Proof.
apply (authorisations_released (prs := OutgoingDemo.carries agreed) demo_kp HandlerDemo.fixed_peer HandlerDemo.fixed_node Dev 16480 7
  OutgoingDemo.wire pretty no_error yields_share yields_signature ident true None {| bd_value := []; bd_decoder := 0; bd_version := 0 |}
  [OutgoingDemo.key_b] "room_sign" busy) with (r := whole.1).
- discriminate.
- apply surjective_pairing.
- vm_compute. discriminate.
- vm_compute. discriminate.
Defined.
End MultipartyDemo.
