(* ===== verification/Search.v ===== *)
(** * The search by hash, and the trust of peers

    src/api/hash_query.rs with [parse_address] of keys/src/address_support.rs and
    [AddressInfo] of schema/src/address.rs: a text is taken for an address, a
    transaction, a node, a peer or an observation, in this order.  Next to it the
    requests of src/api/public_api.rs, and what src/core/relay.rs knows of the peers:
    their identities and their trust.

    The parsers of Bitcoin and Ethereum addresses are libraries: [AddressParsers]. *)

From stdpp Require Import base list strings gmap.
From S2P Require Import Prelude Structs Interfaces F64 Schema Merkle Transaction Keys Store Contract Mempool Wire Download Peers Config Sync Handler.
#[local] Open Scope Z_scope.
#[local] Open Scope redgold_scope.

(** ** Data *)

Record AddressInfo := {
  ai_address : option Address; ai_utxo_entries : list UtxoEntry; ai_balance : Z; ai_recent_transactions : list Transaction }.
Record HashSearchResponse := {
  hsr_transaction_info : option StoredTransactionInfo; hsr_address_info : option AddressInfo;
  hsr_observation : option Transaction; hsr_peer_node_info : option PeerNodeInfo; hsr_peer_id_info : option PeerIdInfo }.
Record PeerTrustQueryResult := { ptq_peer_id : PeerId; ptq_trust : f64 }.
(** What of a [Seed] is read here. *)
Record TrustedSeed := { ts_public_key : option PublicKey; ts_peer_id : option PeerId; ts_trust : list TrustData }.
(** The requests that [process_request_inner] answers. *)
Record PublicRequest := { pr_query_addresses : option (list Address); pr_about_node : bool; pr_hash_search : option string }.
Record PublicResponse := {
  ps_response_metadata : option ResponseMetadata; ps_query_addresses : option (list UtxoEntry);
  ps_about_node : option AboutNodeResponse; ps_hash_search : option HashSearchResponse }.

Definition empty_search : HashSearchResponse :=
  {| hsr_transaction_info := None; hsr_address_info := None; hsr_observation := None; hsr_peer_node_info := None; hsr_peer_id_info := None |}.
Definition found_address (i : AddressInfo) : HashSearchResponse :=
  {| hsr_transaction_info := None; hsr_address_info := Some i; hsr_observation := None; hsr_peer_node_info := None; hsr_peer_id_info := None |}.
Definition found_transaction (i : StoredTransactionInfo) : HashSearchResponse :=
  {| hsr_transaction_info := Some i; hsr_address_info := None; hsr_observation := None; hsr_peer_node_info := None; hsr_peer_id_info := None |}.
Definition found_node (i : PeerNodeInfo) : HashSearchResponse :=
  {| hsr_transaction_info := None; hsr_address_info := None; hsr_observation := None; hsr_peer_node_info := Some i; hsr_peer_id_info := None |}.
Definition found_peer (i : PeerIdInfo) : HashSearchResponse :=
  {| hsr_transaction_info := None; hsr_address_info := None; hsr_observation := None; hsr_peer_node_info := None; hsr_peer_id_info := Some i |}.
Definition found_observation (o : Transaction) : HashSearchResponse :=
  {| hsr_transaction_info := None; hsr_address_info := None; hsr_observation := Some o; hsr_peer_node_info := None; hsr_peer_id_info := None |}.

Definition from_utxo_entries (address : Address) (entries : list UtxoEntry) : AddressInfo :=
  {| ai_address := Some address; ai_utxo_entries := entries;
     ai_balance := foldl (λ bal r, match (o ← ue_output r; d ← o_data o; d_amount d) with
                                   | Some a => i64_add bal (ca_amount a)
                                   | None => bal
                                   end) 0 entries;
     ai_recent_transactions := [] |}.

Class AddressParsers := { bitcoin_parses : string → bool; ethereum_parses : string → bool }.

(** ** Trust (schema/src/trust.rs) *)

Definition DEFAULT_TRUST_DIVISOR : f64 := f64_of_Z 1000.
Definition to_rounded_f64 (l : Z) : f64 := f64_div (f64_of_Z l) DEFAULT_TRUST_DIVISOR.
Definition maybe_label (t : TrustData) : option f64 := to_rounded_f64 <$> td_label_rating t.
Definition label (t : TrustData) : RgResult f64 := expect_opt (maybe_label t).

Section search.
Context {host : Host} {crypto : Crypto} {sql : Sql} {secp : Secp} {parsers : AddressParsers}.
Context {ptx : Proto Transaction} {pue : Proto UtxoEntry} {po : Proto Output} {pei : Proto ErrorInfo}.
Context {pom : Proto ObservationMetadata} {pop : Proto ObservationProof} {pdm : Proto DynamicNodeMetadata}.
Context (kp : KeyPair) (peer_tx_fixed : Transaction) (node_tx_fixed : option NodeMetadata → Transaction).
Context (dynamic_node_metadata_fixed : DynamicNodeMetadata).
(** The [peer_id] and the [seeds] of the configuration; the predicted trust is
    empty, since nothing writes it. *)
Context (self_peer_id : PeerId) (seeds : list TrustedSeed) (now : Z).

Notation H := (M NodeState ErrorInfo).
Notation self_key := (KeyPair_public_key kp).

Definition parse_address (str_rep : string) : RgResult Address :=
  if bitcoin_parses str_rep then Ok (Address_from_bitcoin str_rep)
  else if ethereum_parses str_rep then Ok (Address_from_eth str_rep)
  else match Address_parse str_rep with
       | Ok a => Ok a
       | Panic => Panic
       | Err _ => add_msg (Err (error_info "Unable to parse address: ")) str_rep
       end.

(** ** Peers and their trust (src/core/relay.rs) *)

Definition relay_peer_id : H PeerId :=
  tx ← node_tx kp peer_tx_fixed node_tx_fixed;
  n ← lift (Transaction_node_metadata tx);
  lift (ok_or (nm_peer_id n) (error_info "Missing peer_id")).
Definition relay_peer_id_info : H PeerIdInfo :=
  p ← peer_tx peer_tx_fixed;
  i ← relay_peer_node_info kp peer_tx_fixed node_tx_fixed dynamic_node_metadata_fixed;
  mret {| pii_latest_peer_transaction := Some p; pii_peer_node_info := [i] |}.
(** A label that the model may override is not used; of the others the last wins. *)
Definition label_trust (hm : gmap PeerId f64) (l : TrustRatingLabel) : gmap PeerId f64 :=
  match trl_peer_id l with
  | Some peer_id =>
      foldl (λ hm d, if negb (td_allow_model_override d)
                     then match maybe_label d with Some r => <[peer_id := r]> hm | None => hm end
                     else hm) hm (trl_trust_data l)
  | None => hm
  end.
(** The seeds' own trust is computed and dropped: what is left of it is the panic on a
    seed whose trust has no label. *)
Definition seed_labels : RgResult (list (PeerId * f64)) :=
  mapR (λ ps : PeerId * TrustedSeed, l ← (match head (ts_trust ps.2) with Some t => label t | None => Ok (f64_dec 8 1) end); Ok (ps.1, l))
       (omap (λ s, p ← ts_peer_id s; Some (p, s)) seeds).
Definition get_trust : H (gmap PeerId f64) :=
  _ ← lift seed_labels;
  tx ← peer_tx peer_tx_fixed;
  pd ← lift (Transaction_peer_data tx);
  mret (foldl label_trust ∅ (pm_labels pd)).
Definition is_seed (pk : PublicKey) : bool := bool_decide (Some pk ∈ ts_public_key <$> seeds).
Definition seed_trust (pk : PublicKey) : option (list TrustData) :=
  ts_trust <$> head (List.filter (λ s, bool_decide (ts_public_key s = Some pk)) seeds).
Definition get_trust_of_peer (peer_id : PeerId) : H (option f64) :=
  hm ← get_trust; mret ((hm : gmap PeerId f64) !! peer_id).
Definition get_trust_of_node (public_key : PublicKey) : H (option f64) :=
  hm ← get_trust;
  pid ← gets (λ s, peer_id_for_node_pk (ns_peers s) public_key); pid ← lift pid;
  mret ((pid : option PeerId) ≫= λ p, (hm : gmap PeerId f64) !! p).
Definition relay_peer_id_for_node_pk (public_key : PublicKey) : H (option PeerId) :=
  if bool_decide (self_key = public_key) then p ← relay_peer_id; mret (Some p)
  else p ← gets (λ s, peer_id_for_node_pk (ns_peers s) public_key); lift p.
Definition get_trust_of_node_as_query (public_key : PublicKey) : H (option PeerTrustQueryResult) :=
  hm ← get_trust;
  pid ← gets (λ s, peer_id_for_node_pk (ns_peers s) public_key); pid ← lift pid;
  mret (pid ← (pid : option PeerId); t ← (hm : gmap PeerId f64) !! pid; Some {| ptq_peer_id := pid; ptq_trust := t |}).

(** ** The search (src/api/hash_query.rs) *)

Definition query_address (a : Address) (limit offset : option Z) : H HashSearchResponse :=
  res ← gets (λ s, query_utxo_address (ns_store s) a); res ← lift res;
  let info := from_utxo_entries a res in
  recent ← gets (λ s, get_all_tx_for_address (ns_store s) a (default 10 limit) (default 0 offset)); recent ← lift recent;
  mret (found_address {| ai_address := ai_address info; ai_utxo_entries := ai_utxo_entries info; ai_balance := ai_balance info;
                         ai_recent_transactions := recent |}).
(** A node, the own one first; [None] when the text names none. *)
Definition query_node (hash_input : string) : H (option HashSearchResponse) :=
  match PublicKey_from_hex hash_input with
  | Ok pk =>
      if is_ok (PublicKey_validate pk) then
        if bool_decide (self_key = pk) then
          i ← relay_peer_node_info kp peer_tx_fixed node_tx_fixed dynamic_node_metadata_fixed; mret (Some (found_node i))
        else
          pni ← gets (λ s, query_nodes_peer_node_info (ns_peers s) pk); pni ← lift pni;
          mret (found_node <$> (pni : option PeerNodeInfo))
      else mret None
  | Err _ => mret None
  | Panic => lift Panic
  end.
Definition query_observation_hash (hash_input : string) : H HashSearchResponse :=
  match Hash_from_hex hash_input with
  | Ok h =>
      r ← gets (λ s, query_observation (ns_store s) h); r ← lift r;
      mret (match (r : option Transaction) with Some r => found_observation r | None => empty_search end)
  | Err _ => mret empty_search
  | Panic => lift Panic
  end.
Definition query_peer (hash_input : string) : H HashSearchResponse :=
  result ← lift (from_hex hash_input);
  let id := PeerId_from_bytes result in
  if bool_decide (self_peer_id = id) then i ← relay_peer_id_info; mret (found_peer i) else
  pid_info ← gets (λ s, query_peer_id_info (ns_peers s) id); pid_info ← lift pid_info;
  match (pid_info : option PeerIdInfo) with
  | Some i => mret (found_peer i)
  | None => query_observation_hash hash_input
  end.
Definition hash_query (hash_input : string) (limit offset : option Z) : H HashSearchResponse :=
  match parse_address hash_input with
  | Panic => lift Panic
  | Ok a => query_address a limit offset
  | Err _ =>
      h ← lift (from_hex hash_input);
      maybe_tx_info ← gets (λ s, ds_resolve_transaction_hash (ns_store s) (Hash_new h)); maybe_tx_info ← lift maybe_tx_info;
      match (maybe_tx_info : option StoredTransactionInfo) with
      | Some tx_info => mret (found_transaction tx_info)
      | None =>
          node ← query_node hash_input;
          match (node : option HashSearchResponse) with
          | Some r => mret r
          | None => query_peer hash_input
          end
      end
  end.

(** ** The public API (src/api/public_api.rs) *)

Definition process_request_inner (request : PublicRequest) : H PublicResponse :=
  addresses ← part (pr_query_addresses request) (λ r,
    k ← gets (λ s, utxo_for_addresses (ns_store s) r); k ← lift k; mret (Some k));
  about ← part_if (pr_about_node request)
    (a ← handle_about_node kp peer_tx_fixed node_tx_fixed dynamic_node_metadata_fixed now; mret (Some a));
  search ← part (pr_hash_search request) (λ r, res ← hash_query r None None; mret (Some res));
  mret {| ps_response_metadata := None; ps_query_addresses := addresses; ps_about_node := about; ps_hash_search := search |}.
(** An error is the answer, with every other part left out. *)
Definition process_request (request : PublicRequest) : H PublicResponse := λ s,
  match process_request_inner request s with
  | (Err e, s') => (Ok {| ps_response_metadata := Some (ResponseMetadata_from_error e); ps_query_addresses := None;
                          ps_about_node := None; ps_hash_search := None |}, s')
  | r => r
  end.
End search.

(** * Properties *)

Section search_props.
Context {host : Host} {crypto : Crypto} {sql : Sql} {secp : Secp} {parsers : AddressParsers}.
Context {ptx : Proto Transaction} {pue : Proto UtxoEntry} {po : Proto Output} {pei : Proto ErrorInfo}.
Context {pom : Proto ObservationMetadata} {pop : Proto ObservationProof} {pdm : Proto DynamicNodeMetadata}.
Context (kp : KeyPair) (peer_tx_fixed : Transaction) (node_tx_fixed : option NodeMetadata → Transaction).
Context (dynamic_node_metadata_fixed : DynamicNodeMetadata) (self_peer_id : PeerId).
Context {claws : CryptoLaws}.

Notation search := (hash_query kp peer_tx_fixed node_tx_fixed dynamic_node_metadata_fixed self_peer_id).

(** ** Addresses as text *)

(** An address of this network is read back from its text, unless the text is an
    address of another network as well; a Bitcoin address always is. *)
Lemma redgold_text_roundtrip a b text :
  Address_from_bytes b = Ok a → render_string a = Ok text → bitcoin_parses text = false → ethereum_parses text = false →
  parse_address text = Ok a.
Proof.
intros Ha Hr Hb He. unfold parse_address. rewrite Hb, He.
assert (Address_parse text = Ok a) as ->; [|done].
apply Address_from_bytes_Ok in Ha as E. destruct E as (_ & _ & ->). unfold render_string in Hr. cbn in Hr. injection Hr as <-.
unfold Address_parse, address_to_str. by rewrite from_hex_encode.
Qed.

(** The text of an Ethereum address is the hex form of its letters, which is an
    address of no network: it is not found by the text that is shown for it. *)
Lemma ethereum_text_lost value text :
  length value = 42%nat → render_string (Address_from_eth (String.string_of_list_byte value)) = Ok text →
  bitcoin_parses text = false → ethereum_parses text = false → ∃ e, parse_address text = Err e.
Proof.
intros Hl Hr Hb He. unfold render_string, Address_from_eth in Hr. cbn in Hr. injection Hr as <-.
unfold parse_address. rewrite Hb, He. unfold Address_parse, address_to_str. rewrite from_hex_encode. rg_step.
unfold Address_from_bytes, verify_checksum, verify_length, safe_bytes. cbn.
rewrite String.list_byte_of_string_of_list_byte, Hl. cbn. by eexists.
Qed.

(** ** What is found *)

(** One search finds one kind of thing. *)
Definition kinds (r : HashSearchResponse) : nat :=
  (if hsr_transaction_info r then 1 else 0) + (if hsr_address_info r then 1 else 0) + (if hsr_observation r then 1 else 0) +
  (if hsr_peer_node_info r then 1 else 0) + (if hsr_peer_id_info r then 1 else 0).
Lemma observation_kind text s r s' : query_observation_hash text s = (Ok r, s') → (kinds r ≤ 1)%nat.
Proof.
unfold query_observation_hash. destruct (Hash_from_hex text) as [h|e|]; intros H; [|apply mret_Ok in H as [-> _]; apply le_0_n|discriminate H].
apply M_bind_Ok in H as (o & s1 & _ & H). apply M_bind_Ok in H as (o' & s2 & _ & H). apply mret_Ok in H as [-> _].
destruct o'; [apply le_n|apply le_0_n].
Qed.
Lemma search_one_kind text limit offset s r s' : search text limit offset s = (Ok r, s') → (kinds r ≤ 1)%nat.
Proof.
unfold hash_query. destruct (parse_address text) as [a|e|]; [|..|done].
- unfold query_address. intros H. inv_M. subst. done.
- intros H. inv_M. case_match; inv_M; [by subst|].
  assert (∀ n x y, query_node kp peer_tx_fixed node_tx_fixed dynamic_node_metadata_fixed text y = (Ok (Some n), x) → (kinds n ≤ 1)%nat) as Hn.
  { clear. intros n x y. unfold query_node. repeat case_match; intros Hq; inv_M; try done.
    all: repeat match goal with E : Some _ = found_node <$> ?o |- _ => destruct o; [cbn in E|discriminate E] end.
    all: match goal with E : Some _ = Some _ |- _ => injection E as -> end; apply le_n. }
  case_match; inv_M; [subst; by eapply Hn|].
  unfold query_peer in *. inv_M. case_match; inv_M; [by subst|]. case_match; inv_M; [by subst|].
  by eapply observation_kind.
Qed.

(** A stored transaction is resolved by the bytes of its hash alone. *)
Lemma resolve_bytes st h b : Hash_safe_bytes h = Ok b →
  ds_resolve_transaction_hash st (Hash_new b) = ds_resolve_transaction_hash st h.
Proof.
intros Hb. unfold ds_resolve_transaction_hash, query_maybe_transaction, select_observation_edge, query_utxo_output_index.
rewrite Hb. done.
Qed.
Definition edges_readable (st : Store) : Prop :=
  ∀ k r, st_observation_edge st !! k = Some r → ∃ p : ObservationProof, proto_deserialize (oer_edge r) = Ok p.
Lemma select_edges_total st h b : Hash_safe_bytes h = Ok b → edges_readable st → ∃ ps, select_observation_edge st h = Ok ps.
Proof.
intros Hb Hr. unfold select_observation_edge. rewrite Hb. rg_step. setoid_rewrite mapR_Ok.
apply Forall_choose, Forall_forall. intros [k r] Hin.
apply list_elem_of_In, List.filter_In in Hin as [Hin _]. apply list_elem_of_In, elem_of_map_to_list in Hin. by eapply Hr.
Qed.

(** C30: What a node has stored is found by the text of its hash: after a transaction was
    inserted as accepted, the search for the hex form of its hash, when that is not
    the text of an address, answers the transaction as accepted, with every one of
    its outputs as unspent, and changes nothing. *)
Theorem search_finds_stored {jei : Json ErrorInfo} {tx_laws : ProtoLaws Transaction} tx time acc st b limit offset s e :
  insert_transaction tx time acc None true st = (Ok tt, ns_store s) → hash_bytes tx = Ok b → edges_readable (ns_store s) →
  Z.of_nat (length (tx_outputs tx)) < 2 ^ 31 → parse_address (hex_encode b) = Err e →
  ∃ info, search (hex_encode b) limit offset s = (Ok (found_transaction info), s) ∧ sti_transaction info = Some tx ∧
    sti_accepted info = true ∧ ∀ i, (i < length (tx_outputs tx))%nat → Z.of_nat i ∈ sti_valid_utxo_index info.
Proof.
intros Hi Hb He Hn Hp. apply insert_transaction_stored in Hi as (Hm & Hu & _).
pose proof (proj1 (hash_bytes_safe tx b) Hb) as Hs. destruct (select_edges_total _ _ _ Hs He) as [ps Hps].
unfold hash_query. rewrite Hp. rewrite from_hex_encode. erewrite M_bind_step by reflexivity. erewrite M_bind_step by reflexivity.
rewrite (resolve_bytes _ (hash_or tx)) by done. unfold ds_resolve_transaction_hash. rewrite Hm. rg_step. rewrite Hps. rg_step.
unfold query_utxo_output_index. rewrite Hs. rg_step. erewrite M_bind_step by reflexivity. cbv iota beta.
eexists. split; [reflexivity|]. split_and!; [done..|]. intros i Hlt. destruct (Hu i Hlt) as [Hv _]. cbn [sti_valid_utxo_index].
unfold query_utxo_id_valid in Hv. rewrite Hs in Hv. rg_step. cbn in Hv. injection Hv as Hv. apply bool_decide_eq_true in Hv as [r Hr].
apply list_elem_of_fmap. exists (Z.of_nat i). split.
- symmetry. apply wrap_s_id; [lia|]. unfold in_s. lia.
- apply list_elem_of_omap. exists ((b, Z.of_nat i), r). split; [by apply elem_of_map_to_list|]. cbn. by rewrite bool_decide_eq_true_2.
Qed.

(** The balance that is shown is the sum that wallets are told. *)
Lemma from_utxo_balance a entries : ai_balance (from_utxo_entries a entries) = i64_sum (omap (λ u, ue_output u ≫= opt_amount) entries).
Proof.
unfold from_utxo_entries, i64_sum. cbn [ai_balance]. generalize 0. induction entries as [|u us IH]; intros z; [done|].
cbn [foldl]. rewrite IH. cbn [omap list_omap]. unfold opt_amount. destruct (ue_output u) as [o|]; cbn; [|done].
by destruct (o_data o) as [d|]; cbn; [destruct (d_amount d)|].
Qed.

Lemma load_unrejected_length st hs ts : load_unrejected st hs = Ok ts → (length ts ≤ length hs)%nat.
Proof.
unfold load_unrejected. set (f := λ _ _, _ ≫= _).
enough (∀ acc, foldR f acc hs = Ok ts → (length ts ≤ length acc + length hs)%nat) as E by (intros H%E; done).
induction hs as [|h hs IH]; intros acc; cbn [foldR]; [intros [= <-]; cbn; lia|].
rewrite bind_Ok. intros (acc' & Ha & H). apply IH in H. apply bind_Ok in Ha as (m & _ & [= <-]).
destruct m as [[t [?|]]|]; rewrite ?length_app in H; cbn in *; lia.
Qed.
Lemma sql_limit_length {A} limit offset (l : list A) : 0 ≤ limit → Z.of_nat (length (sql_limit limit offset l)) ≤ limit.
Proof.
intros Hl. unfold sql_limit. destruct (limit <? 0) eqn:E; [apply Z.ltb_lt in E; lia|]. rewrite length_take. lia.
Qed.

(** The search for an address shows the same balance that [get_balance] answers, which
    is absent unless it is positive; it shows at most as many transactions as were
    asked for, or ten, and it changes nothing. *)
Theorem search_balance text a limit offset s r s' :
  parse_address text = Ok a → search text limit offset s = (Ok r, s') → 0 ≤ default 10 limit →
  ∃ info, r = found_address info ∧ s' = s ∧ ai_address info = Some a ∧
    get_balance (ns_store s) a = Ok (if 0 <? ai_balance info then Some (ai_balance info) else None) ∧
    query_utxo_address (ns_store s) a = Ok (ai_utxo_entries info) ∧
    Z.of_nat (length (ai_recent_transactions info)) ≤ default 10 limit.
Proof.
intros Hp H Hl. unfold hash_query in H. rewrite Hp in H. unfold query_address in H.
apply M_bind_Ok in H as (res & s1 & [-> ->]%gets_Ok & H). apply M_bind_Ok in H as (us & s1 & [Hus ->]%lift_Ok & H).
apply M_bind_Ok in H as (rec & s1 & [-> ->]%gets_Ok & H). apply M_bind_Ok in H as (ts & s1 & [Hts ->]%lift_Ok & H).
apply mret_Ok in H as [-> ->]. eexists. split; [done|]. cbn [ai_address ai_utxo_entries ai_recent_transactions]. split_and!; try done.
- unfold get_balance. rewrite Hus. rg_step. cbn [ai_balance]. by rewrite from_utxo_balance.
- unfold get_all_tx_for_address in Hts. apply bind_Ok in Hts as (ab & _ & Hts%load_unrejected_length). rewrite length_fmap in Hts.
  pose proof (sql_limit_length (default 10 limit) (default 0 offset) (order_by_desc (λ kr, at_time kr.2) (address_rows (ns_store s) ab None)) Hl). lia.
Qed.
End search_props.

(** * Examples *)

Module SearchDemo.
#[local] Existing Instance toy_host.
#[local] Existing Instance toy_crypto.
#[local] Existing Instance toy_secp.
#[local] Instance demo_sql : Sql := "UNIQUE constraint failed".
#[local] Instance demo_pt : Proto Transaction := ser_proto Transaction.
#[local] Instance demo_pu : Proto UtxoEntry := ser_proto UtxoEntry.
#[local] Instance demo_po : Proto Output := ser_proto Output.
#[local] Instance demo_pp : Proto ObservationProof := ser_proto ObservationProof.
#[local] Instance demo_pe : Proto ErrorInfo := const_proto ErrorInfo (λ _, []).
#[local] Instance demo_pd : Proto DynamicNodeMetadata := const_proto DynamicNodeMetadata (λ _, []).
#[local] Instance demo_je : Json ErrorInfo := demo_json.
#[local] Instance no_foreign : AddressParsers := {| bitcoin_parses := λ _, false; ethereum_parses := λ _, false |}.

Definition node_with (st : Store) : NodeState :=
  {| ns_sync := SyncDemo.fresh st; ns_peers := empty_peers; ns_contract := []; ns_in_process := ∅; ns_submitted := [];
     ns_observations := []; ns_discovery := []; ns_followers := []; ns_answers := [] |}.
Definition paid : Transaction :=
  {| tx_inputs := []; tx_outputs := [Output_new demo_kp_address 10; Output_new demo_kp_address 4];
     tx_struct_metadata := struct_metadata 1; tx_options := tx_options demo_spend |}.
Definition stored : Store := (insert_transaction paid 1 true None true empty_store).2.
Definition paid_hash : bytes := Eval vm_compute in match hash_bytes paid with Ok b => b | _ => [] end.
Notation find := (hash_query demo_kp HandlerDemo.fixed_peer HandlerDemo.fixed_node HandlerDemo.fixed_dynamic PeersDemo.peer).

Lemma search_finds_stored_witness :
  ∃ info, find (hex_encode paid_hash) None None (node_with stored) = (Ok (found_transaction info), node_with stored) ∧
    sti_transaction info = Some paid ∧ sti_accepted info = true ∧
    ∀ i, (i < length (tx_outputs paid))%nat → Z.of_nat i ∈ sti_valid_utxo_index info.
Proof.
destruct (parse_address (hex_encode paid_hash)) as [a|e|] eqn:E; [vm_compute in E; discriminate E| |vm_compute in E; discriminate E].
apply (search_finds_stored demo_kp HandlerDemo.fixed_peer HandlerDemo.fixed_node HandlerDemo.fixed_dynamic PeersDemo.peer
  (claws := toy_crypto_laws) (tx_laws := ser_proto_laws Transaction) paid 1 true empty_store paid_hash None None (node_with stored) e).
- refine (run_fst (insert_transaction paid 1 true None true empty_store) (Ok tt) _). vm_compute. reflexivity.
- vm_compute. reflexivity.
- intros k r. vm_compute. discriminate.
- vm_compute. reflexivity.
- exact E.
Defined.

Definition kp_text : string := Eval vm_compute in match render_string demo_kp_address with Ok t => t | _ => "" end.
Lemma search_balance_witness :
  ∃ info, ai_balance info = 14 ∧
    get_balance stored demo_kp_address = Ok (if 0 <? ai_balance info then Some (ai_balance info) else None).
Proof.
destruct (search_balance demo_kp HandlerDemo.fixed_peer HandlerDemo.fixed_node HandlerDemo.fixed_dynamic PeersDemo.peer
  kp_text demo_kp_address None None (node_with stored)
  (match (find kp_text None None (node_with stored)).1 with Ok r => r | _ => empty_search end) (node_with stored))
  as (info & E & _ & _ & Hb & _).
- vm_compute. reflexivity.
- vm_compute. reflexivity.
- discriminate.
- exists info. split; [|exact Hb]. apply (f_equal (λ r, ai_balance <$> hsr_address_info r)) in E.
  assert (Some 14 = Some (ai_balance info)) as E' by (etransitivity; [|exact E]; vm_compute; reflexivity). congruence.
Defined.
End SearchDemo.
