(* ===== verification/Explorer.v ===== *)
(** * The explorer

    src/api/explorer/mod.rs: what the web explorer shows of a transaction, an
    address, an observation, a peer, the pools and the recent activity, made from the
    search of Search.v and the stores.

    The deposit watcher's configuration, which is kept as JSON, and the answers of
    other nodes about their parties are parameters; so are the orders in which hash
    maps are walked. *)

From stdpp Require Import base list strings gmap.
From S2P Require Import Prelude Structs Interfaces F64 Schema Merkle Transaction Keys Store Contract Mempool Wire Download Peers Config Sync Handler Market Party Genesis Outgoing Search.
#[local] Open Scope Z_scope.
#[local] Open Scope redgold_scope.

(** ** Data *)

Record BriefTransaction := {
  bt_hash : string; bt_from : string; bt_to : string; bt_amount : f64; bt_fee : f64; bt_bytes : Z; bt_timestamp : Z;
  bt_first_amount : f64; bt_is_test : bool }.
Record NodeSignerDetailed := {
  nsd_signature : string; nsd_node_id : string; nsd_signed_pending_time : option Z; nsd_signed_finalized_time : option Z;
  nsd_observation_hash : string; nsd_observation_type : string; nsd_observation_timestamp : Z;
  nsd_validation_confidence_score : f64 }.
Record PeerSignerDetailed := { psd_peer_id : string; psd_nodes : list NodeSignerDetailed; psd_trust : f64 }.
Record DetailedInput := { di_transaction_hash : string; di_output_index : Z; di_address : string }.
Record DetailedOutput := { do_output_index : Z; do_address : string; do_available : bool; do_amount : f64 }.
Record DetailedTransaction := {
  dt_info : BriefTransaction; dt_confirmation_score : f64; dt_acceptance_score : f64; dt_message : string;
  dt_num_pending_signers : Z; dt_num_accepted_signers : Z; dt_accepted : bool; dt_signers : list PeerSignerDetailed;
  dt_inputs : list DetailedInput; dt_outputs : list DetailedOutput; dt_rejection_reason : option ErrorInfo;
  dt_signable_hash : string; dt_raw_transaction : Transaction }.
Record AddressPoolInfo := {
  api_public_key : string; api_rdg_address : string; api_rdg_balance : f64; api_btc_address : string; api_btc_balance : f64;
  api_bid_ask : BidAsk }.
Record BriefUtxoEntry := { bu_transaction_hash : string; bu_output_index : Z; bu_amount : f64; bu_time : Z }.
Record DetailedAddress := {
  da_address : string; da_balance : f64; da_total_utxos : Z; da_recent_transactions : list BriefTransaction;
  da_utxos : list BriefUtxoEntry; da_incoming_transactions : list BriefTransaction;
  da_outgoing_transactions : list BriefTransaction; da_incoming_count : Z; da_outgoing_count : Z; da_total_count : Z;
  da_address_pool_info : option AddressPoolInfo }.
Record DetailedObservationMetadata := {
  dom_observed_hash : string; dom_observed_hash_type : string; dom_validation_type : string; dom_state : string;
  dom_validation_confidence : f64; dom_time : Z; dom_metadata_hash : string }.
Record DetailedObservation := {
  dob_merkle_root : string; dob_observations : list DetailedObservationMetadata; dob_public_key : string;
  dob_signature : string; dob_time : Z; dob_hash : string; dob_signable_hash : string; dob_salt : Z; dob_height : Z;
  dob_parent_hash : string; dob_peer_id : string }.
Record DetailedTrust := { dtr_peer_id : string; dtr_trust : f64 }.
Record DetailedPeerNode := {
  dpn_external_address : string; dpn_public_key : string; dpn_node_type : string; dpn_executable_checksum : string;
  dpn_commit_hash : string; dpn_next_executable_checksum : string; dpn_next_upgrade_time : option Z; dpn_utxo_distance : f64;
  dpn_port_offset : Z; dpn_node_name : string; dpn_peer_id : string; dpn_nat_restricted : bool;
  dpn_recent_observations : list DetailedObservation }.
Record DetailedPeer := { dp_peer_id : string; dp_nodes : list DetailedPeerNode; dp_trust : list DetailedTrust }.
Record ExplorerHashSearchResponse := {
  eh_transaction : option DetailedTransaction; eh_address : option DetailedAddress; eh_observation : option DetailedObservation;
  eh_peer : option DetailedPeer; eh_peer_node : option DetailedPeerNode }.
Record RecentDashboardResponse := {
  rd_recent_transactions : list BriefTransaction; rd_total_accepted_transactions : Z; rd_num_active_peers : Z;
  rd_active_peers_abridged : list DetailedPeer; rd_recent_observations : list DetailedObservation }.
Record PoolMember := {
  pom_peer_id : string; pom_public_key : string; pom_share_fraction : f64; pom_deposit_rating : f64;
  pom_security_rating : f64; pom_pool_stake_usd : option f64; pom_weighted_overall_stake_rating : option f64; pom_is_seed : bool }.
Record ExplorerPoolInfoResponse := {
  epi_public_key : string; epi_owner : string; epi_balance_btc : f64; epi_balance_rdg : f64; epi_balance_eth : f64;
  epi_members : list PoolMember; epi_threshold : f64 }.
Record PartyMember := { ptm_public_key : option PublicKey; ptm_weight : option Weighting }.
Record PartyInfo := {
  pyi_party_id : option PartyId; pyi_threshold : option Weighting; pyi_members : list PartyMember;
  pyi_balances : list CurrencyAmount }.
Record Pagination := { pg_offset : option Z; pg_limit : option Z }.

(** [Debug] of the enumerations that prost generates; [None] for a number that is no
    variant. *)
Definition HashType_debug (z : Z) : option string :=
  match z with
  | 0 => Some "Transaction" | 1 => Some "ObservationMetadata" | 2 => Some "ObservationMerkleRoot" | 3 => Some "Tombstone"
  | 4 => Some "Address" | 5 => Some "Unknown" | 6 => Some "UtxoId" | _ => None
  end.
Definition ValidationType_debug (z : Z) : option string :=
  match z with 0 => Some "Full" | 1 => Some "Partial" | _ => None end.
Definition State_debug (z : Z) : option string :=
  match z with 0 => Some "Pending" | 1 => Some "Accepted" | 2 => Some "Reverted" | 3 => Some "Ordered" | _ => None end.
Definition NodeType_debug (z : Z) : string :=
  match z with 0 => "Ephemeral" | _ => "Static" end.

(** schema/src/weighting.rs and schema/src/transaction.rs. *)
Definition Weighting_to_float (w : Weighting) : f64 := f64_div (f64_of_Z (w_value w)) (f64_of_Z 1000).
Definition Weighting_from_float (f : f64) : Weighting := {| w_value := f64_to_i64 (f64_mul f (f64_of_Z 1000)) |}.
Definition rounded_balance (redgold_amount : Z) : f64 := f64_div (f64_of_Z redgold_amount) (f64_of_Z DECIMAL_MULTIPLIER).
Definition total_output_amount_float (t : Transaction) : f64 := to_fractional (CurrencyAmount_from (total_output_amount t)).
Definition first_output_amount {host : Host} (t : Transaction) : RgResult (option f64) :=
  match head (tx_outputs t) with
  | Some o => a ← Output_amount o; Ok (Some (rounded_balance a))
  | None => Ok None
  end.
(** src/multiparty/watcher.rs. *)
Definition party_info {host : Host} (d : DepositKeyAllocation) : RgResult PartyInfo :=
  ident ← safe_get_msg (dk_initiate_identifier d) "Missing identifier";
  id ← dk_party_id d;
  let size := f64_of_Z (Z.of_nat (length (mi_party_keys ident))) in
  let mw := Weighting_from_float (f64_div (f64_of_Z 1) size) in
  Ok {| pyi_party_id := Some id; pyi_threshold := Some (Weighting_from_float (f64_div (f64_of_Z (mi_threshold ident)) size));
        pyi_balances := balances d;
        pyi_members := (λ p, {| ptm_public_key := Some p; ptm_weight := Some mw |}) <$> mi_party_keys ident |}.

Section explorer.
Context {host : Host} {crypto : Crypto} {sql : Sql} {secp : Secp} {parsers : AddressParsers}.
Context {ptx : Proto Transaction} {pue : Proto UtxoEntry} {po : Proto Output} {pei : Proto ErrorInfo}.
Context {pom : Proto ObservationMetadata} {pop : Proto ObservationProof} {pdm : Proto DynamicNodeMetadata}.
Context (kp : KeyPair) (peer_tx_fixed : Transaction) (node_tx_fixed : option NodeMetadata → Transaction).
Context (dynamic_node_metadata_fixed : DynamicNodeMetadata).
Context (self_peer_id : PeerId) (seeds : list TrustedSeed) (network : NetworkEnvironment) (now : Z).
Context (deposit_config : RgResult (option DepositWatcherConfig)).
Context (ask_parties : list PublicKey → RgResult (list (RgResult (option (list PartyInfo))))).

Notation H := (M NodeState ErrorInfo).

(** [.ok()] on what an operation answers. *)
Definition okM {A} (m : H A) : H (option A) := λ s,
  match m s with (Ok a, s') => (Ok (Some a), s') | (Err _, s') => (Ok None, s') | (Panic, s') => (Panic, s') end.
(** [for x in l { v.push(f(x)?) }]. *)
Fixpoint mapM {A B} (f : A → H B) (l : list A) : H (list B) :=
  match l with [] => mret [] | x :: l => y ← f x; ys ← mapM f l; mret (y :: ys) end.
(** The same, where an error leaves the element out. *)
Fixpoint mapM_ok {A B} (f : A → H B) (l : list A) : H (list B) :=
  match l with
  | [] => mret []
  | x :: l => y ← okM (f x); ys ← mapM_ok f l; mret (match (y : option B) with Some y => y :: ys | None => ys end)
  end.

(** ** Transactions and UTXOs in brief *)

Definition brief_transaction (tx : Transaction) : RgResult BriefTransaction :=
  hash ← Hash_hex (hash_or tx);
  let from := default "" (a ← first_input_address tx; ok_opt (render_string a)) in
  to_ ← safe_get_msg (first_output_address tx) "Missing output address";
  to_ ← render_string to_;
  timestamp ← safe_get_msg (tx_struct_metadata tx ≫= sm_time) "Missing tx timestamp";
  first ← first_output_amount tx;
  first ← safe_get_msg first "Missing first output amount";
  Ok {| bt_hash := hash; bt_from := from; bt_to := to_; bt_amount := total_output_amount_float tx; bt_fee := f64_zero;
        bt_bytes := Z.of_nat (length (encode_to_vec tx)); bt_timestamp := timestamp; bt_first_amount := first;
        bt_is_test := Transaction_is_test tx |}.
Definition convert_utxo (u : UtxoEntry) : RgResult BriefUtxoEntry :=
  id ← safe_get_msg (ue_utxo_id u) "missing utxo id";
  h ← safe_get_msg (u_transaction_hash id) "Missing transaction hash";
  hash ← Hash_hex h;
  amount ← UtxoEntry_amount u;
  Ok {| bu_transaction_hash := hash; bu_output_index := u_output_index id; bu_amount := rounded_balance amount; bu_time := ue_time u |}.

(** ** Addresses *)

Definition get_address_pool_info : RgResult (option AddressPoolInfo) :=
  res ← deposit_config;
  match res with
  | None => Ok None
  | Some d =>
      a ← safe_get_msg (head (dwc_deposit_allocations d)) "Missing deposit alloc";
      btc_swap_address ← to_bitcoin_address (dk_key a) network;
      let sats z := f64_div (f64_of_Z z) (f64_of_Z 100000000) in
      rdg ← PublicKey_address (dk_key a);
      rdg_address ← render_string rdg;
      Ok (Some {| api_public_key := PublicKey_hex_or (dk_key a); api_rdg_address := rdg_address;
                  api_rdg_balance := sats (dk_balance_rdg a); api_btc_address := btc_swap_address;
                  api_btc_balance := sats (dk_balance_btc a); api_bid_ask := dwc_bid_ask d |})
  end.
Definition handle_address_info (ai : AddressInfo) (st : Store) (limit offset : option Z) : RgResult DetailedAddress :=
  a ← safe_get_msg (ai_address ai) "Missing address";
  inc ← get_filter_tx_for_address st a (default 10 limit) (default 0 offset) true;
  incoming ← mapR brief_transaction inc;
  out ← get_filter_tx_for_address st a (default 10 limit) (default 0 offset) false;
  outgoing ← mapR brief_transaction out;
  incoming_count ← get_count_filter_tx_for_address st a true;
  outgoing_count ← get_count_filter_tx_for_address st a false;
  address_str ← render_string a;
  pool ← get_address_pool_info;
  recent ← mapR brief_transaction (ai_recent_transactions ai);
  utxos ← mapR convert_utxo (ai_utxo_entries ai);
  Ok {| da_address := address_str; da_balance := rounded_balance (ai_balance ai);
        da_total_utxos := Z.of_nat (length (ai_utxo_entries ai)); da_recent_transactions := recent; da_utxos := utxos;
        da_incoming_transactions := incoming; da_outgoing_transactions := outgoing; da_incoming_count := incoming_count;
        da_outgoing_count := outgoing_count; da_total_count := i64_add incoming_count outgoing_count;
        da_address_pool_info := p ← (pool : option AddressPoolInfo);
          if bool_decide (api_btc_address p = address_str) || bool_decide (api_rdg_address p = address_str) then Some p else None |}.

(** ** Observations *)

Definition convert_observation_metadata (om : ObservationMetadata) : RgResult DetailedObservationMetadata :=
  h ← safe_get (om_observed_hash om);
  observed ← Hash_hex h;
  hash_type ← safe_get (HashType_debug (h_type h));
  validation ← safe_get (ValidationType_debug (om_observation_type om));
  state ← safe_get (State_debug (om_state om));
  confidence ← (match om_validation_confidence om with
                | Some l => x ← label l; Ok (f64_mul x (f64_of_Z 10))
                | None => Ok (f64_of_Z 10)
                end);
  sm ← safe_get (om_struct_metadata om);
  time ← safe_get (sm_time sm);
  mh ← safe_get (sm_hash sm);
  metadata_hash ← Hash_hex mh;
  Ok {| dom_observed_hash := observed; dom_observed_hash_type := hash_type; dom_validation_type := validation;
        dom_state := state; dom_validation_confidence := confidence; dom_time := time; dom_metadata_hash := metadata_hash |}.
Definition PeerId_hex_or (p : PeerId) : string :=
  match pi_peer_id p with Some k => PublicKey_hex_or k | None => "missing peer id" end.
Definition handle_observation (otx : Transaction) : H DetailedObservation :=
  o ← lift (Transaction_observation otx);
  pbs_pk ← lift (observation_public_key otx);
  root ← lift (safe_get (ob_merkle_root o)); root ← lift (Hash_hex root);
  observations ← lift (mapR convert_observation_metadata (ob_observations o));
  proof ← lift (observation_proof otx); signature ← lift (signature_hex proof);
  time ← lift (metadata_time otx);
  hash ← lift (Hash_hex (hash_or otx));
  signable ← lift (Hash_hex (signable_hash otx));
  salt ← lift (Transaction_salt otx);
  height ← lift (Transaction_height otx);
  parent ← lift (match (p ← ob_parent_id o; u_transaction_hash p) with Some h => Hash_hex h | None => Ok "" end);
  pid ← okM (relay_peer_id_for_node_pk kp peer_tx_fixed node_tx_fixed pbs_pk);
  mret {| dob_merkle_root := root; dob_observations := observations; dob_public_key := PublicKey_hex_or pbs_pk;
          dob_signature := signature; dob_time := time; dob_hash := hash; dob_signable_hash := signable; dob_salt := salt;
          dob_height := height; dob_parent_hash := parent;
          dob_peer_id := default "" (PeerId_hex_or <$> mjoin (pid : option (option PeerId))) |}.

(** ** Peers *)

Definition convert_trust (trust : TrustRatingLabel) : RgResult DetailedTrust :=
  let h := default "" (p ← trl_peer_id trust; h ← pi_peer_id p; ok_opt (PublicKey_hex h)) in
  d ← safe_get (head (trl_trust_data trust));
  l ← label d;
  Ok {| dtr_peer_id := h; dtr_trust := l |}.
Definition handle_peer_node (p : PeerNodeInfo) (skip_recent_observations : bool) : H DetailedPeerNode :=
  t ← lift (safe_get_msg (pni_latest_node_transaction p) "Missing latest node transaction");
  nmd ← lift (Transaction_node_metadata t);
  vi ← lift (safe_get_msg (nm_version_info nmd) "Missing version info");
  pk ← lift (safe_get_msg (nm_public_key nmd) "Missing public key");
  obs ← (if negb skip_recent_observations then
           os ← gets (λ s, get_pk_observations (ns_store s) pk 10); os ← lift os; mapM handle_observation os
         else mret []);
  address ← lift (external_address nmd);
  pk_hex ← lift (PublicKey_hex pk);
  mret {| dpn_external_address := address; dpn_public_key := pk_hex; dpn_node_type := NodeType_debug (default 0 (nm_node_type nmd));
          dpn_executable_checksum := vi_executable_checksum vi; dpn_commit_hash := default "" (vi_commit_hash vi);
          dpn_next_executable_checksum := default "" (vi_next_executable_checksum vi);
          dpn_next_upgrade_time := vi_next_upgrade_time vi;
          dpn_utxo_distance := default (f64_of_Z 1) ((λ d, f64_div (f64_of_Z d) (f64_of_Z 1000)) <$> (nm_partition_info nmd ≫= pti_utxo));
          dpn_port_offset := port_or nmd network; dpn_node_name := default "" (nm_node_name nmd);
          dpn_peer_id := default "" (hex_encode <$> (p ← nm_peer_id nmd; k ← pi_peer_id p; ok_opt (safe_bytes (pk_bytes k))));
          dpn_nat_restricted := default false (nm_transport_info nmd ≫= ti_nat_restricted); dpn_recent_observations := obs |}.
Definition handle_peer (p : PeerIdInfo) (skip_recent_observations : bool) : H DetailedPeer :=
  t ← lift (safe_get_msg (pii_latest_peer_transaction p) "Missing latest peer transaction in handle peer");
  pd ← lift (Transaction_peer_data t);
  nodes ← mapM_ok (λ pni, handle_peer_node pni skip_recent_observations) (pii_peer_node_info p);
  pid ← lift (safe_get_msg (pm_peer_id pd) "Missing peer id");
  pk ← lift (safe_get_msg (pi_peer_id pid) "Missing peer id public key info");
  b ← lift (safe_bytes (pk_bytes pk));
  trust ← lift (mapR convert_trust (pm_labels pd));
  mret {| dp_peer_id := hex_encode b; dp_nodes := nodes; dp_trust := trust |}.

(** ** Pools *)

Definition render_pool_member (member : PublicKey) (party_len : nat) : H PoolMember :=
  pid ← gets (λ s, peer_id_for_node_pk (ns_peers s) member); pid ← lift pid;
  mret {| pom_peer_id := default "" (PeerId_hex_or <$> (pid : option PeerId)); pom_public_key := PublicKey_hex_or member;
          pom_share_fraction := f64_div (f64_of_Z 1) (f64_of_Z (Z.of_nat party_len)); pom_deposit_rating := f64_of_Z 10;
          pom_security_rating := f64_of_Z 10; pom_pool_stake_usd := None; pom_weighted_overall_stake_rating := None;
          pom_is_seed := is_seed seeds member |}.
Definition balance_in (currency : Z) (bs : list CurrencyAmount) : Z :=
  default 0 (ca_amount <$> head (List.filter (λ b, bool_decide (ca_currency b = Some currency)) bs)).
Definition weighted_members (ms : list PartyMember) : list PublicKey :=
  omap (λ m, pk ← ptm_public_key m; _ ← ptm_weight m; Some pk) ms.
Definition convert_party_info (pi : PartyInfo) : H ExplorerPoolInfoResponse :=
  match (pid ← pyi_party_id pi; pk ← pty_public_key pid; owner ← pty_owner pid; thresh ← pyi_threshold pi; Some (pk, owner, thresh)) with
  | Some (pk, owner, thresh) =>
      members ← mapM (λ m, render_pool_member m (length (pyi_members pi))) (weighted_members (pyi_members pi));
      let coins z := f64_div (f64_of_Z z) (f64_of_Z 100000000) in
      mret {| epi_public_key := PublicKey_hex_or pk; epi_owner := PublicKey_hex_or owner;
              epi_balance_btc := coins (balance_in SupportedCurrency_Bitcoin (pyi_balances pi));
              epi_balance_rdg := coins (balance_in SupportedCurrency_Redgold (pyi_balances pi)); epi_balance_eth := f64_zero;
              epi_members := members; epi_threshold := Weighting_to_float thresh |}
  | None => lift (Err (error_info "Missing party info"))
  end.
Definition handle_explorer_pool : H (list ExplorerPoolInfoResponse) :=
  dw ← lift deposit_config;
  own ← (match (dw ← (dw : option DepositWatcherConfig); dk ← head (dwc_deposit_allocations dw); ok_opt (party_info dk)) with
         | Some pi => res ← convert_party_info pi; mret [res]
         | None => mret []
         end);
  nodes ← gets (λ s, active_nodes (ns_peers s) now None); nodes ← lift nodes;
  res ← lift (ask_parties nodes);
  let infos := concat (omap (λ r : RgResult (option (list PartyInfo)), mjoin (ok_opt r)) res) in
  others ← mapM_ok convert_party_info infos;
  mret (own ++ others).

(** ** Transactions in detail *)

(** Who signed observations of a transaction: per key its peer and what was signed. *)
Notation Signers := (gmap PublicKey (PeerTrustQueryResult * NodeSignerDetailed)).
Definition signed_at (state time : Z) (ns : NodeSignerDetailed) : NodeSignerDetailed :=
  {| nsd_signature := nsd_signature ns; nsd_node_id := nsd_node_id ns;
     nsd_signed_pending_time := if state =? State_Pending then Some time else nsd_signed_pending_time ns;
     nsd_signed_finalized_time := if state =? State_Accepted then Some time else nsd_signed_finalized_time ns;
     nsd_observation_hash := nsd_observation_hash ns; nsd_observation_type := nsd_observation_type ns;
     nsd_observation_timestamp := nsd_observation_timestamp ns;
     nsd_validation_confidence_score := nsd_validation_confidence_score ns |}.
(** A key that is seen for the first time, when its peer is known. *)
Definition new_signer (pk : PublicKey) (sig : Signature) (metadata : ObservationMetadata) (observed : Hash) (timestamp : Z) :
    H (option (PeerTrustQueryResult * NodeSignerDetailed)) :=
  pid ← okM (relay_peer_id_for_node_pk kp peer_tx_fixed node_tx_fixed pk);
  query_result ← get_trust_of_node_as_query peer_tx_fixed seeds pk;
  match (match (query_result : option PeerTrustQueryResult) with
         | Some q => Some q
         | None => (λ p, {| ptq_peer_id := p; ptq_trust := f64_of_Z 1 |}) <$> mjoin (pid : option (option PeerId))
         end) with
  | Some q =>
      validation ← lift (match om_validation_confidence metadata with Some v => label v | None => Ok (f64_of_Z 1) end);
      obs_type ← lift (safe_get_msg (ValidationType_debug (om_observation_type metadata)) "validationtype");
      signature ← lift (safe_bytes (sig_bytes sig));
      hash ← lift (Hash_hex observed);
      mret (Some (q, {| nsd_signature := hex_encode signature; nsd_node_id := PublicKey_hex_or pk; nsd_signed_pending_time := None;
                        nsd_signed_finalized_time := None; nsd_observation_hash := hash; nsd_observation_type := obs_type;
                        nsd_observation_timestamp := timestamp;
                        nsd_validation_confidence_score := f64_mul validation (f64_of_Z 10) |}))
  | None => mret None
  end.
(** The parts of a proof that is looked at. *)
Definition complete_proof (s : ObservationProof) : option (PublicKey * Signature * ObservationMetadata * Hash) :=
  p ← op_proof s; metadata ← op_metadata s; observed ← op_observation_hash s;
  pk ← pf_public_key p; sig ← pf_signature p; Some (pk, sig, metadata, observed).
Definition note_proof (m : Signers) (s : ObservationProof) : H Signers :=
  match complete_proof s with
  | Some (pk, sig, metadata, observed) =>
      sm ← lift (safe_get_msg (om_struct_metadata metadata) "Missing struct metadata");
      timestamp ← lift (safe_get_msg (sm_time sm) "Missing time");
      m ← (match m !! pk with
           | Some _ => mret m
           | None => n ← new_signer pk sig metadata observed timestamp;
                     mret (match (n : option (PeerTrustQueryResult * NodeSignerDetailed)) with Some x => <[pk := x]> m | None => m end)
           end);
      _ ← lift (safe_get_msg (State_debug (om_state metadata)) "state");
      mret (alter (λ x, (x.1, signed_at (om_state metadata) timestamp x.2)) pk m)
  | None => mret m
  end.
Fixpoint note_proofs (m : Signers) (ps : list ObservationProof) : H Signers :=
  match ps with [] => mret m | p :: ps => m ← note_proof m p; note_proofs m ps end.

(** The signing keys by peer, the most trusted peer first; [signer_order] and
    [peer_order] are the orders of the two hash maps. *)
Context (signer_order : list (PublicKey * (PeerTrustQueryResult * NodeSignerDetailed)) →
                        list (PublicKey * (PeerTrustQueryResult * NodeSignerDetailed))).
Context (peer_order : list PeerSignerDetailed → list PeerSignerDetailed).
Definition add_signer (map : gmap PeerId PeerSignerDetailed) (x : PublicKey * (PeerTrustQueryResult * NodeSignerDetailed)) :
    RgResult (gmap PeerId PeerSignerDetailed) :=
  let '(pt, ns) := x.2 in
  match map !! ptq_peer_id pt with
  | Some e => Ok (<[ptq_peer_id pt := {| psd_peer_id := psd_peer_id e; psd_nodes := psd_nodes e ++ [ns]; psd_trust := psd_trust e |}]> map)
  | None =>
      k ← safe_get (pi_peer_id (ptq_peer_id pt));
      b ← safe_bytes (pk_bytes k);
      Ok (<[ptq_peer_id pt := {| psd_peer_id := hex_encode b; psd_nodes := [ns]; psd_trust := f64_mul (ptq_trust pt) (f64_of_Z 10) |}]> map)
  end.
Definition group_signers (m : Signers) : RgResult (list PeerSignerDetailed) :=
  map ← foldR add_signer ∅ (signer_order (map_to_list m));
  Ok (reverse (sort_by (λ a b, negb (f64_ltb (psd_trust b) (psd_trust a))) (peer_order (snd <$> map_to_list map)))).

Definition detailed_input (i : Input) : RgResult DetailedInput :=
  u ← safe_get (i_utxo_id i);
  h ← (match u_transaction_hash u with Some h => h ← Hash_hex h; Ok (Some h) | None => Ok None end);
  hash ← safe_get_msg h "Missing transaction hash?";
  a ← Input_address i;
  address ← render_string a;
  Ok {| di_transaction_hash := hash; di_output_index := u_output_index u; di_address := address |}.
Definition detailed_output (valid_utxo_index : list Z) (io : nat * Output) : RgResult DetailedOutput :=
  a ← safe_get (o_address io.2);
  address ← render_string a;
  Ok {| do_output_index := as_i32 (Z.of_nat io.1); do_address := address;
        do_available := bool_decide (as_i32 (Z.of_nat io.1) ∈ valid_utxo_index);
        do_amount := default f64_zero (to_fractional <$> opt_amount_typed io.2) |}.
(** [count_unique_by_state] (schema/src/response.rs), at one state. *)
Definition count_unique_by_state (proofs : list ObservationProof) (state : Z) : RgResult Z :=
  u ← unique_by_state {| str_transaction_hash := None;
                         str_query_transaction_response := Some {| qtr_observation_proofs := proofs |}; str_transaction := None |};
  Ok (Z.of_nat (size (filter (λ x : PublicKey * Z, x.2 = state) u))).
Definition handle_transaction_info (t : StoredTransactionInfo) : H DetailedTransaction :=
  tx ← lift (safe_get_msg (sti_transaction t) "Missing transaction but have transactionInfo");
  let message := default "" (o ← tx_options tx; d ← txo_data o; txd_message d) in
  m ← note_proofs ∅ (sti_observation_proofs t);
  signers ← lift (group_signers m);
  inputs ← lift (mapR detailed_input (tx_inputs tx));
  outputs ← lift (mapR (detailed_output (sti_valid_utxo_index t)) (imap pair (tx_outputs tx)));
  pending ← lift (count_unique_by_state (sti_observation_proofs t) State_Pending);
  accepted ← lift (count_unique_by_state (sti_observation_proofs t) State_Accepted);
  info ← lift (brief_transaction tx);
  signable ← lift (Hash_hex (signable_hash tx));
  mret {| dt_info := info; dt_confirmation_score := f64_of_Z 1; dt_acceptance_score := f64_of_Z 1; dt_message := message;
          dt_num_pending_signers := pending; dt_num_accepted_signers := accepted; dt_accepted := sti_accepted t;
          dt_signers := signers; dt_inputs := inputs; dt_outputs := outputs; dt_rejection_reason := sti_rejection_reason t;
          dt_signable_hash := signable; dt_raw_transaction := tx |}.

(** ** The requests *)

Definition partM {A B} (o : option A) (f : A → H B) : H (option B) :=
  match o with Some a => b ← f a; mret (Some b) | None => mret None end.
Definition handle_explorer_hash (hash_input : string) (pagination : Pagination) : H ExplorerHashSearchResponse :=
  let limit := Some (Z.min (default 10 (pg_limit pagination)) 100) in
  let offset := Some (default 0 (pg_offset pagination)) in
  hq ← hash_query kp peer_tx_fixed node_tx_fixed dynamic_node_metadata_fixed self_peer_id hash_input limit offset;
  address ← partM (hsr_address_info hq) (λ ai, a ← gets (λ s, handle_address_info ai (ns_store s) limit offset); lift a);
  observation ← partM (hsr_observation hq) handle_observation;
  peer ← partM (hsr_peer_id_info hq) (λ p, handle_peer p false);
  node ← partM (hsr_peer_node_info hq) (λ p, handle_peer_node p false);
  transaction ← partM (hsr_transaction_info hq) handle_transaction_info;
  mret {| eh_transaction := transaction; eh_address := address; eh_observation := observation; eh_peer := peer; eh_peer_node := node |}.

(** A peer of an active node, when it is known and can be shown. *)
Definition active_peer (pk : PublicKey) : H (option DetailedPeer) :=
  pid ← gets (λ s, peer_id_for_node_pk (ns_peers s) pk); pid ← lift pid;
  match (pid : option PeerId) with
  | Some pid =>
      info ← gets (λ s, query_peer_id_info (ns_peers s) pid); info ← lift info;
      match (info : option PeerIdInfo) with Some i => okM (handle_peer i true) | None => mret None end
  | None => mret None
  end.
Definition handle_explorer_recent (is_test : option bool) : H RecentDashboardResponse :=
  recent ← gets (λ s, query_recent_transactions (ns_store s) (Some 10) is_test); recent ← lift recent;
  recent_transactions ← lift (mapR brief_transaction recent);
  total ← gets (λ s, count_total_transactions (ns_store s));
  peers ← gets (λ s, active_nodes (ns_peers s) now None); peers ← lift peers;
  let num_active_peers := Z.of_nat (length peers) + 1 in
  self_info ← relay_peer_id_info kp peer_tx_fixed node_tx_fixed dynamic_node_metadata_fixed;
  self ← handle_peer self_info true;
  others ← mapM active_peer (take 9 peers);
  obs ← gets (λ s, recent_observation (ns_store s) (Some 10)); obs ← lift obs;
  recent_observations ← mapM handle_observation (take 10 obs);
  mret {| rd_recent_transactions := recent_transactions; rd_total_accepted_transactions := total;
          rd_num_active_peers := num_active_peers;
          rd_active_peers_abridged := List.filter (λ p, negb (bool_decide (length (dp_nodes p) = 0%nat))) (self :: omap id others);
          rd_recent_observations := recent_observations |}.
Definition handle_explorer_swap : RgResult (option AddressPoolInfo) := get_address_pool_info.

(** * Properties *)

Lemma okM_Ok {A} (m : H A) s o s' : okM m s = (Ok o, s') → (∃ a, o = Some a ∧ m s = (Ok a, s')) ∨ (o = None ∧ ∃ e, m s = (Err e, s')).
Proof. unfold okM. destruct (m s) as [[a|e|] s1]; intros [= <- <-]; eauto. Qed.

(** ** Signers *)

(** [p] is a proof by [pk] of the state [state] at [time]. *)
Definition proof_signed (p : ObservationProof) (pk : PublicKey) (state time : Z) : Prop :=
  ∃ sig md obs sm, complete_proof p = Some (pk, sig, md, obs) ∧ om_state md = state ∧ om_struct_metadata md = Some sm ∧ sm_time sm = Some time.
(** What is shown of a key, of what it signed. *)
Record signer_sound (ps : list ObservationProof) (pk : PublicKey) (ns : NodeSignerDetailed) : Prop := {
  ss_key : nsd_node_id ns = PublicKey_hex_or pk;
  ss_signed : ∃ p state time, p ∈ ps ∧ proof_signed p pk state time;
  ss_pending : ∀ t, nsd_signed_pending_time ns = Some t → ∃ p, p ∈ ps ∧ proof_signed p pk State_Pending t;
  ss_accepted : ∀ t, nsd_signed_finalized_time ns = Some t → ∃ p, p ∈ ps ∧ proof_signed p pk State_Accepted t }.
Definition signers_sound (ps : list ObservationProof) (m : Signers) : Prop :=
  ∀ pk q ns, m !! pk = Some (q, ns) → signer_sound ps pk ns.

Lemma signer_sound_mono ps ps' pk ns : ps ⊆ ps' → signer_sound ps pk ns → signer_sound ps' pk ns.
Proof. intros Hs [Hk (p & ? & ? & ? & ?) Hp Ha]. split; [done|naive_solver..]. Qed.

Lemma new_signer_Ok pk sig md obs time s q ns s' : new_signer pk sig md obs time s = (Ok (Some (q, ns)), s') →
  nsd_node_id ns = PublicKey_hex_or pk ∧ nsd_signed_pending_time ns = None ∧ nsd_signed_finalized_time ns = None.
Proof.
unfold new_signer. intros H. apply M_bind_Ok in H as (pid & s1 & _ & H). apply M_bind_Ok in H as (qr & s2 & _ & H).
destruct (match qr with Some q0 => _ | None => _ end) as [q0|]; [|by apply mret_Ok in H as [? _]].
apply M_bind_Ok in H as (v & s3 & _ & H). apply M_bind_Ok in H as (ot & s4 & _ & H). apply M_bind_Ok in H as (sg & s5 & _ & H).
apply M_bind_Ok in H as (h & s6 & _ & H). apply mret_Ok in H as [E _]. by injection E as -> ->.
Qed.

Lemma note_proof_sound ps m p s m' s' : note_proof m p s = (Ok m', s') → signers_sound ps m → signers_sound (ps ++ [p]) m'.
Proof.
unfold note_proof. intros H Hm.
assert (signers_sound (ps ++ [p]) m) as Hm1 by (intros pk q ns E; eapply signer_sound_mono, Hm, E; set_solver).
destruct (complete_proof p) as [[[[pk sig] md] obs]|] eqn:Hp; [|by apply mret_Ok in H as [-> _]].
apply M_bind_Ok in H as (sm & s1 & [Hsm%ok_or_Ok ->]%lift_Ok & H). apply M_bind_Ok in H as (time & s2 & [Ht%ok_or_Ok ->]%lift_Ok & H).
apply M_bind_Ok in H as (m1 & s3 & H1 & H). apply M_bind_Ok in H as (st & s4 & _ & H). apply mret_Ok in H as [-> _].
assert (proof_signed p pk (om_state md) time) as Hs by (exists sig, md, obs, sm; done).
assert (p ∈ ps ++ [p]) as Hin by set_solver.
assert (signers_sound (ps ++ [p]) m1) as Hm2.
{ destruct (m !! pk) as [y|] eqn:E; [by apply mret_Ok in H1 as [-> _]|].
  apply M_bind_Ok in H1 as (n & s5 & Hn & H1). apply mret_Ok in H1 as [-> _]. destruct n as [[q ns]|]; [|done].
  intros pk' q' ns' [[<- [= <- <-]]|[? E']]%lookup_insert_Some; [|by eapply Hm1].
  apply new_signer_Ok in Hn as (Hk & Hpd & Hac). split; [done|by eauto|rewrite Hpd; done|rewrite Hac; done]. }
intros pk' q ns. destruct (decide (pk = pk')) as [<-|Hne]; [|rewrite lookup_alter_ne by done; by apply Hm2].
rewrite lookup_alter_eq, fmap_Some. intros ([q0 ns0] & E & [= <- ->]). apply Hm2 in E as [Hk Hex Hpd Hac].
split; cbn [nsd_node_id nsd_signed_pending_time nsd_signed_finalized_time signed_at fst snd]; [done|done|..].
- intros t. destruct (om_state md =? State_Pending) eqn:Es; [|by apply Hpd]. apply Z.eqb_eq in Es. intros [= <-]. rewrite <-Es. by eauto.
- intros t. destruct (om_state md =? State_Accepted) eqn:Es; [|by apply Hac]. apply Z.eqb_eq in Es. intros [= <-]. rewrite <-Es. by eauto.
Qed.
Lemma note_proofs_sound ps' : ∀ ps m s m' s', note_proofs m ps' s = (Ok m', s') → signers_sound ps m → signers_sound (ps ++ ps') m'.
Proof.
induction ps' as [|p ps' IH]; intros ps m s m' s' H Hm; cbn in H; [apply mret_Ok in H as [-> _]; by rewrite app_nil_r|].
apply M_bind_Ok in H as (m1 & s1 & H1 & H). eapply IH in H; [|eapply note_proof_sound; done].
by rewrite <-app_assoc in H.
Qed.

(** ** Signers by peer *)

Definition grouped (map : gmap PeerId PeerSignerDetailed) : list NodeSignerDetailed := concat ((λ x, psd_nodes x.2) <$> map_to_list map).
Definition of_peer (l : list (PublicKey * (PeerTrustQueryResult * NodeSignerDetailed))) (p : PeerId) (e : PeerSignerDetailed) : Prop :=
  Forall (λ ns, ∃ x, x ∈ l ∧ x.2.2 = ns ∧ ptq_peer_id x.2.1 = p) (psd_nodes e).
Lemma grouped_insert map p e : map !! p = None → grouped (<[p := e]> map) ≡ₚ psd_nodes e ++ grouped map.
Proof. intros Hp. unfold grouped. by rewrite map_to_list_insert. Qed.
Lemma add_signer_grouped map x map' : add_signer map x = Ok map' → grouped map' ≡ₚ grouped map ++ [x.2.2].
Proof.
unfold add_signer. destruct x as [pk [pt ns]]. cbn [snd]. destruct (map !! ptq_peer_id pt) as [e|] eqn:E.
- intros [= <-]. rewrite <-insert_delete_eq, grouped_insert by apply lookup_delete_eq. cbn [psd_nodes].
  rewrite <-(insert_delete_id map (ptq_peer_id pt) e E) at 2. rewrite grouped_insert by apply lookup_delete_eq.
  rewrite <-!app_assoc. apply Permutation_app_head, Permutation_app_comm.
- intros H. inv_Ok. subst map'. rewrite grouped_insert by done. cbn [psd_nodes]. apply Permutation_app_comm.
Qed.
Lemma add_signer_of_peer l map x map' : add_signer map x = Ok map' →
  (∀ p e, map !! p = Some e → of_peer l p e) → ∀ p e, map' !! p = Some e → of_peer (l ++ [x]) p e.
Proof.
intros H Hm. assert (∀ p e, map !! p = Some e → of_peer (l ++ [x]) p e) as Hm'.
{ intros p e E. eapply Forall_impl; [by apply Hm|]. intros ns (y & ? & ?). exists y. split; [set_solver|done]. }
assert (∀ p, ptq_peer_id x.2.1 = p → ∃ y, y ∈ l ++ [x] ∧ y.2.2 = x.2.2 ∧ ptq_peer_id y.2.1 = p) as Hx by (intros p <-; exists x; set_solver).
unfold add_signer in H. destruct x as [pk [pt ns]]. cbn [fst snd] in *. destruct (map !! ptq_peer_id pt) as [e|] eqn:E.
- injection H as <-. intros p e' [[<- <-]|[_ ?]]%lookup_insert_Some; [|by apply Hm']. apply Forall_app. split; [by apply Hm'|].
  apply Forall_singleton. by apply Hx.
- inv_Ok. subst map'. intros p e' [[<- <-]|[_ ?]]%lookup_insert_Some; [|by apply Hm']. apply Forall_singleton. by apply Hx.
Qed.
Lemma add_signers_spec l' : ∀ l map map', foldR add_signer map l' = Ok map' → (∀ p e, map !! p = Some e → of_peer l p e) →
  grouped map' ≡ₚ grouped map ++ ((λ x, x.2.2) <$> l') ∧ ∀ p e, map' !! p = Some e → of_peer (l ++ l') p e.
Proof.
induction l' as [|x l' IH]; intros l map map'; cbn [foldR]; [intros [= <-] Hm; cbn; by rewrite !app_nil_r|].
rewrite bind_Ok. intros (map1 & H1 & H) Hm. destruct (IH (l ++ [x]) map1 map' H) as [Hg Ho]; [by eapply add_signer_of_peer|].
split; [|by rewrite <-app_assoc in Ho]. rewrite Hg, (add_signer_grouped _ _ _ H1), <-app_assoc. done.
Qed.

Lemma group_signers_spec m signers :
  (∀ l, signer_order l ≡ₚ l) → (∀ l, peer_order l ≡ₚ l) → group_signers m = Ok signers →
  concat (psd_nodes <$> signers) ≡ₚ (λ x, x.2.2) <$> map_to_list m ∧
  ∃ peers, NoDup peers ∧ Forall2 (of_peer (map_to_list m)) peers signers.
Proof.
intros Ho Hp H. unfold group_signers in H. apply bind_Ok in H as (map & Hf & [= <-]).
apply (add_signers_spec _ []) in Hf as [Hg Hof]; [|intros p e; by rewrite lookup_empty]. rewrite app_nil_l in Hof.
set (out := reverse _). assert (out ≡ₚ snd <$> map_to_list map) as Hout.
{ unfold out. rewrite reverse_Permutation. etrans; [apply sort_by_perm|apply Hp]. }
split.
- rewrite Hout, <-list_fmap_compose. change (grouped map ≡ₚ (λ x, x.2.2) <$> map_to_list m). rewrite Hg, Ho. done.
- apply Permutation_map_inv in Hout as (kvs & -> & Hk). exists (fst <$> kvs). split; [rewrite <-Hk; apply NoDup_fst_map_to_list|].
  apply Forall2_fmap. assert (Forall (λ kv, kv ∈ map_to_list map) kvs) as Hin by (apply Forall_forall; intros kv; by rewrite Hk).
  clear Hk. induction Hin as [|[p e] kvs Hkv _ IH]; constructor; [|exact IH]. cbn. apply elem_of_map_to_list in Hkv. apply Hof in Hkv.
  eapply Forall_impl; [exact Hkv|]. intros ns (x & Hx & ?). exists x. split; [by rewrite <-Ho|done].
Qed.

(** What the explorer shows of the signers of a transaction is what was signed: every
    signing key is listed once, in the group of one peer and with every other key of
    that peer that is listed; each listed key has signed an observation of the
    transaction, and the times that are shown are times of its own observations in
    that state.  The number of accepting signers is the number of different keys that
    observed the transaction as accepted. *)
Theorem explorer_signers t s d s' :
  (∀ l, signer_order l ≡ₚ l) → (∀ l, peer_order l ≡ₚ l) → handle_transaction_info t s = (Ok d, s') →
  ∃ (m : Signers) xs,
    concat (psd_nodes <$> dt_signers d) ≡ₚ (λ x, x.2.2) <$> map_to_list m ∧
    (∃ peers, NoDup peers ∧ Forall2 (of_peer (map_to_list m)) peers (dt_signers d)) ∧
    (∀ pk q ns, m !! pk = Some (q, ns) → signer_sound (sti_observation_proofs t) pk ns) ∧
    mapR observed_by (sti_observation_proofs t) = Ok xs ∧
    dt_num_accepted_signers d = Z.of_nat (size (list_to_set (fst <$> List.filter (λ x, bool_decide (x.2 = State_Accepted)) xs) : gset PublicKey)).
Proof.
intros Ho Hp H. unfold handle_transaction_info in H. apply M_bind_Ok in H as (tx & s1 & _ & H).
apply M_bind_Ok in H as (m & s2 & Hm & H). apply M_bind_Ok in H as (signers & s3 & [Hs ->]%lift_Ok & H).
apply M_bind_Ok in H as (ins & s4 & _ & H). apply M_bind_Ok in H as (outs & s5 & _ & H). apply M_bind_Ok in H as (pend & s6 & _ & H).
apply M_bind_Ok in H as (acc & s7 & [Ha ->]%lift_Ok & H). apply M_bind_Ok in H as (info & s8 & _ & H).
apply M_bind_Ok in H as (sg & s9 & _ & H). apply mret_Ok in H as [-> _]. cbn [dt_signers dt_num_accepted_signers].
unfold count_unique_by_state, unique_by_state in Ha. cbn in Ha. apply bind_Ok in Ha as (u & Hu & [= <-]).
apply unique_fold in Hu as (xs & Hxs & ->). exists m, xs. destruct (group_signers_spec _ _ Ho Hp Hs) as [Hg Hpeers]. split_and!; try done.
- eapply (note_proofs_sound _ []); [exact Hm|]. intros pk q ns. by rewrite lookup_empty.
- by rewrite unique_size.
Qed.

(** ** The dashboard *)

Lemma mapM_length {A B} (f : A → H B) l : ∀ s ys s', mapM f l s = (Ok ys, s') → length ys = length l.
Proof.
induction l as [|x l IH]; intros s ys s' H; cbn in H; [by apply mret_Ok in H as [-> _]|].
apply M_bind_Ok in H as (y & s1 & _ & H). apply M_bind_Ok in H as (ys' & s2 & H' & H). apply mret_Ok in H as [-> _]. cbn. f_equal. by eapply IH.
Qed.
(** A transaction whose first output carries no amount, such as a request to a
    contract, cannot be shown: its amount is unwrapped. *)
Lemma brief_without_amount tx o :
  head (tx_outputs tx) = Some o → opt_amount o = None → ∀ b, brief_transaction tx ≠ Ok b.
Proof.
intros Ho Ha b H. unfold brief_transaction in H. inv_Ok. unfold first_output_amount, Output_amount, amount_i64 in *.
rewrite Ho in *. rewrite Ha in *. cbn in *. discriminate.
Qed.

(** The dashboard shows at most ten of each: transactions, peers and observations;
    every peer that is shown has a node, and the number of active peers counts the own
    one.  What it calls accepted transactions are all that are stored. *)
Lemma dashboard_bounds is_test s r s' : handle_explorer_recent is_test s = (Ok r, s') →
  (length (rd_recent_transactions r) ≤ 10)%nat ∧ (length (rd_active_peers_abridged r) ≤ 10)%nat ∧
  (length (rd_recent_observations r) ≤ 10)%nat ∧ Forall (λ p, dp_nodes p ≠ []) (rd_active_peers_abridged r) ∧
  (∃ peers, active_nodes (ns_peers s) now None = Ok peers ∧ rd_num_active_peers r = Z.of_nat (length peers) + 1) ∧
  rd_total_accepted_transactions r = Z.of_nat (size (st_transactions (ns_store s))).
Proof.
intros H. unfold handle_explorer_recent in H.
apply M_bind_Ok in H as (? & s1 & [-> ->]%gets_Ok & H). apply M_bind_Ok in H as (recent & s1 & [Hr ->]%lift_Ok & H).
apply M_bind_Ok in H as (briefs & s1 & [Hb ->]%lift_Ok & H). apply M_bind_Ok in H as (total & s1 & [-> ->]%gets_Ok & H).
apply M_bind_Ok in H as (? & s1 & [-> ->]%gets_Ok & H). apply M_bind_Ok in H as (peers & s1 & [Hp ->]%lift_Ok & H).
apply M_bind_Ok in H as (info & s2 & _ & H). apply M_bind_Ok in H as (self & s3 & _ & H).
apply M_bind_Ok in H as (others & s4 & Ho & H). apply M_bind_Ok in H as (? & s5 & _ & H). apply M_bind_Ok in H as (obs & s6 & _ & H).
apply M_bind_Ok in H as (dobs & s7 & Hd & H). apply mret_Ok in H as [-> _].
cbn [rd_recent_transactions rd_active_peers_abridged rd_recent_observations rd_num_active_peers rd_total_accepted_transactions].
apply mapR_length in Hb. apply mapM_length in Ho, Hd. rewrite length_take in Ho. rewrite length_take in Hd. split_and!.
- rewrite Hb. unfold query_recent_transactions in Hr. apply mapR_length in Hr. rewrite Hr.
  pose proof (sql_limit_length (default 10 (Some 10)) 0 (order_by_desc tr_time (List.filter (λ r, row_accepted r &&
       match is_test with Some b => bool_decide (tr_is_test r = b) | None => true end) (snd <$> map_to_list (st_transactions (ns_store s)))))
       ltac:(done)). cbn in *. lia.
- etrans; [apply List.filter_length_le|]. cbn. assert (length (omap id others) ≤ length others)%nat; [|lia].
  clear. induction others as [|[p|] l IH]; cbn; lia.
- lia.
- apply Forall_forall. intros p Hin. apply list_elem_of_In, List.filter_In in Hin as [_ Hn]. apply negb_true_iff, bool_decide_eq_false in Hn.
  by intros E; rewrite E in Hn.
- by exists peers.
- done.
Qed.

(** One transaction can take the dashboard down: while an accepted transaction whose
    first output carries no amount is among the ten most recent ones, the dashboard
    has no answer. *)
Theorem dashboard_blocked is_test s recent tx o :
  query_recent_transactions (ns_store s) (Some 10) is_test = Ok recent → tx ∈ recent →
  head (tx_outputs tx) = Some o → opt_amount o = None → ∀ r, (handle_explorer_recent is_test s).1 ≠ Ok r.
Proof.
intros Hr Hin Ho Ha r H. unfold handle_explorer_recent in H. erewrite M_bind_step in H by reflexivity. rewrite Hr in H.
erewrite M_bind_step in H by reflexivity. destruct (mapR brief_transaction recent) as [bs|e|] eqn:Hb; [|discriminate H..].
apply mapR_Ok in Hb. apply list_elem_of_lookup in Hin as [i Hi]. eapply Forall2_lookup_l in Hb as (b & _ & Hb); [|exact Hi].
by eapply brief_without_amount.
Qed.
End explorer.

(** * Examples *)

Module ExplorerDemo.
#[local] Existing Instance toy_host.
#[local] Existing Instance toy_crypto.
#[local] Existing Instance toy_secp.
#[local] Existing Instance SearchDemo.demo_sql.
#[local] Existing Instance SearchDemo.demo_pt.
#[local] Existing Instance SearchDemo.demo_pu.
#[local] Existing Instance SearchDemo.demo_po.
#[local] Existing Instance SearchDemo.demo_pp.
#[local] Existing Instance SearchDemo.demo_pe.
#[local] Existing Instance SearchDemo.demo_pd.
#[local] Existing Instance SearchDemo.no_foreign.
#[local] Instance demo_pom : Proto ObservationMetadata := const_proto ObservationMetadata (λ _, []).

Notation own_key := (KeyPair_public_key demo_kp).
(** The node observes the transaction as pending at 7 and as accepted at 8. *)
Definition seen (state time : Z) : ObservationProof :=
  {| op_observation_hash := Some (Hash_new [Byte.x03]); op_merkle_proof := None;
     op_metadata := Some {| om_observed_hash := Some (hash_or SearchDemo.paid); om_observation_type := 0; om_state := state;
       om_validation_confidence := None; om_struct_metadata := struct_metadata time; om_validation_liveness := 0;
       om_liveness_confidence := None |};
     op_proof := Some {| pf_signature := Some (Signature_ecdsa [Byte.x04]); pf_public_key := Some own_key |} |}.
Definition told : StoredTransactionInfo :=
  {| sti_transaction := Some SearchDemo.paid; sti_observation_proofs := [seen State_Pending 7; seen State_Accepted 8];
     sti_valid_utxo_index := [0]; sti_accepted := true; sti_rejection_reason := None; sti_state := 4 |}.
Definition named_node (_ : option NodeMetadata) : Transaction := PeersDemo.carrying None (Some PeersDemo.node).
Notation shown := (handle_transaction_info demo_kp HandlerDemo.fixed_peer named_node [] id id).
Definition start : NodeState := SearchDemo.node_with SearchDemo.stored.

Lemma explorer_signers_witness :
  ∃ d s', shown told start = (Ok d, s') ∧ dt_num_accepted_signers d = 1 ∧
  ∃ (m : gmap PublicKey (PeerTrustQueryResult * NodeSignerDetailed)) xs,
    concat (psd_nodes <$> dt_signers d) ≡ₚ (λ x, x.2.2) <$> map_to_list m ∧
    mapR observed_by (sti_observation_proofs told) = Ok xs.
Proof.
destruct (shown told start) as [[d|e|] s'] eqn:E; [|vm_compute in E; discriminate E..].
exists d, s'. split; [reflexivity|]. split.
{ assert (match (shown told start).1 with Ok d => dt_num_accepted_signers d | _ => 0 end = 1) as F by (vm_compute; reflexivity).
  rewrite E in F. exact F. }
destruct (explorer_signers demo_kp HandlerDemo.fixed_peer named_node [] id id told start d s') as (m & xs & H1 & _ & _ & H2 & _).
- reflexivity.
- reflexivity.
- exact E.
- exists m, xs. split; [exact H1|exact H2].
Defined.

(** A request to a contract is stored. *)
Definition call : Transaction :=
  {| tx_inputs := []; tx_outputs := [{| o_address := Some demo_kp_address; o_product_id := None; o_counter_party_proofs := [];
       o_data := None; o_contract := None; o_output_type := None; o_utxo_id := None |}];
     tx_struct_metadata := struct_metadata 2; tx_options := tx_options demo_spend |}.
Definition called : Store := (insert_transaction (jei := demo_json) call 2 true None true SearchDemo.stored).2.
Definition recents : list Transaction := Eval vm_compute in match query_recent_transactions called (Some 10) None with Ok l => l | _ => [] end.
Lemma dashboard_blocked_witness :
  length recents = 2%nat ∧
  ∀ r, (handle_explorer_recent demo_kp HandlerDemo.fixed_peer named_node HandlerDemo.fixed_dynamic Dev 5 None (SearchDemo.node_with called)).1 ≠ Ok r.
Proof.
split; [vm_compute; reflexivity|].
apply (dashboard_blocked demo_kp HandlerDemo.fixed_peer named_node HandlerDemo.fixed_dynamic Dev 5 None (SearchDemo.node_with called)
  recents call {| o_address := Some demo_kp_address; o_product_id := None; o_counter_party_proofs := [];
       o_data := None; o_contract := None; o_output_type := None; o_utxo_id := None |}).
- vm_compute. reflexivity.
- by_decision.
- reflexivity.
- reflexivity.
Defined.
End ExplorerDemo.
