(* ===== verification/Faucet.v ===== *)
(** * The faucet

    src/api/faucet.rs, the rate limit of src/core/relay.rs and the origin of a request
    (src/api/explorer/server.rs): a node of a test network pays a little from its own
    addresses to whoever asks, at most so often per origin.

    The node's words derive the keys ([keypair_at_change]); the captcha service and the
    processing of the submitted transaction are parameters; so is the order in which
    the hash map of addresses is walked.  Instants are nanoseconds. *)

From stdpp Require Import base list strings gmap.
From S2P Require Import Prelude Structs Interfaces F64 Schema Merkle Transaction Keys Builder Store Contract Mempool Wire Download Peers Config Sync Handler Genesis Search.
#[local] Open Scope Z_scope.
#[local] Open Scope redgold_scope.

(** ** Origins (src/api/explorer/server.rs) *)

Definition allowed_proxy_origins : list string := ["209.159.152.2"].
(** [socket] is the text of the peer's IP address, [remote] the header of a proxy. *)
Definition process_origin (socket remote : option string) : option string :=
  match socket with
  | Some socket_ip => if bool_decide (socket_ip ∈ allowed_proxy_origins) then remote else Some socket_ip
  | None => None
  end.

(** ** The rate limit (src/core/relay.rs) *)

Notation Limiter := (gmap string (Z * Z)).
Definition as_secs (nanos : Z) : Z := nanos / 1000000000.
Definition duration_since (now v : Z) : Z := Z.max 0 (now - v).
Definition check_rate_limit {host : Host} (ip : string) (now : Z) : M Limiter ErrorInfo bool := λ l,
  if (1000000 <? Z.of_nat (size l))%Z
  then (Err (error_info "Faucet rate limiter has exceeded 1 million entries, this is a problem"), l)
  else match l !! ip with
       | None => (Ok true, <[ip := (now, 0)]> l)
       | Some (v, count) =>
           if 3600 * 24 <? as_secs (duration_since now v) then (Ok true, <[ip := (now, 1)]> l)
           else if 30 <? count then (Ok false, l)
           else (Ok true, <[ip := (now, wrap_s 32 (count + 1))]> l)
       end.

(** ** A request (src/api/faucet.rs) *)

Record FaucetRequest := { fr_address : option Address; fr_token : option string }.
Record FaucetResponse := { fp_submit_transaction_response : option SubmitTransactionResponse }.
Record FaucetState := { fs_node : NodeState; fs_limiter : Limiter }.

Section faucet.
Context {host : Host} {crypto : Crypto} {sql : Sql} {secp : Secp} {parsers : AddressParsers}.
Context {ptx : Proto Transaction} {pue : Proto UtxoEntry}.
Context (network : NetworkEnvironment) (keypair_at_change : Z → RgResult KeyPair).
Context (address_order : list Address → list Address).
Context (recaptcha_verify : string → option string → RgResult bool).
Context (await_reply : Transaction → RgResult (Response (option SubmitTransactionResponse))).
(** The salt and the time of the transaction, and the instant of the request. *)
Context (salt now instant : Z).

Record SpendableUTXO := { su_utxo_entry : UtxoEntry; su_key_pair : KeyPair }.
Notation F := (M FaucetState ErrorInfo).
Definition on_node {A} (m : M NodeState ErrorInfo A) : F A := λ s,
  let '(r, n) := m (fs_node s) in (r, {| fs_node := n; fs_limiter := fs_limiter s |}).
Definition on_limiter {A} (m : M Limiter ErrorInfo A) : F A := λ s,
  let '(r, l) := m (fs_limiter s) in (r, {| fs_node := fs_node s; fs_limiter := l |}).

(** The keys at 1 to 4 by their addresses; a later key replaces an earlier one. *)
Definition faucet_keys : RgResult (gmap Address KeyPair) :=
  foldR (λ map i, key ← expect (keypair_at_change i); address ← address_typed key; Ok (<[address := key]> map)) ∅ [1; 2; 3; 4].
Definition spendable (map : gmap Address KeyPair) (u : UtxoEntry) : RgResult SpendableUTXO :=
  address ← expect (UtxoEntry_address u);
  key ← expect_opt (map !! address);
  Ok {| su_utxo_entry := u; su_key_pair := key |}.
(** The checks of a public network; what is paid. *)
Definition faucet_amount (token origin : option string) : F f64 :=
  if is_main_stage_network network then
    origin ← lift (safe_get_msg origin "No origin found");
    within ← on_limiter (check_rate_limit origin instant);
    if negb within then lift (Err (error_info "Rate limit exceeded")) else
    token ← lift (safe_get_msg token "No recaptcha token found");
    captcha ← lift (recaptcha_verify token (Some origin));
    if negb (captcha : bool) then lift (Err (error_info "Recaptcha verification failed")) else mret (f64_dec 5 2)
  else mret (f64_of_Z 5).
Definition faucet_transaction (utxo : SpendableUTXO) (addr : Address) (amount : f64) : RgResult Transaction :=
  b ← with_utxo (su_utxo_entry utxo) (TransactionBuilder_new network salt now);
  a ← from_fractional amount;
  b ← with_message "faucet" (with_output addr a b);
  tb ← build b;
  sign (su_key_pair utxo) tb.1.
Definition faucet_request (request : FaucetRequest) (origin : option string) : F FaucetResponse :=
  if is_main network then lift (Err (error_info "Faucet not supported on mainnet")) else
  addr ← lift (safe_get_msg (fr_address request) "No address found");
  map ← lift faucet_keys;
  let addresses := address_order (fst <$> map_to_list map) in
  result ← gets (λ s, utxo_for_addresses (ns_store (fs_node s)) addresses); result ← lift result;
  utxos ← lift (mapR (spendable map) result);
  match (utxos : list SpendableUTXO) with
  | [] => lift (Err (error_info "No UTXOs found for faucet"))
  | utxo :: _ =>
      amount ← faucet_amount (fr_token request) origin;
      transaction ← lift (faucet_transaction utxo addr amount);
      r ← on_node (submit_transaction await_reply {| sbr_transaction := Some transaction; sbr_sync_query_response := true |});
      mret {| fp_submit_transaction_response := Some r |}
  end.
(** The explorer's form of it; the request passes the message handler, where an
    error becomes a response and is turned back. *)
Definition handle_explorer_faucet (hash_input : string) (token origin : option string) : F string :=
  a ← lift (parse_address hash_input);
  fr ← faucet_request {| fr_address := Some a; fr_token := token |} origin;
  submit ← lift (safe_get_msg (fp_submit_transaction_response fr) "Missing submit transaction response");
  h ← lift (safe_get_msg (str_transaction_hash submit) "Missing transaction hash");
  lift (Hash_hex h).
End faucet.

(** * Properties *)

(** ** The rate limit *)

Section rate.
Context {host : Host}.

(** Requests in the order of their arrival, and how many of one origin pass. *)
Fixpoint rate_run (rs : list (string * Z)) (l : Limiter) : list bool * Limiter :=
  match rs with
  | [] => ([], l)
  | (ip, now) :: rs =>
      let '(r, l) := check_rate_limit ip now l in
      let '(gs, l) := rate_run rs l in (match r with Ok b => b | _ => false end :: gs, l)
  end.
Definition granted (ip : string) (rs : list (string * Z)) (gs : list bool) : nat :=
  length (List.filter (λ x : (string * Z) * bool, bool_decide (x.1.1 = ip) && x.2) (zip rs gs)).
Definition counts_ok (l : Limiter) : Prop := ∀ ip v c, l !! ip = Some (v, c) → 0 ≤ c ≤ 31.

Lemma rate_counts rs : ∀ l, counts_ok l → counts_ok (rate_run rs l).2.
Proof.
induction rs as [|[ip now] rs IH]; intros l Hl; [done|]. cbn [rate_run].
destruct (check_rate_limit ip now l) as [r l1] eqn:E. specialize (IH l1). destruct (rate_run rs l1) as [gs l2]. apply IH. clear IH.
unfold check_rate_limit in E. case_match; [by injection E as _ <-|]. destruct (l !! ip) as [[v c]|] eqn:Hip.
- apply Hl in Hip as Hc. repeat case_match; injection E as _ <-; try done.
  + intros ip' v' c' [[_ [= _ <-]]|[_ ?]]%lookup_insert_Some; [lia|by eapply Hl].
  + assert (c <= 30) by (apply Z.ltb_ge; done).
    intros ip' v' c' [[_ [= _ <-]]|[_ ?]]%lookup_insert_Some; [|by eapply Hl]. rewrite wrap_s_id; [lia|lia|unfold in_s; lia].
- injection E as _ <-. intros ip' v' c' [[_ [= _ <-]]|[_ ?]]%lookup_insert_Some; [lia|by eapply Hl].
Qed.

(** What an origin may still get in a day that starts at [t0]. *)
Definition allowance (t0 : Z) (o : option (Z * Z)) : Z :=
  match o with None => 32 | Some (v, c) => if v <? t0 then 32 else 31 - c end.
Lemma allowance_nonneg t0 l ip : counts_ok l → 0 ≤ allowance t0 (l !! ip).
Proof. intros Hl. unfold allowance. destruct (l !! ip) as [[v c]|] eqn:E; [|lia]. apply Hl in E. case_match; lia. Qed.
Lemma check_allowance t0 ip ip' now l r l' : counts_ok l → t0 ≤ now ≤ t0 + 86400 * 1000000000 →
  check_rate_limit ip' now l = (r, l') →
  (if bool_decide (ip' = ip) && match r with Ok b => b | _ => false end then 1 else 0) + allowance t0 (l' !! ip) ≤ allowance t0 (l !! ip).
Proof.
intros Hl Hn H. unfold check_rate_limit in H.
destruct (1000000 <? _); [injection H as <- <-; destruct (bool_decide _); cbn; lia|].
destruct (decide (ip' = ip)) as [->|Hne].
- rewrite bool_decide_eq_true_2 by done. destruct (l !! ip) as [[v c]|] eqn:E.
  + apply Hl in E as Hc. unfold allowance, as_secs, duration_since in *.
    assert (now <? t0 = false) as Ht by (apply Z.ltb_ge; lia).
    destruct (Z.ltb_spec (3600 * 24) (Z.max 0 (now - v) / 1000000000)) as [Hd|Hd].
    * injection H as <- <-. rewrite lookup_insert_eq, Ht. cbn. destruct (Z.ltb_spec v t0); [lia|].
      exfalso. assert (Z.max 0 (now - v) / 1000000000 < 86401); [|lia]. apply Z.div_lt_upper_bound; lia.
    * destruct (Z.ltb_spec 30 c) as [Hc'|Hc']; injection H as <- <-; cbn [andb]; [rewrite E; destruct (v <? t0); lia|].
      rewrite lookup_insert_eq, Ht, wrap_s_id; [|lia|unfold in_s; lia]. destruct (Z.ltb_spec v t0); lia.
  + injection H as <- <-. rewrite lookup_insert_eq. cbn. assert (now <? t0 = false) as -> by (apply Z.ltb_ge; lia). lia.
- rewrite bool_decide_eq_false_2 by done. cbn [andb]. assert (l' !! ip = l !! ip) as ->; [|lia].
  destruct (l !! ip') as [[v c]|]; [destruct (3600 * 24 <? _); [|destruct (30 <? c)]|]; injection H as <- <-; by rewrite ?lookup_insert_ne.
Qed.
Lemma window_allowance t0 ip rs : Forall (λ x : string * Z, t0 ≤ x.2 ≤ t0 + 86400 * 1000000000) rs →
  ∀ l, counts_ok l → Z.of_nat (granted ip rs (rate_run rs l).1) ≤ allowance t0 (l !! ip).
Proof.
induction 1 as [|[ip' now] rs Hn _ IH]; intros l Hl; [cbn; by apply allowance_nonneg|]. cbn [rate_run].
pose proof (rate_counts [(ip', now)] l Hl) as Hl1. cbn [rate_run] in Hl1.
destruct (check_rate_limit ip' now l) as [r l1] eqn:E. cbn [snd] in Hl1. specialize (IH l1 Hl1).
destruct (rate_run rs l1) as [gs l2]. cbn [fst] in *. pose proof (check_allowance t0 ip ip' now l r l1 Hl Hn E) as Hc.
unfold granted in *. cbn [zip zip_with List.filter fst snd]. destruct (bool_decide (ip' = ip) && _); cbn [length]; lia.
Qed.

(** C36: The faucet is limited: whatever was asked before, and whatever others ask
    meanwhile, in a day one origin passes at most thirty-two times. *)
Theorem rate_limited ip t0 before rs :
  Forall (λ x : string * Z, t0 ≤ x.2 ≤ t0 + 86400 * 1000000000) rs →
  (granted ip rs (rate_run rs (rate_run before ∅).2).1 ≤ 32)%nat.
Proof.
intros Hw. assert (counts_ok (rate_run before ∅).2) as Hl by (apply rate_counts; intros ? ? ?; by rewrite lookup_empty).
pose proof (window_allowance t0 ip rs Hw _ Hl) as H. assert (allowance t0 ((rate_run before ∅).2 !! ip) ≤ 32); [|lia].
unfold allowance. destruct ((rate_run before ∅).2 !! ip) as [[v c]|] eqn:E; [|lia]. apply Hl in E. case_match; lia.
Qed.
(** The table is never emptied: once it holds more than a million origins, nobody
    passes any more. *)
Lemma full_for_ever rs l : 1000000 < Z.of_nat (size l) → (rate_run rs l).2 = l ∧ Forall (λ b, b = false) (rate_run rs l).1.
Proof.
intros Hs. induction rs as [|[ip now] rs [IH1 IH2]]; [done|]. cbn [rate_run]. unfold check_rate_limit.
rewrite (proj2 (Z.ltb_lt _ _) Hs). destruct (rate_run rs l) as [gs l2]. cbn in *. by split; [|constructor].
Qed.
End rate.

(** ** The payment *)

Section payment.
Context {host : Host} {crypto : Crypto} {sql : Sql} {secp : Secp} {parsers : AddressParsers}.
Context {ptx : Proto Transaction} {pue : Proto UtxoEntry}.
Context (network : NetworkEnvironment) (keypair_at_change : Z → RgResult KeyPair).
Context (address_order : list Address → list Address).
Context (recaptcha_verify : string → option string → RgResult bool).
Context (await_reply : Transaction → RgResult (Response (option SubmitTransactionResponse))).
Context (salt now instant : Z).

Notation request_ := (faucet_request network keypair_at_change address_order recaptcha_verify await_reply salt now instant).
Definition paid_amount : Z := if is_main_stage_network network then 5000000 else 500000000.

Lemma sign_Ok_outputs kp t t' : sign kp t = Ok t' → tx_outputs t' = tx_outputs t ∧ total_input_amount t' = total_input_amount t ∧
  i_utxo_id <$> tx_inputs t' = i_utxo_id <$> tx_inputs t ∧ tx_inputs t ≠ [].
Proof.
unfold sign. cbv zeta. intros H. apply bind_Ok in H as (addr & _ & H). apply bind_Ok in H as (ins & Hi & H).
destruct (existsb snd ins) eqn:Hex; [|done]. cbn [negb] in H. apply bind_Ok in H as (x & Hx & H). apply bind_Ok in H as (sm & _ & [= <-]).
apply with_hash_Ok in Hx as (sm0 & _ & ->). cbn [tx_with_metadata tx_with_inputs tx_outputs tx_inputs].
apply mapR_Ok in Hi. assert (i_output <$> (fst <$> ins) = i_output <$> tx_inputs t ∧ i_utxo_id <$> (fst <$> ins) = i_utxo_id <$> tx_inputs t) as [Ho Hu].
{ clear Hex. induction Hi as [|i [i' b] l l' Hs _ [IH1 IH2]]; [done|]. apply sign_input_spec in Hs as (Hp & Hout & _). cbn.
  rewrite IH1, IH2. split; f_equal; [done|]. by destruct i, i'; injection Hp. }
split_and!; [done| |done|].
- unfold total_input_amount. cbn [tx_inputs tx_with_metadata tx_with_inputs]. f_equal. f_equal.
  assert (∀ l, omap i_output l = omap id (i_output <$> l)) as F by (intros l; by rewrite omap_fmap_compose). by rewrite !F, Ho.
- intros E. rewrite E in Hi. apply Forall2_nil_inv_l in Hi as ->. done.
Qed.

Lemma faucet_amount_Ok token origin s a s' : faucet_amount network recaptcha_verify instant token origin s = (Ok a, s') →
  from_fractional a = Ok (CurrencyAmount_from paid_amount) ∧ fs_node s' = fs_node s.
Proof.
unfold faucet_amount, paid_amount. destruct (is_main_stage_network network); intros H.
- apply M_bind_Ok in H as (o & s1 & [_ ->]%lift_Ok & H). apply M_bind_Ok in H as (w & s2 & Hw & H).
  assert (fs_node s2 = fs_node s) as <-. { unfold on_limiter in Hw. destruct (check_rate_limit _ _ _). by injection Hw as _ <-. }
  destruct w; [cbn [negb] in H|by inv_M]. apply M_bind_Ok in H as (tk & s3 & [_ ->]%lift_Ok & H).
  apply M_bind_Ok in H as (c & s4 & [_ ->]%lift_Ok & H). destruct c; [|by inv_M]. apply mret_Ok in H as [-> ->].
  split; [vm_compute; reflexivity|done].
- apply mret_Ok in H as [-> ->]. split; [vm_compute; reflexivity|done].
Qed.

Lemma faucet_transaction_Ok u addr a tx : from_fractional a = Ok (CurrencyAmount_from paid_amount) →
  faucet_transaction network salt now u addr a = Ok tx →
  i_utxo_id <$> tx_inputs tx = [ue_utxo_id (su_utxo_entry u)] ∧ total_input_amount tx = total_output_amount tx ∧
  (tx_outputs tx = [Output_new addr paid_amount] ∨
   ∃ own z, UtxoEntry_address (su_utxo_entry u) = Ok own ∧ 0 < z ∧ tx_outputs tx = [Output_new addr paid_amount; Output_new own z]).
Proof.
intros Ha H. unfold faucet_transaction in H. apply bind_Ok in H as (b & Hb & H). rewrite Ha in H. rg_step. cbn [mbind result_bind] in H.
apply bind_Ok in H as (b1 & Hb1 & H). apply bind_Ok in H as ([t b2] & Hbuild & H). cbn [fst] in H.
unfold with_utxo in Hb. inv_Ok. subst b. unfold with_message in Hb1. inv_Ok. subst b1.
apply build_Ok in Hbuild as (Hbal & Hout & (used & rest & Hperm & Hins) & _ & _).
apply sign_Ok_outputs in H as (Ho & Hi & Hu & Hne).
assert (used = [su_utxo_entry u]) as ->.
{ cbn in Hperm. apply Permutation_singleton_l in Hperm. destruct used as [|y [|y' used]]; [|by injection Hperm as -> _|by injection Hperm].
  cbn in Hins. done. }
cbn in Hins. rewrite Hu, Hins. split; [done|]. rewrite Hi, Hbal. split; [unfold total_output_amount; by rewrite Ho|].
rewrite Ho. destruct Hout as [->|(i & own & z & Hh & Hown & Hz & ->)]; [by left|]. right. exists own, z.
rewrite Hins in Hh. cbn in Hh. injection Hh as <-. cbn in Hown. split_and!; [|done|done].
unfold UtxoEntry_address. destruct (ue_output (su_utxo_entry u)) as [o|]; [|done]. cbn in *. by rewrite Hown.
Qed.

(** What the faucet gives away: a request that succeeds on a network other than the
    main one hands exactly one transaction to the mempool; it spends one UTXO, stored
    for an address of the faucet, pays the requested address 0.05 on a public network
    and 5 elsewhere, returns the rest to the address it came from, and is balanced. *)
Theorem faucet_pays request origin s r s' : request_ request origin s = (Ok r, s') →
  ∃ map addr utxos u own key tx,
    network ≠ Main ∧ faucet_keys keypair_at_change = Ok map ∧ fr_address request = Some addr ∧
    utxo_for_addresses (ns_store (fs_node s)) (address_order (fst <$> map_to_list map)) = Ok utxos ∧ u ∈ utxos ∧
    UtxoEntry_address u = Ok own ∧ map !! own = Some key ∧
    fs_node s' = ns_submit {| tm_transaction := tx; tm_response_channel := Some 0%nat |} (fs_node s) ∧
    i_utxo_id <$> tx_inputs tx = [ue_utxo_id u] ∧ total_input_amount tx = total_output_amount tx ∧
    (tx_outputs tx = [Output_new addr paid_amount] ∨
     ∃ z, 0 < z ∧ tx_outputs tx = [Output_new addr paid_amount; Output_new own z]).
Proof.
unfold faucet_request. destruct (is_main network) eqn:Hm; intros H; [by inv_M|]. apply bool_decide_eq_false in Hm.
apply M_bind_Ok in H as (addr & s1 & [Ha%ok_or_Ok ->]%lift_Ok & H). apply M_bind_Ok in H as (map & s1 & [Hk ->]%lift_Ok & H). cbv zeta in H.
apply M_bind_Ok in H as (? & s1 & [-> ->]%gets_Ok & H). apply M_bind_Ok in H as (utxos & s1 & [Hu ->]%lift_Ok & H).
apply M_bind_Ok in H as (sps & s1 & [Hs ->]%lift_Ok & H). destruct sps as [|sp sps]; [by inv_M|].
apply M_bind_Ok in H as (a & s1 & [Hfr Hn]%faucet_amount_Ok & H). apply M_bind_Ok in H as (tx & s2 & [Ht ->]%lift_Ok & H).
apply M_bind_Ok in H as (rep & s2 & Hsub & H). apply mret_Ok in H as [_ ->].
apply mapR_Ok in Hs. destruct utxos as [|u utxos]; [by apply Forall2_nil_inv_l in Hs|]. apply Forall2_cons in Hs as [Hsp _].
unfold spendable in Hsp. apply bind_Ok in Hsp as (own & Hown & Hsp). apply bind_Ok in Hsp as (key & Hkey%expect_opt_Ok & [= <-]).
assert (UtxoEntry_address u = Ok own) as Ho by (by destruct (UtxoEntry_address u)).
apply faucet_transaction_Ok in Ht as (Hi & Hb & Hout); [|done]. cbn [su_utxo_entry] in *.
exists map, addr, (u :: utxos), u, own, key, tx. split_and!; try done; [left| |].
- unfold on_node in Hsub. destruct (submit_transaction _ _ _) as [r0 n] eqn:E. injection Hsub as -> <-. cbn [fs_node].
  unfold submit_transaction in E. cbn [sbr_transaction sbr_sync_query_response] in E. apply M_bind_Ok in E as (? & ? & [[= <-] ->]%lift_Ok & E).
  apply M_bind_Ok in E as (? & ? & ->%modify_Ok & E). apply M_bind_Ok in E as (? & ? & [_ ->]%lift_Ok & E).
  apply M_bind_Ok in E as (? & ? & [_ ->]%lift_Ok & E). apply lift_Ok in E as [_ ->]. by rewrite Hn.
- destruct Hout as [?|(own' & z & Ho' & Hz & ?)]; [by left|right]. exists z. rewrite Ho in Ho'. by injection Ho' as <-.
Qed.

Lemma spendable_no_error map u e : spendable map u ≠ Err e.
Proof. unfold spendable. destruct (UtxoEntry_address u) as [a| |]; cbn; [destruct (map !! a)|..]; done. Qed.
(** Anybody can stop the faucet: a UTXO that is stored for the bytes of one of its
    addresses, in an address that differs in its type or its currency, is found for
    every request, its key is looked up by the whole address, and the request panics. *)
Theorem foreign_form_panics request origin s map addr utxos u a :
  network ≠ Main → fr_address request = Some addr → faucet_keys keypair_at_change = Ok map →
  utxo_for_addresses (ns_store (fs_node s)) (address_order (fst <$> map_to_list map)) = Ok utxos →
  u ∈ utxos → UtxoEntry_address u = Ok a → map !! a = None → request_ request origin s = (Panic, s).
Proof.
intros Hm Ha Hk Hu Hin Hua Hmap. unfold faucet_request, is_main. rewrite bool_decide_eq_false_2 by done.
rewrite Ha. erewrite M_bind_step by reflexivity. rewrite Hk. erewrite M_bind_step by reflexivity. cbv zeta.
erewrite M_bind_step by reflexivity. rewrite Hu. erewrite M_bind_step by reflexivity.
assert (mapR (spendable map) utxos = Panic) as ->; [|done]. clear Hu. induction utxos as [|x utxos IH]; [set_solver|]. cbn [mapR].
destruct (spendable map x) as [y|e|] eqn:E; [|by destruct (spendable_no_error map x e)|done]. cbn.
apply elem_of_cons in Hin as [<-|Hin]; [unfold spendable in E; rewrite Hua in E; cbn in E; by rewrite Hmap in E|]. by rewrite IH.
Qed.
End payment.

(** * Examples *)

Module FaucetDemo.
#[local] Existing Instance toy_host.
#[local] Existing Instance toy_crypto.
#[local] Existing Instance toy_secp.
#[local] Existing Instance SearchDemo.demo_sql.
#[local] Existing Instance SearchDemo.demo_pt.
#[local] Existing Instance SearchDemo.demo_pu.
#[local] Existing Instance SearchDemo.demo_po.
#[local] Existing Instance SearchDemo.demo_je.

(** Forty requests of one origin within a second: thirty-two pass. *)
Definition eager : list (string * Z) := replicate 40 ("10.0.0.1", 5).
Lemma rate_limited_witness :
  granted "10.0.0.1" eager (rate_run eager (rate_run [] ∅).2).1 = 32%nat ∧
  (granted "10.0.0.1" eager (rate_run eager (rate_run [] ∅).2).1 ≤ 32)%nat.
Proof.
split; [vm_compute; reflexivity|]. apply (rate_limited "10.0.0.1" 0 [] eager). by apply Forall_replicate.
Defined.

Definition words (_ : Z) : RgResult KeyPair := Ok demo_kp.
Definition human (_ : string) (_ : option string) : RgResult bool := Ok true.
Definition processed (tx : Transaction) : RgResult (Response (option SubmitTransactionResponse)) :=
  Ok {| rs_response_metadata := Some success_metadata; rs_proof := None; rs_node_metadata := None;
        rs_body := Some {| str_transaction_hash := Some (hash_or tx); str_query_transaction_response := None; str_transaction := Some tx |} |}.
Definition funding (a : Address) : Transaction :=
  {| tx_inputs := []; tx_outputs := [Output_new a 900000000]; tx_struct_metadata := struct_metadata 1; tx_options := tx_options demo_spend |}.
Definition funded (a : Address) : FaucetState :=
  {| fs_node := SearchDemo.node_with (insert_transaction (funding a) 1 true None true empty_store).2; fs_limiter := ∅ |}.
Definition asked : FaucetRequest := {| fr_address := Some demo_address; fr_token := Some "token" |}.
Notation ask network := (faucet_request network words id human processed 1 2 3 asked (Some "10.0.0.1")).
Definition response_of (s : FaucetState) : FaucetResponse :=
  match (ask Dev s).1 with Ok r => r | _ => {| fp_submit_transaction_response := None |} end.

Lemma faucet_pays_witness :
  ∃ tx own z, ns_submitted (fs_node (ask Dev (funded demo_kp_address)).2) = [{| tm_transaction := tx; tm_response_channel := Some 0%nat |}] ∧
    (tx_outputs tx = [Output_new demo_address 5000000] ∨
     0 < z ∧ tx_outputs tx = [Output_new demo_address 5000000; Output_new own z]).
Proof.
destruct (faucet_pays Dev words id human processed 1 2 3 asked (Some "10.0.0.1") (funded demo_kp_address)
  (response_of (funded demo_kp_address)) (ask Dev (funded demo_kp_address)).2)
  as (map & addr & utxos & u & own & key & tx & _ & _ & Ha & _ & _ & _ & _ & Hs & _ & _ & Ho).
- apply (run_fst (ask Dev (funded demo_kp_address))). vm_compute. reflexivity.
- injection Ha as <-. rewrite Hs. exists tx, own. destruct Ho as [Ho|(z & Hz & Ho)].
  + exists 0. split; [reflexivity|]. left. exact Ho.
  + exists z. split; [reflexivity|]. right. split; [exact Hz|exact Ho].
Defined.

(** An output to the faucet's bytes as a Bitcoin address. *)
Definition foreign : Address := {| a_address := a_address demo_kp_address; a_type := a_type demo_kp_address; a_currency := Some 1 |}.
Definition keys : gmap Address KeyPair := match faucet_keys words with Ok m => m | _ => ∅ end.
Lemma keys_ok : faucet_keys words = Ok keys.
Proof. unfold keys. destruct (faucet_keys words) as [m|e|] eqn:E; [reflexivity|apply (f_equal is_ok) in E; vm_compute in E; discriminate E..]. Qed.
Lemma foreign_form_panics_witness : ask Dev (funded foreign) = (Panic, funded foreign).
Proof.
apply (foreign_form_panics Dev words id human processed 1 2 3 asked (Some "10.0.0.1") (funded foreign)
  keys demo_address
  (match utxo_for_addresses (ns_store (fs_node (funded foreign))) [demo_kp_address] with Ok l => l | _ => [] end)
  (from_output_new (Output_new foreign 900000000) (hash_or (funding foreign)) 0 1) foreign).
- discriminate.
- reflexivity.
- exact keys_ok.
- vm_compute. reflexivity.
- by_decision.
- vm_compute. reflexivity.
- destruct (keys !! foreign) as [k|] eqn:E; [|reflexivity].
  apply (f_equal (λ o : option KeyPair, match o with Some _ => true | None => false end)) in E. vm_compute in E. discriminate E.
Defined.
End FaucetDemo.
