(* ===== verification/Intake.v ===== *)
(** * What comes in unasked: observations and announced transactions

    src/core/process_observation.rs stores the observations that other nodes gossip and
    hands their proofs to the requests that wait for them; src/core/data_discovery.rs
    asks the active nodes for the hashes of their recent transactions, looks up the
    unknown ones among the peers near them and submits them.

    The stream of observations runs up to 200 at once and ends at the first error; here
    one is processed after the other.  [None] of [process_message] is the divergence of
    the Merkle walk, as in Store.v. *)

From stdpp Require Import base list strings gmap.
From S2P Require Import Prelude Structs Interfaces Schema Merkle Transaction Keys Store Observation Contract Mempool Wire Download Peers Config Sync Handler Search Outgoing.
#[local] Open Scope Z_scope.
#[local] Open Scope redgold_scope.

(** ** Observations (src/core/process_observation.rs) *)

(** [in_channels] has what lies in the [internal_channel] of the request that is
    registered under a hash.  Nothing takes anything out of it: the one function that
    reads it, [poll_internal_proof_messages], is not called. *)
Record IntakeState := { in_node : NodeState; in_channels : gmap Hash (list ObservationProof) }.
Definition channel_of (s : IntakeState) (hash : Hash) : list ObservationProof := default [] (in_channels s !! hash).
(** [new_bounded_channel(200)]. *)
Definition internal_channel_size : nat := 200.
(** [try_send]: the request holds both ends, so that only a full channel refuses. *)
Definition try_send (hash : Hash) (proof : ObservationProof) (s : IntakeState) : IntakeState :=
  if (length (channel_of s hash) <? internal_channel_size)%nat
  then {| in_node := in_node s; in_channels := <[hash := channel_of s hash ++ [proof]]> (in_channels s) |} else s.
Definition ns_with_store (st : Store) (s : NodeState) : NodeState :=
  {| ns_sync := sy_with_store st (ns_sync s);
     ns_peers := ns_peers s; ns_contract := ns_contract s; ns_in_process := ns_in_process s; ns_submitted := ns_submitted s;
     ns_observations := ns_observations s; ns_discovery := ns_discovery s; ns_followers := ns_followers s; ns_answers := ns_answers s |}.

Section intake.
Context {host : Host} {crypto : Crypto} {sql : Sql} {secp : Secp}.
Context {ptx : Proto Transaction} {pue : Proto UtxoEntry} {po : Proto Output} {pei : Proto ErrorInfo}.
Context {pom : Proto ObservationMetadata} {pop : Proto ObservationProof}.
Context (now : Z).

(** A request is in process for the transaction of this hash. *)
Definition awaited (s : IntakeState) (hash : Hash) : bool :=
  bool_decide (h_type hash = HashType_Transaction) && bool_decide (is_Some (ns_in_process (in_node s) !! hash)).
Definition notify_proof (s : IntakeState) (proof : ObservationProof) : IntakeState :=
  match op_metadata proof ≫= om_observed_hash with
  | Some hash => if awaited s hash then try_send hash proof s else s
  | None => s
  end.
Definition notify_subscribers (o : Transaction) (s : IntakeState) : option (RgResult unit * IntakeState) :=
  proofs ← build_observation_proofs o;
  Some (match proofs with
        | Ok proofs => (Ok tt, foldl notify_proof s proofs)
        | Err _ => (Ok tt, s)
        | Panic => (Panic, s)
        end).
Definition process_message (o : Transaction) (s : IntakeState) : option (RgResult unit * IntakeState) :=
  x ← notify_subscribers o s;
  match x with
  | (Ok _, s) =>
      y ← insert_observation_and_edges now o (ns_store (in_node s));
      Some (y.1, {| in_node := ns_with_store y.2 (in_node s); in_channels := in_channels s |})
  | (r, s) => Some (r, s)
  end.
(** [run]: the first error ends it. *)
Fixpoint intake_run (os : list Transaction) (s : IntakeState) : option (RgResult unit * IntakeState) :=
  match os with
  | [] => Some (Ok tt, s)
  | o :: os =>
      x ← process_message o s;
      match x with (Ok _, s) => intake_run os s | (r, s) => Some (r, s) end
  end.
End intake.

(** ** Announced transactions (src/core/data_discovery.rs) *)

Section data_discovery.
Context {host : Host} {crypto : Crypto} {sql : Sql} {secp : Secp}.
Context {ptx : Proto Transaction} {pdm : Proto DynamicNodeMetadata} {pei : Proto ErrorInfo}.
Context {prq : Proto (Request RequestBody)} {prs : Proto (Response ResponseBody)}.
Context {jrq : Json (Request RequestBody)} {jrs : Json (Response ResponseBody)} {jpk : Json (option PublicKey)}.
Context {jnm : Json NodeMetadata}.
Context (kp : KeyPair) (peer_tx_fixed : Transaction) (node_tx_fixed : option NodeMetadata → Transaction).
Context (network : NetworkEnvironment) (now : Z).
Context (http : string → bytes → option HttpOutcome).

Notation H := (M NodeState ErrorInfo).

Definition ask_recent : Request RequestBody := Request_of
  {| b_lookup_transaction := None; b_genesis := false; b_recent_transactions := Some {| rdr_limit := None; rdr_min_time := None |};
     b_utxo_valid := None; b_resolve_code := None; b_get_contract_state_marker := None; b_query_observation_proof := None;
     b_submit_transaction := None; b_get_peers_info := false; b_gossip_transaction := None; b_gossip_observation := None;
     b_download := None; b_about := false |}.
(** [transaction_known] and [tx_hash_distance] of src/core/relay.rs. *)
Definition relay_transaction_known (hash : Hash) (s : NodeState) : RgResult bool :=
  if bool_decide (is_Some (mp_entries (sy_mempool (ns_sync s)) !! hash)) then Ok true
  else if bool_decide (is_Some (ns_in_process s !! hash)) then Ok true
  else r ← query_maybe_transaction (ns_store s) hash; Ok (bool_decide (is_Some (r : option (Transaction * option ErrorInfo)))).
Definition relay_tx_hash_distance (hash : Hash) : H bool :=
  d ← lift (xorfc_hash hash (KeyPair_public_key kp));
  nmd ← relay_node_metadata kp peer_tx_fixed node_tx_fixed;
  mret (match nm_partition_info nmd ≫= pti_transaction_hash with Some d_max => d <? d_max | None => true end).
Definition discover_hash (h : Hash) : H unit :=
  known ← gets (relay_transaction_known h); known ← lift known;
  if (known : bool) then mret tt else
  near ← relay_tx_hash_distance h;
  if negb near then mret tt else
  t ← lookup_transaction_serial kp peer_tx_fixed node_tx_fixed network now http h;
  match (t : option Transaction) with
  | Some tx => modify (ns_submit {| tm_transaction := tx; tm_response_channel := None |})
  | None => mret tt
  end.
(** [Ok None]: a call that does not return. *)
Fixpoint discover_from (nodes : list PublicKey) : H (option unit) :=
  match nodes with
  | [] => mret (Some tt)
  | node :: nodes =>
      res ← await kp peer_tx_fixed node_tx_fixed network http (om_with_timeout 5 (from_pk ask_recent node));
      match (res : option (RgResult (Response ResponseBody))) with
      | None => mret None
      | Some res =>
          res ← lift res;
          _ ← iterM discover_hash (default [] (a_recent_transactions (rs_body res)));
          discover_from nodes
      end
  end.
Definition data_discovery_fold : H (option unit) :=
  n ← gets (λ s, active_nodes (ns_peers s) now None); n ← lift n; discover_from n.
End data_discovery.

(** * Properties *)

(** ** Observations *)

Section intake_props.
Context {host : Host} {crypto : Crypto} {sql : Sql} {secp : Secp}.
Context {ptx : Proto Transaction} {pue : Proto UtxoEntry} {po : Proto Output} {pei : Proto ErrorInfo}.
Context {pom : Proto ObservationMetadata} {pop : Proto ObservationProof}.
Context (now : Z).

Lemma with_own_store s : ns_with_store (ns_store s) s = s.
Proof. by destruct s as [[[] ?]]. Qed.

(** One observation that cannot be stored, such as one that carries none, ends the
    task: what is queued behind it is neither stored nor told to anyone. *)
Lemma malformed_observation_stops o os s e :
  Transaction_observation o = Err e → ∃ e', intake_run now (o :: os) s = Some (Err e', s).
Proof.
intros Ho. assert (∃ e', insert_observation_and_edges now o (ns_store (in_node s)) = Some (Err e', ns_store (in_node s))) as (e' & E).
{ unfold insert_observation_and_edges. rewrite Ho.
  assert (Transaction_height o ≠ Panic) as Hh
    by (unfold Transaction_height, safe_get_msg; by match goal with |- ok_or ?x _ ≠ _ => destruct x end).
  assert (metadata_time o ≠ Panic) as Ht
    by (unfold metadata_time, safe_get; destruct (struct_metadata_opt o) as [sm|]; [|done]; cbn; by destruct (sm_time sm)).
  destruct (metadata_time o); [|by eexists|done]. destruct (Transaction_height o); [..|done]; by eexists. }
exists e'. cbn [intake_run]. unfold process_message, notify_subscribers, build_observation_proofs, observation_proof. rewrite Ho.
cbn [mbind option_bind result_bind]. rewrite E. cbn [mbind option_bind fst snd]. rewrite with_own_store. by destruct s.
Qed.

(** *** The index of observations *)

Lemma edges_inserted ps : ∀ s s' ks, mapR edge_key ps = Ok ks → NoDup ks →
  iterM (λ p, insert_observation_edge now (Some p)) ps s = (Ok tt, s') →
  Forall2 (λ k p, st_observation_edge s' !! k = Some {| oer_edge := encode_to_vec p; oer_time := now |}) ks ps ∧
  ∀ k, k ∉ ks → st_observation_edge s' !! k = st_observation_edge s !! k.
Proof.
induction ps as [|p ps IH]; intros s s' ks Hk Hnd H.
- injection Hk as <-. apply mret_Ok in H as [_ ->]. done.
- cbn [mapR] in Hk. apply bind_Ok in Hk as (k & Hp & Hk). apply bind_Ok in Hk as (ks' & Hk & [= <-]). apply NoDup_cons in Hnd as [Hni Hnd].
  cbn [iterM] in H. apply M_bind_Ok in H as ([] & s1 & H1 & H). destruct (IH s1 s' ks' Hk Hnd H) as [Hall Hrest].
  unfold insert_observation_edge in H1. apply M_bind_Ok in H1 as (p' & s2 & [[= <-] ->]%lift_Ok & H1).
  apply M_bind_Ok in H1 as (k' & s2 & [Hk' ->]%lift_Ok & ->%modify_Ok). assert (k' = k) as -> by congruence. split.
  + constructor; [|done]. rewrite (Hrest k Hni). cbn. apply lookup_insert_eq.
  + intros k' [Hne Hn]%not_elem_of_cons. rewrite (Hrest k' Hn). cbn. by apply lookup_insert_ne.
Qed.
Lemma insert_edges_Ok o st st' ps :
  insert_observation_and_edges now o st = Some (Ok tt, st') → build_observation_proofs o = Some (Ok ps) →
  ∃ st1, st_observation_edge st1 = st_observation_edge st ∧ iterM (λ p, insert_observation_edge now (Some p)) ps st1 = (Ok tt, st').
Proof.
unfold insert_observation_and_edges, build_observation_proofs, observation_proof. intros H Hb.
destruct (metadata_time o) as [t| |]; [|done..]. destruct (Transaction_height o) as [h| |]; [|done..].
destruct (Transaction_observation o) as [ob| |]; [|done..]. cbn [mbind result_bind] in *.
destruct (safe_get_msg (ob_parent_id ob) _) as [u| |]; [|done..]. cbn [mbind result_bind] in *.
destruct (safe_get_msg (input_of o u) _) as [i| |]; [|done..]. cbn [mbind result_bind] in *.
destruct (safe_get_msg (i_proof i !! 0%nat) _) as [pf| |]; [|done..]. cbn [mbind result_bind] in *.
destruct (safe_get_msg (pf_public_key pf) _) as [pk| |]; [|done..]. cbn [mbind result_bind] in *.
destruct (insert_observation _ _ _ _ _ st) as [[[]| |] st1] eqn:E; [|done..]. rewrite Hb in H. cbn [mbind option_bind] in H.
injection H as H. exists st1. split; [|exact H]. unfold insert_observation in E. inv_M. done.
Qed.

Definition observes (hash : Hash) (p : ObservationProof) : bool := bool_decide (op_metadata p ≫= om_observed_hash = Some hash).
Lemma notify_proof_node s p : in_node (notify_proof s p) = in_node s.
Proof. unfold notify_proof, try_send. by repeat case_match. Qed.
Lemma notify_all_node ps s : in_node (foldl notify_proof s ps) = in_node s.
Proof. revert s. induction ps as [|p ps IH]; intros s; [done|]. cbn. by rewrite IH, notify_proof_node. Qed.
Lemma awaited_node s s' hash : in_node s' = in_node s → awaited s' hash = awaited s hash.
Proof. unfold awaited. by intros ->. Qed.
Lemma notify_proof_channel s p hash : (length (channel_of s hash) ≤ internal_channel_size)%nat →
  channel_of (notify_proof s p) hash =
    if awaited s hash && observes hash p then take internal_channel_size (channel_of s hash ++ [p]) else channel_of s hash.
Proof.
intros Hl. unfold notify_proof, observes. destruct (op_metadata p ≫= om_observed_hash) as [h|]; cycle 1.
{ rewrite bool_decide_eq_false_2 by done. by rewrite andb_false_r. }
destruct (decide (h = hash)) as [->|Hne].
- rewrite bool_decide_eq_true_2, andb_true_r by done. destruct (awaited s hash); [|done]. unfold try_send.
  destruct (Nat.ltb_spec (length (channel_of s hash)) internal_channel_size) as [Hlt|Hge].
  + rewrite take_ge by (rewrite length_app; cbn [length]; lia).
    unfold channel_of. cbn [in_channels]. by rewrite lookup_insert_eq.
  + by rewrite take_app_length' by lia.
- rewrite bool_decide_eq_false_2 by congruence. rewrite andb_false_r. destruct (awaited s h); [|done]. unfold try_send.
  destruct (length (channel_of s h) <? internal_channel_size)%nat; [|done]. unfold channel_of. cbn [in_channels].
  by rewrite lookup_insert_ne.
Qed.
Lemma take_room {A} n (l k : list A) : take n (take n l ++ k) = take n (l ++ k).
Proof.
revert n. induction l as [|x l IH]; intros [|n]; cbn; [done..|]. by rewrite IH.
Qed.
Lemma notify_all_channel ps : ∀ s hash, (length (channel_of s hash) ≤ internal_channel_size)%nat →
  channel_of (foldl notify_proof s ps) hash =
    if awaited s hash then take internal_channel_size (channel_of s hash ++ List.filter (observes hash) ps) else channel_of s hash.
Proof.
induction ps as [|p ps IH]; intros s hash Hl.
{ cbn. rewrite app_nil_r, take_ge by done. by destruct (awaited s hash). }
cbn [foldl List.filter]. pose proof (notify_proof_channel s p hash Hl) as Hp.
rewrite IH; [rewrite (awaited_node s) by apply notify_proof_node|]; rewrite Hp; clear Hp IH.
- destruct (awaited s hash); [|done]. cbn [andb]. destruct (observes hash p); [|done].
  by rewrite take_room, <-(assoc_L (++)).
- destruct (awaited s hash && observes hash p); [rewrite length_take; lia|done].
Qed.

(** C31: A gossiped observation can be found and is heard: after it was processed it is
    stored under its hash; every proof it gives, when no two share a place in the
    index and what is stored there already can be read, is among the proofs of the
    hash it observes; and the channel of a request that is in process for a transaction
    gets, behind what it holds, the proofs that observe that transaction, in order, as
    far as there is room for them, while every other channel stays as it is. *)
Theorem observation_indexed {tx_laws : ProtoLaws Transaction} {op_laws : ProtoLaws ObservationProof} o s s' ps ks :
  process_message now o s = Some (Ok tt, s') → build_observation_proofs o = Some (Ok ps) →
  mapR edge_key ps = Ok ks → NoDup ks → edges_readable (ns_store (in_node s)) →
  query_observation (ns_store (in_node s')) (hash_or o) = Ok (Some o) ∧
  Forall (λ p, ∃ h l, op_metadata p ≫= om_observed_hash = Some h ∧ select_observation_edge (ns_store (in_node s')) h = Ok l ∧ p ∈ l) ps ∧
  ∀ hash, (length (channel_of s hash) ≤ internal_channel_size)%nat →
    channel_of s' hash = if awaited s hash then take internal_channel_size (channel_of s hash ++ List.filter (observes hash) ps)
                         else channel_of s hash.
Proof.
intros H Hb Hk Hnd Hr. unfold process_message, notify_subscribers in H. rewrite Hb in H. cbn [mbind option_bind] in H.
rewrite notify_all_node in H.
destruct (insert_observation_and_edges now o _) as [[r st']|] eqn:E; [|done]. cbn [mbind option_bind fst snd] in H. injection H as -> <-.
cbn [in_node] in *. assert (ns_store (ns_with_store st' (in_node s)) = st') as -> by (by destruct s as [[]]).
split_and!; [by eapply insert_observation_stored| |by apply notify_all_channel].
destruct (insert_edges_Ok _ _ _ _ E Hb) as (st1 & Hst1 & Hi). destruct (edges_inserted ps st1 st' ks Hk Hnd Hi) as [Hall Hrest].
assert (edges_readable st') as Hr'.
{ intros k r Hkr. destruct (decide (k ∈ ks)) as [Hin|Hn].
  - apply list_elem_of_lookup in Hin as [i Hi']. eapply Forall2_lookup_l in Hall as (p & _ & Hp); [|exact Hi']. rewrite Hp in Hkr.
    injection Hkr as <-. exists p. unfold proto_deserialize. cbn. by rewrite proto_decode_encode.
  - rewrite (Hrest k Hn), Hst1 in Hkr. by eapply Hr. }
apply mapR_Ok in Hk. clear -Hall Hk Hr' op_laws. apply Forall_lookup. intros i p Hi.
eapply Forall2_lookup_l in Hk as (k & Hki & Hek); [|exact Hi]. eapply Forall2_lookup_lr in Hall as Hp; [|exact Hki|exact Hi].
unfold edge_key in Hek. cbv zeta in Hek. destruct (op_metadata p) as [md|] eqn:Hmd; [|inv_Ok; done].
repeat (apply bind_Ok in Hek as (? & ? & Hek)). injection Hek as <-.
match goal with X : safe_get (Some md) = Ok _ |- _ => injection X as <- end.
match goal with X : opt_Hash_safe_bytes (om_observed_hash md) = Ok _ |- _ => rename X into Hob end.
unfold opt_Hash_safe_bytes in Hob. apply bind_Ok in Hob as (h & Hh%ok_or_Ok & Hhb).
destruct (select_edges_total st' h _ Hhb Hr') as [l Hl]. exists h, l. split; [done|]. split; [done|].
unfold select_observation_edge in Hl. rewrite Hhb in Hl. cbn [mbind result_bind] in Hl. apply mapR_Ok in Hl.
match type of Hp with _ !! ?k = Some ?r => assert ((k, r) ∈ map_to_list (st_observation_edge st')) as Hin by (by apply elem_of_map_to_list) end.
apply list_elem_of_In in Hin.
match type of Hhb with _ = Ok ?b =>
  pose proof (proj2 (List.filter_In (λ kr, bool_decide (kr.1.2.2 = b)) _ _) (conj Hin (bool_decide_eq_true_2 _ eq_refl))) as Hf end.
apply list_elem_of_In, list_elem_of_lookup in Hf as [j Hj]. eapply Forall2_lookup_l in Hl as (p' & Hp' & Hd); [|exact Hj].
cbn in Hd. unfold proto_deserialize in Hd. rewrite proto_decode_encode in Hd. injection Hd as ->. by eapply list_elem_of_lookup_2.
Qed.
End intake_props.

(** ** Announced transactions *)

Section discovery_props.
Context {host : Host} {crypto : Crypto} {sql : Sql} {secp : Secp}.
Context {ptx : Proto Transaction} {pdm : Proto DynamicNodeMetadata} {pei : Proto ErrorInfo}.
Context {prq : Proto (Request RequestBody)} {prs : Proto (Response ResponseBody)}.
Context {jrq : Json (Request RequestBody)} {jrs : Json (Response ResponseBody)} {jpk : Json (option PublicKey)}.
Context {jnm : Json NodeMetadata}.
Context (kp : KeyPair) (peer_tx_fixed : Transaction) (node_tx_fixed : option NodeMetadata → Transaction).
Context (network : NetworkEnvironment) (now : Z) (http : string → bytes → option HttpOutcome).

Lemma lookup_serial_named h peers : ∀ s t s', lookup_serial kp peer_tx_fixed node_tx_fixed network http peers h s = (Ok (Some t), s') → hash_or t = h.
Proof.
induction peers as [|p peers IH]; intros s t s' H; cbn [lookup_serial] in H; [by apply mret_Ok in H as [? _]|].
apply M_bind_Ok in H as (res & s1 & _ & H). destruct res as [res|]; [|by apply mret_Ok in H as [? _]].
destruct (ok_opt res ≫= _) as [t'|]; [|by eapply IH]. case_bool_decide; [|by eapply IH]. by apply mret_Ok in H as [[= ->] _].
Qed.
(** What is submitted for a hash that was announced carries that hash, as far as it
    claims, and the node did not know it. *)
Lemma discover_hash_submits h s s' : discover_hash kp peer_tx_fixed node_tx_fixed network now http h s = (Ok tt, s') →
  ns_submitted s' = ns_submitted s ∨ relay_transaction_known h s = Ok false.
Proof.
unfold discover_hash. intros H. apply M_bind_Ok in H as (? & s1 & [-> ->]%gets_Ok & H). apply M_bind_Ok in H as (known & s1 & [Hk ->]%lift_Ok & H).
destruct known; [apply mret_Ok in H as [_ ->]; by left|by right].
Qed.
End discovery_props.

(** * Examples *)

Module IntakeDemo.
#[local] Existing Instance toy_host.
#[local] Existing Instance toy_crypto.
#[local] Existing Instance toy_secp.
#[local] Existing Instance BufferDemo.sql_demo.
#[local] Existing Instance BufferDemo.pt_demo.
#[local] Existing Instance BufferDemo.pm_demo.
#[local] Existing Instance BufferDemo.pp_demo.

Definition gossiped : Transaction := Eval vm_compute in bf_latest BufferDemo.formed_buffer.
Definition proofs_of (o : Transaction) : list ObservationProof := match build_observation_proofs o with Some (Ok ps) => ps | _ => [] end.
Definition observed (o : Transaction) : list Hash := omap (λ p, op_metadata p ≫= om_observed_hash) (proofs_of o).
Definition first_observed : Hash := Eval vm_compute in default (Hash_new []) (head (observed gossiped)).
(** A request for the first observed transaction is in process. *)
Definition waiting_node : NodeState :=
  {| ns_sync := SyncDemo.fresh empty_store; ns_peers := empty_peers; ns_contract := []; ns_in_process := {[first_observed := gossiped]};
     ns_submitted := []; ns_observations := []; ns_discovery := []; ns_followers := []; ns_answers := [] |}.
Definition start : IntakeState := {| in_node := waiting_node; in_channels := ∅ |}.
Notation take_in o := (process_message 5 o start).
Definition after (o : Transaction) : IntakeState := match take_in o with Some (_, s) => s | None => start end.
Definition keys_of (o : Transaction) : list ((bytes * bytes) * (bytes * bytes)) := match mapR edge_key (proofs_of o) with Ok ks => ks | _ => [] end.
Lemma taken_in o : match take_in o with Some (Ok _, _) => true | _ => false end = true → take_in o = Some (Ok tt, after o).
Proof. unfold after. destruct (take_in o) as [[[[]| |] s]|]; done. Qed.

Lemma observation_indexed_witness :
  length (proofs_of gossiped) = 2%nat ∧
  query_observation (ns_store (in_node (after gossiped))) (hash_or gossiped) = Ok (Some gossiped) ∧
  Forall (λ p, ∃ h l, op_metadata p ≫= om_observed_hash = Some h ∧
    select_observation_edge (ns_store (in_node (after gossiped))) h = Ok l ∧ p ∈ l) (proofs_of gossiped) ∧
  Some <$> channel_of (after gossiped) first_observed = [head (proofs_of gossiped)].
Proof.
split; [vm_compute; reflexivity|].
destruct (observation_indexed 5 (tx_laws := ser_proto_laws Transaction) (op_laws := ser_proto_laws ObservationProof)
  gossiped start (after gossiped) (proofs_of gossiped) (keys_of gossiped)) as (H1 & H2 & H3).
- apply taken_in. vm_compute. reflexivity.
- vm_compute. reflexivity.
- vm_compute. reflexivity.
- by_decision.
- intros k r. vm_compute. discriminate.
- split; [exact H1|]. split; [exact H2|]. rewrite (H3 first_observed) by apply Nat.le_0_l. vm_compute. reflexivity.
Defined.

(** An observation in the name of another key, without a signature. *)
Definition victim : PublicKey := PublicKey_from_bytes [Byte.x21].
Definition forged_proof : Proof_ := {| pf_signature := None; pf_public_key := Some victim |}.
Definition forged : Transaction :=
  tx_with_inputs ((λ i, {| i_utxo_id := i_utxo_id i; i_proof := [forged_proof]; i_product_id := i_product_id i; i_output := i_output i;
                           i_floating_utxo_id := i_floating_utxo_id i; i_input_type := i_input_type i |}) <$> tx_inputs gossiped) gossiped.
(** Anybody can observe in the name of anybody: an observation that is gossiped is
    stored without a look at its signature.  Here one that names a foreign key and
    has no signature is accepted, and the index then answers, for both transactions
    it observes, a proof by that key. *)
Theorem forged_observation_stored :
  take_in forged = Some (Ok tt, after forged) ∧ length (observed forged) = 2%nat ∧
  Forall (λ h, ∃ p, select_observation_edge (ns_store (in_node (after forged))) h = Ok [p] ∧ op_proof p = Some forged_proof) (observed forged) ∧
  ∀ h, Proof_verify forged_proof h ≠ Ok tt.
Proof.
split; [apply taken_in; vm_compute; reflexivity|]. split; [vm_compute; reflexivity|]. split.
- assert (forallb (λ h, match select_observation_edge (ns_store (in_node (after forged))) h with
    | Ok [p] => bool_decide (op_proof p = Some forged_proof) | _ => false end) (observed forged) = true) as F by (vm_compute; reflexivity).
  apply Forall_forall. intros h Hh. rewrite forallb_forall in F. apply list_elem_of_In, F in Hh.
  destruct (select_observation_edge _ h) as [[|p [|]]| |]; try done. exists p. split; [done|]. by apply bool_decide_eq_true in Hh.
- intros h. unfold Proof_verify. cbn. by destruct (Hash_safe_bytes h).
Qed.
End IntakeDemo.
