(* ===== verification/Wallet.v ===== *)
(** * The Bitcoin wallet of one key

    keys/src/util/btc_wallet.rs: a wallet that watches the address of one key, makes a
    transaction, hands out what has to be signed for each input, collects the
    signatures that were made elsewhere and puts the signed transaction on the network.

    The bdk and bitcoin crates are the class [Bitcoin] (functions of their arguments)
    and the record [Bdk] (what the wallet database and the server answer at one time).
    [Wallet::sign] of bdk calls the signer for each input in turn and finalises the
    transaction afterwards; both halves are written out, since the signer is code of
    the repository. *)

From stdpp Require Import base list gmap strings.
From S2P Require Import Prelude Structs Interfaces F64 Schema Merkle Transaction Keys Store Market Party.
#[local] Open Scope Z_scope.
#[local] Open Scope redgold_scope.

(** ** Transactions of the bitcoin crate *)

Record OutPoint := { pt_txid : string; pt_vout : Z }.
Record TxOut := { to_value : Z; to_script_pubkey : bytes }.
Record BtcTx := { bx_input : list OutPoint; bx_output : list TxOut }.
Record PsbtInput := {
  pn_sighash_type : option Z; pn_non_witness_utxo : option BtcTx; pn_witness_utxo : option TxOut;
  pn_witness_script : option bytes; pn_redeem_script : option bytes; pn_partial_sigs : gmap bytes (bytes * Z) }.
Record PartiallySignedTransaction := { ps_unsigned_tx : BtcTx; ps_inputs : list PsbtInput }.
Inductive SignerError :=
| InputIndexOutOfRange | InvalidSighash | InvalidNonWitnessUtxo | MissingNonWitnessUtxo | MissingWitnessScript
| SighashError | UserCanceled.
(** An entry of [list_transactions]. *)
Record TransactionDetails := { td_transaction : option BtcTx; td_txid : string; td_confirmation_time : option Z }.

(** Functions of the crates.  A script is its bytes; networks are [true] for the main
    network.  [SignerError] is displayed by [signer_error_string]. *)
Class Bitcoin := {
  bx_txid : BtcTx → string;
  EcdsaSighashType_All : Z;
  ecdsa_hash_ty : Z → option Z;
  is_v0_p2wpkh : bytes → bool;
  push_opcode : Z → bytes → bytes;
  push_slice : bytes → bytes → bytes;
  OP_DUP : Z; OP_HASH160 : Z; OP_EQUALVERIFY : Z; OP_CHECKSIG : Z;
  segwit_signature_hash : BtcTx → nat → bytes → Z → Z → option bytes;
  (** The script of an address, given as text or by its key. *)
  address_from_str : string → string + bytes;
  p2wpkh_script : bytes → bytes;
  address_from_script : bool → bytes → option string;
  signer_error_string : SignerError → string }.
(** A signature hash is a SHA-256 digest. *)
Class BitcoinLaws `{Bitcoin} : Prop :=
  segwit_signature_hash_length : ∀ tx i script value ty h, segwit_signature_hash tx i script value ty = Some h → length h = 32%nat.

(** What the database and the server answer, errors as their [Display] strings. *)
Record Bdk := {
  bdk_sync : option string;
  bdk_confirmed : string + Z;
  bdk_list_transactions : string + list TransactionDetails;
  bdk_get_tx : string → string + option BtcTx;
  (** [build_tx] with the recipients in their order, and [finish]. *)
  bdk_finish : list (bytes * Z) → string + (PartiallySignedTransaction * string);
  (** Whether [sign] refuses a transaction before the signers are asked. *)
  bdk_refuses : PartiallySignedTransaction → bool;
  (** The end of [sign]: whether every input is final; [None] for an error. *)
  bdk_finalize : PartiallySignedTransaction → option (bool * PartiallySignedTransaction);
  bdk_extract_tx : PartiallySignedTransaction → BtcTx;
  bdk_broadcast : BtcTx → option string }.

(** The wallet with its signer; [bw_sent] is what the server has taken. *)
Record SingleKeyBitcoinWallet := {
  bw_public_key : PublicKey; bw_main : bool; bw_psbt : option PartiallySignedTransaction; bw_transaction_details : option string;
  bw_proofs : gmap nat Proof_; bw_err : option ErrorInfo; bw_sent : list BtcTx }.
Definition bw_with_transaction (p : option PartiallySignedTransaction) (d : option string) (w : SingleKeyBitcoinWallet) : SingleKeyBitcoinWallet :=
  {| bw_public_key := bw_public_key w; bw_main := bw_main w; bw_psbt := p; bw_transaction_details := d;
     bw_proofs := bw_proofs w; bw_err := bw_err w; bw_sent := bw_sent w |}.
Definition bw_with_proofs (f : gmap nat Proof_ → gmap nat Proof_) (w : SingleKeyBitcoinWallet) : SingleKeyBitcoinWallet :=
  {| bw_public_key := bw_public_key w; bw_main := bw_main w; bw_psbt := bw_psbt w; bw_transaction_details := bw_transaction_details w;
     bw_proofs := f (bw_proofs w); bw_err := bw_err w; bw_sent := bw_sent w |}.
Definition bw_with_err (e : option ErrorInfo) (w : SingleKeyBitcoinWallet) : SingleKeyBitcoinWallet :=
  {| bw_public_key := bw_public_key w; bw_main := bw_main w; bw_psbt := bw_psbt w; bw_transaction_details := bw_transaction_details w;
     bw_proofs := bw_proofs w; bw_err := e; bw_sent := bw_sent w |}.
Definition bw_send (tx : BtcTx) (w : SingleKeyBitcoinWallet) : SingleKeyBitcoinWallet :=
  {| bw_public_key := bw_public_key w; bw_main := bw_main w; bw_psbt := bw_psbt w; bw_transaction_details := bw_transaction_details w;
     bw_proofs := bw_proofs w; bw_err := bw_err w; bw_sent := bw_sent w ++ [tx] |}.

Section wallet.
Context {host : Host} {crypto : Crypto} {secp : Secp} {btc : Bitcoin}.

Notation W := (M SingleKeyBitcoinWallet ErrorInfo).

(** [error_info] on a result of the crates. *)
Definition lib_result {A} (r : string + A) (context : string) : RgResult A :=
  match r with inr a => Ok a | inl e => Err (error_msg UnknownError context e) end.

(** ** What is signed *)

Definition p2wpkh_script_code (script : bytes) : RgResult bytes :=
  tail ← slice script 2 (length script);
  Ok (push_opcode OP_CHECKSIG (push_opcode OP_EQUALVERIFY (push_slice tail (push_opcode OP_HASH160 (push_opcode OP_DUP []))))).

(** The output that an input spends. *)
Definition spent_output (inp : PsbtInput) (previous_output : OutPoint) : result SignerError TxOut :=
  match pn_non_witness_utxo inp with
  | Some prev_tx =>
      if negb (bool_decide (bx_txid prev_tx = pt_txid previous_output)) then Err InvalidNonWitnessUtxo
      else match bx_output prev_tx !! Z.to_nat (pt_vout previous_output) with Some o => Ok o | None => Err InvalidNonWitnessUtxo end
  | None => match pn_witness_utxo inp with Some o => Ok o | None => Err MissingNonWitnessUtxo end
  end.
(** The script whose hash is signed; an index out of range is a panic. *)
Definition signed_script (inp : PsbtInput) (utxo : TxOut) : result SignerError bytes :=
  let code script := match p2wpkh_script_code script with Ok c => Ok c | _ => Panic end in
  match pn_witness_script inp with
  | Some s => Ok s
  | None =>
      if is_v0_p2wpkh (to_script_pubkey utxo) then code (to_script_pubkey utxo)
      else match pn_redeem_script inp with
           | Some r => if is_v0_p2wpkh r then code r else Err MissingWitnessScript
           | None => Err MissingWitnessScript
           end
  end.
Definition segwit_sighash (psbt : PartiallySignedTransaction) (input_index : nat) : result SignerError (bytes * Z) :=
  match ps_inputs psbt !! input_index, bx_input (ps_unsigned_tx psbt) !! input_index with
  | Some inp, Some tx_input =>
      sighash ← (match ecdsa_hash_ty (default EcdsaSighashType_All (pn_sighash_type inp)) with Some t => Ok t | None => Err InvalidSighash end);
      utxo ← spent_output inp tx_input;
      script ← signed_script inp utxo;
      match segwit_signature_hash (ps_unsigned_tx psbt) input_index script (to_value utxo) sighash with
      | Some h => Ok (h, sighash)
      | None => Err SighashError
      end
  | _, _ => Err InputIndexOutOfRange
  end.

(** ** The signer *)

Definition psbt_alter_input (i : nat) (f : PsbtInput → PsbtInput) (p : PartiallySignedTransaction) : PartiallySignedTransaction :=
  {| ps_unsigned_tx := ps_unsigned_tx p; ps_inputs := alter f i (ps_inputs p) |}.
Definition add_partial_sig (pk : bytes) (sig : bytes * Z) (inp : PsbtInput) : PsbtInput :=
  {| pn_sighash_type := pn_sighash_type inp; pn_non_witness_utxo := pn_non_witness_utxo inp; pn_witness_utxo := pn_witness_utxo inp;
     pn_witness_script := pn_witness_script inp; pn_redeem_script := pn_redeem_script inp;
     pn_partial_sigs := <[pk := sig]> (pn_partial_sigs inp) |}.
Definition MultipartySigner_sign_input (proofs : gmap nat Proof_) (psbt : PartiallySignedTransaction) (input_index : nat) (hash_ty : Z) :
    RgResult PartiallySignedTransaction :=
  proof ← ok_or (proofs !! input_index) (error_info "No proof found");
  signature ← safe_get_msg (pf_signature proof) "Missing signature in proof";
  sig ← safe_bytes (sig_bytes signature);
  _ ← lib_check (signature_from_compact sig) IncorrectSignature "Decoded signature construction failure";
  pk ← safe_get_msg (pf_public_key proof) "Missing public key";
  public_key ← safe_bytes (pk_bytes pk);
  _ ← lib_check (btc_key_from_slice public_key) UnknownError "Public key failure";
  _ ← ok_or (ps_inputs psbt !! input_index) (error_info "No psbt found");
  Ok (psbt_alter_input input_index (add_partial_sig public_key (sig, hash_ty)) psbt).
(** The interface to bdk: an error of the signer is kept aside. *)
Definition InputSigner_sign_input (proofs : gmap nat Proof_) (psbt : PartiallySignedTransaction) (err : option ErrorInfo) (input_index : nat) :
    result SignerError PartiallySignedTransaction * option ErrorInfo :=
  match segwit_sighash psbt input_index with
  | Ok (_, sighash_type) =>
      match MultipartySigner_sign_input proofs psbt input_index sighash_type with
      | Ok p => (Ok p, err)
      | Err e => (Err UserCanceled, Some e)
      | Panic => (Panic, err)
      end
  | Err e => (Err e, err)
  | Panic => (Panic, err)
  end.
(** [Wallet::sign]: the signer for each input from [i] on, until one fails. *)
Fixpoint sign_inputs (proofs : gmap nat Proof_) (n i : nat) (psbt : PartiallySignedTransaction) (err : option ErrorInfo) :
    result SignerError unit * PartiallySignedTransaction * option ErrorInfo :=
  match n with
  | O => (Ok tt, psbt, err)
  | S n =>
      match InputSigner_sign_input proofs psbt err i with
      | (Ok psbt, err) => sign_inputs proofs n (S i) psbt err
      | (Err e, err) => (Err e, psbt, err)
      | (Panic, err) => (Panic, psbt, err)
      end
  end.

(** ** The wallet *)

Section operations.
Context (b : Bdk).

Definition sync : RgResult unit := lib_check (bdk_sync b) UnknownError "Error syncing BDK wallet".
(** [client] and [created]: whether the server is reached and the wallet is made. *)
Definition new_wallet (client created : option string) (public_key : PublicKey) (network : NetworkEnvironment) (do_sync : bool) :
    RgResult SingleKeyBitcoinWallet :=
  _ ← lib_check client UnknownError "Error building bdk client";
  _ ← lib_check created UnknownError "Error creating BDK wallet";
  _ ← (if do_sync then sync else Ok tt);
  Ok {| bw_public_key := public_key; bw_main := bool_decide (network = Main); bw_psbt := None; bw_transaction_details := None;
        bw_proofs := ∅; bw_err := None; bw_sent := [] |}.
Definition wallet_address (w : SingleKeyBitcoinWallet) : RgResult string :=
  pk ← safe_bytes (pk_bytes (bw_public_key w));
  _ ← lib_check (btc_key_from_slice pk) UnknownError "Unable to convert destination pk to bdk public key";
  lib_result (p2wpkh (bw_main w) pk) "Unable to convert destination pk to bdk address".
Definition get_wallet_balance : RgResult Z := _ ← sync; lib_result (bdk_confirmed b) "Error getting BDK wallet balance".

(** What the server knows of the output that an input spends. *)
Definition previous_output (i : OutPoint) : RgResult TxOut :=
  prev_tx ← lib_result (bdk_get_tx b (pt_txid i)) "Error getting tx";
  prev_tx ← safe_get_msg prev_tx "No tx found";
  safe_get_msg (bx_output prev_tx !! Z.to_nat (pt_vout i)) "Error getting output".
Definition outputs_convert (w : SingleKeyBitcoinWallet) (outs : list TxOut) : list (string * Z) :=
  omap (λ o, a ← address_from_script (bw_main w) (to_script_pubkey o); Some (a, to_value o)) outs.
Definition convert_tx_inputs_address (w : SingleKeyBitcoinWallet) (tx_ins : list OutPoint) : RgResult (list (string * Z)) :=
  os ← mapR previous_output tx_ins; Ok (outputs_convert w os).
Definition listed_transaction (w : SingleKeyBitcoinWallet) (x : TransactionDetails) : RgResult WalletTransaction :=
  tx ← safe_get_msg (td_transaction x) "Error getting transaction";
  inputs ← convert_tx_inputs_address w (bx_input tx);
  Ok {| wt_txid := td_txid x; wt_inputs := fst <$> inputs; wt_outputs := outputs_convert w (bx_output tx);
        wt_block_time := td_confirmation_time x |}.
(** The transactions that [get_all_tx] of Party.v describes. *)
Definition wallet_transactions (w : SingleKeyBitcoinWallet) : RgResult (string * list WalletTransaction) :=
  self_addr ← wallet_address w;
  result ← lib_result (bdk_list_transactions b) "Error listing transactions";
  listed ← mapR (listed_transaction w) result;
  Ok (self_addr, listed).
(** The older reading: the last amount to the wallet, the last other input. *)
Definition sourced_of (self_addr : string) (x : WalletTransaction) : option ExternalTimedTransaction :=
  let to_self := List.filter (λ o : string * Z, bool_decide (o.1 = self_addr)) (wt_outputs x) in
  let non_self := List.filter (λ o : string * Z, negb (bool_decide (o.1 = self_addr))) (wt_outputs x) in
  match wt_block_time x, last (List.filter (λ a, negb (bool_decide (a = self_addr))) (wt_inputs x)), snd <$> last to_self with
  | Some c, Some a, Some value =>
      Some {| et_tx_id := wt_txid x; et_timestamp := Some c; et_other_address := a; et_other_output_addresses := fst <$> non_self;
              et_amount := value; et_incoming := true; et_currency := SupportedCurrency_Bitcoin |}
  | _, _, _ => None
  end.
Definition get_sourced_tx (w : SingleKeyBitcoinWallet) : RgResult (list ExternalTimedTransaction) :=
  match wallet_transactions w with Ok l => Ok (omap (sourced_of l.1) l.2) | Err e => Err e | Panic => Panic end.

(** *** Making a transaction *)

Definition finish_with (recipients : list (bytes * Z)) : W unit :=
  r ← lift (lib_result (bdk_finish b recipients) "Builder TX issue");
  modify (bw_with_transaction (Some r.1) (Some r.2)).
Definition recipient (d : string * Z) : RgResult (bytes * Z) :=
  s ← lib_result (address_from_str d.1) "Unable to parse address"; Ok (s, d.2).
Definition create_transaction_output_batch (destinations : list (string * Z)) : W unit :=
  _ ← lift sync; rs ← lift (mapR recipient destinations); finish_with rs.
Definition create_transaction (destination : option PublicKey) (destination_str : option string) (amount : Z) : W unit :=
  addr ← gets (λ w : SingleKeyBitcoinWallet, match destination, destination_str with
    | Some d, _ =>
        pk ← safe_bytes (pk_bytes d);
        _ ← lib_check (btc_key_from_slice pk) UnknownError "Unable to convert destination pk to bdk public key";
        _ ← lib_result (p2wpkh (bw_main w) pk) "Unable to convert destination pk to bdk address";
        Ok (p2wpkh_script pk)
    | None, Some d => lib_result (address_from_str d) "Unable to parse address"
    | None, None => Err (error_info "No destination specified")
    end);
  addr ← lift addr;
  _ ← (a ← gets wallet_address; lift a);
  _ ← lift sync; finish_with [(addr, amount)].
Definition txid (w : SingleKeyBitcoinWallet) : RgResult string := safe_get_msg (bw_transaction_details w) "No psbt found".
Definition signable_hash_at (psbt : PartiallySignedTransaction) (i : nat) : RgResult (bytes * Z) :=
  match segwit_sighash psbt i with
  | Ok r => Ok r
  | Err e => Err (error_msg UnknownError "segwitv0_sighash extraction failure" (signer_error_string e))
  | Panic => Panic
  end.
Definition signable_hashes (w : SingleKeyBitcoinWallet) : RgResult (list (bytes * Z)) :=
  psbt ← safe_get_msg (bw_psbt w) "No psbt found"; mapR (signable_hash_at psbt) (seq 0 (length (ps_inputs psbt))).
Definition affix_input_signature (input_index : nat) (proof : Proof_) : W unit := modify (bw_with_proofs <[input_index := proof]>).
(** An error of bdk is replaced by the one the signer kept, which is unwrapped. *)
Definition wallet_sign : W bool := λ w,
  match bw_psbt w with
  | None => (Err (error_info "No psbt found"), w)
  | Some psbt =>
      let failed psbt' err := (expect_opt err ≫= Err, bw_with_err err (bw_with_transaction (Some psbt') (bw_transaction_details w) w)) in
      if bdk_refuses b psbt then failed psbt (bw_err w) else
      match sign_inputs (bw_proofs w) (length (ps_inputs psbt)) 0 psbt (bw_err w) with
      | (Ok _, psbt', err) =>
          match bdk_finalize b psbt' with
          | Some (finalized, psbt'') =>
              (Ok finalized, bw_with_err err (bw_with_transaction (Some psbt'') (bw_transaction_details w) w))
          | None => failed psbt' err
          end
      | (Err _, psbt', err) => failed psbt' err
      | (Panic, psbt', err) => (Panic, bw_with_err err (bw_with_transaction (Some psbt') (bw_transaction_details w) w))
      end
  end.
Definition broadcast_tx : W unit :=
  psbt ← gets bw_psbt; psbt ← lift (safe_get psbt);
  let transaction := bdk_extract_tx b psbt in
  _ ← lift (lib_check (bdk_broadcast b transaction) UnknownError "Error broadcasting transaction");
  modify (bw_send transaction).
Definition wallet_verify (w : SingleKeyBitcoinWallet) : RgResult unit :=
  _ ← safe_get (bw_psbt w); _ ← safe_get (bw_transaction_details w); Ok tt.

(** *** Signing with a key at hand *)

(** [raw_json] renders the transaction; [key_from_hex] parses a private key. *)
Context (raw_json : option PartiallySignedTransaction → option string → RgResult string) (key_from_hex : string → RgResult KeyPair).
Definition render_json (w : SingleKeyBitcoinWallet) : RgResult string := raw_json (bw_psbt w) (bw_transaction_details w).
Definition prepare_single (dest : string) (amount : f64) : W string :=
  let amount := f64_to_u64 (f64_div amount (f64_of_Z 100000000)) in
  _ ← create_transaction_output_batch [(dest, amount)]; r ← gets render_json; lift r.
Definition affix_own (kp : KeyPair) (ih : nat * (bytes * Z)) : W unit :=
  prf ← lift (from_keypair ih.2.1 kp); affix_input_signature ih.1 prf.
Definition sign_own (pkey_hex : string) : W unit :=
  kp ← lift (key_from_hex pkey_hex);
  signables ← gets signable_hashes; signables ← lift signables;
  _ ← iterM (affix_own kp) (imap pair signables);
  finalized ← wallet_sign;
  if negb finalized then lift (Err (error_info "Not finalized")) else mret tt.
Definition local_sign_single (pkey_hex : string) : W string :=
  _ ← sign_own pkey_hex; r ← gets render_json; lift r.
Definition prepare_single_sign (dest : string) (amount : f64) (pkey_hex : string) : W string :=
  _ ← prepare_single dest amount; local_sign_single pkey_hex.
Definition send_local (dest : string) (amount : Z) (pkey_hex : string) : W string :=
  _ ← create_transaction_output_batch [(dest, amount)];
  _ ← sign_own pkey_hex;
  _ ← broadcast_tx;
  t ← gets txid; lift t.
End operations.
End wallet.

(** * Properties *)

Section wallet_props.
Context {host : Host} {crypto : Crypto} {secp : Secp} {btc : Bitcoin}.

(** ** Signing *)

(** What is signed does not depend on the signatures. *)
Lemma sighash_stable p i pk sig j : segwit_sighash (psbt_alter_input i (add_partial_sig pk sig) p) j = segwit_sighash p j.
Proof.
unfold segwit_sighash, psbt_alter_input. cbn [ps_inputs ps_unsigned_tx].
destruct (decide (i = j)) as [->|Hij]; [rewrite list_lookup_alter_eq|by rewrite list_lookup_alter_ne].
by destruct (ps_inputs p !! j).
Qed.
Lemma sighash_length {blaws : BitcoinLaws} p i h ty : segwit_sighash p i = Ok (h, ty) → length h = 32%nat.
Proof.
unfold segwit_sighash. intros Hx. repeat case_match; try done. repeat (apply bind_Ok in Hx as (? & _ & Hx)). case_match; simplify_eq.
by eapply segwit_signature_hash_length.
Qed.
(** Input [i] of [p1] carries the signature of [proof], of the type that [p0] asks for. *)
Definition carries_proof (p0 p1 : PartiallySignedTransaction) (i : nat) (proof : Proof_) : Prop :=
  ∃ s sig k pk h ty inp, pf_signature proof = Some s ∧ safe_bytes (sig_bytes s) = Ok sig ∧
    pf_public_key proof = Some k ∧ safe_bytes (pk_bytes k) = Ok pk ∧ segwit_sighash p0 i = Ok (h, ty) ∧
    ps_inputs p1 !! i = Some inp ∧ pn_partial_sigs inp !! pk = Some (sig, ty).
Lemma signer_Ok proofs p err i p' err' : InputSigner_sign_input proofs p err i = (Ok p', err') →
  ∃ proof pk sg, proofs !! i = Some proof ∧ p' = psbt_alter_input i (add_partial_sig pk sg) p ∧ err' = err ∧ carries_proof p p' i proof.
Proof.
unfold InputSigner_sign_input. destruct (segwit_sighash p i) as [[h ty]| |] eqn:Hs; [|done..].
destruct (MultipartySigner_sign_input proofs p i ty) as [p1| |] eqn:Hm; [|done..]. intros [= <- <-].
unfold MultipartySigner_sign_input in Hm. apply bind_Ok in Hm as (proof & Hp%ok_or_Ok & Hm).
apply bind_Ok in Hm as (s & Hs1%ok_or_Ok & Hm). apply bind_Ok in Hm as (sig & Hsig & Hm). apply bind_Ok in Hm as ([] & _ & Hm).
apply bind_Ok in Hm as (k & Hk%ok_or_Ok & Hm). apply bind_Ok in Hm as (pk & Hpk & Hm). apply bind_Ok in Hm as ([] & _ & Hm).
apply bind_Ok in Hm as (inp & Hi%ok_or_Ok & [= <-]). exists proof, pk, (sig, ty). split_and!; try done.
exists s, sig, k, pk, h, ty, (add_partial_sig pk (sig, ty) inp). split_and!; try done.
- cbn. by rewrite list_lookup_alter_eq, Hi.
- cbn. apply lookup_insert_eq.
Qed.
Lemma sign_inputs_Ok proofs n : ∀ i p err p' err', sign_inputs proofs n i p err = (Ok tt, p', err') →
  ps_unsigned_tx p' = ps_unsigned_tx p ∧ length (ps_inputs p') = length (ps_inputs p) ∧ err' = err ∧
  (∀ j, segwit_sighash p' j = segwit_sighash p j) ∧
  (∀ j, (j < i)%nat → ps_inputs p' !! j = ps_inputs p !! j) ∧
  (∀ j, (i ≤ j < i + n)%nat → ∃ proof, proofs !! j = Some proof ∧ carries_proof p p' j proof).
Proof.
induction n as [|n IH]; intros i p err p' err'; cbn [sign_inputs].
{ intros [= <- <-]. split_and!; try done. intros j Hj. lia. }
destruct (InputSigner_sign_input proofs p err i) as [[p1| |] err1] eqn:E; [|done..].
apply signer_Ok in E as (proof & pk & sg & Hp & -> & -> & Hc). intros H. apply IH in H as (Hu & Hl & -> & Hs & Hlow & Hhigh).
split_and!; [done| |done| | |].
- rewrite Hl. apply length_alter.
- intros j. by rewrite Hs, sighash_stable.
- intros j Hj. rewrite Hlow by lia. cbn. apply list_lookup_alter_ne. lia.
- intros j Hj. destruct (decide (j = i)) as [->|Hne].
  + exists proof. split; [done|]. destruct Hc as (s & sig & k & pk' & h & ty & inp & ? & ? & ? & ? & ? & Hi & ?).
    exists s, sig, k, pk', h, ty, inp. split_and!; try done. by rewrite Hlow by lia.
  + destruct (Hhigh j) as (proof' & ? & (s & sig & k & pk' & h & ty & inp & ? & ? & ? & ? & Hsig & ? & ?)); [lia|].
    exists proof'. split; [done|]. exists s, sig, k, pk', h, ty, inp. split_and!; try done. by rewrite sighash_stable in Hsig.
Qed.

Section operations.
Context (b : Bdk).

(** A transaction that is sent: made by the library for the recipients [rs], each of
    its inputs signed, finalised with the answer [f]; [signs h proof] is what is known
    of the proof that signs the hash [h]. *)
Definition sent_signed (signs : bytes → Proof_ → Prop) (rs : list (bytes * Z)) (f : bool) (id : string) (tx : BtcTx) : Prop :=
  ∃ p0 p1 p2, bdk_finish b rs = inr (p0, id) ∧ ps_unsigned_tx p1 = ps_unsigned_tx p0 ∧
    (∀ i, (i < length (ps_inputs p0))%nat → ∃ h ty proof, segwit_sighash p0 i = Ok (h, ty) ∧ signs h proof ∧ carries_proof p0 p1 i proof) ∧
    bdk_finalize b p1 = Some (f, p2) ∧ tx = bdk_extract_tx b p2.

Lemma signable_hashes_Ok w p hs : bw_psbt w = Some p → signable_hashes w = Ok hs →
  length hs = length (ps_inputs p) ∧ ∀ i x, hs !! i = Some x → segwit_sighash p i = Ok x.
Proof.
intros Hp. unfold signable_hashes. rewrite Hp. rg_step. intros H%mapR_Ok. split.
- apply Forall2_length in H. by rewrite length_seq in H.
- intros i x Hi. destruct (Forall2_lookup_r _ _ _ _ _ H Hi) as (j & Hj & Hs). apply lookup_seq in Hj as [-> _].
  unfold signable_hash_at in Hs. cbn in Hs. by destruct (segwit_sighash p i); simplify_eq.
Qed.
Lemma wallet_sign_Ok w f w' : wallet_sign b w = (Ok f, w') →
  ∃ p0 p1 p2, bw_psbt w = Some p0 ∧ ps_unsigned_tx p1 = ps_unsigned_tx p0 ∧
    (∀ i, (i < length (ps_inputs p0))%nat → ∃ proof, bw_proofs w !! i = Some proof ∧ carries_proof p0 p1 i proof) ∧
    bdk_finalize b p1 = Some (f, p2) ∧ w' = bw_with_transaction (Some p2) (bw_transaction_details w) w.
Proof.
unfold wallet_sign. destruct (bw_psbt w) as [p0|] eqn:Hp; [|done].
assert (∀ err, expect_opt err ≫= (Err : ErrorInfo → RgResult bool) ≠ Ok f) as Hno by (intros [e|]; done).
destruct (bdk_refuses b p0); [intros [= H _]; by apply Hno in H|].
destruct (sign_inputs _ _ _ _ _) as [[[[]| |] p1] err] eqn:Hs; [|intros [= H _]; by apply Hno in H|done].
destruct (bdk_finalize b p1) as [[f' p2]|] eqn:Hf; [|intros [= H _]; by apply Hno in H]. intros [= -> <-].
apply sign_inputs_Ok in Hs as (Hu & _ & -> & _ & _ & Hall). exists p0, p1, p2. split_and!; try done.
- intros i Hi. apply Hall. lia.
Qed.

(** The proofs of the hashes of a transaction, put on its inputs in their order. *)
Lemma affix_own_all kp hs : ∀ o w w', iterM (affix_own kp) (imap (λ k x, ((o + k)%nat, x)) hs) w = (Ok tt, w') →
  ∃ f, w' = bw_with_proofs f w ∧ (∀ j, (j < o)%nat → ∀ m, f m !! j = m !! j) ∧
    ∀ j x, hs !! j = Some x → ∃ prf, from_keypair x.1 kp = Ok prf ∧ ∀ m, f m !! (o + j)%nat = Some prf.
Proof.
induction hs as [|x hs IH]; intros o w w'.
{ intros [= <-]. exists id. split_and!; [by destruct w|done|done]. }
cbn [imap]. rewrite iterM_cons_Ok. intros (w1 & H1 & H). unfold affix_own, affix_input_signature in H1. cbn [fst snd] in H1.
apply M_bind_Ok in H1 as (prf & ? & [Hf ->]%lift_Ok & H1). apply modify_Ok in H1 as ->.
replace (imap ((λ k x, ((o + k)%nat, x)) ∘ S) hs) with (imap (λ k x, ((S o + k)%nat, x)) hs) in H
  by (apply imap_ext; intros; cbn; f_equal; lia).
apply IH in H as (f & -> & Hlow & Hall). exists (λ m, f (<[(o + 0)%nat := prf]> m)). split_and!; [by destruct w| |].
- intros j Hj m. rewrite Hlow by lia. apply lookup_insert_ne. lia.
- intros [|j] y; cbn; [intros [= <-]|intros Hy].
  + exists prf. split; [done|]. intros m. rewrite Hlow by lia. apply lookup_insert_eq.
  + destruct (Hall _ _ Hy) as (p & ? & Hp). exists p. split; [done|]. intros m. replace (o + S j)%nat with (S o + j)%nat by lia. apply Hp.
Qed.

Lemma create_batch_Ok ds w w' : create_transaction_output_batch b ds w = (Ok tt, w') →
  ∃ rs p id, mapR recipient ds = Ok rs ∧ bdk_finish b rs = inr (p, id) ∧ w' = bw_with_transaction (Some p) (Some id) w.
Proof.
unfold create_transaction_output_batch, finish_with. intros H. apply M_bind_Ok in H as ([] & ? & [_ ->]%lift_Ok & H).
apply M_bind_Ok in H as (rs & ? & [Hr ->]%lift_Ok & H). apply M_bind_Ok in H as ([p id] & ? & [Hf ->]%lift_Ok & H).
apply modify_Ok in H as ->. exists rs, p, id. split_and!; try done. unfold lib_result in Hf. by destruct (bdk_finish b rs); simplify_eq.
Qed.
Lemma broadcast_tx_Ok w w' : broadcast_tx b w = (Ok tt, w') → ∃ p, bw_psbt w = Some p ∧ w' = bw_send (bdk_extract_tx b p) w.
Proof.
unfold broadcast_tx. intros H. apply M_bind_Ok in H as (o & ? & [-> ->]%gets_Ok & H).
apply M_bind_Ok in H as (p & ? & [Hp%ok_or_Ok ->]%lift_Ok & H). apply M_bind_Ok in H as ([] & ? & [_ ->]%lift_Ok & H).
apply modify_Ok in H as ->. by exists p.
Qed.
End operations.

(** C22: A payment with a key at hand is complete: when it is reported as sent, one
    transaction was put on the network, the one that the library made for exactly the
    requested recipient; every input of it carries a signature by that key which
    verifies for what has to be signed there, and the library found it final. *)
Theorem send_local_signed {slaws : SecpLaws} {blaws : BitcoinLaws} b key_from_hex dest amount pkey_hex kp w id w' :
  key_from_hex pkey_hex = Ok kp → kp_matches kp → send_local b key_from_hex dest amount pkey_hex w = (Ok id, w') →
  ∃ script tx, address_from_str dest = inr script ∧ bw_sent w' = bw_sent w ++ [tx] ∧
    sent_signed b (λ h proof, pf_public_key proof = Some (KeyPair_public_key kp) ∧ Proof_verify proof (Hash_new h) = Ok tt)
      [(script, amount)] true id tx.
Proof.
intros Hkey Hkp H. unfold send_local, sign_own in H. apply M_bind_Ok in H as ([] & w1 & Hc & H).
apply create_batch_Ok in Hc as (rs & p & id' & Hr & Hfin & ->). apply M_bind_Ok in H as ([] & w5 & Hs & H).
apply M_bind_Ok in Hs as (kp' & ? & [Hkp' ->]%lift_Ok & Hs). rewrite Hkey in Hkp'. injection Hkp' as <-.
apply M_bind_Ok in Hs as (shs & ? & [-> ->]%gets_Ok & Hs). apply M_bind_Ok in Hs as (hs & ? & [Hhs ->]%lift_Ok & Hs).
apply M_bind_Ok in Hs as ([] & w3 & Ha & Hs). apply (affix_own_all kp hs 0) in Ha as (f & -> & _ & Hall).
apply M_bind_Ok in Hs as (fin & w4 & Hsg & Hs). apply wallet_sign_Ok in Hsg as (p0 & p1 & p2 & Hp0 & Hu & Hc & Hf & ->).
destruct fin; [|by apply lift_Ok in Hs as [? _]]. apply mret_Ok in Hs as [_ ->]. cbn in Hp0. injection Hp0 as <-.
apply M_bind_Ok in H as ([] & w6 & Hb & H). apply broadcast_tx_Ok in Hb as (p3 & Hp3 & ->). cbn in Hp3. injection Hp3 as <-.
apply M_bind_Ok in H as (t & ? & [-> ->]%gets_Ok & H). apply lift_Ok in H as [Hid ->]. cbn in Hid. injection Hid as ->.
apply mapR_Ok, Forall2_cons_inv_l in Hr as (r & l & Hr & Hnil & ->). apply Forall2_nil_inv_l in Hnil as ->.
unfold recipient in Hr. apply bind_Ok in Hr as (script & Ha & [= <-]). exists script, (bdk_extract_tx b p2). split_and!; [|done|].
{ unfold lib_result in Ha. cbn in Ha. by destruct (address_from_str dest); simplify_eq. }
exists p, p1, p2. split_and!; try done. intros i Hi.
destruct (signable_hashes_Ok (bw_with_transaction (Some p) (Some id) w) p hs eq_refl Hhs) as [Hl Hhash].
destruct (lookup_lt_is_Some_2 hs i) as [[h ty] Hx]; [lia|]. destruct (Hc i Hi) as (proof & Hp & Hcp).
destruct (Hall _ _ Hx) as (prf & Hprf & Hm). specialize (Hm (bw_proofs w)). cbn in Hp, Hm. rewrite Hm in Hp. injection Hp as <-.
exists h, ty, prf. split_and!; [by apply Hhash| | |done].
- unfold from_keypair in Hprf. unfold Proof_new in Hprf. by apply bind_Ok in Hprf as (? & _ & [= <-]).
- assert (is_digest (Hash_new h)) as Hd.
  { eexists. split; [done|]. cbn. by eapply sighash_length, Hhash. }
  destruct (from_keypair_hash_verifies (Hash_new h) kp Hd Hkp) as (q & Hq & _ & Hv).
  unfold from_keypair_hash in Hq. unfold from_keypair in Hprf. cbn in Hprf. congruence.
Qed.

(** An amount below a hundred million bitcoins is turned into no satoshi at all when a
    transaction is prepared for signing elsewhere. *)
Lemma prepare_single_pays_nothing b raw_json dest amount w : f64_to_u64 (f64_div amount (f64_of_Z 100000000)) = 0 →
  prepare_single b raw_json dest amount w = (_ ← create_transaction_output_batch b [(dest, 0)]; r ← gets (render_json raw_json); lift r) w.
Proof. intros H. unfold prepare_single. by rewrite H. Qed.
End wallet_props.

(** * Examples *)

Module WalletDemo.
#[local] Existing Instance toy_host.
#[local] Existing Instance toy_crypto.
#[local] Existing Instance toy_secp.

(** Every script spends to a key; the number of the input goes into what is signed. *)
Definition toy_bitcoin : Bitcoin := {|
  bx_txid := λ _, "previous"; EcdsaSighashType_All := 1; ecdsa_hash_ty := Some; is_v0_p2wpkh := λ _, true;
  push_opcode := λ o s, s ++ [u8_of_Z o]; push_slice := λ d s, s ++ d;
  OP_DUP := 118; OP_HASH160 := 169; OP_EQUALVERIFY := 136; OP_CHECKSIG := 172;
  segwit_signature_hash := λ _ i script _ _, Some (toy_digest 32 (u8_of_Z (Z.of_nat i) :: script));
  address_from_str := λ s, inr (String.list_byte_of_string s); p2wpkh_script := λ pk, pk;
  address_from_script := λ _ s, Some (String.string_of_list_byte s); signer_error_string := λ _, "" |}.
#[local] Existing Instance toy_bitcoin.
Lemma toy_bitcoin_laws : BitcoinLaws.
Proof. intros tx i script value ty h [= <-]. reflexivity. Qed.

(** Two inputs worth ten each, spent to the recipients. *)
Definition coin : TxOut := {| to_value := 10; to_script_pubkey := replicate 22 Byte.x01 |}.
Definition unsigned_input : PsbtInput :=
  {| pn_sighash_type := None; pn_non_witness_utxo := Some {| bx_input := []; bx_output := [coin] |}; pn_witness_utxo := None;
     pn_witness_script := None; pn_redeem_script := None; pn_partial_sigs := ∅ |}.
Definition made (rs : list (bytes * Z)) : PartiallySignedTransaction :=
  {| ps_unsigned_tx := {| bx_input := replicate 2 {| pt_txid := "previous"; pt_vout := 0 |};
                          bx_output := (λ r : bytes * Z, {| to_value := r.2; to_script_pubkey := r.1 |}) <$> rs |};
     ps_inputs := replicate 2 unsigned_input |}.
Definition online : Bdk := {|
  bdk_sync := None; bdk_confirmed := inr 20; bdk_list_transactions := inr []; bdk_get_tx := λ _, inr None;
  bdk_finish := λ rs, inr (made rs, "payment"); bdk_refuses := λ _, false;
  bdk_finalize := λ p, Some (forallb (λ i, negb (bool_decide (map_to_list (pn_partial_sigs i) = []))) (ps_inputs p), p);
  bdk_extract_tx := ps_unsigned_tx; bdk_broadcast := λ _, None |}.
Definition own : SingleKeyBitcoinWallet :=
  {| bw_public_key := KeyPair_public_key demo_kp; bw_main := false; bw_psbt := None; bw_transaction_details := None;
     bw_proofs := ∅; bw_err := None; bw_sent := [] |}.
Definition sending : RgResult string * SingleKeyBitcoinWallet := send_local online (λ _, Ok demo_kp) "somebody" 15 "key" own.

Lemma send_local_signed_witness :
  sending.1 = Ok "payment" ∧
  ∃ tx, bw_sent sending.2 = [tx] ∧ sent_signed online (λ h proof, pf_public_key proof = Some (KeyPair_public_key demo_kp) ∧
    Proof_verify proof (Hash_new h) = Ok tt) [(String.list_byte_of_string "somebody", 15)] true "payment" tx.
Proof.
destruct sending as [r w] eqn:E. assert (r = Ok "payment") as ->.
{ apply (f_equal fst) in E. vm_compute in E. by rewrite <- E. }
split; [done|].
destruct (send_local_signed (slaws := toy_secp_laws) (blaws := toy_bitcoin_laws) online (λ _, Ok demo_kp) "somebody" 15 "key" demo_kp own "payment" w)
  as (script & tx & Hsc & Hs & Ht).
- exact eq_refl.
- exact eq_refl.
- exact E.
- exists tx. split; [exact Hs|]. unfold address_from_str, toy_bitcoin in Hsc.
  injection Hsc as <-. exact Ht.
Defined.

(** Half a bitcoin. *)
Lemma prepared_amount : f64_to_u64 (f64_div (f64_dec 5 1) (f64_of_Z 100000000)) = 0.
Proof. vm_compute. reflexivity. Qed.
End WalletDemo.
