(* ===== verification/Watcher.v ===== *)
(** * The deposit watcher

    src/multiparty/watcher.rs: once a minute or so the watcher looks at the multiparty
    key of the node.  Without a key it generates one with the seeds and tries it out;
    with a key it replays the events of its address (Party.v), pays what is due on
    both networks, signed by the parties (Multiparty.v, Wallet.v), and stores the
    curve.  Its state is kept as JSON in the configuration store (Config.v).

    Next to it what src/core/relay.rs does to the node's own metadata, and
    [genesis_from] of src/node.rs, from which the first funds come.

    The price source, the Bitcoin server and what the node's own transactions are
    answered with are parameters of a turn ([TurnEnv]). *)

From stdpp Require Import base list strings gmap pretty.
From S2P Require Import Prelude Structs Interfaces F64 Schema Merkle Transaction Keys Builder Store Contract Mempool Market Party Wire Download Peers Config Sync Handler Genesis Rooms Outgoing Multiparty Search Faucet Wallet.
#[local] Open Scope Z_scope.
#[local] Open Scope redgold_scope.

(** ** Data *)

Record WithdrawalBitcoin := { wb_outputs : list (string * Z); wb_updated_bidask : BidAsk; wb_used_tx : list Transaction }.
(** A configuration in which numbers that are not finite were written as null. *)
Record PriceVolumeBroken := { pvb_price : option f64; pvb_volume : option Z }.
Record BidAskBroken := { bab_bids : list PriceVolumeBroken; bab_asks : list PriceVolumeBroken; bab_center_price : f64 }.
Record DepositWatcherConfigBroken := {
  dwb_deposit_allocations : list DepositKeyAllocation; dwb_bid_ask : BidAskBroken; dwb_last_btc_timestamp : Z;
  dwb_ask_bid_code_reset : option bool }.
Record Watcher := { wa_mp : MpNode; wa_wallet : list SingleKeyBitcoinWallet }.

(** What a turn finds outside: the Bitcoin wallet library and server, other nodes, the
    clock and the random salt, the price of a bitcoin in dollars, and the answers to
    submitted transactions. *)
Record TurnEnv := {
  te_bdk : Bdk; te_client : option string; te_created : option string; te_http : string → bytes → option HttpOutcome;
  te_now : Z; te_salt : Z; te_usd_btc : RgResult f64;
  te_await_reply : Transaction → RgResult (Response (option SubmitTransactionResponse)) }.

(** Calls that may not return: [Ok None]. *)
Definition bindO {S A B} (m : M S ErrorInfo (option A)) (f : A → M S ErrorInfo (option B)) : M S ErrorInfo (option B) :=
  x ← m; match (x : option A) with Some a => f a | None => mret None end.
Notation "x ⇐ m ; f" := (bindO m (λ x, f)) (at level 20, m at level 100, f at level 200, right associativity) : redgold_scope.
(** [.log_error().ok()]: an error is dropped. *)
Definition logged {S A} (m : M S ErrorInfo (option A)) : M S ErrorInfo (option (option A)) := λ s,
  match m s with
  | (Ok (Some a), s') => (Ok (Some (Some a)), s')
  | (Ok None, s') => (Ok None, s')
  | (Err _, s') => (Ok (Some None), s')
  | (Panic, s') => (Panic, s')
  end.
Definition returning {S A} (m : M S ErrorInfo A) : M S ErrorInfo (option A) := a ← m; mret (Some a).

Definition config_key : string := "deposit_watcher_config".

Section watcher.
Context {host : Host} {crypto : Crypto} {secp : Secp} {rec : Recover} {sql : Sql} {libm : Libm} {btc : Bitcoin}.
Context {ptx : Proto Transaction} {pdm : Proto DynamicNodeMetadata} {pue : Proto UtxoEntry} {pei : Proto ErrorInfo}.
Context {pop : Proto ObservationProof} {pom : Proto ObservationMetadata}.
Context {prq : Proto (Request RequestBody)} {prs : Proto (Response ResponseBody)}.
Context {pik : Proto InitiateMultipartyKeygenRequest} {pis : Proto InitiateMultipartySigningRequest} {ppf : Proto Proof_}.
Context {jrq : Json (Request RequestBody)} {jrs : Json (Response ResponseBody)} {jpk : Json (option PublicKey)}.
Context {jnm : Json NodeMetadata}.
Context {jcfg : JsonCodec DepositWatcherConfig} {jbroken : JsonCodec DepositWatcherConfigBroken}.
Context (kp : KeyPair) (peer_tx_fixed : Transaction) (node_tx_fixed : option NodeMetadata → Transaction).
Context (network : NetworkEnvironment) (port_offset : Z) (seeds : list Seed).
Context (default_public_key : RgResult PublicKey) (keypair_at_change : Z → RgResult KeyPair).
Context (new_v4 : nat → string) (url_parse : string → option string) (unexpected_null : string).
Context (run_keygen : string → string → Z → Z → Z → option (string + string)).
Context (run_signing : string → string → string → list Z → bytes → option (string + SignatureRecid)).

Notation H := (M NodeState ErrorInfo).
Notation W := (M Watcher ErrorInfo).
Notation seed_keys := (omap sd_public_key seeds).

Definition on_party {A} (m : M MpNode ErrorInfo A) : W A := λ s,
  let '(r, n) := m (wa_mp s) in (r, {| wa_mp := n; wa_wallet := wa_wallet s |}).
Definition on_own_node {A} (m : H A) : W A := on_party (Multiparty.on_node m).
(** The wallet at 0; the callers have seen that there is one. *)
Definition on_wallet {A} (m : M SingleKeyBitcoinWallet ErrorInfo A) : W A := λ s,
  match wa_wallet s with
  | w :: ws => let '(r, w) := m w in (r, {| wa_mp := wa_mp s; wa_wallet := w :: ws |})
  | [] => (Panic, s)
  end.
Definition wa_node (s : Watcher) : NodeState := mn_node (wa_mp s).
Definition wa_config (s : Watcher) : ConfigDb := sy_config (ns_sync (wa_node s)).

Section turn.
Context (e : TurnEnv).

(** ** The node's own metadata (src/core/relay.rs) *)

Notation own_metadata := (relay_node_metadata kp peer_tx_fixed node_tx_fixed).
Definition update_dynamic_node_metadata (d : DynamicNodeMetadata) : H unit := on_config (set_dynamic_md d).
Definition updated_node_tx (tx : Transaction) (node_metadata : NodeMetadata) : RgResult Transaction :=
  utxo ← head_utxo tx;
  h ← UtxoEntry_height utxo;
  address ← PublicKey_address (KeyPair_public_key kp);
  tx_b ← with_maybe_currency_utxo utxo (TransactionBuilder_new network (te_salt e) (te_now e));
  r ← build (with_output_node_metadata address node_metadata (i64_add h 1) tx_b);
  Ok r.1.
Definition update_node_metadata (node_metadata : NodeMetadata) : H unit :=
  tx ← node_tx kp peer_tx_fixed node_tx_fixed;
  updated ← lift (updated_node_tx tx node_metadata);
  on_config (set_node_tx updated).
(** The build that runs is written into the metadata, where it has a version. *)
Definition vi_with_build (vii vi : VersionInfo) : VersionInfo :=
  {| vi_executable_checksum := vi_executable_checksum vii; vi_commit_hash := vi_commit_hash vii;
     vi_next_executable_checksum := vi_next_executable_checksum vi; vi_next_upgrade_time := vi_next_upgrade_time vi;
     vi_build_number := vi_build_number vii |}.
Definition update_nmd_auto (vii : VersionInfo) : H unit :=
  n ← own_metadata;
  update_node_metadata {| nm_transport_info := nm_transport_info n; nm_public_key := nm_public_key n; nm_node_type := nm_node_type n;
     nm_version_info := vi_with_build vii <$> nm_version_info n; nm_partition_info := nm_partition_info n; nm_node_name := nm_node_name n;
     nm_peer_id := nm_peer_id n; nm_parties := nm_parties n |}.
Definition nm_with_parties (ps : list PartyId) (n : NodeMetadata) : NodeMetadata :=
  {| nm_transport_info := nm_transport_info n; nm_public_key := nm_public_key n; nm_node_type := nm_node_type n;
     nm_version_info := nm_version_info n; nm_partition_info := nm_partition_info n; nm_node_name := nm_node_name n;
     nm_peer_id := nm_peer_id n; nm_parties := ps |}.
Definition add_party_id (d : PartyId) : H unit :=
  nmd ← own_metadata;
  if existsb (λ d2, bool_decide (pty_public_key d2 = pty_public_key d)) (nm_parties nmd) then mret tt
  else update_node_metadata (nm_with_parties (nm_parties nmd ++ [d]) nmd).

(** ** The first funds (src/node.rs) *)

Fixpoint find_output (address : Address) (outputs : list UtxoEntry) : RgResult (option UtxoEntry) :=
  match outputs with
  | [] => Ok None
  | o :: os => a ← expect (UtxoEntry_address o); if bool_decide (address = a) then Ok (Some o) else find_output address os
  end.
Definition genesis_spendable (outputs : list UtxoEntry) (i : Z) : RgResult SpendableUTXO :=
  kp ← expect (keypair_at_change i);
  address ← address_typed kp;
  o ← find_output address outputs;
  o ← expect_opt o;
  Ok {| su_utxo_entry := o; su_key_pair := kp |}.
Definition genesis_from : RgResult (Transaction * list SpendableUTXO) :=
  tx ← genesis_transaction (te_salt e) (te_now e) network default_public_key (λ i, k ← keypair_at_change i; Ok (KeyPair_public_key k)) seeds;
  outputs ← expect (utxo_outputs tx);
  res ← mapR (genesis_spendable outputs) (seqZ 0 50);
  Ok (tx, res).
Definition stake_range (lower upper : option f64) : RgResult LiquidityRange :=
  lo ← (match lower with Some l => a ← expect (from_fractional l); Ok (Some a) | None => Ok None end);
  hi ← (match upper with Some u => a ← expect (from_fractional u); Ok (Some a) | None => Ok None end);
  Ok {| lra_min_inclusive := lo; lra_max_exclusive := hi; lra_disable_dynamic_fee := false; lra_desired_fee_fraction := None;
        lra_allocation_fraction := None |}.
Definition liquidity_data (lq : LiquidityRequest) : StandardData :=
  {| d_amount := None; d_generic_typed_value := None; d_peer_data := None; d_node_metadata := None; d_dynamic_node_metadata := None;
     d_height := None; d_data_hash := None; d_hash := None; d_observation := None; d_address := None; d_state := None;
     d_request := None; d_standard_request := None; d_liquidity_request := Some lq; d_portfolio_info := None; d_schema_def := None;
     d_data := None; d_aggregate_state_hash := None; d_external_transaction_id := None |}.
Definition with_stake_usd_bounds (lower upper : option f64) (address : Address) (b : TransactionBuilder) : RgResult TransactionBuilder :=
  lr ← stake_range lower upper;
  let lq := {| lr_deposit := Some {| ld_liquidity_ranges := [lr] |}; lr_withdrawal := None |} in
  Ok (push_output (addressed_output address (Some (liquidity_data lq))) b).
Definition funding_transaction (u : SpendableUTXO) (a destination : Address) : RgResult Transaction :=
  b ← with_utxo (su_utxo_entry u) (TransactionBuilder_new network (te_salt e) (te_now e));
  amount ← UtxoEntry_amount (su_utxo_entry u);
  b ← with_stake_usd_bounds (Some (f64_of_Z 100)) (Some (f64_of_Z 1000)) a
        (with_output destination (CurrencyAmount_from (as_i64 amount)) b);
  r ← build b;
  sign (su_key_pair u) r.1.
Definition genesis_funding (destination : Address) : H unit :=
  g ← lift genesis_from;
  u ← lift (safe_get_msg (g.2 !! 14%nat) "Missing utxo");
  a ← lift (address_typed (su_key_pair u));
  _ ← lift (render_string a);
  id ← lift (UtxoEntry_utxo_id (su_utxo_entry u));
  h ← lift (expect_opt (u_transaction_hash id));
  res ← gets (λ s, query_utxo_id_valid (ns_store s) h (u_output_index id)); res ← lift res;
  if (res : bool) then
    tx ← lift (funding_transaction u a destination);
    _ ← submit_transaction (te_await_reply e) {| sbr_transaction := Some tx; sbr_sync_query_response := true |}; mret tt
  else mret tt.

(** ** Payouts *)

Notation keysign := (initiate_mp_keysign kp peer_tx_fixed node_tx_fixed network port_offset (te_now e) (te_http e) new_v4 url_parse run_signing).
Notation keygen_with := (initiate_mp_keygen kp peer_tx_fixed node_tx_fixed network port_offset (te_now e) (te_http e) new_v4 url_parse run_keygen).

Definition build_rdg_ask_swap_tx (o : OrderFulfillment) (utxos : list UtxoEntry) : RgResult Transaction :=
  tb ← with_utxos utxos (TransactionBuilder_new network (te_salt e) (te_now e));
  let tb := with_output (of_destination o) (fulfilled_currency_amount o) tb in
  id ← safe_get_msg (of_tx_id_ref o) "Missing tx_id";
  r ← build (with_last_output_deposit_swap_fulfillment (ext_identifier id) tb);
  Ok r.1.
Definition send_ask_fulfillment_transaction (tx : Transaction) (identifier : MultipartyIdentifier) : W (option SubmitTransactionResponse) :=
  bytes ← lift (safe_get (h_bytes (signable_hash tx)));
  result ⇐ on_party (keysign identifier bytes (mi_party_keys identifier) None);
  returning (on_own_node (submit_transaction (te_await_reply e)
    {| sbr_transaction := Some (add_proof_per_input (ssr_proof result) tx); sbr_sync_query_response := true |})).
(** The hashes from input [i] on are signed and the proofs affixed. *)
Fixpoint sign_hashes (identifier : MultipartyIdentifier) (i : nat) (hashes : list (bytes * Z)) : W (option unit) :=
  match hashes with
  | [] => mret (Some tt)
  | (hash, _) :: hashes =>
      result ⇐ on_party (keysign identifier (BytesData_from hash) (mi_party_keys identifier) None);
      _ ← on_wallet (affix_input_signature i (ssr_proof result));
      sign_hashes identifier (S i) hashes
  end.
(** Whether the transaction is final is not looked at before it is sent. *)
Definition fulfill_btc_bids (identifier : MultipartyIdentifier) (outputs : list (string * Z)) : W (option string) :=
  _ ← on_wallet (create_transaction_output_batch (te_bdk e) outputs);
  hashes ← on_wallet (h ← gets signable_hashes; lift h);
  _ ⇐ sign_hashes identifier 0 hashes;
  _ ← on_wallet (wallet_sign (te_bdk e));
  _ ← on_wallet (broadcast_tx (te_bdk e));
  returning (on_wallet (t ← gets txid; lift t)).
(** The older reading of withdrawals, from a table of those that were paid. *)
Definition withdrawal_destination (t : Transaction) (key_address : Address) : option string :=
  match (a ← output_bitcoin_address_of t key_address; ok_opt (render_string a)) with
  | Some a => Some a
  | None => pk ← first_input_proof_public_key t; ok_opt (to_bitcoin_address pk network)
  end.
Definition update_withdrawal_datastore (withdrawals : WithdrawalBitcoin) (txid : string) (key_address : Address) : M MpDb ErrorInfo unit :=
  iterM (λ t,
    source_address ← lift (safe_get_msg (first_input_address t) "Missing address");
    destination ← lift (safe_get_msg (withdrawal_destination t key_address) "Missing destination address");
    let dest := Address_from_bitcoin destination in
    h ← lift (Hash_safe_bytes (hash_or t));
    sec ← lift (from_hex txid);
    time ← lift (metadata_time t);
    insert_bridge_tx h sec true SupportedCurrency_Bitcoin source_address dest time (output_swap_amount_of t key_address))
    (wb_used_tx withdrawals).
Definition withdraw_one (d : MpDb) (key_address : Address) (min_ask : f64) (w : WithdrawalBitcoin) (t : Transaction) : RgResult WithdrawalBitcoin :=
  h ← Hash_safe_bytes (hash_or t);
  if check_bridge_txid_used d h then Ok w else
  let amount_rdg := output_swap_amount_of t key_address in
  destination ← safe_get_msg (withdrawal_destination t key_address) "Missing destination address";
  if negb (0 <? amount_rdg) then Ok w else
  time ← metadata_time t;
  match fulfill_taker_order (wb_updated_bidask w) (as_u64 amount_rdg) false time None (Address_from_bitcoin destination) with
  | None => Ok w
  | Some f =>
      ba ← (if volume_empty (wb_updated_bidask w) then regenerate (wb_updated_bidask w) (f64_mul (fulfillment_price f) (f64_dec 98 2)) min_ask
            else Ok (wb_updated_bidask w));
      Ok {| wb_outputs := wb_outputs w ++ [(destination, of_fulfilled_amount f)]; wb_updated_bidask := ba; wb_used_tx := wb_used_tx w ++ [t] |}
  end.
Definition get_rdg_withdrawals_bids (s : Store) (d : MpDb) (bid_ask : BidAsk) (key_address : Address) (min_ask : f64) : RgResult WithdrawalBitcoin :=
  tx ← get_filter_tx_for_address s key_address 10000 0 true;
  foldR (withdraw_one d key_address min_ask) {| wb_outputs := []; wb_updated_bidask := bid_ask; wb_used_tx := [] |} tx.

(** A round: the store is read, the orders that are due are paid on both networks, and
    the curve is answered; failed payments are logged. *)
Definition stored_events (s : Store) (key : PublicKey) : RgResult (list (list ObservationProof)) :=
  n ← PartyEvents_new key network seed_keys;
  tx ← get_all_tx_for_address s (pe_key_address n) 100000 0;
  mapR (λ t, select_observation_edge s (hash_or t)) tx.
Definition process_requests (alloc : DepositKeyAllocation) (last_timestamp : Z) : W (option CurveUpdateResult) :=
  _ ← lift (PublicKey_address (dk_key alloc));
  balance ← lift (get_wallet_balance (te_bdk e));
  events ← gets (λ s, stored_events (ns_store (wa_node s)) (dk_key alloc)); _ ← lift events;
  wl ← on_wallet (l ← gets (wallet_transactions (te_bdk e)); lift l);
  wk ← on_wallet (gets bw_public_key);
  r ← gets (λ s, process_requests_new (ns_store (wa_node s)) wl.2 wl.1 wk balance network seed_keys alloc last_timestamp (te_salt e) (te_now e));
  r ← lift (r : RgResult (Payouts * CurveUpdateResult));
  identifier ← lift (safe_get (dk_initiate_identifier alloc));
  _ ⇐ (match po_rdg r.1 with
       | Some tx => logged (send_ask_fulfillment_transaction tx identifier)
       | None => mret (Some (None : option SubmitTransactionResponse))
       end);
  _ ⇐ (match po_btc r.1 with
       | [] => mret (Some (None : option string))
       | outputs => logged (fulfill_btc_bids identifier outputs)
       end);
  mret (Some r.2).

(** ** The configuration *)

Definition store_config (c : DepositWatcherConfig) : W unit := on_own_node (on_config (insert_update_json config_key c)).
Definition get_deposit_config (d : ConfigDb) : RgResult (option DepositWatcherConfig) := get_json unexpected_null d config_key.
(** Redgold per bitcoin at a hundred dollars each. *)
Definition get_starting_center_price_rdg_btc : RgResult f64 := usd_btc ← te_usd_btc e; Ok (f64_div usd_btc (f64_of_Z 100)).
Definition get_starting_center_price_rdg_btc_fallback : RgResult f64 :=
  match get_starting_center_price_rdg_btc with Err _ => Ok BTC_RDG_STARTING | r => r end.
Definition whole_price (v : PriceVolumeBroken) : option PriceVolume :=
  p ← pvb_price v; v ← pvb_volume v; Some {| pv_price := p; pv_volume := v |}.
Definition fix_historical_errors : W unit :=
  test_load ← gets (λ s, get_deposit_config (wa_config s));
  match test_load with
  | Ok _ => mret tt
  | Panic => lift Panic
  | Err _ =>
      broken ← gets (λ s, get_json unexpected_null (wa_config s) config_key : RgResult (option DepositWatcherConfigBroken));
      match broken with
      | Ok (Some bcfg) =>
          price ← lift get_starting_center_price_rdg_btc_fallback;
          let ba := dwb_bid_ask bcfg in
          store_config {| dwc_deposit_allocations := dwb_deposit_allocations bcfg;
                          dwc_bid_ask := {| ba_bids := omap whole_price (bab_bids ba); ba_asks := omap whole_price (bab_asks ba);
                                            ba_center_price := price |};
                          dwc_last_btc_timestamp := 0; dwc_ask_bid_code_reset := None |}
      | Panic => lift Panic
      | _ => mret tt
      end
  end.

(** ** A turn *)

Definition reset_curve (cfg : DepositWatcherConfig) : W DepositWatcherConfig :=
  if bool_decide (dwc_ask_bid_code_reset cfg = Some true) then
    center_price ← lift get_starting_center_price_rdg_btc_fallback;
    let min_ask := f64_div f64_one center_price in
    ba ← lift (regenerate (dwc_bid_ask cfg) center_price min_ask);
    let cfg := {| dwc_deposit_allocations := dwc_deposit_allocations cfg; dwc_bid_ask := ba;
                  dwc_last_btc_timestamp := dwc_last_btc_timestamp cfg; dwc_ask_bid_code_reset := Some false |} in
    _ ← store_config cfg; mret cfg
  else mret cfg.
Definition ensure_wallet (key : PublicKey) : W unit :=
  ws ← gets wa_wallet;
  match ws with
  | [] => w ← lift (new_wallet (te_bdk e) (te_client e) (te_created e) key network true);
          modify (λ s, {| wa_mp := wa_mp s; wa_wallet := wa_wallet s ++ [w] |})
  | _ => mret tt
  end.
Definition watch (cfg : DepositWatcherConfig) (d : DepositKeyAllocation) : W (option unit) :=
  pid ← lift (dk_party_id d);
  _ ← on_own_node (add_party_id pid);
  _ ← ensure_wallet (dk_key d);
  _ ← lift (get_wallet_balance (te_bdk e));
  a ← lift (PublicKey_address (dk_key d));
  balance ← gets (λ s, get_balance (ns_store (wa_node s)) a); balance ← lift balance;
  if default false ((λ x, 0 <? x) <$> (balance : option Z)) then
    cfg ← reset_curve cfg;
    update_result ⇐ logged (process_requests d (dwc_last_btc_timestamp cfg));
    match update_result with
    | Some u =>
        returning (store_config {| dwc_deposit_allocations := [cu_allocation u]; dwc_bid_ask := cu_bid_ask u;
          dwc_last_btc_timestamp := cu_btc_timestamp u; dwc_ask_bid_code_reset := dwc_ask_bid_code_reset cfg |})
    | None => mret (Some tt)
    end
  else _ ← lift (render_string a); mret (Some tt).
Definition store_new_key (r : SelfInitiateKeygenResult) (ksr : SelfInitiateKeysignResult) : W unit :=
  pk ← lift (safe_get_msg (pf_public_key (ssr_proof ksr)) "Missing public key on key sign result");
  price ← lift get_starting_center_price_rdg_btc_fallback;
  a ← lift (PublicKey_address pk);
  _ ← logged (returning (on_own_node (genesis_funding a)));
  store_config {| dwc_deposit_allocations := [{| dk_key := pk; dk_allocation := f64_one;
                    dk_initiate_identifier := ikr_identifier (skr_request r); dk_balance_btc := 0; dk_balance_rdg := 0 |}];
                  dwc_bid_ask := {| ba_bids := []; ba_asks := []; ba_center_price := price |};
                  dwc_last_btc_timestamp := 0; dwc_ask_bid_code_reset := None |}.
Definition start_keygen : W (option unit) :=
  let min_seeds := if is_local_debug network then 3%nat else 4%nat in
  if (length seeds <=? min_seeds)%nat then mret (Some tt) else
  res ⇐ logged (on_party (keygen_with None true (Some seed_keys)));
  match res with
  | None => mret (Some tt)
  | Some r =>
      bd ← lift (safe_get_msg (h_bytes (from_string_calculate (mi_uuid (skr_identifier r)))) "Missing bytes in immediate hash calculation");
      ksr ⇐ logged (on_party (keysign (skr_identifier r) bd (mi_party_keys (skr_identifier r)) None));
      match ksr with
      | None => mret (Some tt)
      | Some ksr => returning (store_new_key r ksr)
      end
  end.
Definition watcher_fold : W (option unit) :=
  if is_local_debug network then mret (Some tt) else
  nodes ← gets (λ s, active_nodes (ns_peers (wa_node s)) (te_now e) None); _ ← lift nodes;
  _ ← logged (returning fix_historical_errors);
  cfg ← gets (λ s, get_deposit_config (wa_config s)); cfg ← lift cfg;
  match (cfg : option DepositWatcherConfig) with
  | Some cfg => match head (dwc_deposit_allocations cfg) with Some d => watch cfg d | None => mret (Some tt) end
  | None => start_keygen
  end.
End turn.

(** The states after each turn, whatever it answered. *)
Definition watcher_states (es : list TurnEnv) (s : Watcher) : Watcher := foldl (λ s e, (watcher_fold e s).2) s es.
End watcher.

(** * Properties *)

(** Equal but for the floating-point share. *)
Record same_allocation (d d' : DepositKeyAllocation) : Prop := {
  sa_key : dk_key d' = dk_key d;
  sa_identifier : dk_initiate_identifier d' = dk_initiate_identifier d;
  sa_btc : dk_balance_btc d' = dk_balance_btc d;
  sa_rdg : dk_balance_rdg d' = dk_balance_rdg d }.
(** serde_json reads back the keys, texts, numbers of an integer type and lists that it
    wrote, or fails, as it does where a number that is not finite was written as null;
    a floating-point number may come back as another one, as the feature
    [float_roundtrip] is not enabled.  So does the lenient form of the configuration. *)
Class ConfigJsonLaws `{JsonCodec DepositWatcherConfig} `{JsonCodec DepositWatcherConfigBroken} : Prop := {
  config_readback : ∀ (c c' : DepositWatcherConfig) t, json_to_string c = inr t → json_from_str t = inr c' →
    Forall2 same_allocation (dwc_deposit_allocations c) (dwc_deposit_allocations c');
  broken_readback : ∀ (c : DepositWatcherConfig) (b : DepositWatcherConfigBroken) t,
    json_to_string c = inr t → json_from_str t = inr b →
    Forall2 same_allocation (dwc_deposit_allocations c) (dwb_deposit_allocations b) }.
Lemma same_allocation_refl l : Forall2 same_allocation l l.
Proof. induction l; by constructor. Qed.

(** ** Frames *)

Section lifting.
Context {S : Type} (R : S → S → Prop) `{!PreOrder R}.
Lemma preserves_bindO {A B} (m : M S ErrorInfo (option A)) (f : A → M S ErrorInfo (option B)) :
  preserves R m → (∀ a, preserves R (f a)) → preserves R (bindO m f).
Proof. intros Hm Hf. unfold bindO. auto with preserves. Qed.
Lemma preserves_logged {A} (m : M S ErrorInfo (option A)) : preserves R m → preserves R (logged m).
Proof. intros Hm s. specialize (Hm s). unfold logged. by destruct (m s) as [[[]| |]]. Qed.
Lemma preserves_returning {A} (m : M S ErrorInfo A) : preserves R m → preserves R (returning m).
Proof. intros Hm. unfold returning. auto with preserves. Qed.
(** What follows may use what the first step answered. *)
Lemma preserves_bind_val {A B} (m : M S ErrorInfo A) (f : A → M S ErrorInfo B) :
  preserves R m → (∀ s a s1, m s = (Ok a, s1) → R s1 (f a s1).2) → preserves R (m ≫= f).
Proof.
intros Hm Hf s. specialize (Hm s). unfold mbind, M_bind. destruct (m s) as [[a|e|] s1] eqn:E; simpl in *; [|done..].
transitivity s1; [done|by eapply Hf].
Qed.
End lifting.
#[export] Hint Extern 1 (preserves _ (bindO _ _)) => (apply preserves_bindO; [typeclasses eauto| |intros ?]) : preserves.
#[export] Hint Extern 1 (preserves _ (logged _)) => (apply preserves_logged) : preserves.
#[export] Hint Extern 1 (preserves _ (returning _)) => (apply preserves_returning; [typeclasses eauto|]) : preserves.

Lemma logged_Ok {S A} (m : M S ErrorInfo (option A)) s o s' : logged m s = (Ok (Some o), s') →
  match o with Some a => m s = (Ok (Some a), s') | None => ∃ x, m s = (Err x, s') end.
Proof. unfold logged. destruct (m s) as [[[a|]|x|] s1]; intros [= <- <-]; eauto. Qed.
Lemma logged_state {S A} (m : M S ErrorInfo (option A)) s o s' : logged m s = (Ok (Some o), s') → (m s).2 = s'.
Proof. intros H%logged_Ok. destruct o; [|destruct H as [? H]]; by rewrite H. Qed.
Lemma bindO_Ok {S A B} (m : M S ErrorInfo (option A)) (f : A → M S ErrorInfo (option B)) s b s' :
  bindO m f s = (Ok (Some b), s') → ∃ a s1, m s = (Ok (Some a), s1) ∧ f a s1 = (Ok (Some b), s').
Proof. unfold bindO. intros H. apply M_bind_Ok in H as ([a|] & s1 & Hm & H); [by eauto|by inv_M]. Qed.
Lemma returning_Ok {S A} (m : M S ErrorInfo A) s a s' : returning m s = (Ok (Some a), s') → m s = (Ok a, s').
Proof. unfold returning. intros H. apply M_bind_Ok in H as (x & s1 & Hm & H). by apply mret_Ok in H as [[= ->] ->]. Qed.

Section watcher_props.
Context {host : Host} {crypto : Crypto} {secp : Secp} {rec : Recover} {sql : Sql} {libm : Libm} {btc : Bitcoin}.
Context {ptx : Proto Transaction} {pdm : Proto DynamicNodeMetadata} {pue : Proto UtxoEntry} {pei : Proto ErrorInfo}.
Context {pop : Proto ObservationProof} {pom : Proto ObservationMetadata}.
Context {prq : Proto (Request RequestBody)} {prs : Proto (Response ResponseBody)}.
Context {pik : Proto InitiateMultipartyKeygenRequest} {pis : Proto InitiateMultipartySigningRequest} {ppf : Proto Proof_}.
Context {jrq : Json (Request RequestBody)} {jrs : Json (Response ResponseBody)} {jpk : Json (option PublicKey)}.
Context {jnm : Json NodeMetadata}.
Context {jcfg : JsonCodec DepositWatcherConfig} {jbroken : JsonCodec DepositWatcherConfigBroken}.
Context (kp : KeyPair) (peer_tx_fixed : Transaction) (node_tx_fixed : option NodeMetadata → Transaction).
Context (network : NetworkEnvironment) (port_offset : Z) (seeds : list Seed).
Context (default_public_key : RgResult PublicKey) (keypair_at_change : Z → RgResult KeyPair).
Context (new_v4 : nat → string) (url_parse : string → option string) (unexpected_null : string).
Context (run_keygen : string → string → Z → Z → Z → option (string + string)).
Context (run_signing : string → string → string → list Z → bytes → option (string + SignatureRecid)).

Notation turn := (watcher_fold kp peer_tx_fixed node_tx_fixed network port_offset seeds default_public_key keypair_at_change
  new_v4 url_parse unexpected_null run_keygen run_signing).
Notation round := (process_requests kp peer_tx_fixed node_tx_fixed network port_offset seeds new_v4 url_parse run_signing).
Notation btc_bids := (fulfill_btc_bids kp peer_tx_fixed node_tx_fixed network port_offset new_v4 url_parse run_signing).
Notation ask_transaction := (send_ask_fulfillment_transaction kp peer_tx_fixed node_tx_fixed network port_offset new_v4 url_parse run_signing).
Notation keysign e := (initiate_mp_keysign kp peer_tx_fixed node_tx_fixed network port_offset (te_now e) (te_http e) new_v4 url_parse run_signing).
Notation keygen_with e := (initiate_mp_keygen kp peer_tx_fixed node_tx_fixed network port_offset (te_now e) (te_http e) new_v4 url_parse run_keygen).

(** The row of the watcher in the node's configuration. *)
Definition same_row (s s' : NodeState) : Prop := sy_config (ns_sync s') !! config_key = sy_config (ns_sync s) !! config_key.
#[local] Instance same_row_pre : PreOrder same_row.
Proof. split; [by intros s|]. unfold same_row. intros ??? -> ->. done. Qed.
Lemma set_peer_row tx : preserves same_row (on_config (set_peer_tx tx)).
Proof. intros s. unfold same_row. cbn. by rewrite lookup_insert_ne. Qed.
Lemma set_node_row tx : preserves same_row (on_config (set_node_tx tx)).
Proof. intros s. unfold same_row. cbn. by rewrite lookup_insert_ne. Qed.
Lemma submit_row reply r : preserves same_row (submit_transaction reply r).
Proof.
unfold submit_transaction. assert (∀ m, preserves same_row (modify (ns_submit m) : M NodeState ErrorInfo unit)) by (intros m s; by destruct s).
auto 10 with preserves typeclass_instances.
Qed.
Lemma keysign_row e i d p r : preserves (on_nodes same_row) (keysign e i d p r).
Proof. apply keysign_frame; [apply _|apply set_peer_row|apply set_node_row]. Qed.
Lemma keygen_row e i b ids : preserves (on_nodes same_row) (keygen_with e i b ids).
Proof. apply keygen_frame; [apply _|apply set_peer_row|apply set_node_row]. Qed.
Lemma node_tx_row : preserves same_row (node_tx kp peer_tx_fixed node_tx_fixed).
Proof. unfold node_tx, peer_tx. auto 20 using set_peer_row, set_node_row with preserves typeclass_instances. Qed.
Lemma add_party_row e pid : preserves same_row (add_party_id kp peer_tx_fixed node_tx_fixed network e pid).
Proof.
unfold add_party_id, update_node_metadata, relay_node_metadata. auto 20 using node_tx_row, set_node_row with preserves typeclass_instances.
Qed.
Lemma funding_row e a : preserves same_row (genesis_funding network seeds default_public_key keypair_at_change e a).
Proof. unfold genesis_funding. auto 30 using submit_row with preserves typeclass_instances. Qed.

(** The same of the watcher, with the keys of its wallets. *)
Definition same_key (w w' : SingleKeyBitcoinWallet) : Prop := bw_public_key w' = bw_public_key w.
#[local] Instance same_key_pre : PreOrder same_key.
Proof. split; [by intros s|]. unfold same_key. intros ??? -> ->. done. Qed.
Definition keeps (s s' : Watcher) : Prop :=
  wa_config s' !! config_key = wa_config s !! config_key ∧ bw_public_key <$> wa_wallet s' = bw_public_key <$> wa_wallet s.
#[local] Instance keeps_pre : PreOrder keeps.
Proof. split; [by intros s|]. unfold keeps. intros ??? [-> ->] [-> ->]. done. Qed.
Lemma on_party_keeps {A} (m : M MpNode ErrorInfo A) : preserves (on_nodes same_row) m → preserves keeps (on_party m).
Proof. intros Hm s. specialize (Hm (wa_mp s)). unfold on_party. destruct (m (wa_mp s)). by split. Qed.
Lemma on_own_node_keeps {A} (m : M NodeState ErrorInfo A) : preserves same_row m → preserves keeps (on_own_node m).
Proof. intros Hm. apply on_party_keeps. by apply on_node_frame. Qed.
Lemma on_wallet_keeps {A} (m : M SingleKeyBitcoinWallet ErrorInfo A) : preserves same_key m → preserves keeps (on_wallet m).
Proof.
intros Hm s. unfold on_wallet. destruct (wa_wallet s) as [|w ws] eqn:E; [done|]. specialize (Hm w). destruct (m w) as [r w'].
split; [done|]. cbn. rewrite E. cbn. f_equal. exact Hm.
Qed.
Lemma create_key b ds : preserves same_key (create_transaction_output_batch b ds).
Proof.
unfold create_transaction_output_batch, finish_with.
assert (∀ p d, preserves same_key (modify (bw_with_transaction p d) : M SingleKeyBitcoinWallet ErrorInfo unit)) by (by intros p d w).
auto 10 with preserves typeclass_instances.
Qed.
Lemma affix_key i p : preserves same_key (affix_input_signature i p).
Proof. by intros w. Qed.
Lemma sign_key b : preserves same_key (wallet_sign b).
Proof. intros w. unfold wallet_sign, same_key. repeat case_match; done. Qed.
Lemma broadcast_key b : preserves same_key (broadcast_tx b).
Proof.
unfold broadcast_tx. cbv zeta. assert (∀ tx, preserves same_key (modify (bw_send tx) : M SingleKeyBitcoinWallet ErrorInfo unit)) by (by intros tx w).
auto 10 with preserves typeclass_instances.
Qed.
Lemma sign_hashes_keeps e ident hs : ∀ i, preserves keeps (sign_hashes kp peer_tx_fixed node_tx_fixed network port_offset new_v4 url_parse run_signing e ident i hs).
Proof.
induction hs as [|[h ty] hs IH]; intros i; cbn [sign_hashes]; auto 10 using @on_party_keeps, keysign_row, @on_wallet_keeps, affix_key with preserves typeclass_instances.
Qed.
Lemma btc_bids_keeps e ident outputs : preserves keeps (btc_bids e ident outputs).
Proof.
unfold fulfill_btc_bids.
auto 20 using @on_wallet_keeps, create_key, sign_key, broadcast_key, sign_hashes_keeps, same_key_pre with preserves typeclass_instances.
Qed.
Lemma ask_transaction_keeps e tx ident : preserves keeps (ask_transaction e tx ident).
Proof.
unfold send_ask_fulfillment_transaction.
auto 20 using @on_party_keeps, keysign_row, @on_own_node_keeps, submit_row with preserves typeclass_instances.
Qed.
Lemma round_keeps e alloc ts : preserves keeps (round e alloc ts).
Proof.
unfold process_requests.
auto 30 using btc_bids_keeps, ask_transaction_keeps, @on_wallet_keeps, same_key_pre with preserves typeclass_instances.
Qed.

(** ** The key is kept *)

Definition watches (key : PublicKey) (ident : option MultipartyIdentifier) (c : DepositWatcherConfig) : Prop :=
  ∃ d, head (dwc_deposit_allocations c) = Some d ∧ dk_key d = key ∧ dk_initiate_identifier d = ident.
Lemma watches_same key ident l l' d :
  Forall2 same_allocation l l' → head l = Some d → dk_key d = key → dk_initiate_identifier d = ident →
  ∃ d', head l' = Some d' ∧ dk_key d' = key ∧ dk_initiate_identifier d' = ident.
Proof. intros [|x x' l1 l1' [Hk Hi _ _] _]; [done|]. intros [= ->] <- <-. by exists x'. Qed.
Definition text_row (t : string) : ConfigRow := {| cf_value_data := Some t; cf_value_bytes := None |}.
(** The stored configuration is one of that key, and so is every wallet. *)
Definition holds (key : PublicKey) (ident : option MultipartyIdentifier) (s : Watcher) : Prop :=
  (∃ c t, json_to_string c = inr t ∧ wa_config s !! config_key = Some (text_row t) ∧ watches key ident c) ∧
  Forall (eq key) (bw_public_key <$> wa_wallet s).

Lemma get_json_row {A} {codec : JsonCodec A} d t : d !! config_key = Some (text_row t) →
  get_json unexpected_null d config_key = (Some <$> json_from json_from_str t : RgResult (option A)).
Proof. intros H. unfold get_json, select_config. by rewrite H. Qed.
Lemma store_config_run c s : store_config c s =
  match json_to_string c with
  | inr t => (Ok tt, {| wa_mp := {| mn_node := ns_with_config (<[config_key := text_row t]> (wa_config s)) (wa_node s);
                                    mn_auths := mn_auths (wa_mp s); mn_db := mn_db (wa_mp s); mn_drawn := mn_drawn (wa_mp s) |};
                        wa_wallet := wa_wallet s |})
  | inl x => (Err (error_info ("serde json ser error: " +:+ x)), s)
  end.
Proof.
destruct s as [[n ? ? ?] ?]. unfold store_config, on_own_node, on_party, Multiparty.on_node, on_config, insert_update_json, Config.json.
destruct (json_to_string c); cbn; [|done]. destruct n as [[] ? ? ? ? ? ? ? ?]. reflexivity.
Qed.

Section kept.
Context {laws : ConfigJsonLaws} (key : PublicKey) (ident : option MultipartyIdentifier).
Definition keeps_key (s s' : Watcher) : Prop := holds key ident s → holds key ident s'.
#[local] Instance keeps_key_pre : PreOrder keeps_key.
Proof. split; [intros s H; exact H|]. intros s1 s2 s3 H1 H2 H. exact (H2 (H1 H)). Qed.
Lemma keeps_keeps_key {A} (m : M Watcher ErrorInfo A) : preserves keeps m → preserves keeps_key m.
Proof.
intros Hm s [(c & t & Hj & Hr & Hw) Hf]. destruct (Hm s) as [Hc Hk]. unfold holds. rewrite Hk. split; [|done].
exists c, t. by rewrite Hc.
Qed.
Lemma store_config_kept c : watches key ident c → preserves keeps_key (store_config c).
Proof.
intros Hw s [Hrow Hf]. rewrite store_config_run. destruct (json_to_string c) as [x|t] eqn:Hj; [done|].
split; [|done]. exists c, t. split_and!; [done| |done]. cbn. apply lookup_insert_eq.
Qed.
Lemma fix_kept e : preserves keeps_key (fix_historical_errors unexpected_null e).
Proof.
intros s Hs. destruct Hs as [(c & t & Hj & Hr & d & Hd & Hkey & Hid) Hf] eqn:E. unfold fix_historical_errors.
erewrite M_bind_step by reflexivity. unfold get_deposit_config. rewrite (get_json_row _ _ Hr).
destruct (Some <$> json_from json_from_str t) as [o|x|]; [exact Hs| |exact Hs]. erewrite M_bind_step by reflexivity.
rewrite (get_json_row _ _ Hr). unfold json_from. destruct (json_from_str t) as [x'|b] eqn:Hb; [exact Hs|]. cbn [fmap result_fmap].
apply (preserves_bind keeps_key); [apply preserves_lift, _|intros price; cbv zeta; apply store_config_kept|exact Hs].
by eapply watches_same; [by eapply broken_readback|..].
Qed.
Lemma round_allocation e alloc ts s u s' : round e alloc ts s = (Ok (Some u), s') →
  dk_key (cu_allocation u) = dk_key alloc ∧ dk_initiate_identifier (cu_allocation u) = dk_initiate_identifier alloc.
Proof.
unfold process_requests. intros H. apply M_bind_Ok in H as (? & ? & _ & H). apply M_bind_Ok in H as (? & ? & _ & H).
apply M_bind_Ok in H as (? & ? & _ & H). apply M_bind_Ok in H as (? & ? & _ & H). apply M_bind_Ok in H as (? & ? & _ & H).
apply M_bind_Ok in H as (? & ? & _ & H). apply M_bind_Ok in H as (r & s1 & [-> ->]%gets_Ok & H). apply M_bind_Ok in H as ([po cu] & ? & [Hr ->]%lift_Ok & H).
apply M_bind_Ok in H as (id & ? & _ & H). apply bindO_Ok in H as (? & ? & _ & H). apply bindO_Ok in H as (? & ? & _ & H).
apply mret_Ok in H as [[= ->] ->]. unfold process_requests_new in Hr. cbv zeta in Hr.
repeat (apply bind_Ok in Hr as (? & _ & Hr)). by injection Hr as _ <-.
Qed.
Lemma ensure_wallet_kept e : preserves keeps_key (ensure_wallet network e key).
Proof.
unfold ensure_wallet. apply preserves_bind; [apply _|apply preserves_gets, _|intros ws]. destruct ws; [|apply preserves_mret, _].
apply preserves_bind_val; [apply _|apply preserves_lift, _|]. intros s w s1 [Hn ->]%lift_Ok [Hrow Hf]. split; [exact Hrow|].
unfold new_wallet in Hn. repeat (apply bind_Ok in Hn as (? & _ & Hn)). injection Hn as <-.
cbn. rewrite fmap_app. apply Forall_app. by repeat constructor.
Qed.
Lemma watch_kept e cfg d : watches key ident cfg → head (dwc_deposit_allocations cfg) = Some d →
  preserves keeps_key (watch kp peer_tx_fixed node_tx_fixed network port_offset seeds new_v4 url_parse run_signing e cfg d).
Proof.
intros Hw Hd. assert (dk_key d = key ∧ dk_initiate_identifier d = ident) as [Hk Hi] by (destruct Hw as (d' & Hd' & Hk & Hi); by simplify_eq).
assert (preserves keeps_key (reset_curve e cfg)) as Hreset.
{ unfold reset_curve. cbv zeta. auto 10 using store_config_kept with preserves typeclass_instances. }
unfold watch. apply preserves_bind; [apply _|apply preserves_lift, _|intros pid].
apply preserves_bind; [apply _|by apply keeps_keeps_key, on_own_node_keeps, add_party_row|intros _].
apply preserves_bind; [apply _|rewrite Hk; apply ensure_wallet_kept|intros _].
apply preserves_bind; [apply _|apply preserves_lift, _|intros _]. apply preserves_bind; [apply _|apply preserves_lift, _|intros a].
apply preserves_bind; [apply _|apply preserves_gets, _|intros b]. apply preserves_bind; [apply _|apply preserves_lift, _|intros b'].
destruct (default _ _); [|auto with preserves typeclass_instances]. apply preserves_bind; [apply _|done|intros cfg'].
unfold bindO. apply preserves_bind_val; [apply _|by apply preserves_logged, keeps_keeps_key, round_keeps|].
intros s o s1 Ho. destruct o as [o|]; [|reflexivity]. apply logged_Ok in Ho. destruct o as [u|]; [|reflexivity].
apply round_allocation in Ho as [Hku Hiu].
apply (preserves_returning keeps_key), store_config_kept. exists (cu_allocation u). split_and!; [done|congruence|congruence].
Qed.
Lemma turn_kept e : preserves keeps_key (turn e).
Proof.
unfold watcher_fold. destruct (is_local_debug network); [apply preserves_mret, _|].
apply preserves_bind; [apply _|apply preserves_gets, _|intros n]. apply preserves_bind; [apply _|apply preserves_lift, _|intros _].
apply preserves_bind; [apply _|apply preserves_logged, preserves_returning, fix_kept; apply _|intros _].
intros s Hs. erewrite M_bind_step by reflexivity. destruct Hs as [(c & t & Hj & Hr & Hw) Hf] eqn:E. clear E.
unfold get_deposit_config. rewrite (get_json_row _ _ Hr). unfold json_from. destruct (json_from_str t) as [x|c'] eqn:Hc; [exact Hs|].
assert (watches key ident c') as Hw' by (destruct Hw as (d & ? & ? & ?); by eapply watches_same; [by eapply config_readback|..]).
erewrite M_bind_step by reflexivity. cbv beta iota.
destruct (head (dwc_deposit_allocations c')) as [d|] eqn:Hd; [|exact Hs]. by eapply watch_kept.
Qed.

(** C21: The key of the watcher is kept: once a configuration with a key is stored, then
    after any number of turns, whatever the other nodes, the Bitcoin server, the price
    source and the signing parties do and whether a turn fails or not, the stored
    configuration is still one of that key with the parties it was generated with, and
    the watcher has wallets of no other key. *)
Theorem deposit_key_kept es s : holds key ident s → holds key ident (watcher_states kp peer_tx_fixed node_tx_fixed network port_offset seeds
  default_public_key keypair_at_change new_v4 url_parse unexpected_null run_keygen run_signing es s).
Proof. unfold watcher_states. revert s. induction es as [|e es IH]; intros s Hs; [done|]. cbn. by apply IH, turn_kept. Qed.
End kept.

(** ** What a round pays *)

Definition paid_out (s : Watcher) : list BtcTx := match wa_wallet s with w :: _ => bw_sent w | [] => [] end.
Definition submitted (s : Watcher) : list TransactionMessage := ns_submitted (wa_node s).

Lemma M_bind_cases {S E A B} (m : M S E A) (f : A → M S E B) s : 
  (∃ a s1, m s = (Ok a, s1) ∧ (m ≫= f) s = f a s1) ∨ ((m ≫= f) s).2 = (m s).2.
Proof. unfold mbind, M_bind. destruct (m s) as [[a|x|] s1]; [left; by exists a, s1|by right..]. Qed.

Definition same_submitted (s s' : NodeState) : Prop := ns_submitted s' = ns_submitted s ∧ ns_store s' = ns_store s.
#[local] Instance same_submitted_pre : PreOrder same_submitted.
Proof. split; [by intros s|]. unfold same_submitted. intros ??? [-> ->] [-> ->]. done. Qed.
Lemma keysign_submitted e i d p r : preserves (on_nodes same_submitted) (keysign e i d p r).
Proof. apply keysign_frame; [apply _|by intros tx s..]. Qed.
(** Nothing is paid on either network. *)
Definition unpaid (s s' : Watcher) : Prop :=
  paid_out s' = paid_out s ∧ submitted s' = submitted s ∧ ns_store (wa_node s') = ns_store (wa_node s).
#[local] Instance unpaid_pre : PreOrder unpaid.
Proof. split; [by intros s|]. unfold unpaid. intros ??? (-> & -> & ->) (-> & -> & ->). done. Qed.
Definition same_sent (w w' : SingleKeyBitcoinWallet) : Prop := bw_sent w' = bw_sent w.
#[local] Instance same_sent_pre : PreOrder same_sent.
Proof. split; [by intros s|]. unfold same_sent. intros ??? -> ->. done. Qed.
Lemma on_party_unpaid {A} (m : M MpNode ErrorInfo A) : preserves (on_nodes same_submitted) m → preserves unpaid (on_party m).
Proof. intros Hm s. specialize (Hm (wa_mp s)). unfold on_party. destruct (m (wa_mp s)) as [r n]. destruct Hm. by split. Qed.
Lemma on_wallet_unpaid {A} (m : M SingleKeyBitcoinWallet ErrorInfo A) : preserves same_sent m → preserves unpaid (on_wallet m).
Proof.
intros Hm s. unfold on_wallet. destruct (wa_wallet s) as [|w ws] eqn:E; [done|]. specialize (Hm w). destruct (m w) as [r w'].
unfold unpaid, paid_out. rewrite E. by split.
Qed.
Lemma create_sent b ds : preserves same_sent (create_transaction_output_batch b ds).
Proof.
unfold create_transaction_output_batch, finish_with.
assert (∀ p d, preserves same_sent (modify (bw_with_transaction p d) : M SingleKeyBitcoinWallet ErrorInfo unit)) by (by intros p d w).
auto 10 with preserves typeclass_instances.
Qed.
Lemma sign_sent b : preserves same_sent (wallet_sign b).
Proof. intros w. unfold wallet_sign, same_sent. repeat case_match; done. Qed.
Lemma affix_sent i p : preserves same_sent (affix_input_signature i p).
Proof. by intros w. Qed.
Lemma sign_hashes_unpaid e ident hs : ∀ i, preserves unpaid (sign_hashes kp peer_tx_fixed node_tx_fixed network port_offset new_v4 url_parse run_signing e ident i hs).
Proof.
induction hs as [|[h ty] hs IH]; intros i; cbn [sign_hashes]; auto 10 using @on_party_unpaid, keysign_submitted, @on_wallet_unpaid, affix_sent with preserves typeclass_instances.
Qed.

Section paying.
Context {rlaws : RecoverLaws} {claws : CryptoLaws} {blaws : BitcoinLaws}.

Lemma submit_run reply t n : (submit_transaction reply {| sbr_transaction := Some t; sbr_sync_query_response := true |} n).2 =
  ns_submit {| tm_transaction := t; tm_response_channel := Some 0%nat |} n.
Proof.
unfold submit_transaction. erewrite M_bind_step by reflexivity. erewrite M_bind_step by reflexivity. cbn [sbr_sync_query_response].
set (n' := ns_submit _ n).
assert (preserves eq (response1 ← lift (reply t); _ ← lift (as_error_info response1); lift (safe_get (rs_body response1)) : M NodeState ErrorInfo _)) as H
  by auto with preserves typeclass_instances.
symmetry. exact (H n').
Qed.
(** On the own network: nothing, or the transaction with a proof that verifies. *)
Lemma ask_pays e tx ident s : let s' := (ask_transaction e tx ident s).2 in
  paid_out s' = paid_out s ∧
  (submitted s' = submitted s ∨ ∃ proof, Proof_verify proof (signable_hash tx) = Ok tt ∧
     submitted s' = submitted s ++ [{| tm_transaction := add_proof_per_input proof tx; tm_response_channel := Some 0%nat |}]).
Proof.
cbv zeta. unfold send_ask_fulfillment_transaction. erewrite M_bind_step by reflexivity. unfold bindO.
pose proof (on_party_unpaid _ (keysign_submitted e ident (BytesData_from (sha3_256 (encode_to_vec (hash_clear
  (clear_confirmation_proofs (clear_counter_party_proofs (clear_input_proofs tx))))))) (mi_party_keys ident) None) s) as (Hp & Hs & _).
match goal with |- context [(?m ≫= ?f) s] => destruct (M_bind_cases m f s) as [([r|] & s2 & Hk & -> )| -> ] end; [| |split; [exact Hp|by left]].
2: { rewrite Hk in Hp, Hs. split; [exact Hp|by left]. }
rewrite Hk in Hp, Hs. cbn [snd] in *. unfold on_party in Hk. destruct (keysign _ _ _ _ _ (wa_mp s)) as [rk nk] eqn:Hks. injection Hk as -> <-.
apply keysign_Ok in Hks as [Hv _]; [|exact rlaws].
match goal with |- context [returning ?m ?x] => assert ((returning m x).2 = (m x).2) as -> end.
{ unfold returning, mbind, M_bind. by destruct (on_own_node _ _) as [[]]. }
unfold on_own_node, on_party, Multiparty.on_node. cbn [wa_mp wa_wallet].
pose proof (submit_run (te_await_reply e) (add_proof_per_input (ssr_proof r) tx) (mn_node nk)) as Hr.
destruct (submit_transaction _ _ (mn_node nk)) as [x n']. cbn [snd] in Hr. subst n'. split; [exact Hp|right].
exists (ssr_proof r). split; [apply Hv, sha3_256_length|]. unfold submitted, wa_node in *. cbn in *. by rewrite Hs.
Qed.

Lemma on_wallet_Ok {A} (m : M SingleKeyBitcoinWallet ErrorInfo A) s a s' : on_wallet m s = (Ok a, s') →
  ∃ w ws w', wa_wallet s = w :: ws ∧ m w = (Ok a, w') ∧ s' = {| wa_mp := wa_mp s; wa_wallet := w' :: ws |}.
Proof. unfold on_wallet. destruct (wa_wallet s) as [|w ws]; [done|]. destruct (m w) as [r w'] eqn:E. intros [= -> <-]. by exists w, ws, w'. Qed.
Lemma sign_hashes_Ok e ident hs : ∀ i s s',
  sign_hashes kp peer_tx_fixed node_tx_fixed network port_offset new_v4 url_parse run_signing e ident i hs s = (Ok (Some tt), s') →
  ∀ w ws, wa_wallet s = w :: ws →
  ∃ f, wa_wallet s' = bw_with_proofs f w :: ws ∧ (∀ j m, (j < i)%nat → f m !! j = m !! j) ∧
    ∀ j x, hs !! j = Some x → ∃ prf, (length x.1 = 32%nat → Proof_verify prf (Hash_new x.1) = Ok tt) ∧ ∀ m, f m !! (i + j)%nat = Some prf.
Proof.
induction hs as [|[h ty] hs IH]; intros i s s' H w ws Hw; cbn [sign_hashes] in H.
{ apply mret_Ok in H as [_ ->]. exists id. split_and!; [by destruct w|done|done]. }
apply bindO_Ok in H as (r & s1 & Hk & H). unfold on_party in Hk. destruct (keysign _ _ _ _ _ (wa_mp s)) as [rk nk] eqn:Hks. injection Hk as -> <-.
apply keysign_Ok in Hks as [Hv _]; [|exact rlaws]. apply M_bind_Ok in H as ([] & s2 & Ha & H).
apply on_wallet_Ok in Ha as (w0 & ws0 & w' & Hw0 & Ha & ->). cbn in Hw0. rewrite Hw in Hw0. injection Hw0 as <- <-.
apply modify_Ok in Ha as ->. destruct (IH _ _ _ H _ _ eq_refl) as (f & -> & Hlow & Hall).
exists (λ m, f (<[i := ssr_proof r]> m)). split_and!; [by destruct w| |].
- intros j m Hj. rewrite Hlow by lia. apply lookup_insert_ne. lia.
- intros [|j] x; cbn; [intros [= <-]|intros Hx].
  + exists (ssr_proof r). split; [done|]. intros m. rewrite Nat.add_0_r, Hlow by lia. apply lookup_insert_eq.
  + destruct (Hall _ _ Hx) as (prf & ? & Hm). exists prf. split; [done|]. intros m. replace (i + S j)%nat with (S i + j)%nat by lia. apply Hm.
Qed.
(** On the Bitcoin network: nothing, or one transaction for exactly the outputs, with a
    verifying signature on each input. *)
Definition btc_paid (e : TurnEnv) (outputs : list (string * Z)) (s s' : Watcher) : Prop :=
  paid_out s' = paid_out s ∨ ∃ rs f id tx, mapR recipient outputs = Ok rs ∧ paid_out s' = paid_out s ++ [tx] ∧
    sent_signed (te_bdk e) (λ h proof, Proof_verify proof (Hash_new h) = Ok tt) rs f id tx.
Lemma gets_sent {A} (f : SingleKeyBitcoinWallet → RgResult A) : preserves same_sent (h ← gets f; lift h).
Proof. auto with preserves typeclass_instances. Qed.
Lemma broadcast_run b w : (broadcast_tx b w).2 = w ∨ ∃ p, bw_psbt w = Some p ∧ (broadcast_tx b w).2 = bw_send (bdk_extract_tx b p) w.
Proof.
unfold broadcast_tx. erewrite M_bind_step by reflexivity. destruct (bw_psbt w) as [p|]; [|by left].
erewrite M_bind_step by reflexivity. cbv zeta. unfold lib_check. destruct (bdk_broadcast b _); [by left|]. right. by exists p.
Qed.
(** The steps before the transaction is sent. *)
Lemma signed_before_sent e ident outputs s hashes s1 s2 s3 f s4 :
  on_wallet (create_transaction_output_batch (te_bdk e) outputs) s = (Ok tt, s1) →
  on_wallet (h ← gets signable_hashes; lift h) s1 = (Ok hashes, s2) →
  sign_hashes kp peer_tx_fixed node_tx_fixed network port_offset new_v4 url_parse run_signing e ident 0 hashes s2 = (Ok (Some tt), s3) →
  on_wallet (wallet_sign (te_bdk e)) s3 = (Ok f, s4) →
  ∃ rs id w ws p, mapR recipient outputs = Ok rs ∧ wa_wallet s4 = w :: ws ∧ bw_psbt w = Some p ∧
    sent_signed (te_bdk e) (λ h proof, Proof_verify proof (Hash_new h) = Ok tt) rs f id (bdk_extract_tx (te_bdk e) p).
Proof.
intros (w & ws & w1 & Hw & Hc & ->)%on_wallet_Ok (w1' & ws' & w2 & Hw1 & Hh & ->)%on_wallet_Ok Hsh Hsg. cbn in Hw1. injection Hw1 as <- <-.
apply create_batch_Ok in Hc as (rs & p0 & id & Hr & Hf & ->).
apply M_bind_Ok in Hh as (hs & w3 & [-> ->]%gets_Ok & Hh). apply lift_Ok in Hh as [Hh ->].
apply (signable_hashes_Ok (bw_with_transaction (Some p0) (Some id) w) p0) in Hh as [Hl Hhash]; [|done].
destruct (sign_hashes_Ok _ _ _ _ _ _ Hsh _ _ eq_refl) as (g & Hw3 & _ & Hall).
apply on_wallet_Ok in Hsg as (w3 & ws3 & w4 & Hw3' & Hsg & ->). rewrite Hw3 in Hw3'. injection Hw3' as <- <-.
apply wallet_sign_Ok in Hsg as (p0' & p1 & p2 & Hp0 & Hu & Hcar & Hfin & ->). cbn in Hp0. injection Hp0 as <-.
exists rs, id. do 2 eexists. exists p2. split_and!; [done|done|done|]. exists p0, p1, p2. split_and!; try done. intros i Hi.
destruct (lookup_lt_is_Some_2 hashes i) as [[h ty] Hx]; [lia|]. destruct (Hcar i Hi) as (proof & Hp & Hcp).
destruct (Hall _ _ Hx) as (prf & Hprf & Hm). specialize (Hm (bw_proofs w)). cbn in Hp, Hm. rewrite Hm in Hp. injection Hp as <-.
exists h, ty, prf. split_and!; [by apply Hhash| |done]. apply Hprf. by eapply sighash_length, Hhash.
Qed.
Ltac next_bind H :=
  match goal with |- context [(?m ≫= ?f) ?s] =>
    let a := fresh "a" in let s' := fresh "s" in destruct (M_bind_cases m f s) as [(a & s' & H & -> )| -> ] end.
Lemma btc_pays e ident outputs s : let s' := (btc_bids e ident outputs s).2 in submitted s' = submitted s ∧ btc_paid e outputs s s'.
Proof.
cbv zeta. assert (∀ {A} (m : M Watcher ErrorInfo A) s0, unpaid s s0 → preserves unpaid m → submitted (m s0).2 = submitted s ∧ btc_paid e outputs s (m s0).2) as Stop.
{ intros A m s0 H0 Hm. assert (unpaid s (m s0).2) as (Hp & Hs & _) by (transitivity s0; [done|apply Hm]). split; [done|by left]. }
assert (∀ {A} (m : M Watcher ErrorInfo A) s0 r s1, unpaid s s0 → preserves unpaid m → m s0 = (r, s1) → unpaid s s1) as Step.
{ intros A m s0 r s1 H0 Hm E. transitivity s0; [done|]. specialize (Hm s0). by rewrite E in Hm. }
unfold fulfill_btc_bids, bindO. pose proof (@reflexivity _ unpaid _ s) as U.
pose proof (on_wallet_unpaid _ (create_sent (te_bdk e) outputs)) as P1. next_bind H1; [|by apply Stop]. destruct a. apply (Step _ _ _ _ _ U P1) in H1 as U1.
pose proof (on_wallet_unpaid _ (gets_sent signable_hashes)) as P2. next_bind H2; [|by apply Stop]. apply (Step _ _ _ _ _ U1 P2) in H2 as U2.
pose proof (sign_hashes_unpaid e ident a 0) as P3. next_bind H3; [|by apply Stop]. apply (Step _ _ _ _ _ U2 P3) in H3 as U3.
destruct a0 as [[]|]; [|by destruct U3 as (? & ? & _); split; [|left]].
pose proof (on_wallet_unpaid _ (sign_sent (te_bdk e))) as P4. next_bind H4; [|by apply Stop]. apply (Step _ _ _ _ _ U3 P4) in H4 as U4.
destruct (signed_before_sent _ _ _ _ _ _ _ _ _ _ H1 H2 H3 H4) as (rs & id & w & ws & p & Hr & Hw & Hp & Hsent).
assert (∀ s5, (on_wallet (broadcast_tx (te_bdk e)) s3).2 = s5 → submitted s5 = submitted s ∧ btc_paid e outputs s s5) as Hb.
{ intros s5 <-. destruct U4 as (Up & Us & _). unfold btc_paid, on_wallet. rewrite Hw.
  destruct (broadcast_run (te_bdk e) w) as [Hsame|(p' & Hp' & Hsend)]; destruct (broadcast_tx (te_bdk e) w) as [r w'].
  - cbn in Hsame. subst w'. split; [done|left]. rewrite <- Up. unfold paid_out. by rewrite Hw.
  - cbn in Hsend. subst w'. split; [done|right]. rewrite Hp in Hp'. injection Hp' as <-. eexists rs, a0, id, _. split_and!; [done| |done].
    rewrite <- Up. unfold paid_out. by rewrite Hw. }
next_bind H5; [|by apply Hb]. assert (unpaid s4 (returning (on_wallet (t ← gets txid; lift t)) s4).2) as (Fp & Fs & _).
{ apply (preserves_returning unpaid), on_wallet_unpaid, gets_sent. }
destruct (Hb s4) as [Hs Hbp]; [by rewrite H5|]. split; [congruence|]. unfold btc_paid in *. by rewrite Fp.
Qed.
(** C11: A round pays what the replay of the events owes and nothing else: when it
    answers, on the own network at most one transaction was submitted, the one that was
    built for the deposits that are due, with a proof on every input that the parties
    made and that verifies for it; on the Bitcoin network at most one transaction was
    sent, made for exactly the withdrawals that are due, with a verifying signature on
    each input.  Failed payments leave nothing else behind. *)
Theorem round_pays e alloc ts s u s' :
  round e alloc ts s = (Ok (Some u), s') →
  ∃ w wl balance po, head (wa_wallet s) = Some w ∧ wallet_transactions (te_bdk e) w = Ok wl ∧ get_wallet_balance (te_bdk e) = Ok balance ∧
    process_requests_new (ns_store (wa_node s)) wl.2 wl.1 (bw_public_key w) balance network (omap sd_public_key seeds) alloc ts (te_salt e) (te_now e) = Ok (po, u) ∧
    (submitted s' = submitted s ∨ ∃ tx proof, po_rdg po = Some tx ∧ Proof_verify proof (signable_hash tx) = Ok tt ∧
       submitted s' = submitted s ++ [{| tm_transaction := add_proof_per_input proof tx; tm_response_channel := Some 0%nat |}]) ∧
    btc_paid e (po_btc po) s s'.
Proof.
unfold process_requests. intros H. apply M_bind_Ok in H as (? & ? & [_ ->]%lift_Ok & H). apply M_bind_Ok in H as (balance & ? & [Hbal ->]%lift_Ok & H).
apply M_bind_Ok in H as (ev & ? & [-> ->]%gets_Ok & H). apply M_bind_Ok in H as (? & ? & [_ ->]%lift_Ok & H).
apply M_bind_Ok in H as (wl & s1 & (w & ws & w' & Hw & Hl & ->)%on_wallet_Ok & H).
apply M_bind_Ok in Hl as (l & ? & [-> ->]%gets_Ok & Hl). apply lift_Ok in Hl as [Hl ->].
assert ({| wa_mp := wa_mp s; wa_wallet := w :: ws |} = s) as Es by (destruct s; cbn in *; by rewrite Hw). rewrite Es in H.
apply M_bind_Ok in H as (wk & s1 & (w0 & ws0 & w0' & Hw0 & [-> ->]%gets_Ok & ->)%on_wallet_Ok & H).
rewrite Hw in Hw0. injection Hw0 as <- <-. rewrite Es in H.
apply M_bind_Ok in H as (r & ? & [-> ->]%gets_Ok & H). apply M_bind_Ok in H as ([po cu] & ? & [Hr ->]%lift_Ok & H).
apply M_bind_Ok in H as (ident & ? & [_ ->]%lift_Ok & H). cbn [fst snd] in H.
apply bindO_Ok in H as (o1 & s2 & H1 & H). apply bindO_Ok in H as (o2 & s3 & H2 & H). apply mret_Ok in H as [[= ->] ->].
exists w, wl, balance, po. rewrite Hw. split_and!; try done.
- assert (submitted s3 = submitted s2) as ->.
  { destruct (po_btc po) as [|y outs]; [by apply mret_Ok in H2 as [_ ->]|].
    pose proof (btc_pays e ident (y :: outs) s2) as [Hs _]. by rewrite (logged_state _ _ _ _ H2) in Hs. }
  destruct (po_rdg po) as [tx|]; [|by apply mret_Ok in H1 as [_ ->]; left].
  destruct (ask_pays e tx ident s) as [_ [Hs|(proof & Hv & Hs)]]; rewrite (logged_state _ _ _ _ H1) in Hs; [by left|right; by exists tx, proof].
- assert (paid_out s2 = paid_out s) as Hp.
  { destruct (po_rdg po) as [tx|]; [|by apply mret_Ok in H1 as [_ ->]]. destruct (ask_pays e tx ident s) as [Hp _].
    by rewrite (logged_state _ _ _ _ H1) in Hp. }
  unfold btc_paid. rewrite <- Hp. change (btc_paid e (po_btc po) s2 s3).
  destruct (po_btc po) as [|y outs]; [apply mret_Ok in H2 as [_ ->]; by left|].
  pose proof (btc_pays e ident (y :: outs) s2) as [_ Hs]. by rewrite (logged_state _ _ _ _ H2) in Hs.
Qed.
End paying.

(** ** The first key *)

Section first_key.
Context {rlaws : RecoverLaws} {claws : CryptoLaws} {lik : ProtoLaws InitiateMultipartyKeygenRequest}.

Lemma keygen_seeds e pks s r s' : peers_wf (ns_peers (mn_node s)) → keygen_with e None true (Some pks) s = (Ok (Some r), s') →
  mi_party_keys (skr_identifier r) = pks ∧ mi_threshold (skr_identifier r) = Z.of_nat (length pks) / 2 ∧
  skr_request r = {| ikr_identifier := Some (skr_identifier r) |} ∧
  (∃ l, l `sublist_of` others kp pks ∧ mi_threshold (skr_identifier r) ≤ Z.of_nat (length l) ∧
     Forall (λ pk, ∃ a, as_error_info a = Ok tt ∧ answered_by (ns_peers (mn_node s)) pk a) l) ∧
  local_share_and_initiate (mn_db s') (mi_uuid (skr_identifier r)) = Ok (Some (skr_local_share r, skr_request r)).
Proof.
intros Hwf H. unfold initiate_mp_keygen in H. apply M_bind_Ok in H as ([i|] & s1 & Hi & H); [|by inv_M].
apply M_bind_Ok in Hi as (i' & s2 & Hi & H'). apply mret_Ok in H' as [[= ->] ->].
unfold default_half_identifier, identifier in Hi. apply M_bind_Ok in Hi as (u & s3 & Hd & Hi). apply mret_Ok in Hi as [-> ->].
unfold default_room_id in Hd. inv_M.
match goal with H : on_auths _ _ = _ |- _ => unfold on_auths, authorize_keygen in H; cbn in H; injection H as <- end.
match goal with H : then_release _ _ _ = _ |- _ => apply then_release_Ok in H as (s5 & H & _ & Hdb); rename H into Hm end.
set (ident := {| mi_party_keys := pks; mi_threshold := _; mi_uuid := _ |}) in Hm.
assert (skr_identifier r = ident ∧ skr_request r = {| ikr_identifier := Some ident |}) as [Hid Hreq].
{ unfold initiate_mp_keygen_authed in Hm. apply M_bind_Ok in Hm as (x & ? & [[= <-] ->]%lift_Ok & Hm). cbv zeta in Hm.
  apply M_bind_Ok in Hm as ([res|] & ? & _ & Hm); [|by inv_M]. case_match; [by apply lift_Ok in Hm as [? _]|].
  apply M_bind_Ok in Hm as (sh & ? & _ & Hm). apply M_bind_Ok in Hm as ([] & ? & _ & Hm). by apply mret_Ok in Hm as [[= ->] ->]. }
apply keygen_authed_Ok in Hm as (ident' & l & Hid' & Hl & Ht & Hall & Hsh); [|exact lik|exact Hwf]. cbn in Hid'. injection Hid' as <-.
rewrite Hid, Hreq, Hdb. split_and!; try done. by exists l.
Qed.
Lemma store_new_key_Ok e r ksr s s' : store_new_key network seeds default_public_key keypair_at_change e r ksr s = (Ok tt, s') →
  ∃ d c t, pf_public_key (ssr_proof ksr) = Some (dk_key d) ∧ dk_initiate_identifier d = ikr_identifier (skr_request r) ∧
    dwc_deposit_allocations c = [d] ∧ json_to_string c = inr t ∧ wa_config s' !! config_key = Some (text_row t) ∧
    mn_db (wa_mp s') = mn_db (wa_mp s).
Proof.
unfold store_new_key. intros H. apply M_bind_Ok in H as (pk & ? & [Hpk%ok_or_Ok ->]%lift_Ok & H). apply M_bind_Ok in H as (price & ? & [_ ->]%lift_Ok & H).
apply M_bind_Ok in H as (a & ? & [_ ->]%lift_Ok & H). apply M_bind_Ok in H as (o & s1 & Hl & H).
assert (mn_db (wa_mp s1) = mn_db (wa_mp s)) as Hdb.
{ unfold logged, returning, on_own_node, on_party, Multiparty.on_node, mbind, M_bind in Hl.
  destruct (genesis_funding _ _ _ _ _ _ _) as [[]]; by simplify_eq/=. }
rewrite store_config_run in H. match type of H with context [json_to_string ?c] => set (cfg := c) in H end.
destruct (json_to_string cfg) as [x|t] eqn:Hj; [done|]. injection H as <-. eexists _, cfg, t.
split_and!; [| |reflexivity|exact Hj|cbn; apply lookup_insert_eq|exact Hdb]; [exact Hpk|reflexivity].
Qed.
(** The turn that stores a first key: it has generated and used it. *)
Lemma start_keygen_stores e s s' : is_local_debug network = false → wa_config s !! config_key = None → is_Some (wa_config s' !! config_key) →
  start_keygen kp peer_tx_fixed node_tx_fixed network port_offset seeds default_public_key keypair_at_change new_v4 url_parse run_keygen run_signing e s = (Ok (Some tt), s') →
  (4 < length seeds)%nat ∧ ∃ r ksr s1 s2,
    keygen_with e None true (Some (omap sd_public_key seeds)) (wa_mp s) = (Ok (Some r), s1) ∧
    keysign e (skr_identifier r) (BytesData_from (sha3_256 (String.list_byte_of_string (mi_uuid (skr_identifier r))))) (mi_party_keys (skr_identifier r)) None s1 =
      (Ok (Some ksr), wa_mp s2) ∧
    store_new_key network seeds default_public_key keypair_at_change e r ksr s2 = (Ok tt, s').
Proof.
intros Hnd Hnone [row Hrow] H. assert (∀ s1, keeps s s1 → s1 ≠ s') as Hkeep by (intros s1 [Hc _] ->; congruence).
unfold start_keygen in H. rewrite Hnd in H. destruct (Nat.leb_spec (length seeds) 4) as [|Hlen]; [apply mret_Ok in H as [_ ->]; by destruct (Hkeep s)|].
split; [lia|]. apply bindO_Ok in H as (o & s1 & Hg & H).
assert (keeps s s1) as K1 by (rewrite <- (logged_state _ _ _ _ Hg); apply on_party_keeps, keygen_row).
destruct o as [r|]; [|apply mret_Ok in H as [_ ->]; by destruct (Hkeep s1)]. apply logged_Ok in Hg.
apply M_bind_Ok in H as (bd & ? & [[= <-] ->]%lift_Ok & H). apply bindO_Ok in H as (o & s2 & Hs & H).
assert (keeps s s2) as K2 by (transitivity s1; [done|]; rewrite <- (logged_state _ _ _ _ Hs); apply on_party_keeps, keysign_row).
destruct o as [ksr|]; [|apply mret_Ok in H as [_ ->]; by destruct (Hkeep s2)]. apply logged_Ok in Hs. apply returning_Ok in H.
unfold on_party in Hg, Hs. destruct (keygen_with _ _ _ _ _) as [rg n1] eqn:Hg'. injection Hg as -> <-.
destruct (keysign _ _ _ _ _ _) as [rs n2] eqn:Hs'. injection Hs as -> <-. by exists r, ksr, n1, {| wa_mp := n2; wa_wallet := wa_wallet s |}.
Qed.
(** C12: No key is watched that was not tried: a turn that stores a first configuration
    has one key in it, made with all seeds as parties and half of them as threshold, at
    least that many of the others having agreed, each with an answer signed by its own
    key; a proof by it verifies for the digest of the room's name; and the own share of
    it can be read from the multiparty store. *)
Theorem deposit_key_tested e s s' : peers_wf (ns_peers (wa_node s)) → wa_config s !! config_key = None →
  turn e s = (Ok (Some tt), s') → is_Some (wa_config s' !! config_key) →
  ∃ c t d ident share proof l, wa_config s' !! config_key = Some (text_row t) ∧ json_to_string c = inr t ∧
    dwc_deposit_allocations c = [d] ∧ dk_initiate_identifier d = Some ident ∧
    mi_party_keys ident = omap sd_public_key seeds ∧ mi_threshold ident = Z.of_nat (length (mi_party_keys ident)) / 2 ∧
    l `sublist_of` others kp (mi_party_keys ident) ∧ mi_threshold ident ≤ Z.of_nat (length l) ∧
    Forall (λ pk, ∃ a, as_error_info a = Ok tt ∧ answered_by (ns_peers (wa_node s)) pk a) l ∧
    pf_public_key proof = Some (dk_key d) ∧ Proof_verify proof (Hash_new (sha3_256 (String.list_byte_of_string (mi_uuid ident)))) = Ok tt ∧
    local_share_and_initiate (mn_db (wa_mp s')) (mi_uuid ident) = Ok (Some (share, {| ikr_identifier := Some ident |})).
Proof.
intros Hwf Hnone H Hsome. unfold watcher_fold in H. destruct (is_local_debug network) eqn:Hnd.
{ apply mret_Ok in H as [_ ->]. rewrite Hnone in Hsome. by destruct Hsome. }
assert (get_deposit_config unexpected_null (wa_config s) = Ok None) as Hget.
{ unfold get_deposit_config, get_json, select_config. by rewrite Hnone. }
apply M_bind_Ok in H as (? & ? & [-> ->]%gets_Ok & H). apply M_bind_Ok in H as (? & ? & [_ ->]%lift_Ok & H).
apply M_bind_Ok in H as (? & s0 & Hfix & H). assert (s0 = s) as ->.
{ unfold logged, returning, fix_historical_errors in Hfix. erewrite M_bind_step in Hfix by (erewrite M_bind_step by reflexivity; rewrite Hget; reflexivity).
  by injection Hfix as _ <-. }
apply M_bind_Ok in H as (? & ? & [-> ->]%gets_Ok & H). rewrite Hget in H. apply M_bind_Ok in H as (? & ? & [[= <-] ->]%lift_Ok & H).
apply start_keygen_stores in H as (_ & r & ksr & s1 & s2 & Hg & Hs & H); [|done..].
apply keygen_seeds in Hg as (Hpk & Hth & Hreq & (l & Hl & Hn & Hall) & Hsh); [|exact Hwf].
pose proof (keysign_shares kp peer_tx_fixed node_tx_fixed network port_offset (te_now e) (te_http e) new_v4 url_parse run_signing (skr_identifier r)
  (BytesData_from (sha3_256 (String.list_byte_of_string (mi_uuid (skr_identifier r))))) (mi_party_keys (skr_identifier r)) None s1) as Hsame.
rewrite Hs in Hsame. apply keysign_Ok in Hs as [Hv _]; [|exact rlaws].
apply store_new_key_Ok in H as (d & c & t & Hd & Hi & Hc & Hj & Hrow & Hdb).
exists c, t, d, (skr_identifier r), (skr_local_share r), (ssr_proof ksr), l. rewrite Hpk, Hdb. rewrite Hreq in Hi.
split_and!; try done; [by apply Hv, sha3_256_length|]. rewrite <- Hreq, <- Hsh. apply Hsame.
Qed.
End first_key.
End watcher_props.

(** * A watcher with two reachable seeds *)

Module WatcherDemo.
#[local] Existing Instance toy_host.
#[local] Existing Instance toy_crypto.
#[local] Existing Instance toy_secp.
#[local] Existing Instance toy_libm.
#[local] Existing Instance HandlerDemo.demo_prq.
#[local] Existing Instance HandlerDemo.demo_jrq.
#[local] Existing Instance HandlerDemo.demo_jrs.
#[local] Existing Instance HandlerDemo.demo_jpk.
#[local] Existing Instance HandlerDemo.demo_pm.
#[local] Existing Instance OutgoingDemo.demo_jnm.
#[local] Existing Instance OutgoingDemo.demo_jpi.
#[local] Existing Instance SearchDemo.demo_sql.
#[local] Existing Instance SearchDemo.demo_pt.
#[local] Existing Instance SearchDemo.demo_pu.
#[local] Existing Instance SearchDemo.demo_po.
#[local] Existing Instance SearchDemo.demo_je.
#[local] Existing Instance SearchDemo.demo_pp.
#[local] Existing Instance SearchDemo.demo_pe.
#[local] Existing Instance SearchDemo.demo_pd.
#[local] Existing Instance MultipartyDemo.demo_pik.
#[local] Existing Instance MultipartyDemo.demo_pis.
#[local] Existing Instance MultipartyDemo.demo_ppf.
#[local] Existing Instance MultipartyDemo.demo_recover.
#[local] Existing Instance WalletDemo.toy_bitcoin.
#[local] Existing Instance MultipartyDemo.ser_MultipartyIdentifier.

(** The texts of configurations. *)
#[local] Instance ser_f64 : Ser f64.
Proof.
refine (ser_via
  (λ f, match f with
        | SpecFloat.S754_zero b => (0, b, 1, 0) | SpecFloat.S754_infinity b => (1, b, 1, 0) | SpecFloat.S754_nan => (2, true, 1, 0)
        | SpecFloat.S754_finite b m e => (3, b, Z.pos m, e) end)
  (λ '(k, b, m, e), if k =? 0 then SpecFloat.S754_zero b else if k =? 1 then SpecFloat.S754_infinity b
                    else if k =? 2 then SpecFloat.S754_nan else SpecFloat.S754_finite b (Z.to_pos m) e) _).
by intros [].
Defined.
#[local] Instance ser_PriceVolume : Ser PriceVolume :=
  ser_via (λ r, (pv_price r, pv_volume r)) (λ '(x, y), {| pv_price := x; pv_volume := y |}) (λ r, match r with Build_PriceVolume _ _ => eq_refl end).
#[local] Instance ser_BidAsk : Ser BidAsk :=
  ser_via (λ r, (ba_bids r, ba_asks r, ba_center_price r)) (λ '(x, y, z), {| ba_bids := x; ba_asks := y; ba_center_price := z |})
    (λ r, match r with Build_BidAsk _ _ _ => eq_refl end).
#[local] Instance ser_DepositKeyAllocation : Ser DepositKeyAllocation :=
  ser_via (λ r, (dk_key r, dk_allocation r, dk_initiate_identifier r, dk_balance_btc r, dk_balance_rdg r))
    (λ '(x, y, z, u, v), {| dk_key := x; dk_allocation := y; dk_initiate_identifier := z; dk_balance_btc := u; dk_balance_rdg := v |})
    (λ r, match r with Build_DepositKeyAllocation _ _ _ _ _ => eq_refl end).
#[local] Instance ser_DepositWatcherConfig : Ser DepositWatcherConfig :=
  ser_via (λ r, (dwc_deposit_allocations r, dwc_bid_ask r, dwc_last_btc_timestamp r, dwc_ask_bid_code_reset r))
    (λ '(x, y, z, u), {| dwc_deposit_allocations := x; dwc_bid_ask := y; dwc_last_btc_timestamp := z; dwc_ask_bid_code_reset := u |})
    (λ r, match r with Build_DepositWatcherConfig _ _ _ _ => eq_refl end).
#[local] Instance config_proto : Proto DepositWatcherConfig := ser_proto DepositWatcherConfig.
Definition broken_of (c : DepositWatcherConfig) : DepositWatcherConfigBroken :=
  let broken := fmap (λ v, {| pvb_price := Some (pv_price v); pvb_volume := Some (pv_volume v) |}) in
  {| dwb_deposit_allocations := dwc_deposit_allocations c;
     dwb_bid_ask := {| bab_bids := broken (ba_bids (dwc_bid_ask c)); bab_asks := broken (ba_asks (dwc_bid_ask c));
                       bab_center_price := ba_center_price (dwc_bid_ask c) |};
     dwb_last_btc_timestamp := dwc_last_btc_timestamp c; dwb_ask_bid_code_reset := dwc_ask_bid_code_reset c |}.
#[local] Instance config_text : JsonCodec DepositWatcherConfig := {|
  json_to_string := λ c, inr (String.string_of_list_byte (encode_to_vec c));
  json_from_str := λ t, proto_decode (String.list_byte_of_string t) |}.
#[local] Instance broken_text : JsonCodec DepositWatcherConfigBroken := {|
  json_to_string := λ _, inl "not written";
  json_from_str := λ t, match json_from_str t with inr c => inr (broken_of c) | inl e => inl e end |}.
Lemma texts_laws : ConfigJsonLaws.
Proof.
assert (∀ (c c' : DepositWatcherConfig) t, json_to_string c = inr t → json_from_str t = inr c' → c' = c) as Hback.
{ intros c c' t Ht%(inj inr) H. subst t. unfold json_from_str, config_text in H. rewrite String.list_byte_of_string_of_list_byte in H.
  assert (proto_decode (encode_to_vec c) = inr c) as E by exact (ser_proto_laws DepositWatcherConfig c). rewrite E in H. by injection H as <-. }
split; [intros c c' t Hc Hb; rewrite (Hback c c' t Hc Hb); apply same_allocation_refl|]. intros c b t Hc Hb. unfold json_from_str at 1, broken_text in Hb.
destruct (json_from_str t : string + DepositWatcherConfig) as [|c'] eqn:E; [done|]. injection Hb as <-. rewrite (Hback c c' t Hc E). apply same_allocation_refl.
Qed.

(** The joint key, funded on the own network; a bitcoin deposit of "alice". *)
Definition joint : PublicKey := PublicKey_from_bytes MultipartyDemo.joint.
Definition joint_address : Address := match PublicKey_address joint with Ok a => a | _ => demo_address end.
Definition funding : Transaction := PartyDemo.transfer (PartyDemo.user_key Byte.x03) (Output_new joint_address 10000000).
(** A user's redgold, sent to be swapped. *)
Definition swap : Transaction := PartyDemo.transfer (PartyDemo.user_key Byte.x04)
  (o_with_contract (Some (contract_of_type StandardContractType_Swap)) (Output_new joint_address 8000000)).
Definition observation (time : Z) : bytes := encode_to_vec
  {| op_observation_hash := None; op_merkle_proof := None;
     op_metadata := Some {| om_observed_hash := None; om_observation_type := 0; om_state := State_Accepted;
       om_validation_confidence := None; om_struct_metadata := struct_metadata time;
       om_validation_liveness := ValidationLiveness_Live; om_liveness_confidence := None |};
     op_proof := Some (PartyDemo.proof_of PartyDemo.seed) |}.
(** The transaction is stored, with the observation of it by the seed. *)
Definition observe (tx : Transaction) (time : Z) (s : Store) : Store :=
  let s := (insert_transaction tx time true None true s).2 in
  let hash := match hash_bytes tx with Ok b => b | _ => [] end in
  {| st_transactions := st_transactions s; st_utxo := st_utxo s; st_edge := st_edge s; st_address_transaction := st_address_transaction s;
     st_observation := st_observation s;
     st_observation_edge := <[(([] : bytes, [] : bytes), ([] : bytes, hash)) := {| oer_edge := observation time; oer_time := time |}]>
       (st_observation_edge s) |}.
Definition store : Store := observe swap 7200000 (observe funding 1000 empty_store).
Definition wallet : SingleKeyBitcoinWallet :=
  {| bw_public_key := joint; bw_main := false; bw_psbt := None; bw_transaction_details := None; bw_proofs := ∅; bw_err := None; bw_sent := [] |}.
(** A coin of the user was spent to the key, an hour later than the funding. *)
Definition self_script : bytes := match wallet_address wallet with Ok a => String.list_byte_of_string a | _ => [] end.
Definition deposit : TransactionDetails :=
  {| td_transaction := Some {| bx_input := [{| pt_txid := "before"; pt_vout := 0 |}];
                               bx_output := [{| to_value := 40000; to_script_pubkey := self_script |}] |};
     td_txid := "deposit"; td_confirmation_time := Some 3600 |}.
Definition server : Bdk := {|
  bdk_sync := None; bdk_confirmed := inr 40000; bdk_list_transactions := inr [deposit];
  bdk_get_tx := λ _, inr (Some {| bx_input := []; bx_output := [{| to_value := 40000; to_script_pubkey := String.list_byte_of_string "alice" |}] |});
  bdk_finish := λ rs, inr (WalletDemo.made rs, "payment"); bdk_refuses := λ _, false;
  bdk_finalize := bdk_finalize WalletDemo.online;
  bdk_extract_tx := ps_unsigned_tx; bdk_broadcast := λ _, None |}.
Definition seeds : list Seed := [{| sd_public_key := Some PartyDemo.seed |}].
Definition outside : TurnEnv := {|
  te_bdk := server; te_client := None; te_created := None; te_http := OutgoingDemo.wire; te_now := 100000000; te_salt := 1;
  te_usd_btc := Ok (f64_of_Z 60000); te_await_reply := λ _, Err (error_info "no answer") |}.
Definition alloc : DepositKeyAllocation :=
  {| dk_key := joint; dk_allocation := f64_one; dk_initiate_identifier := Some MultipartyDemo.ident; dk_balance_btc := 0; dk_balance_rdg := 0 |}.
Definition watcher : Watcher :=
  {| wa_mp := {| mn_node := ns_with_peers OutgoingDemo.table (SearchDemo.node_with store); mn_auths := no_auths;
                 mn_db := MultipartyDemo.with_share; mn_drawn := 0 |};
     wa_wallet := [wallet] |}.
Definition played : RgResult (option CurveUpdateResult) * Watcher :=
  process_requests (prs := OutgoingDemo.carries MultipartyDemo.agreed) demo_kp HandlerDemo.fixed_peer HandlerDemo.fixed_node Dev 16480 seeds pretty
    MultipartyDemo.no_error MultipartyDemo.yields_signature outside alloc 0 watcher.
Definition update : CurveUpdateResult :=
  match played.1 with Ok (Some u) => u
  | _ => {| cu_bid_ask := {| ba_bids := []; ba_asks := []; ba_center_price := f64_one |}; cu_btc_timestamp := 0; cu_allocation := alloc |} end.
(** The round pays on both networks. *)
Lemma round_pays_witness :
  length (submitted played.2) = 1%nat ∧ length (paid_out played.2) = 1%nat ∧
  ∃ w wl po, process_requests_new store wl.2 wl.1 (bw_public_key w) 40000 Dev [PartyDemo.seed] alloc 0 1 100000000 = Ok (po, update) ∧
    btc_paid outside (po_btc po) watcher played.2.
Proof.
split; [vm_compute; reflexivity|]. split; [vm_compute; reflexivity|].
destruct (round_pays (prs := OutgoingDemo.carries MultipartyDemo.agreed) demo_kp HandlerDemo.fixed_peer HandlerDemo.fixed_node Dev 16480 seeds pretty MultipartyDemo.no_error
  MultipartyDemo.yields_signature (rlaws := MultipartyDemo.demo_rlaws) (claws := toy_crypto_laws) (blaws := WalletDemo.toy_bitcoin_laws) outside alloc 0 watcher update played.2)
  as (w & wl & balance & po & _ & _ & Hb & Hp & _ & Hpaid).
- apply (run_fst played). vm_compute. reflexivity.
- injection Hb as <-. exists w, wl, po. split; [exact Hp|exact Hpaid].
Defined.

(** The node's own transaction, as the node makes it. *)
Definition fixed_node (_ : option NodeMetadata) : Transaction :=
  tb_transaction (with_output_node_metadata demo_kp_address demo_nmd 0 (TransactionBuilder_new Dev 1 1)).
(** A turn with that key; it stores the new curve. *)
Definition config : DepositWatcherConfig :=
  {| dwc_deposit_allocations := [alloc]; dwc_bid_ask := {| ba_bids := []; ba_asks := []; ba_center_price := f64_one |};
     dwc_last_btc_timestamp := 0; dwc_ask_bid_code_reset := None |}.
Definition configured : Watcher :=
  {| wa_mp := {| mn_node := ns_with_config {[ config_key := text_row (String.string_of_list_byte (encode_to_vec config)) ]} (wa_node watcher);
                 mn_auths := no_auths; mn_db := MultipartyDemo.with_share; mn_drawn := 0 |};
     wa_wallet := [] |}.
Notation after es s := (watcher_states (prs := OutgoingDemo.carries MultipartyDemo.agreed) demo_kp HandlerDemo.fixed_peer fixed_node Dev 16480 seeds
  (Err (error_info "no words")) (λ _, Err (error_info "no words")) pretty MultipartyDemo.no_error "null" MultipartyDemo.yields_share MultipartyDemo.yields_signature es s).
Lemma deposit_key_kept_witness :
  wa_config (after [outside] configured) !! config_key ≠ wa_config configured !! config_key ∧
  holds joint (Some MultipartyDemo.ident) (after [outside; outside] configured).
Proof.
split; [vm_compute; discriminate|].
apply (deposit_key_kept (prs := OutgoingDemo.carries MultipartyDemo.agreed) demo_kp HandlerDemo.fixed_peer fixed_node Dev 16480 seeds
  (Err (error_info "no words")) (λ _, Err (error_info "no words")) pretty MultipartyDemo.no_error "null" MultipartyDemo.yields_share
  MultipartyDemo.yields_signature (laws := texts_laws) joint (Some MultipartyDemo.ident) [outside; outside] configured).
split; [|constructor]. exists config. eexists. split; [reflexivity|]. split; [reflexivity|]. exists alloc. split; [reflexivity|split; reflexivity].
Defined.

(** Five seeds; two of them can be reached, and each signs its answers. *)
Definition kp_c : KeyPair (secp := toy_secp) :=
  Build_KeyPair (secp := toy_secp) (repeat Byte.x0a 33 : secret_key (Secp := toy_secp)) (repeat Byte.x0a 33).
Definition key_c : PublicKey := KeyPair_public_key kp_c.
Definition agreed_c : Response ResponseBody :=
  match Response_with_auth (prs := HandlerDemo.demo_prs) kp_c (Response_with_metadata (OutgoingDemo.describe key_c "c") (OutgoingDemo.unsigned empty_body)) with
  | Ok r => r | _ => OutgoingDemo.unsigned empty_body end.
Definition answers : Proto (Response ResponseBody) :=
  {| encode_to_vec := λ _, [Byte.x02];
     proto_decode := λ b, inr (if bool_decide (b = [Byte.x02]) then MultipartyDemo.agreed else agreed_c) |}.
Definition five : list Seed := (λ k, {| sd_public_key := Some k |}) <$>
  [OutgoingDemo.key_b; key_c; PartyDemo.user_key Byte.x0b; KeyPair_public_key demo_kp; PartyDemo.user_key Byte.x0c].
Definition reaching : TurnEnv := {|
  te_bdk := server; te_client := None; te_created := None;
  te_http := λ url b, if bool_decide (url = "http://c:16481/request_proto") then Some (Body [Byte.x03]) else OutgoingDemo.wire url b;
  te_now := 100000000; te_salt := 1; te_usd_btc := Ok (f64_of_Z 60000); te_await_reply := λ _, Err (error_info "no answer") |}.
Definition table : PeerDb := OutgoingDemo.known key_c "c" OutgoingDemo.table.
Definition unconfigured : Watcher :=
  {| wa_mp := {| mn_node := ns_with_peers table (SearchDemo.node_with store); mn_auths := no_auths; mn_db := empty_mp; mn_drawn := 0 |};
     wa_wallet := [] |}.
Definition first_turn : RgResult (option unit) * Watcher :=
  watcher_fold (prs := answers) demo_kp HandlerDemo.fixed_peer fixed_node Dev 16480 five (Ok (KeyPair_public_key demo_kp)) (λ _, Ok demo_kp)
    pretty MultipartyDemo.no_error "null" MultipartyDemo.yields_share MultipartyDemo.yields_signature reaching unconfigured.
Lemma key_table_wf : peers_wf table.
Proof.
apply (peers_reach_wf (laws := ser_proto_laws Transaction)).
exact (pr_op (OpAdd (OutgoingDemo.info_of key_c "c") (KeyPair_public_key demo_kp) 1000) _
  (pr_op (OpAdd (OutgoingDemo.info_of OutgoingDemo.key_b "b") (KeyPair_public_key demo_kp) 1000) empty_peers pr_empty)).
Qed.
Lemma deposit_key_tested_witness :
  ∃ c d ident share proof, wa_config first_turn.2 !! config_key = Some (text_row (String.string_of_list_byte (encode_to_vec c))) ∧
    dwc_deposit_allocations c = [d] ∧ dk_initiate_identifier d = Some ident ∧ mi_threshold ident = 2 ∧
    pf_public_key proof = Some (dk_key d) ∧ Proof_verify proof (Hash_new (sha3_256 (String.list_byte_of_string (mi_uuid ident)))) = Ok tt ∧
    local_share_and_initiate (mn_db (wa_mp first_turn.2)) (mi_uuid ident) = Ok (Some (share, {| ikr_identifier := Some ident |})).
Proof.
destruct (deposit_key_tested (prs := answers) demo_kp HandlerDemo.fixed_peer fixed_node Dev 16480 five (Ok (KeyPair_public_key demo_kp)) (λ _, Ok demo_kp)
    pretty MultipartyDemo.no_error "null" MultipartyDemo.yields_share MultipartyDemo.yields_signature
    (rlaws := MultipartyDemo.demo_rlaws) (claws := toy_crypto_laws) (lik := MultipartyDemo.demo_lik) reaching unconfigured first_turn.2)
  as (c & t & d & ident & share & proof & l & Hrow & Ht & Hd & Hi & Hk & Hth & _ & _ & _ & Hpk & Hv & Hsh).
- exact key_table_wf.
- vm_compute. reflexivity.
- apply (run_fst first_turn). vm_compute. reflexivity.
- apply not_eq_None_Some. vm_compute. discriminate.
- exists c, d, ident, share, proof. apply (inj inr) in Ht. rewrite Ht. split; [exact Hrow|]. split; [exact Hd|]. split; [exact Hi|].
  split; [rewrite Hth, Hk; reflexivity|]. split; [exact Hpk|]. split; [exact Hv|exact Hsh].
Defined.
End WatcherDemo.
