(* ===== verification/RosettaModels.v ===== *)
(** * The messages of the Rosetta API

    src/api/rosetta/models.rs: the requests and answers of the Rosetta standard as the
    node reads and writes them, one record per struct and one type per enumeration, and
    the texts of the enumerations.  An error carries the code of the node's own errors,
    whose number the standard asks for. *)

From stdpp Require Import base list strings.
From S2P Require Import Prelude Structs F64.
#[local] Open Scope Z_scope.

(** ** Data *)

(** A message without fields. *)
Record GenericMetadata := { }.
Record SubNetworkIdentifier := { sni_network : string; sni_metadata : option GenericMetadata }.
Record NetworkIdentifier := { nid_blockchain : string; nid_network : string; nid_sub_network_identifier : option SubNetworkIdentifier }.
Record SubAccountIdentifier := { sai_address : string; sai_metadata : option GenericMetadata }.
Record AccountIdentifier := { aci_address : string; aci_sub_account : option SubAccountIdentifier; aci_metadata : option GenericMetadata }.
Record PartialBlockIdentifier := { pbi_index : option Z; pbi_hash : option string }.
Record Currency := { cur_symbol : string; cur_decimals : Z; cur_metadata : option GenericMetadata }.
Record AccountBalanceRequest := {
  abq_network_identifier : NetworkIdentifier; abq_account_identifier : AccountIdentifier;
  abq_block_identifier : option PartialBlockIdentifier; abq_currencies : option (list Currency) }.
Record BlockIdentifier := { bid_index : Z; bid_hash : string }.
Record Amount := { amt_value : string; amt_currency : Currency; amt_metadata : option GenericMetadata }.
Record AccountBalanceResponse := {
  abp_block_identifier : BlockIdentifier; abp_balances : list Amount; abp_metadata : option GenericMetadata }.
Record AccountCoinsRequest := {
  acq_network_identifier : NetworkIdentifier; acq_account_identifier : AccountIdentifier; acq_include_mempool : bool;
  acq_currencies : option (list Currency) }.
Record CoinIdentifier := { cid_identifier : string }.
Record Coin := { cn_coin_identifier : CoinIdentifier; cn_amount : Amount }.
Record AccountCoinsResponse := { acp_block_identifier : BlockIdentifier; acp_coins : list Coin; acp_metadata : option GenericMetadata }.
Record OperationStatus := { ost_status : string; ost_successful : bool }.
Record RosettaError := {
  rer_code : ErrorCode; rer_message : string; rer_description : option string; rer_retriable : bool; rer_details : option ErrorInfo }.
Inductive ExemptionType := ExemptionType_GREATER_OR_EQUAL | ExemptionType_LESS_OR_EQUAL | ExemptionType_DYNAMIC.
Record BalanceExemption := {
  bex_sub_account_address : option string; bex_currency : option Currency; bex_exemption_type : option ExemptionType }.
Inductive Case := Case_UPPER_CASE | Case_LOWER_CASE | Case_CASE_SENSITIVE | Case_NULL.
Record Allow := {
  alw_operation_statuses : list OperationStatus; alw_operation_types : list string; alw_errors : list RosettaError;
  alw_historical_balance_lookup : bool; alw_timestamp_start_index : option Z; alw_call_methods : list string;
  alw_balance_exemptions : list BalanceExemption; alw_mempool_coins : bool; alw_block_hash_case : option Case;
  alw_transaction_hash_case : option Case }.
Record TransactionIdentifier := { tid_hash : string }.
Record OperationIdentifier := { oid_index : Z; oid_network_index : option Z }.
Inductive CoinAction := CoinAction_CREATED | CoinAction_SPENT.
Record CoinChange := { cch_coin_identifier : CoinIdentifier; cch_coin_action : CoinAction }.
Record Operation := {
  opn_operation_identifier : OperationIdentifier; opn_related_operations : option (list OperationIdentifier); opn_type : string;
  opn_status : option string; opn_account : option AccountIdentifier; opn_amount : option Amount;
  opn_coin_change : option CoinChange; opn_metadata : option GenericMetadata }.
Inductive Direction := Direction_FORWARD | Direction_BACKWARD.
Record RelatedTransaction := {
  rtx_network_identifier : option NetworkIdentifier; rtx_transaction_identifier : TransactionIdentifier;
  rtx_direction : Direction }.
Record RosettaTransaction := {
  rtr_transaction_identifier : TransactionIdentifier; rtr_operations : list Operation;
  rtr_related_transactions : option (list RelatedTransaction); rtr_metadata : option GenericMetadata }.
Record RosettaBlock := {
  rbl_block_identifier : BlockIdentifier; rbl_parent_block_identifier : BlockIdentifier; rbl_timestamp : Z;
  rbl_transactions : list RosettaTransaction; rbl_metadata : option GenericMetadata }.
Inductive BlockEventType := BlockEventType_ADDED | BlockEventType_REMOVED.
Record BlockEvent := { bev_sequence : Z; bev_block_identifier : BlockIdentifier; bev_type : BlockEventType }.
Record BlockRequest := { brq_network_identifier : NetworkIdentifier; brq_block_identifier : PartialBlockIdentifier }.
Record BlockResponse := { brp_block : option RosettaBlock; brp_other_transactions : option (list TransactionIdentifier) }.
Record BlockTransaction := { btx_block_identifier : BlockIdentifier; btx_transaction : RosettaTransaction }.
Record BlockTransactionRequest := {
  btq_network_identifier : NetworkIdentifier; btq_block_identifier : BlockIdentifier;
  btq_transaction_identifier : TransactionIdentifier }.
Record BlockTransactionResponse := { btp_transaction : RosettaTransaction }.
Record CallRequest := { clq_network_identifier : NetworkIdentifier; clq_method : string; clq_parameters : GenericMetadata }.
Record CallResponse := { clp_result : GenericMetadata; clp_idempotent : bool }.
Inductive RosettaSignatureType := RosettaSignatureType_ECDSA | RosettaSignatureType_ECDSA_RECOVERY | RosettaSignatureType_ED25519
  | RosettaSignatureType_SCHNORR_1 | RosettaSignatureType_SCHNORR_POSEIDON.
Record SigningPayload := {
  spl_address : option string; spl_account_identifier : option AccountIdentifier; spl_hex_bytes : string;
  spl_signature_type : option RosettaSignatureType }.
Inductive CurveType := CurveType_SECP256K1 | CurveType_SECP256R1 | CurveType_EDWARDS25519 | CurveType_TWEEDLE | CurveType_PALLAS.
Record RosettaPublicKey := { rpk_hex_bytes : string; rpk_curve_type : CurveType }.
Record RosettaSignature := {
  rsg_signing_payload : SigningPayload; rsg_public_key : RosettaPublicKey; rsg_signature_type : RosettaSignatureType;
  rsg_hex_bytes : string }.
Record ConstructionCombineRequest := {
  ccq_network_identifier : NetworkIdentifier; ccq_unsigned_transaction : string; ccq_signatures : list RosettaSignature }.
Record ConstructionCombineResponse := { ccp_signed_transaction : string }.
Record ConstructionDeriveRequest := {
  cdq_network_identifier : NetworkIdentifier; cdq_public_key : RosettaPublicKey; cdq_metadata : option GenericMetadata }.
Record ConstructionDeriveResponse := {
  cdp_address : option string; cdp_account_identifier : option AccountIdentifier; cdp_metadata : option GenericMetadata }.
Record ConstructionHashRequest := { chq_network_identifier : NetworkIdentifier; chq_signed_transaction : string }.
Record ConstructionMetadataRequest := {
  cmq_network_identifier : NetworkIdentifier; cmq_options : option GenericMetadata;
  cmq_public_keys : option (list RosettaPublicKey) }.
Record ConstructionMetadataResponseMetadata := { cmm_utxos : list UtxoEntry }.
Record ConstructionMetadataResponse := { cmp_metadata : ConstructionMetadataResponseMetadata; cmp_suggested_fee : option (list Amount) }.
Record ConstructionParseRequest := { cpq_network_identifier : NetworkIdentifier; cpq_signed : bool; cpq_transaction : string }.
Record ConstructionParseResponse := {
  cpp_operations : list Operation; cpp_signers : option (list string);
  cpp_account_identifier_signers : option (list AccountIdentifier); cpp_metadata : option GenericMetadata }.
Record ConstructionPayloadsRequest := {
  cyq_network_identifier : NetworkIdentifier; cyq_operations : list Operation;
  cyq_metadata : option ConstructionMetadataResponseMetadata; cyq_public_keys : option (list RosettaPublicKey) }.
Record ConstructionPayloadsResponse := { cyp_unsigned_transaction : string; cyp_payloads : list SigningPayload }.
Record ConstructionPreprocessRequest := {
  crq_network_identifier : NetworkIdentifier; crq_operations : list Operation; crq_metadata : option GenericMetadata;
  crq_max_fee : option (list Amount); crq_suggested_fee_multiplier : option f64 }.
Record ConstructionPreprocessResponse := {
  crp_options : option GenericMetadata; crp_required_public_keys : option (list AccountIdentifier) }.
Record ConstructionSubmitRequest := { csq_network_identifier : NetworkIdentifier; csq_signed_transaction : string }.
Record EventsBlocksRequest := { ebq_network_identifier : NetworkIdentifier; ebq_offset : option Z; ebq_limit : option Z }.
Record EventsBlocksResponse := { ebp_max_sequence : Z; ebp_events : list BlockEvent }.
Record MempoolResponse := { mpp_transaction_identifiers : list TransactionIdentifier }.
Record MempoolTransactionRequest := { mtq_network_identifier : NetworkIdentifier; mtq_transaction_identifier : TransactionIdentifier }.
Record MempoolTransactionResponse := { mtp_transaction : RosettaTransaction; mtp_metadata : option GenericMetadata }.
Record MetadataRequest := { mdq_metadata : option GenericMetadata }.
Record NetworkListResponse := { nlp_network_identifiers : list NetworkIdentifier }.
Record RosettaVersion := {
  ver_rosetta_version : string; ver_node_version : string; ver_middleware_version : option string;
  ver_metadata : option GenericMetadata }.
Record NetworkOptionsResponse := { nop_version : RosettaVersion; nop_allow : Allow }.
Record NetworkRequest := { nwq_network_identifier : NetworkIdentifier; nwq_metadata : option GenericMetadata }.
Record SyncStatus := { sst_current_index : option Z; sst_target_index : option Z; sst_stage : option string; sst_synced : option bool }.
Record RosettaPeer := { rpe_peer_id : string; rpe_metadata : option GenericMetadata }.
Record NetworkStatusResponse := {
  nsp_current_block_identifier : BlockIdentifier; nsp_current_block_timestamp : Z; nsp_genesis_block_identifier : BlockIdentifier;
  nsp_oldest_block_identifier : option BlockIdentifier; nsp_sync_status : option SyncStatus; nsp_peers : list RosettaPeer }.
Inductive Operator := Operator_OR | Operator_AND.
Record SearchTransactionsRequest := {
  stq_network_identifier : NetworkIdentifier; stq_operator : option Operator; stq_max_block : option Z; stq_offset : option Z;
  stq_limit : option Z; stq_transaction_identifier : option TransactionIdentifier;
  stq_account_identifier : option AccountIdentifier; stq_coin_identifier : option CoinIdentifier; stq_currency : option Currency;
  stq_status : option string; stq_type : option string; stq_address : option string; stq_success : option bool }.
Record SearchTransactionsResponse := { stp_transactions : list BlockTransaction; stp_total_count : Z; stp_next_offset : option Z }.

(** ** Texts *)

Definition BlockEventType_fmt (x : BlockEventType) : string :=
  match x with BlockEventType_ADDED => "block_added" | BlockEventType_REMOVED => "block_removed" end.
Definition BlockEventType_from_str (s : string) : option BlockEventType :=
  if bool_decide (s = "block_added") then Some BlockEventType_ADDED
  else if bool_decide (s = "block_removed") then Some BlockEventType_REMOVED else None.
Definition Case_fmt (x : Case) : string :=
  match x with Case_UPPER_CASE => "upper_case" | Case_LOWER_CASE => "lower_case" | Case_CASE_SENSITIVE => "case_sensitive" | Case_NULL => "null" end.
Definition Case_from_str (s : string) : option Case :=
  if bool_decide (s = "upper_case") then Some Case_UPPER_CASE else if bool_decide (s = "lower_case") then Some Case_LOWER_CASE
  else if bool_decide (s = "case_sensitive") then Some Case_CASE_SENSITIVE else if bool_decide (s = "null") then Some Case_NULL else None.
Definition CoinAction_fmt (x : CoinAction) : string :=
  match x with CoinAction_CREATED => "coin_created" | CoinAction_SPENT => "coin_spent" end.
Definition CoinAction_from_str (s : string) : option CoinAction :=
  if bool_decide (s = "coin_created") then Some CoinAction_CREATED else if bool_decide (s = "coin_spent") then Some CoinAction_SPENT else None.
Definition CurveType_fmt (x : CurveType) : string :=
  match x with CurveType_SECP256K1 => "secp256k1" | CurveType_SECP256R1 => "secp256r1" | CurveType_EDWARDS25519 => "edwards25519"
  | CurveType_TWEEDLE => "tweedle" | CurveType_PALLAS => "pallas" end.
Definition CurveType_from_str (s : string) : option CurveType :=
  if bool_decide (s = "secp256k1") then Some CurveType_SECP256K1 else if bool_decide (s = "secp256r1") then Some CurveType_SECP256R1
  else if bool_decide (s = "edwards25519") then Some CurveType_EDWARDS25519 else if bool_decide (s = "tweedle") then Some CurveType_TWEEDLE
  else if bool_decide (s = "pallas") then Some CurveType_PALLAS else None.
Definition Direction_fmt (x : Direction) : string :=
  match x with Direction_FORWARD => "forward" | Direction_BACKWARD => "backward" end.
Definition Direction_from_str (s : string) : option Direction :=
  if bool_decide (s = "forward") then Some Direction_FORWARD else if bool_decide (s = "backward") then Some Direction_BACKWARD else None.
Definition ExemptionType_fmt (x : ExemptionType) : string :=
  match x with ExemptionType_GREATER_OR_EQUAL => "greater_or_equal" | ExemptionType_LESS_OR_EQUAL => "less_or_equal"
  | ExemptionType_DYNAMIC => "dynamic" end.
Definition ExemptionType_from_str (s : string) : option ExemptionType :=
  if bool_decide (s = "greater_or_equal") then Some ExemptionType_GREATER_OR_EQUAL
  else if bool_decide (s = "less_or_equal") then Some ExemptionType_LESS_OR_EQUAL
  else if bool_decide (s = "dynamic") then Some ExemptionType_DYNAMIC else None.
Definition Operator_fmt (x : Operator) : string :=
  match x with Operator_OR => "or" | Operator_AND => "and" end.
Definition Operator_from_str (s : string) : option Operator :=
  if bool_decide (s = "or") then Some Operator_OR else if bool_decide (s = "and") then Some Operator_AND else None.
Definition RosettaSignatureType_fmt (x : RosettaSignatureType) : string :=
  match x with RosettaSignatureType_ECDSA => "ecdsa" | RosettaSignatureType_ECDSA_RECOVERY => "ecdsa_recovery"
  | RosettaSignatureType_ED25519 => "ed25519" | RosettaSignatureType_SCHNORR_1 => "schnorr_1"
  | RosettaSignatureType_SCHNORR_POSEIDON => "schnorr_poseidon" end.
Definition RosettaSignatureType_from_str (s : string) : option RosettaSignatureType :=
  if bool_decide (s = "ecdsa") then Some RosettaSignatureType_ECDSA
  else if bool_decide (s = "ecdsa_recovery") then Some RosettaSignatureType_ECDSA_RECOVERY
  else if bool_decide (s = "ed25519") then Some RosettaSignatureType_ED25519
  else if bool_decide (s = "schnorr_1") then Some RosettaSignatureType_SCHNORR_1
  else if bool_decide (s = "schnorr_poseidon") then Some RosettaSignatureType_SCHNORR_POSEIDON else None.

(** Every text that is written is read back. *)
Class Named (A : Type) := { fmt : A → string; from_str : string → option A }.
#[global] Instance BlockEventType_named : Named BlockEventType := {| fmt := BlockEventType_fmt; from_str := BlockEventType_from_str |}.
#[global] Instance Case_named : Named Case := {| fmt := Case_fmt; from_str := Case_from_str |}.
#[global] Instance CoinAction_named : Named CoinAction := {| fmt := CoinAction_fmt; from_str := CoinAction_from_str |}.
#[global] Instance CurveType_named : Named CurveType := {| fmt := CurveType_fmt; from_str := CurveType_from_str |}.
#[global] Instance Direction_named : Named Direction := {| fmt := Direction_fmt; from_str := Direction_from_str |}.
#[global] Instance ExemptionType_named : Named ExemptionType := {| fmt := ExemptionType_fmt; from_str := ExemptionType_from_str |}.
#[global] Instance Operator_named : Named Operator := {| fmt := Operator_fmt; from_str := Operator_from_str |}.
#[global] Instance RosettaSignatureType_named : Named RosettaSignatureType := {| fmt := RosettaSignatureType_fmt; from_str := RosettaSignatureType_from_str |}.
Class NamedLaws (A : Type) `{Named A} : Prop := from_str_fmt : ∀ a : A, from_str (fmt a) = Some a.
Lemma fmt_inj `{NamedLaws A} (a b : A) : fmt a = fmt b → a = b.
Proof. intros E. apply (inj Some). by rewrite <- !from_str_fmt, E. Qed.
#[global] Instance BlockEventType_texts : NamedLaws BlockEventType.
Proof. by intros []. Qed.
#[global] Instance Case_texts : NamedLaws Case.
Proof. by intros []. Qed.
#[global] Instance CoinAction_texts : NamedLaws CoinAction.
Proof. by intros []. Qed.
#[global] Instance CurveType_texts : NamedLaws CurveType.
Proof. by intros []. Qed.
#[global] Instance Direction_texts : NamedLaws Direction.
Proof. by intros []. Qed.
#[global] Instance ExemptionType_texts : NamedLaws ExemptionType.
Proof. by intros []. Qed.
#[global] Instance Operator_texts : NamedLaws Operator.
Proof. by intros []. Qed.
#[global] Instance RosettaSignatureType_texts : NamedLaws RosettaSignatureType.
Proof. by intros []. Qed.
