(* ===== verification/Rosetta.v ===== *)
(** * The Rosetta API

    src/api/rosetta: how the node speaks the Rosetta standard.  [spec.rs] translates
    blocks, transactions and keys, [handlers.rs] has one function per endpoint, and
    [server.rs] chooses the endpoint by the path, reads the request and writes the
    answer with its status.  The messages are those of RosettaModels.v.

    The handlers see the node (Handler.v) and the tables of blocks (Block.v).  All but
    [construction_submit] only read; a handler is a function of the state then.  The
    clock, the JSON texts of requests and answers and the answers to submitted
    transactions are parameters.  A map of the source is iterated in the order of its
    keys here; there the order is arbitrary. *)

From Stdlib Require Import Ascii Sorting.Sorted.
From stdpp Require Import base list strings gmap pretty.
From S2P Require Import Prelude Structs Interfaces F64 Schema Merkle Transaction Keys Store Wire Block Peers Config Sync Handler RosettaModels.
#[local] Open Scope Z_scope.
#[local] Open Scope redgold_scope.

(** ** Numbers and names *)

(** [str::parse::<i64>]: an optional sign and digits; no overflow. *)
Definition digit_value (c : Ascii.ascii) : option Z :=
  let n := Z.of_N (Ascii.N_of_ascii c) in if (48 <=? n) && (n <=? 57) then Some (n - 48) else None.
Fixpoint parse_digits (acc : Z) (s : string) : option Z :=
  match s with
  | EmptyString => Some acc
  | String c s => d ← digit_value c; parse_digits (acc * 10 + d) s
  end.
Definition parse_magnitude (s : string) : option Z := match s with EmptyString => None | _ => parse_digits 0 s end.
Definition parse_signed (s : string) : option Z :=
  match s with
  | String c s' =>
      if bool_decide (c = "-"%char) then Z.opp <$> parse_magnitude s'
      else if bool_decide (c = "+"%char) then parse_magnitude s' else parse_magnitude s
  | EmptyString => None
  end.
Definition parse_i64 (s : string) : option Z := z ← parse_signed s; if bool_decide (in_s 64 z) then Some z else None.

Definition network_std_string (n : NetworkEnvironment) : string :=
  match n with
  | Main => "main" | Test => "test" | Dev => "dev" | Staging => "staging" | Perf => "perf" | Integration => "integration"
  | Local_ => "local" | Debug_ => "debug" | All => "all" | Predev => "predev"
  end.
Definition state_debug (state : Z) : string :=
  if state =? State_Pending then "Pending" else if state =? State_Accepted then "Accepted" else if state =? 2 then "Reverted" else "Ordered".

Record RosettaState := { ro_node : NodeState; ro_blocks : BlockDb }.
Definition ro_store (s : RosettaState) : Store := ns_store (ro_node s).

Section rosetta.
Context {host : Host} {crypto : Crypto} {ptx : Proto Transaction} {pue : Proto UtxoEntry} {pei : Proto ErrorInfo}.
Context {pbl : Proto Block} {ppf : Proto Proof_}.
Context (network : NetworkEnvironment) (now : Z) (await_reply : Transaction → RgResult (Response (option SubmitTransactionResponse))).

Definition i64_from_string (value : string) : RgResult Z :=
  ok_or (parse_i64 value) (error_message ParseFailure "unable to parse i64 value from string amount").

(** ** spec.rs *)

Definition redgold_currency : Currency := {| cur_symbol := "RDG"; cur_decimals := 8; cur_metadata := None |}.
Definition amount (val : Z) : Amount := {| amt_value := pretty val; amt_currency := redgold_currency; amt_metadata := None |}.
Definition redgold_blockchain : string := "redgold".
Definition operation_type : string := "TRANSFER".

Definition validate_network (n : NetworkIdentifier) : RgResult unit :=
  let current_network := network_std_string network in
  if bool_decide (nid_network n ≠ current_network) then
    Err (error_message InvalidNetworkEnvironment
      ("Expected current network environment " +:+ current_network +:+ " but got " +:+ nid_network n))
  else if bool_decide (nid_blockchain n ≠ redgold_blockchain) then
    Err (error_message InvalidNetworkEnvironment ("Expected blockchain " +:+ redgold_blockchain +:+ " but got " +:+ nid_blockchain n))
  else match nid_sub_network_identifier n with
       | Some _ => Err (error_message InvalidNetworkEnvironment "Sub network supplied but sub networks not supported")
       | None => Ok tt
       end.
Definition validate_currency (c : Currency) : RgResult unit :=
  if bool_decide (cur_symbol c ≠ cur_symbol redgold_currency)
  then Err (error_message UnsupportedCurrency ("Currency " +:+ cur_symbol c +:+ " not supported")) else Ok tt.
Definition validate_currencies (opt_currencies : option (list Currency)) : RgResult unit :=
  match opt_currencies with Some l => _ ← mapR validate_currency l; Ok tt | None => Ok tt end.

Definition query_block (s : RosettaState) (hash : option string) (height : option Z) : RgResult (option Block) :=
  maybe_hash ← (match hash with Some h => Some <$> from_hex h | None => Ok None end);
  query_block_hash_height (ro_blocks s) maybe_hash height.
Definition block_identifier (b : Block) : RgResult BlockIdentifier :=
  h ← expect (hash_hex b); Ok {| bid_index := bl_height b; bid_hash := h |}.
Definition latest_block (s : RosettaState) : RgResult Block :=
  b ← query_last_block (ro_blocks s);
  ok_or b (error_message DataStoreInternalCorruption "Missing latest block").
Definition transaction_identifier (t : Transaction) : RgResult TransactionIdentifier :=
  h ← hash_hex t; Ok {| tid_hash := h |}.
Definition account_identifier (a : Address) : RgResult AccountIdentifier :=
  r ← render_string a; Ok {| aci_address := r; aci_sub_account := None; aci_metadata := None |}.
Definition coin_identifier : CoinIdentifier := {| cid_identifier := "transaction_hash:index." |}.
Definition operation (index state : Z) (address : Address) (operation_amount : Z) (coin_action : CoinAction) : RgResult Operation :=
  account ← account_identifier address;
  Ok {| opn_operation_identifier := {| oid_index := index; oid_network_index := None |}; opn_related_operations := None;
        opn_type := operation_type; opn_status := Some (state_debug state); opn_account := Some account;
        opn_amount := Some (amount operation_amount);
        opn_coin_change := Some {| cch_coin_identifier := coin_identifier; cch_coin_action := coin_action |};
        opn_metadata := None |}.
(** The output of an input that does not carry it is looked up, and unwrapped. *)
Definition input_output (s : RosettaState) (i : Input) : RgResult Output :=
  match i_output i with
  | Some o => Ok o
  | None =>
      utxo ← safe_get (i_utxo_id i);
      hash ← safe_get (u_transaction_hash utxo);
      result ← query_maybe_transaction (ro_store s) hash;
      r ← expect_opt result;
      if u_output_index utxo <? 0 then Panic else expect_opt (tx_outputs r.1 !! Z.to_nat (u_output_index utxo))
  end.
Definition output_operation (state : Z) (index : Z) (o : Output) (spent : bool) : RgResult Operation :=
  address ← expect_opt (o_address o);
  v ← Output_amount o;
  operation index state address (if spent then as_i64 (-1 * as_i64 v) else as_i64 v) (if spent then CoinAction_SPENT else CoinAction_CREATED).
Fixpoint output_operations (state index : Z) (os : list Output) : RgResult (list Operation) :=
  match os with
  | [] => Ok []
  | o :: os =>
      op ← output_operation state index o false;
      ops ← output_operations state (i64_add index 1) os; Ok (op :: ops)
  end.
Fixpoint input_operations (s : RosettaState) (state index : Z) (is_ : list Input) : RgResult (list Operation) :=
  match is_ with
  | [] => Ok []
  | i :: is_ =>
      o ← input_output s i;
      op ← output_operation state index o true;
      ops ← input_operations s state (i64_add index 1) is_; Ok (op :: ops)
  end.
Definition translate_operation (s : RosettaState) (t : Transaction) (state : Z) : RgResult (list Operation) :=
  created ← output_operations state 0 (tx_outputs t);
  spent ← input_operations s state (as_i64 (Z.of_nat (length (tx_outputs t)))) (tx_inputs t);
  Ok (created ++ spent).
Definition translate_transaction (s : RosettaState) (t : Transaction) (state : Z) : RgResult RosettaTransaction :=
  id ← transaction_identifier t;
  operations ← translate_operation s t state;
  Ok {| rtr_transaction_identifier := id; rtr_operations := operations; rtr_related_transactions := None; rtr_metadata := None |}.
Definition translate_block (s : RosettaState) (b : Block) (state : Z) : RgResult RosettaBlock :=
  let parent_height := Z.max (i64_sub (bl_height b) 1) (bl_height b) in
  parent_hash ← Hash_hex (default (hash_or b) (bl_previous_block_hash b));
  translated ← mapR (λ t, translate_transaction s t state) (bl_transactions b);
  id ← block_identifier b;
  m ← expect_opt (bl_struct_metadata b);
  time ← expect_opt (sm_time m);
  Ok {| rbl_block_identifier := id; rbl_parent_block_identifier := {| bid_index := parent_height; bid_hash := parent_hash |};
        rbl_timestamp := time; rbl_transactions := translated; rbl_metadata := None |}.

Definition translate_signature (sig : RosettaSignature) : RgResult Signature :=
  b ← from_hex (rsg_hex_bytes sig);
  Ok {| sig_bytes := bytes_data b; sig_type := SignatureType_Ecdsa; sig_rsv := None |}.
Definition translate_public_key (k : RosettaPublicKey) : RgResult PublicKey :=
  pub_bytes ← from_hex (rpk_hex_bytes k);
  Ok {| pk_bytes := bytes_data pub_bytes; pk_key_type := PublicKeyType_Secp256k1 |}.
Definition signature_to_proof (sig : RosettaSignature) : RgResult Proof_ :=
  s ← translate_signature sig; pk ← translate_public_key (rsg_public_key sig);
  Ok {| pf_signature := Some s; pf_public_key := Some pk |}.
Definition validate_type (_ : string) : RgResult unit := Ok tt.

(** ** handlers.rs *)

(** *** Accounts and blocks *)

Definition account_balance (request : AccountBalanceRequest) (s : RosettaState) : RgResult AccountBalanceResponse :=
  _ ← validate_network (abq_network_identifier request);
  _ ← validate_currencies (abq_currencies request);
  maybe_block ← (match abq_block_identifier request with Some p => query_block s (pbi_hash p) (pbi_index p) | None => Ok None end);
  address ← Address_parse (aci_address (abq_account_identifier request));
  block ← (match (maybe_block : option Block) with None => latest_block s | Some b => Ok b end);
  latest_balance ← query_address_balance_by_height (ro_blocks s) address (bl_height block);
  bal ← ok_or latest_balance (error_message AddressNotFound "No data found for address");
  id ← block_identifier block;
  Ok {| abp_block_identifier := id; abp_balances := [amount bal]; abp_metadata := None |}.
Definition coin_of (kv : bytes * UtxoEntry) : RgResult Coin :=
  o ← expect_opt (ue_output kv.2);
  v ← Output_amount o;
  Ok {| cn_coin_identifier := {| cid_identifier := hex_encode kv.1 |}; cn_amount := amount (as_i64 v) |}.
Definition keyed_coins (entries : list UtxoEntry) : RgResult (gmap bytes UtxoEntry) :=
  foldR (λ m e, id ← to_old_utxo_id e; Ok (<[coin_id id := e]> m)) ∅ entries.
Definition account_coins (request : AccountCoinsRequest) (s : RosettaState) : RgResult AccountCoinsResponse :=
  _ ← validate_network (acq_network_identifier request);
  _ ← validate_currencies (acq_currencies request);
  address ← Address_parse (aci_address (acq_account_identifier request));
  block ← latest_block s;
  entries ← query_utxo_address (ro_store s) address;
  map ← keyed_coins entries;
  coins ← mapR coin_of (map_to_list (map : gmap bytes UtxoEntry));
  id ← block_identifier block;
  Ok {| acp_block_identifier := id; acp_coins := coins; acp_metadata := None |}.
Definition block (request : BlockRequest) (s : RosettaState) : RgResult BlockResponse :=
  _ ← validate_network (brq_network_identifier request);
  maybe_block ← query_block s (pbi_hash (brq_block_identifier request)) (pbi_index (brq_block_identifier request));
  b ← (match (maybe_block : option Block) with Some b => Some <$> translate_block s b State_Accepted | None => Ok None end);
  Ok {| brp_block := b; brp_other_transactions := None |}.
Fixpoint find_transaction (hash : string) (ts : list Transaction) : RgResult (option Transaction) :=
  match ts with
  | [] => Ok None
  | t :: ts => h ← hash_hex t; if bool_decide (h = hash) then Ok (Some t) else find_transaction hash ts
  end.
Definition block_transaction (request : BlockTransactionRequest) (s : RosettaState) : RgResult BlockTransactionResponse :=
  _ ← validate_network (btq_network_identifier request);
  b ← query_block s (Some (bid_hash (btq_block_identifier request))) (Some (bid_index (btq_block_identifier request)));
  b ← ok_or b (error_message UnknownBlock "Block not found in data store");
  found ← find_transaction (tid_hash (btq_transaction_identifier request)) (bl_transactions b);
  t ← ok_or found (error_message UnknownTransaction "Transaction not found in block");
  t ← translate_transaction s t State_Accepted;
  Ok {| btp_transaction := t |}.
Definition call (request : CallRequest) : RgResult CallResponse :=
  _ ← validate_network (clq_network_identifier request);
  Ok {| clp_result := Build_GenericMetadata; clp_idempotent := true |}.

(** *** Construction *)

Definition i_map_proof (f : list Proof_ → list Proof_) (i : Input) : Input := i_with_proof (f (i_proof i)) i.
Definition sign_input (proof : Proof_) (payload : bytes) (i : Input) : RgResult Input :=
  id ← safe_get (i_utxo_id i);
  h ← opt_Hash_safe_bytes (u_transaction_hash id);
  Ok (if bool_decide (h = payload) then i_map_proof (λ ps, ps ++ [proof]) i else i).
Definition combine_signature (inputs : list Input) (sig : RosettaSignature) : RgResult (list Input) :=
  proof ← signature_to_proof sig;
  pay_b ← from_hex (spl_hex_bytes (rsg_signing_payload sig));
  mapR (sign_input proof pay_b) inputs.
Definition sort_proofs : list Proof_ → list Proof_ := sort_by (λ x y, bytes_leb (encode_to_vec x) (encode_to_vec y)).
Definition construction_combine (request : ConstructionCombineRequest) : RgResult ConstructionCombineResponse :=
  _ ← validate_network (ccq_network_identifier request);
  tx ← proto_from_hex (ccq_unsigned_transaction request);
  inputs ← foldR combine_signature (tx_inputs tx) (ccq_signatures request);
  let tx := tx_with_inputs (i_map_proof sort_proofs <$> inputs) tx in
  Ok {| ccp_signed_transaction := hex_encode (encode_to_vec tx) |}.
Definition construction_derive (request : ConstructionDeriveRequest) : RgResult ConstructionDeriveResponse :=
  _ ← validate_network (cdq_network_identifier request);
  pk ← translate_public_key (cdq_public_key request);
  address ← expect (Address_from_struct_public pk);
  r ← render_string address;
  account ← account_identifier address;
  Ok {| cdp_address := Some r; cdp_account_identifier := Some account; cdp_metadata := None |}.
Definition construction_hash (request : ConstructionHashRequest) : RgResult TransactionIdentifier :=
  _ ← validate_network (chq_network_identifier request);
  tx ← proto_from_hex (chq_signed_transaction request);
  h ← hash_hex (tx : Transaction); Ok {| tid_hash := h |}.
Definition key_utxos (s : RosettaState) (k : RosettaPublicKey) : RgResult (list UtxoEntry) :=
  pk ← translate_public_key k;
  address ← expect (Address_from_struct_public pk);
  query_utxo_address (ro_store s) address.
Definition construction_metadata (request : ConstructionMetadataRequest) (s : RosettaState) : RgResult ConstructionMetadataResponse :=
  _ ← validate_network (cmq_network_identifier request);
  keys ← ok_or (cmq_public_keys request) (error_message MissingField "Missing public keys");
  utxos ← mapR (key_utxos s) keys;
  Ok {| cmp_metadata := {| cmm_utxos := concat utxos |}; cmp_suggested_fee := None |}.
Definition signer_of (s : RosettaState) (i : Input) : RgResult (option (string * AccountIdentifier)) :=
  match i_proof i with
  | [] => Ok None
  | _ =>
      output ← input_output s i;
      address ← expect_opt (o_address output);
      r ← render_string address;
      account ← account_identifier address;
      Ok (Some (r, account))
  end.
Definition signers_of (s : RosettaState) (signed : bool) (tx : Transaction) : RgResult (option (list (string * AccountIdentifier))) :=
  if signed then l ← mapR (signer_of s) (tx_inputs tx); Ok (Some (omap id (l : list (option (string * AccountIdentifier))))) else Ok None.
Definition construction_parse (request : ConstructionParseRequest) (s : RosettaState) : RgResult ConstructionParseResponse :=
  _ ← validate_network (cpq_network_identifier request);
  tx ← proto_from_hex (cpq_transaction request);
  tx_r ← translate_transaction s tx State_Pending;
  signers ← signers_of s (cpq_signed request) tx;
  Ok {| cpp_operations := rtr_operations tx_r; cpp_signers := option_map (fmap fst) signers;
        cpp_account_identifier_signers := option_map (fmap snd) signers; cpp_metadata := None |}.
(** The entries by their address, in the order given; [None] where there is none. *)
Definition entries_of (entries : list (Address * UtxoEntry)) (a : Address) : option (list UtxoEntry) :=
  match snd <$> List.filter (λ e : Address * UtxoEntry, bool_decide (e.1 = a)) entries with [] => None | l => Some l end.
Definition payload_for (acc : AccountIdentifier) (utxo : UtxoEntry) : RgResult SigningPayload :=
  id ← safe_get (ue_utxo_id utxo);
  h ← safe_get (u_transaction_hash id);
  hex ← Hash_hex h;
  Ok {| spl_address := Some (aci_address acc); spl_account_identifier := Some acc; spl_hex_bytes := hex;
        spl_signature_type := Some RosettaSignatureType_ECDSA |}.
Definition add_operation (entries : list (Address * UtxoEntry)) (b : Transaction * list SigningPayload) (op : Operation) :
    RgResult (Transaction * list SigningPayload) :=
  match opn_amount op, opn_account op with
  | Some a, Some acc =>
      addr_bytes ← from_hex (aci_address acc);
      let addr := Address_new_raw addr_bytes in
      ai64 ← i64_from_string (amt_value a);
      if 0 <=? ai64 then
        Ok ({| tx_inputs := tx_inputs b.1; tx_outputs := tx_outputs b.1 ++ [Output_new addr ai64];
               tx_struct_metadata := tx_struct_metadata b.1; tx_options := tx_options b.1 |}, b.2)
      else
        utxos ← ok_or (entries_of entries addr) (error_message MissingField "Missing metadata for input");
        payloads ← mapR (payload_for acc) utxos;
        Ok (tx_with_inputs (tx_inputs b.1 ++ (to_input <$> utxos)) b.1, b.2 ++ payloads)
  | _, _ => Ok b
  end.
Definition addressed (e : UtxoEntry) : RgResult (Address * UtxoEntry) := a ← UtxoEntry_address e; Ok (a, e).
Definition construction_payloads (request : ConstructionPayloadsRequest) : RgResult ConstructionPayloadsResponse :=
  _ ← validate_network (cyq_network_identifier request);
  let tx := {| tx_inputs := []; tx_outputs := []; tx_struct_metadata := struct_metadata now; tx_options := None |} in
  meta ← ok_or (cyq_metadata request) (error_message MissingField "Missing metadata");
  entries ← mapR addressed (cmm_utxos meta);
  r ← foldR (add_operation entries) (tx, []) (cyq_operations request);
  Ok {| cyp_unsigned_transaction := hex_encode (encode_to_vec r.1); cyp_payloads := r.2 |}.
Definition required_key (op : Operation) : RgResult (list AccountIdentifier) :=
  match opn_amount op with
  | Some a =>
      ai64 ← i64_from_string (amt_value a);
      Ok (if ai64 <? 0 then option_list (opn_account op) else [])
  | None => Ok []
  end.
Definition construction_preprocess (request : ConstructionPreprocessRequest) : RgResult ConstructionPreprocessResponse :=
  _ ← validate_network (crq_network_identifier request);
  keys ← mapR required_key (crq_operations request);
  Ok {| crp_options := None; crp_required_public_keys := Some (concat keys) |}.
Definition on_ro_node {A} (m : M NodeState ErrorInfo A) : M RosettaState ErrorInfo A := λ s,
  let '(r, n) := m (ro_node s) in (r, {| ro_node := n; ro_blocks := ro_blocks s |}).
Definition construction_submit (request : ConstructionSubmitRequest) : M RosettaState ErrorInfo TransactionIdentifier :=
  _ ← lift (validate_network (csq_network_identifier request));
  tx ← lift (proto_from_hex (csq_signed_transaction request));
  _ ← on_ro_node (submit_transaction await_reply {| sbr_transaction := Some tx; sbr_sync_query_response := false |});
  lift (transaction_identifier tx).

(** *** Events, mempool, network and search *)

Definition events_blocks (request : EventsBlocksRequest) : RgResult EventsBlocksResponse :=
  _ ← validate_network (ebq_network_identifier request); Ok {| ebp_max_sequence := 0; ebp_events := [] |}.
Definition mempool (request : NetworkRequest) (s : RosettaState) : RgResult MempoolResponse :=
  _ ← validate_network (nwq_network_identifier request);
  ids ← mapR (λ kv : Hash * Transaction, h ← Hash_hex kv.1; Ok {| tid_hash := h |}) (map_to_list (ns_in_process (ro_node s)));
  Ok {| mpp_transaction_identifiers := ids |}.
Definition mempool_transaction (request : MempoolTransactionRequest) (s : RosettaState) : RgResult MempoolTransactionResponse :=
  _ ← validate_network (mtq_network_identifier request);
  hash ← Hash_from_hex (tid_hash (mtq_transaction_identifier request));
  match ns_in_process (ro_node s) !! hash with
  | Some tx => t ← translate_transaction s tx State_Pending; Ok {| mtp_transaction := t; mtp_metadata := None |}
  | None => Err (error_message UnknownTransaction "")
  end.
Definition network_list (_ : MetadataRequest) : RgResult NetworkListResponse :=
  Ok {| nlp_network_identifiers := [{| nid_blockchain := redgold_blockchain; nid_network := network_std_string network;
          nid_sub_network_identifier := None |}] |}.
Definition network_options (request : NetworkRequest) : RgResult NetworkOptionsResponse :=
  _ ← validate_network (nwq_network_identifier request);
  Ok {| nop_version := {| ver_rosetta_version := ""; ver_node_version := ""; ver_middleware_version := None; ver_metadata := None |};
        nop_allow := {| alw_operation_statuses := [{| ost_status := state_debug State_Pending; ost_successful := false |};
                                                   {| ost_status := state_debug State_Accepted; ost_successful := true |}];
          alw_operation_types := [operation_type]; alw_errors := []; alw_historical_balance_lookup := false;
          alw_timestamp_start_index := None; alw_call_methods := []; alw_balance_exemptions := []; alw_mempool_coins := false;
          alw_block_hash_case := None; alw_transaction_hash_case := None |} |}.
Definition network_status (request : NetworkRequest) : RgResult NetworkStatusResponse :=
  _ ← validate_network (nwq_network_identifier request);
  let none := {| bid_index := 0; bid_hash := "" |} in
  Ok {| nsp_current_block_identifier := none; nsp_current_block_timestamp := 0; nsp_genesis_block_identifier := none;
        nsp_oldest_block_identifier := None; nsp_sync_status := None; nsp_peers := [] |}.
(** What was asked for is read and dropped. *)
Definition search_transactions (request : SearchTransactionsRequest) : RgResult SearchTransactionsResponse :=
  _ ← validate_network (stq_network_identifier request);
  _ ← (match stq_currency request with Some c => validate_currency c | None => Ok tt end);
  _ ← (match stq_type request with Some t => validate_type t | None => Ok tt end);
  _ ← (match stq_transaction_identifier request with Some ti => _ ← from_hex (tid_hash ti); Ok tt | None => Ok tt end);
  _ ← (match stq_address request with Some a => _ ← Address_parse a; Ok tt | None => Ok tt end);
  _ ← (match stq_account_identifier request with Some a => _ ← Address_parse (aci_address a); Ok tt | None => Ok tt end);
  Ok {| stp_transactions := []; stp_total_count := 0; stp_next_offset := None |}.

(** ** server.rs *)

(** The endpoints, each with the messages it takes and answers. *)
Inductive Endpoint : Type → Type → Type :=
| EAccountBalance : Endpoint AccountBalanceRequest AccountBalanceResponse
| EAccountCoins : Endpoint AccountCoinsRequest AccountCoinsResponse
| EBlock : Endpoint BlockRequest BlockResponse
| EBlockTransaction : Endpoint BlockTransactionRequest BlockTransactionResponse
| ECall : Endpoint CallRequest CallResponse
| ECombine : Endpoint ConstructionCombineRequest ConstructionCombineResponse
| EDerive : Endpoint ConstructionDeriveRequest ConstructionDeriveResponse
| EHash : Endpoint ConstructionHashRequest TransactionIdentifier
| EMetadata : Endpoint ConstructionMetadataRequest ConstructionMetadataResponse
| EParse : Endpoint ConstructionParseRequest ConstructionParseResponse
| EPayloads : Endpoint ConstructionPayloadsRequest ConstructionPayloadsResponse
| EPreprocess : Endpoint ConstructionPreprocessRequest ConstructionPreprocessResponse
| ESubmit : Endpoint ConstructionSubmitRequest TransactionIdentifier
| EEvents : Endpoint EventsBlocksRequest EventsBlocksResponse
| EMempool : Endpoint NetworkRequest MempoolResponse
| EMempoolTransaction : Endpoint MempoolTransactionRequest MempoolTransactionResponse
| ENetworkList : Endpoint MetadataRequest NetworkListResponse
| ENetworkOptions : Endpoint NetworkRequest NetworkOptionsResponse
| ENetworkStatus : Endpoint NetworkRequest NetworkStatusResponse
| ESearch : Endpoint SearchTransactionsRequest SearchTransactionsResponse.
Definition reading {A} (f : RosettaState → RgResult A) : M RosettaState ErrorInfo A := λ s, (f s, s).
Definition handle {Q A} (e : Endpoint Q A) : Q → M RosettaState ErrorInfo A :=
  match e in Endpoint Q A return Q → M RosettaState ErrorInfo A with
  | EAccountBalance => λ q, reading (account_balance q) | EAccountCoins => λ q, reading (account_coins q)
  | EBlock => λ q, reading (block q) | EBlockTransaction => λ q, reading (block_transaction q)
  | ECall => λ q, lift (call q) | ECombine => λ q, lift (construction_combine q) | EDerive => λ q, lift (construction_derive q)
  | EHash => λ q, lift (construction_hash q) | EMetadata => λ q, reading (construction_metadata q)
  | EParse => λ q, reading (construction_parse q) | EPayloads => λ q, lift (construction_payloads q)
  | EPreprocess => λ q, lift (construction_preprocess q) | ESubmit => construction_submit
  | EEvents => λ q, lift (events_blocks q) | EMempool => λ q, reading (mempool q)
  | EMempoolTransaction => λ q, reading (mempool_transaction q) | ENetworkList => λ q, lift (network_list q)
  | ENetworkOptions => λ q, lift (network_options q) | ENetworkStatus => λ q, lift (network_status q)
  | ESearch => λ q, lift (search_transactions q)
  end.
Definition endpoint_of (path : string) : option { Q & { A & Endpoint Q A } } :=
  let some {Q A} (e : Endpoint Q A) := Some (existT Q (existT A e)) in
  if bool_decide (path = "/account/balance") then some EAccountBalance
  else if bool_decide (path = "/account/coins") then some EAccountCoins
  else if bool_decide (path = "/block") then some EBlock
  else if bool_decide (path = "/block/transaction") then some EBlockTransaction
  else if bool_decide (path = "/call") then some ECall
  else if bool_decide (path = "/construction/combine") then some ECombine
  else if bool_decide (path = "/construction/derive") then some EDerive
  else if bool_decide (path = "/construction/hash") then some EHash
  else if bool_decide (path = "/construction/metadata") then some EMetadata
  else if bool_decide (path = "/construction/parse") then some EParse
  else if bool_decide (path = "/construction/payloads") then some EPayloads
  else if bool_decide (path = "/construction/preprocess") then some EPreprocess
  else if bool_decide (path = "/construction/submit") then some ESubmit
  else if bool_decide (path = "/events/blocks") then some EEvents
  else if bool_decide (path = "/mempool") then some EMempool
  else if bool_decide (path = "/mempool/transaction") then some EMempoolTransaction
  else if bool_decide (path = "/network/list") then some ENetworkList
  else if bool_decide (path = "/network/options") then some ENetworkOptions
  else if bool_decide (path = "/network/status") then some ENetworkStatus
  else if bool_decide (path = "/search/transactions") then some ESearch
  else None.

(** An answer with its status: the text of the answer, or an error. *)
Record Reply := { rp_status : Z; rp_body : RosettaError + string }.
Definition format_error (e : ErrorInfo) : RosettaError :=
  {| rer_code := ei_code e; rer_message := ei_description e; rer_description := Some (ei_description_extended e);
     rer_retriable := ei_retriable e; rer_details := Some e |}.
Definition ser (r : RgResult string) : RgResult Reply :=
  match r with
  | Ok t => Ok {| rp_status := 200; rp_body := inr t |}
  | Err e => Ok {| rp_status := 500; rp_body := inl (format_error e) |}
  | Panic => Panic
  end.
Section server.
Context (deser : ∀ {Q A}, Endpoint Q A → string → string + Q) (render : ∀ {Q A}, Endpoint Q A → A → string).
Definition serve {Q A} (e : Endpoint Q A) (text : string) : M RosettaState ErrorInfo string :=
  q ← lift (match deser _ _ e text with
            | inr q => Ok q
            | inl x => Err (error_msg DeserializationFailure "error deserializing string input as type" x)
            end);
  a ← handle e q; mret (render _ _ e a).
Definition handle_warp_request (path : string) (b : bytes) (s : RosettaState) : RgResult Reply * RosettaState :=
  if utf8_valid b then
    match endpoint_of path with
    | Some (existT _ (existT _ e)) => let '(r, s') := serve e (String.string_of_list_byte b) s in (ser r, s')
    | None => (ser (Err (error_message UnknownError ("unknown endpoint " +:+ path))), s)
    end
  else (ser (Err (error_msg UnknownError "Error deserializing bytes to utf8 string" (utf8_error_string b))), s).
End server.
End rosetta.

(** * Properties *)

(** ** Amounts as text *)

Lemma digit_value_char n : (n < 10)%N → digit_value (pretty_N_char n) = Some (Z.of_N n).
Proof. intros H. assert (n = 0 ∨ n = 1 ∨ n = 2 ∨ n = 3 ∨ n = 4 ∨ n = 5 ∨ n = 6 ∨ n = 7 ∨ n = 8 ∨ n = 9)%N as Hn by lia. by destruct_or! Hn; subst n. Qed.
Lemma parse_digits_go x : ∀ s, ∃ k, 0 ≤ k ∧ ∀ acc, parse_digits acc (pretty_N_go x s) = parse_digits (acc * 10 ^ k + Z.of_N x) s.
Proof.
induction (N.lt_wf_0 x) as [x _ IH]; intros s. destruct (N.eq_0_gt_0_cases x) as [-> |Hx].
{ exists 0. split; [done|]. intros acc. f_equal. lia. }
destruct (IH (x / 10)%N (N.div_lt x 10 Hx eq_refl) (String (pretty_N_char (x mod 10)) s)) as (k & Hk & Hd).
exists (k + 1). split; [lia|]. intros acc. rewrite pretty_N_go_step by done. rewrite Hd. cbn [parse_digits].
rewrite digit_value_char by (apply N.mod_lt; lia). cbn. f_equal. rewrite Z.pow_add_r by lia.
pose proof (N.div_mod x 10 ltac:(lia)). lia.
Qed.
Lemma pretty_go_nonempty x c : ∀ s, pretty_N_go x (String c s) ≠ EmptyString.
Proof.
revert c. induction (N.lt_wf_0 x) as [x _ IH]; intros c s. destruct (N.eq_0_gt_0_cases x) as [-> |Hx]; [done|].
rewrite pretty_N_go_step by done. by apply IH, N.div_lt.
Qed.
Lemma parse_magnitude_pretty (n : N) : parse_magnitude (pretty n) = Some (Z.of_N n).
Proof.
unfold pretty, pretty_N. case_decide as E; [by subst|]. rewrite pretty_N_go_step by lia.
set (s := pretty_N_go _ _). assert (parse_magnitude s = parse_digits 0 s) as ->.
{ unfold s. by destruct (pretty_N_go _ _) eqn:Hs; [apply pretty_go_nonempty in Hs|]. }
destruct (parse_digits_go (n / 10)%N (String (pretty_N_char (n mod 10)) "")) as (k & _ & Hd). unfold s. rewrite Hd. cbn [parse_digits].
rewrite digit_value_char by (apply N.mod_lt; lia). cbn. f_equal. pose proof (N.div_mod n 10 ltac:(lia)). lia.
Qed.
Lemma parse_signed_magnitude s z : parse_magnitude s = Some z → parse_signed s = Some z.
Proof.
destruct s as [|c s]; [done|]. intros H. unfold parse_signed. case_bool_decide as E1; [by subst c|]. case_bool_decide as E2; [by subst c|done].
Qed.
(** An amount that is written is read back. *)
Lemma parse_i64_pretty z : in_s 64 z → parse_i64 (pretty z) = Some z.
Proof.
intros Hz. unfold parse_i64. assert (parse_signed (pretty z) = Some z) as ->; [|cbn; by rewrite bool_decide_eq_true_2].
destruct z as [|p|p]; [done| |].
- apply (parse_signed_magnitude (pretty (N.pos p))), parse_magnitude_pretty.
- change (pretty (Z.neg p)) with (String "-"%char (pretty (N.pos p))). unfold parse_signed. rewrite bool_decide_eq_true_2 by done.
  rewrite parse_magnitude_pretty. done.
Qed.

(** ** The own network *)

Section own.
Context {host : Host} (network : NetworkEnvironment).
Definition own_network : NetworkIdentifier :=
  {| nid_blockchain := redgold_blockchain; nid_network := network_std_string network; nid_sub_network_identifier := None |}.
Lemma validate_own n : validate_network network n = Ok tt ↔ n = own_network.
Proof.
unfold validate_network. case_bool_decide as E1; cbn zeta; [split; [done|by intros ->]|].
case_bool_decide as E2; [split; [done|by intros ->]|]. destruct n as [b w [x|]]; cbn in *; subst; by split.
Qed.
Lemma validate_foreign n : n ≠ own_network → ∃ x, validate_network network n = Err x ∧ ei_code x = InvalidNetworkEnvironment.
Proof.
rewrite <- validate_own. unfold validate_network. cbv zeta. repeat case_match; intros; try done; eexists; by split.
Qed.
End own.

(** ** Building a transaction *)

Section construction.
Context {host : Host} {crypto : Crypto} {ptx : Proto Transaction} {pue : Proto UtxoEntry} {pei : Proto ErrorInfo}.
Context {pbl : Proto Block} {ppf : Proto Proof_}.
Context (network : NetworkEnvironment) (now : Z) (await_reply : Transaction → RgResult (Response (option SubmitTransactionResponse))).
Context {claws : CryptoLaws} {tx_laws : ProtoLaws Transaction}.

(** What an operation asks for: an account and what it gains or, negative, loses. *)
Definition op_value (op : Operation) : option (Address * Z) :=
  match opn_amount op, opn_account op with
  | Some a, Some acc =>
      match from_hex (aci_address acc), parse_i64 (amt_value a) with Ok b, Some v => Some (Address_new_raw b, v) | _, _ => None end
  | _, _ => None
  end.
Definition created (op : Operation) : list Output :=
  match op_value op with Some (a, v) => if 0 <=? v then [Output_new a v] else [] | None => [] end.
Definition spends (op : Operation) : bool := match op_value op with Some (_, v) => v <? 0 | None => false end.
Definition spent (entries : list (Address * UtxoEntry)) (op : Operation) : list UtxoEntry :=
  match op_value op with Some (a, v) => if 0 <=? v then [] else default [] (entries_of entries a) | None => [] end.
Definition op_payloads (entries : list (Address * UtxoEntry)) (op : Operation) : RgResult (list SigningPayload) :=
  match opn_account op with Some acc => mapR (payload_for acc) (spent entries op) | None => Ok [] end.

Lemma add_operation_Ok entries b op b' : add_operation entries b op = Ok b' →
  ∃ ps, op_payloads entries op = Ok ps ∧
    b' = ({| tx_inputs := tx_inputs b.1 ++ (to_input <$> spent entries op); tx_outputs := tx_outputs b.1 ++ created op;
             tx_struct_metadata := tx_struct_metadata b.1; tx_options := tx_options b.1 |}, b.2 ++ ps).
Proof.
assert (∃ ps : list SigningPayload, Ok [] = Ok (E := ErrorInfo) ps ∧ b = ({| tx_inputs := tx_inputs b.1 ++ []; tx_outputs := tx_outputs b.1 ++ [];
  tx_struct_metadata := tx_struct_metadata b.1; tx_options := tx_options b.1 |}, b.2 ++ ps)) as Hsame.
{ exists []. split; [done|]. rewrite !app_nil_r. by destruct b as [[]]. }
unfold add_operation, op_payloads, spent, created, op_value.
destruct (opn_amount op) as [a|], (opn_account op) as [acc|]; try (intros [= <-]; exact Hsame).
intros (by_ & -> & H)%bind_Ok. cbv zeta in H. apply bind_Ok in H as (v & Hv & H). unfold i64_from_string in Hv. apply ok_or_Ok in Hv as ->.
destruct (0 <=? v).
- injection H as <-. exists []. split; [done|]. by rewrite !app_nil_r.
- apply bind_Ok in H as (us & Hu & H). apply ok_or_Ok in Hu as ->. apply bind_Ok in H as (ps & Hps & H). injection H as <-.
  exists ps. split; [done|]. cbn. by rewrite app_nil_r.
Qed.
Lemma add_operations_Ok entries ops : ∀ b b', foldR (add_operation entries) b ops = Ok b' →
  ∃ pss, mapR (op_payloads entries) ops = Ok pss ∧
    b' = ({| tx_inputs := tx_inputs b.1 ++ (to_input <$> concat (spent entries <$> ops)); tx_outputs := tx_outputs b.1 ++ concat (created <$> ops);
             tx_struct_metadata := tx_struct_metadata b.1; tx_options := tx_options b.1 |}, b.2 ++ concat pss).
Proof.
induction ops as [|op ops IH]; intros b b'; cbn [foldR mapR].
{ intros [= <-]. exists []. split; [done|]. cbn. rewrite !app_nil_r. by destruct b as [[]]. }
intros (b1 & (ps & Hps & ->)%add_operation_Ok & (pss & Hpss & ->)%IH)%bind_Ok. exists (ps :: pss). rewrite Hps, Hpss. split; [done|].
cbn. by rewrite fmap_app, !app_assoc.
Qed.
(** The transaction of an answer of [construction_payloads]. *)
Definition built (entries : list (Address * UtxoEntry)) (ops : list Operation) : Transaction :=
  {| tx_inputs := to_input <$> concat (spent entries <$> ops); tx_outputs := concat (created <$> ops);
     tx_struct_metadata := struct_metadata now; tx_options := None |}.
Lemma payloads_Ok q r : construction_payloads network now q = Ok r →
  ∃ meta entries pss, cyq_metadata q = Some meta ∧ mapR addressed (cmm_utxos meta) = Ok entries ∧
    mapR (op_payloads entries) (cyq_operations q) = Ok pss ∧
    r = {| cyp_unsigned_transaction := hex_encode (encode_to_vec (built entries (cyq_operations q))); cyp_payloads := concat pss |}.
Proof.
unfold construction_payloads. intros ([] & _ & H)%bind_Ok. cbv zeta in H. apply bind_Ok in H as (meta & Hm%ok_or_Ok & H).
apply bind_Ok in H as (entries & He & H). apply bind_Ok in H as (b & Hb & H). injection H as <-.
apply add_operations_Ok in Hb as (pss & Hpss & ->). exists meta, entries, pss. done.
Qed.
Lemma from_hex_tx (tx : Transaction) : proto_from_hex (hex_encode (encode_to_vec tx)) = Ok tx.
Proof. unfold proto_from_hex. rewrite from_hex_encode. cbn. unfold proto_deserialize. by rewrite proto_decode_encode. Qed.

(** An operation that can be carried out: it names no amount or no account, or both can be
    read and there are entries to take from. *)
Definition readable (entries : list (Address * UtxoEntry)) (op : Operation) : Prop :=
  match opn_amount op, opn_account op with
  | Some _, Some _ => ∃ a v, op_value op = Some (a, v) ∧ (0 ≤ v ∨ is_Some (entries_of entries a))
  | _, _ => True
  end.
Lemma add_operation_answers entries op ps b : readable entries op → op_payloads entries op = Ok ps → ∃ b', add_operation entries b op = Ok b'.
Proof.
unfold readable, op_payloads, spent, op_value, add_operation. destruct (opn_amount op) as [x|], (opn_account op) as [acc|]; try by eexists.
intros (a & v & Hv & Ha). destruct (from_hex (aci_address acc)) as [by_|?|]; try done. unfold i64_from_string.
destruct (parse_i64 (amt_value x)) as [v'|]; [|done]. injection Hv as <- ->. cbn [mbind result_bind ok_or].
destruct (Z.leb_spec 0 v); [by eexists|]. destruct Ha as [|[us Hus]]; [lia|]. rewrite Hus. cbn. intros ->. by eexists.
Qed.
Lemma add_operations_answer entries ops pss : Forall (readable entries) ops → mapR (op_payloads entries) ops = Ok pss →
  ∀ b, ∃ b', foldR (add_operation entries) b ops = Ok b'.
Proof.
intros Hr. revert pss. induction Hr as [|op ops Hop _ IH]; intros pss; cbn [mapR foldR]; [by eexists|].
intros (ps & Hps & H)%bind_Ok b. apply bind_Ok in H as (pss' & H & _). destruct (add_operation_answers _ _ _ b Hop Hps) as (b1 & ->). by eapply IH.
Qed.
Lemma payloads_answer q meta entries pss : cyq_network_identifier q = own_network network → cyq_metadata q = Some meta →
  mapR addressed (cmm_utxos meta) = Ok entries → Forall (readable entries) (cyq_operations q) →
  mapR (op_payloads entries) (cyq_operations q) = Ok pss → ∃ r, construction_payloads network now q = Ok r.
Proof.
intros Hn Hm He Hr Hp. unfold construction_payloads. rewrite (proj2 (validate_own network _) Hn), Hm. cbn [mbind result_bind ok_or]. rewrite He.
cbn [mbind result_bind]. destruct (add_operations_answer _ _ _ Hr Hp ({| tx_inputs := []; tx_outputs := []; tx_struct_metadata := struct_metadata now; tx_options := None |}, [])) as (b & ->).
by eexists.
Qed.

(** The payload that is to be signed for an input names the transaction that is spent. *)
Definition payload_of (e : UtxoEntry) (p : SigningPayload) : Prop :=
  ∃ id h, ue_utxo_id e = Some id ∧ u_transaction_hash id = Some h ∧ Hash_hex h = Ok (spl_hex_bytes p).
Lemma op_payloads_Ok entries op ps : op_payloads entries op = Ok ps → Forall2 payload_of (spent entries op) ps.
Proof.
unfold op_payloads. destruct (opn_account op) as [acc|] eqn:E.
- rewrite mapR_Ok. intros H. eapply Forall2_impl; [exact H|]. clear H. intros e p. unfold payload_for. intros (id & Hid%ok_or_Ok & H)%bind_Ok.
  apply bind_Ok in H as (h & Hh%ok_or_Ok & H). apply bind_Ok in H as (x & Hx & H). injection H as <-. by exists id, h.
- intros [= <-]. unfold spent, op_value. rewrite E. by destruct (opn_amount op).
Qed.
Lemma concat_payloads entries ops pss : mapR (op_payloads entries) ops = Ok pss → Forall2 payload_of (concat (spent entries <$> ops)) (concat pss).
Proof.
rewrite mapR_Ok. induction 1 as [|op ps ops pss Hop _ IH]; [constructor|]. cbn. apply Forall2_app; [by apply op_payloads_Ok|done].
Qed.

(** C28: A transaction is built as it was asked for: [construction_payloads] answers a
    request for the own network whose operations can be carried out with the entries
    that come with it.  When it answers, the unsigned transaction can be read; its
    outputs are those of the operations that give, in their order and with the amounts
    as written, its inputs spend all the entries that were supplied for the accounts of
    the operations that take, and there is one payload to sign for each input, the hash
    of the transaction it spends. *)
Theorem built_as_asked q :
  (∀ meta entries pss, cyq_network_identifier q = own_network network → cyq_metadata q = Some meta →
     mapR addressed (cmm_utxos meta) = Ok entries → Forall (readable entries) (cyq_operations q) →
     mapR (op_payloads entries) (cyq_operations q) = Ok pss → ∃ r, construction_payloads network now q = Ok r) ∧
  (∀ r, construction_payloads network now q = Ok r →
     ∃ meta entries tx, cyq_metadata q = Some meta ∧ mapR addressed (cmm_utxos meta) = Ok entries ∧
       proto_from_hex (cyp_unsigned_transaction r) = Ok tx ∧
       tx_outputs tx = concat (created <$> cyq_operations q) ∧
       tx_inputs tx = to_input <$> concat (spent entries <$> cyq_operations q) ∧
       Forall2 payload_of (concat (spent entries <$> cyq_operations q)) (cyp_payloads r)).
Proof.
split; [apply payloads_answer|].
intros r (meta & entries & pss & Hm & He & Hp & ->)%payloads_Ok. exists meta, entries, (built entries (cyq_operations q)).
split_and!; [done|done|apply from_hex_tx|done|done|by apply concat_payloads].
Qed.

(** ** Combining *)

(** The proof that a signature puts on an input that spends the transaction it names. *)
Definition proof_for (spent : bytes) (sig : RosettaSignature) : option Proof_ :=
  match signature_to_proof sig, from_hex (spl_hex_bytes (rsg_signing_payload sig)) with
  | Ok p, Ok b => if bool_decide (spent = b) then Some p else None
  | _, _ => None
  end.
Definition spends_hash (i : Input) (h : bytes) : Prop :=
  ∃ id, i_utxo_id i = Some id ∧ opt_Hash_safe_bytes (u_transaction_hash id) = Ok h.
Definition combined (sigs : list RosettaSignature) (i i' : Input) : Prop :=
  sigs = [] ∧ i' = i ∨ ∃ h, spends_hash i h ∧ i' = i_map_proof (λ ps, ps ++ omap (proof_for h) sigs) i.
Lemma i_map_proof_compose f g i : i_map_proof f (i_map_proof g i) = i_map_proof (f ∘ g) i.
Proof. done. Qed.
Lemma i_map_proof_id i : i_map_proof (λ ps, ps ++ []) i = i.
Proof. destruct i. unfold i_map_proof. cbn. by rewrite app_nil_r. Qed.
Lemma combine_one_Ok is_ sig is' : combine_signature is_ sig = Ok is' →
  Forall2 (λ i i', ∃ h, spends_hash i h ∧ i' = i_map_proof (λ ps, ps ++ omap (proof_for h) [sig]) i) is_ is'.
Proof.
unfold combine_signature. intros (proof & Hp & H)%bind_Ok. apply bind_Ok in H as (pay & Hb & H). rewrite mapR_Ok in H.
eapply Forall2_impl; [exact H|]. clear H. intros i i' H. unfold sign_input in H. apply bind_Ok in H as (id & Hid%ok_or_Ok & H).
apply bind_Ok in H as (h & Hh & H). injection H as <-. exists h. split; [by exists id|]. cbn [omap list_omap]. unfold proof_for. rewrite Hp, Hb.
case_bool_decide; [done|]. by rewrite i_map_proof_id.
Qed.
Lemma combine_all_Ok sigs : ∀ is_ is', foldR combine_signature is_ sigs = Ok is' → Forall2 (combined sigs) is_ is'.
Proof.
induction sigs as [|sig sigs IH]; intros is_ is'; cbn [foldR].
{ intros [= <-]. induction is_; constructor; [by left|done]. }
intros (is1 & H1%combine_one_Ok & H2%IH)%bind_Ok. revert is' H2. induction H1 as [|i i1 is_ is1 (h & Hh & ->) _ IH']; intros is' H2.
{ apply Forall2_nil_inv_l in H2 as ->. constructor. }
apply Forall2_cons_inv_l in H2 as (i' & is2 & Hi & H2 & ->). constructor; [|by apply IH']. right. exists h. split; [done|].
destruct Hi as [[-> ->]|(h' & Hh' & ->)]; [done|]. assert (h' = h) as ->.
{ destruct Hh as (id & Hid & Hh), Hh' as (id' & Hid' & Hh'). cbn in Hid'. rewrite Hid in Hid'. injection Hid' as <-. congruence. }
rewrite i_map_proof_compose. unfold i_map_proof, compose. cbn. f_equal. rewrite <- app_assoc. f_equal.
by destruct (proof_for h sig).
Qed.
Definition proof_leb (x y : Proof_) : bool := bytes_leb (encode_to_vec x) (encode_to_vec y).
Lemma combine_Ok q r : construction_combine network q = Ok r → ∃ tx is', proto_from_hex (ccq_unsigned_transaction q) = Ok tx ∧
  foldR combine_signature (tx_inputs tx) (ccq_signatures q) = Ok is' ∧
  proto_from_hex (ccp_signed_transaction r) = Ok (tx_with_inputs (i_map_proof sort_proofs <$> is') tx).
Proof.
unfold construction_combine. intros ([] & _ & H)%bind_Ok. apply bind_Ok in H as (tx & Htx & H). apply bind_Ok in H as (is' & His & H).
injection H as <-. exists tx, is'. split_and!; [done|done|apply from_hex_tx].
Qed.
(** Signatures are put where they were made for: [construction_combine] changes
    nothing of the transaction but the proofs of its inputs; each input then has its
    proofs from before and one for each signature whose payload is the hash of the
    transaction that the input spends, in the order of their bytes. *)
Theorem combined_where_signed q r : construction_combine network q = Ok r →
  ∃ tx tx', proto_from_hex (ccq_unsigned_transaction q) = Ok tx ∧ proto_from_hex (ccp_signed_transaction r) = Ok tx' ∧
    tx_outputs tx' = tx_outputs tx ∧ tx_struct_metadata tx' = tx_struct_metadata tx ∧ tx_options tx' = tx_options tx ∧
    Forall2 (λ i i', ∃ ps added, i' = i_map_proof (λ _, ps) i ∧ StronglySorted (λ a b, proof_leb a b = true) ps ∧ ps ≡ₚ i_proof i ++ added ∧
      (ccq_signatures q = [] ∧ added = [] ∨ ∃ h, spends_hash i h ∧ added = omap (proof_for h) (ccq_signatures q)))
      (tx_inputs tx) (tx_inputs tx').
Proof.
intros (tx & is' & Htx & His%combine_all_Ok & Hr)%combine_Ok. exists tx. eexists. split_and!; [done|exact Hr|done..|].
cbn [tx_inputs tx_with_inputs]. rewrite Forall2_fmap_r. eapply Forall2_impl; [exact His|]. clear His. cbn. intros i i' Hi.
assert (∃ added, i' = i_map_proof (λ ps, ps ++ added) i ∧
  (ccq_signatures q = [] ∧ added = [] ∨ ∃ h, spends_hash i h ∧ added = omap (proof_for h) (ccq_signatures q))) as (added & -> & Hadd).
{ destruct Hi as [[Hs ->]|(h & Hh & ->)]; [exists []|by eexists; split; [|right; exists h]]. split; [by rewrite i_map_proof_id|by left]. }
exists (sort_proofs (i_proof i ++ added)), added. split_and!; [done| |apply sort_by_perm|done].
apply sort_by_sorted; [intros x y; apply bytes_leb_total|intros x y z; apply bytes_leb_trans].
Qed.

(** ** What is not signed *)

Lemma spent_none entries op : spends op = false → spent entries op = [].
Proof. unfold spends, spent. destruct (op_value op) as [[a v]|]; [|done]. intros H. destruct (Z.leb_spec 0 v); [done|]. lia. Qed.
Lemma spent_filter entries ops : concat (spent entries <$> List.filter spends ops) = concat (spent entries <$> ops).
Proof.
induction ops as [|op ops IH]; [done|]. cbn. destruct (spends op) eqn:E; cbn; rewrite IH; [done|]. by rewrite (spent_none _ _ E).
Qed.
Lemma payloads_filter entries ops pss : mapR (op_payloads entries) ops = Ok pss →
  ∃ pss', mapR (op_payloads entries) (List.filter spends ops) = Ok pss' ∧ concat pss' = concat pss.
Proof.
revert pss. induction ops as [|op ops IH]; intros pss; cbn [mapR List.filter]; [intros [= <-]; by exists []|].
intros (ps & Hps & H)%bind_Ok. apply bind_Ok in H as (pss1 & H1 & H). injection H as <-. destruct (IH _ H1) as (pss' & Hpss' & Hc).
destruct (spends op) eqn:E.
- exists (ps :: pss'). cbn [mapR]. rewrite Hps, Hpss'. split; [done|]. cbn. by rewrite Hc.
- exists pss'. split; [done|]. assert (ps = []) as -> by (apply op_payloads_Ok in Hps; rewrite spent_none in Hps by done; by apply Forall2_nil_inv_l in Hps).
  by rewrite Hc.
Qed.
(** C29: The recipients are not signed: two requests that take the same from the same
    accounts, whoever they give it to, ask for the same payloads to be signed; and the
    same signatures, combined with either transaction, make the same inputs with the
    same proofs.  A signature made for one payment is as good for any other. *)
Theorem recipients_not_signed q1 q2 r1 r2 :
  construction_payloads network now q1 = Ok r1 → construction_payloads network now q2 = Ok r2 →
  cyq_metadata q1 = cyq_metadata q2 → List.filter spends (cyq_operations q1) = List.filter spends (cyq_operations q2) →
  cyp_payloads r1 = cyp_payloads r2 ∧
  ∀ n sigs c1 c2,
    construction_combine network {| ccq_network_identifier := n; ccq_unsigned_transaction := cyp_unsigned_transaction r1; ccq_signatures := sigs |} = Ok c1 →
    construction_combine network {| ccq_network_identifier := n; ccq_unsigned_transaction := cyp_unsigned_transaction r2; ccq_signatures := sigs |} = Ok c2 →
    ∃ tx1 tx2, proto_from_hex (ccp_signed_transaction c1) = Ok tx1 ∧ proto_from_hex (ccp_signed_transaction c2) = Ok tx2 ∧
      tx_inputs tx1 = tx_inputs tx2 ∧
      tx_outputs tx1 = concat (created <$> cyq_operations q1) ∧ tx_outputs tx2 = concat (created <$> cyq_operations q2).
Proof.
intros (m1 & e1 & ps1 & Hm1 & He1 & Hp1 & ->)%payloads_Ok (m2 & e2 & ps2 & Hm2 & He2 & Hp2 & ->)%payloads_Ok Hm Hf.
assert (m2 = m1) as -> by congruence. assert (e2 = e1) as -> by congruence. split.
- apply payloads_filter in Hp1 as (p1 & Hp1 & <-), Hp2 as (p2 & Hp2 & <-). rewrite Hf in Hp1. cbn. congruence.
- intros n sigs c1 c2 (tx1 & is1 & Ht1 & Hi1 & H1)%combine_Ok (tx2 & is2 & Ht2 & Hi2 & H2)%combine_Ok. cbn in Ht1, Ht2, Hi1, Hi2.
  rewrite from_hex_tx in Ht1, Ht2. injection Ht1 as <-. injection Ht2 as <-. do 2 eexists. split_and!; [exact H1|exact H2| |done|done]. cbn.
  assert (is1 = is2) as ->; [|done]. cbn in Hi1, Hi2. rewrite <- spent_filter, Hf, spent_filter in Hi1. congruence.
Qed.
End construction.

(** ** Requests for another network *)

Section networks.
Context {host : Host} {crypto : Crypto} {ptx : Proto Transaction} {pue : Proto UtxoEntry} {pei : Proto ErrorInfo}.
Context {pbl : Proto Block} {ppf : Proto Proof_}.
Context (network : NetworkEnvironment) (now : Z) (await_reply : Transaction → RgResult (Response (option SubmitTransactionResponse))).

(** The network that a request names; only the list of networks is asked for without. *)
Definition network_of {Q A} (e : Endpoint Q A) : Q → option NetworkIdentifier :=
  match e in Endpoint Q A return Q → option NetworkIdentifier with
  | EAccountBalance => λ q, Some (abq_network_identifier q) | EAccountCoins => λ q, Some (acq_network_identifier q)
  | EBlock => λ q, Some (brq_network_identifier q) | EBlockTransaction => λ q, Some (btq_network_identifier q)
  | ECall => λ q, Some (clq_network_identifier q) | ECombine => λ q, Some (ccq_network_identifier q)
  | EDerive => λ q, Some (cdq_network_identifier q) | EHash => λ q, Some (chq_network_identifier q)
  | EMetadata => λ q, Some (cmq_network_identifier q) | EParse => λ q, Some (cpq_network_identifier q)
  | EPayloads => λ q, Some (cyq_network_identifier q) | EPreprocess => λ q, Some (crq_network_identifier q)
  | ESubmit => λ q, Some (csq_network_identifier q) | EEvents => λ q, Some (ebq_network_identifier q)
  | EMempool => λ q, Some (nwq_network_identifier q) | EMempoolTransaction => λ q, Some (mtq_network_identifier q)
  | ENetworkList => λ _, None | ENetworkOptions => λ q, Some (nwq_network_identifier q)
  | ENetworkStatus => λ q, Some (nwq_network_identifier q) | ESearch => λ q, Some (stq_network_identifier q)
  end.
Lemma handle_foreign {Q A} (e : Endpoint Q A) q n s : network_of e q = Some n → n ≠ own_network network →
  ∃ x, handle network now await_reply e q s = (Err x, s) ∧ ei_code x = InvalidNetworkEnvironment.
Proof.
intros Hn Hf. destruct (validate_foreign network n Hf) as (x & Hx & Hc). exists x. split; [|done].
destruct e; try discriminate Hn; injection Hn as Hn; cbn [handle]; unfold reading, lift;
  unfold account_balance, account_coins, block, block_transaction, call, construction_combine, construction_derive, construction_hash,
    construction_metadata, construction_parse, construction_payloads, construction_preprocess, construction_submit, events_blocks, mempool,
    mempool_transaction, network_options, network_status, search_transactions; rewrite Hn, Hx; reflexivity.
Qed.
Section server.
Context (deser : ∀ Q A, Endpoint Q A → string → string + Q) (render : ∀ Q A, Endpoint Q A → A → string).
(** C39: A request for another network is refused: whatever the endpoint, when the request
    that is read names a network, a blockchain or a sub-network other than the node's
    own, the server answers with status 500 and the code for a wrong network, and
    nothing is changed. *)
Theorem foreign_network_refused {Q A} (e : Endpoint Q A) path b q n s :
  utf8_valid b = true → endpoint_of path = Some (existT Q (existT A e)) → deser Q A e (String.string_of_list_byte b) = inr q →
  network_of e q = Some n → n ≠ own_network network →
  ∃ x, handle_warp_request network now await_reply deser render path b s = (Ok {| rp_status := 500; rp_body := inl x |}, s) ∧
    rer_code x = InvalidNetworkEnvironment.
Proof.
intros Hu He Hd Hn Hf. unfold handle_warp_request. rewrite Hu, He. cbv beta iota. unfold serve.
destruct (handle_foreign e q n s Hn Hf) as (x & Hx & Hc). erewrite M_bind_step by (unfold lift; by rewrite Hd).
unfold mbind, M_bind. rewrite Hx. exists (format_error x). by split.
Qed.
End server.

(** ** Blocks and transactions *)

(** A block is its own parent's height. *)
Lemma parent_index_own s b state r : in_s 64 (bl_height b - 1) → translate_block s b state = Ok r →
  bid_index (rbl_parent_block_identifier r) = bid_index (rbl_block_identifier r).
Proof.
unfold translate_block. intros Hb H. cbv zeta in H. apply bind_Ok in H as (ph & _ & H). apply bind_Ok in H as (tr & _ & H).
apply bind_Ok in H as (id & Hid & H). apply bind_Ok in H as (m & _ & H). apply bind_Ok in H as (t & _ & H). injection H as <-.
unfold block_identifier in Hid. apply bind_Ok in Hid as (h & _ & Hid). injection Hid as <-.
cbn [bid_index rbl_parent_block_identifier rbl_block_identifier]. unfold i64_sub. rewrite wrap_s_id by done. lia.
Qed.

(** The coins of an account are its unspent outputs, each once, when no two of them have
    the same id. *)
Lemma keyed_coins_Ok es : ∀ m0 m, foldR (λ m e, id ← to_old_utxo_id e; Ok (<[coin_id id := e]> m)) m0 es = Ok (E := ErrorInfo) m →
  ∃ ids, mapR to_old_utxo_id es = Ok ids ∧
    (NoDup (coin_id <$> ids) → Forall (λ id, m0 !! coin_id id = None) ids →
     map_to_list (m : gmap bytes UtxoEntry) ≡ₚ zip (coin_id <$> ids) es ++ map_to_list m0).
Proof.
induction es as [|e es IH]; intros m0 m; cbn [foldR mapR]; [intros [= <-]; by exists []|].
intros (m1 & H1 & H)%bind_Ok. apply bind_Ok in H1 as (id & Hid & H1). injection H1 as <-. destruct (IH _ _ H) as (ids & Hids & Hm).
exists (id :: ids). rewrite Hid, Hids. split; [done|]. rewrite fmap_cons. intros [Hnin Hnd]%NoDup_cons [H0 Hf]%Forall_cons. rewrite Hm; [|done|].
- rewrite map_to_list_insert by done. cbn. by rewrite Permutation_middle.
- rewrite Forall_forall in Hf |- *. intros x Hx. rewrite lookup_insert_ne; [by apply Hf|]. intros E. apply Hnin. rewrite E. by apply list_elem_of_fmap_2.
Qed.
Lemma coins_unspent q s r : account_coins network q s = Ok r →
  ∃ a es ids, Address_parse (aci_address (acq_account_identifier q)) = Ok a ∧ query_utxo_address (ro_store s) a = Ok es ∧
    mapR to_old_utxo_id es = Ok ids ∧
    (NoDup (coin_id <$> ids) → ∃ coins, mapR coin_of (zip (coin_id <$> ids) es) = Ok coins ∧ acp_coins r ≡ₚ coins).
Proof.
unfold account_coins. intros ([] & _ & H)%bind_Ok. apply bind_Ok in H as ([] & _ & H). apply bind_Ok in H as (a & Ha & H).
apply bind_Ok in H as (b & _ & H). apply bind_Ok in H as (es & Hes & H). apply bind_Ok in H as (m & Hm & H). apply bind_Ok in H as (cs & Hcs & H).
apply bind_Ok in H as (id & _ & H). injection H as <-. destruct (keyed_coins_Ok _ _ _ Hm) as (ids & Hids & Hp).
exists a, es, ids. split_and!; try done. intros Hnd. specialize (Hp Hnd). rewrite map_to_list_empty, app_nil_r in Hp.
assert (∀ l1 l2 : list (bytes * UtxoEntry), l1 ≡ₚ l2 → ∀ c1, mapR coin_of l1 = Ok c1 → ∃ c2, mapR coin_of l2 = Ok c2 ∧ c1 ≡ₚ c2) as Hperm.
{ intros l1 l2 HP c1. rewrite mapR_Ok. intros HF. destruct (Permutation.Permutation_Forall2 HP HF) as (c2 & Hc & HF2). exists c2. by rewrite mapR_Ok. }
apply (Hperm _ _ (Hp (Forall_true _ _ (λ x, lookup_empty _))) _ Hcs).
Qed.
End networks.

(** * Two payments from one coin *)

Module RosettaDemo.
#[local] Existing Instance toy_host.
#[local] Existing Instance toy_crypto.
#[local] Instance demo_pt : Proto Transaction := ser_proto Transaction.
#[local] Instance demo_ppf : Proto Proof_ := ser_proto Proof_.
#[local] Instance demo_pue : Proto UtxoEntry := ser_proto UtxoEntry.
#[local] Instance demo_pei : Proto ErrorInfo := const_proto ErrorInfo (λ _, []).
#[local] Instance demo_pbl : Proto Block := const_proto Block (λ _, []).

Definition account (a : Address) : AccountIdentifier :=
  {| aci_address := match render_string a with Ok t => t | _ => "" end; aci_sub_account := None; aci_metadata := None |}.
Definition op (a : Address) (v : string) : Operation :=
  {| opn_operation_identifier := {| oid_index := 0; oid_network_index := None |}; opn_related_operations := None; opn_type := operation_type;
     opn_status := None; opn_account := Some (account a);
     opn_amount := Some {| amt_value := v; amt_currency := redgold_currency; amt_metadata := None |}; opn_coin_change := None; opn_metadata := None |}.
Definition source_hash : Hash := Hash_new (repeat Byte.x07 32).
Definition coin : UtxoEntry := from_output_new (Output_new demo_kp_address 10) source_hash 0 1.
Definition meta : ConstructionMetadataResponseMetadata := {| cmm_utxos := [coin] |}.
Definition paying (who : Address) : ConstructionPayloadsRequest :=
  {| cyq_network_identifier := own_network Dev; cyq_operations := [op demo_kp_address "-10"; op who "+10"]; cyq_metadata := Some meta;
     cyq_public_keys := None |}.
Definition thief : Address := Address_new_raw (repeat Byte.x09 32).
Definition built_for (who : Address) : ConstructionPayloadsResponse :=
  match construction_payloads Dev 5 (paying who) with Ok r => r | _ => {| cyp_unsigned_transaction := ""; cyp_payloads := [] |} end.
Lemma built_as_asked_witness :
  (∃ r, construction_payloads Dev 5 (paying demo_address) = Ok r) ∧
  ∃ tx, proto_from_hex (cyp_unsigned_transaction (built_for demo_address)) = Ok tx ∧ tx_outputs tx = [Output_new demo_address 10] ∧
    tx_inputs tx = [to_input coin].
Proof.
destruct (built_as_asked (claws := toy_crypto_laws) (tx_laws := ser_proto_laws Transaction) Dev 5 (paying demo_address)) as [Hans Hok].
split.
- apply (Hans meta [(demo_kp_address, coin)] [[{| spl_address := Some (aci_address (account demo_kp_address));
    spl_account_identifier := Some (account demo_kp_address); spl_hex_bytes := hex_encode (repeat Byte.x07 32);
    spl_signature_type := Some RosettaSignatureType_ECDSA |}]; []]).
  + reflexivity.
  + reflexivity.
  + reflexivity.
  + constructor; [|constructor; [|constructor]]; do 2 eexists; (split; [vm_compute; reflexivity|]).
    * right. vm_compute. by eexists.
    * left. lia.
  + vm_compute. reflexivity.
- destruct (Hok (built_for demo_address)) as (m & entries & tx & Hm & He & Htx & Ho & Hi & _); [vm_compute; reflexivity|].
  exists tx. split; [exact Htx|]. assert (m = meta) as -> by (symmetry; exact (f_equal (default meta) Hm)).
  assert (mapR addressed (cmm_utxos meta) = Ok (E := ErrorInfo) [(demo_kp_address, coin)]) as E by reflexivity. assert (entries = [(demo_kp_address, coin)]) as -> by congruence.
  split; [rewrite Ho; vm_compute; reflexivity|rewrite Hi; vm_compute; reflexivity].
Defined.

(** The owner signs the payment; a signature for another payload is not used. *)
Definition signature_for (payload sig : bytes) : RosettaSignature :=
  {| rsg_signing_payload := {| spl_address := None; spl_account_identifier := None; spl_hex_bytes := hex_encode payload; spl_signature_type := None |};
     rsg_public_key := {| rpk_hex_bytes := hex_encode [Byte.x01]; rpk_curve_type := CurveType_SECP256K1 |};
     rsg_signature_type := RosettaSignatureType_ECDSA; rsg_hex_bytes := hex_encode sig |}.
Definition signatures : list RosettaSignature :=
  [signature_for (repeat Byte.x07 32) [Byte.x02]; signature_for (repeat Byte.x08 32) [Byte.x03]; signature_for (repeat Byte.x07 32) [Byte.x01]].
Definition combining (who : Address) : ConstructionCombineRequest :=
  {| ccq_network_identifier := own_network Dev; ccq_unsigned_transaction := cyp_unsigned_transaction (built_for who); ccq_signatures := signatures |}.
Definition signed_for (who : Address) : ConstructionCombineResponse :=
  match construction_combine Dev (combining who) with Ok r => r | _ => {| ccp_signed_transaction := "" |} end.
Lemma combined_where_signed_witness :
  ∃ tx', proto_from_hex (ccp_signed_transaction (signed_for demo_address)) = Ok tx' ∧ (length <$> (i_proof <$> tx_inputs tx')) = [2%nat].
Proof.
destruct (combined_where_signed (claws := toy_crypto_laws) (tx_laws := ser_proto_laws Transaction) Dev (combining demo_address) (signed_for demo_address))
  as (tx & tx' & _ & Htx' & _).
- vm_compute. reflexivity.
- exists tx'. split; [exact Htx'|]. vm_compute in Htx'. injection Htx' as <-. reflexivity.
Defined.
Lemma recipients_not_signed_witness :
  cyp_payloads (built_for demo_address) = cyp_payloads (built_for thief) ∧
  ∃ tx1 tx2, proto_from_hex (ccp_signed_transaction (signed_for demo_address)) = Ok tx1 ∧
    proto_from_hex (ccp_signed_transaction (signed_for thief)) = Ok tx2 ∧ tx_inputs tx1 = tx_inputs tx2 ∧
    tx_outputs tx1 = [Output_new demo_address 10] ∧ tx_outputs tx2 = [Output_new thief 10].
Proof.
destruct (recipients_not_signed (claws := toy_crypto_laws) (tx_laws := ser_proto_laws Transaction) Dev 5 (paying demo_address) (paying thief)
  (built_for demo_address) (built_for thief)) as [Hp Hc].
- vm_compute. reflexivity.
- vm_compute. reflexivity.
- reflexivity.
- vm_compute. reflexivity.
- split; [exact Hp|]. destruct (Hc (own_network Dev) signatures (signed_for demo_address) (signed_for thief)) as (tx1 & tx2 & H1 & H2 & Hi & Ho1 & Ho2).
  + vm_compute. reflexivity.
  + vm_compute. reflexivity.
  + exists tx1, tx2. split; [exact H1|]. split; [exact H2|]. split; [exact Hi|].
    split; [rewrite Ho1; vm_compute; reflexivity|rewrite Ho2; vm_compute; reflexivity].
Defined.

(** A request for the payloads on another network. *)
Definition asks_payloads {Q A} (e : Endpoint Q A) : string → string + Q :=
  match e in Endpoint Q A return string → string + Q with
  | EPayloads => λ _, inr {| cyq_network_identifier := own_network Test; cyq_operations := []; cyq_metadata := None; cyq_public_keys := None |}
  | _ => λ _, inl "not this endpoint"
  end.
Definition quiet : RosettaState := {| ro_node := HandlerDemo.node_state; ro_blocks := empty_blocks |}.
Lemma foreign_network_refused_witness :
  ∃ x, handle_warp_request Dev 5 (λ _, Panic) (@asks_payloads) (λ _ _ _ _, "answer") "/construction/payloads" [] quiet =
    (Ok {| rp_status := 500; rp_body := inl x |}, quiet) ∧ rer_code x = InvalidNetworkEnvironment.
Proof.
apply (foreign_network_refused Dev 5 (λ _, Panic) (@asks_payloads) (λ _ _ _ _, "answer") EPayloads "/construction/payloads" []
  {| cyq_network_identifier := own_network Test; cyq_operations := []; cyq_metadata := None; cyq_public_keys := None |} (own_network Test) quiet).
- reflexivity.
- reflexivity.
- reflexivity.
- reflexivity.
- discriminate.
Defined.
End RosettaDemo.
